(* ===== verification/_CoqProject ===== *)
-Q . S2P
Prelude.v
PyDict.v
PyBytes.v
ReticulumFraming.v
PrivateFraming.v
Base64.v
Sha256.v
PyValue.v
Json.v
JsonFacts.v
JsonBytes.v
Database.v
Sessions.v
SessionFacts.v
Call.v
CallInvariant.v
CallPreserve.v
CallSpec.v
CallTheorems.v
CallEffects.v
Authorization.v
AttachFacts.v
Protocol.v
Rpc.v
Connection.v
ConnectionFacts.v
Server.v
ServerFacts.v
Admission.v
QortalIdentity.v
QortalFacts.v
GroupAccess.v
GroupFacts.v
AuthService.v
AuthFacts.v
PrivateService.v
PrivateFacts.v
FileStore.v
FileFacts.v
FileOps.v
FileTheorems.v
NativeFiles.v
NativeFacts.v
FileHandler.v
HandlerFacts.v
PyNumber.v
NativeServer.v
NativePlane.v
Config.v
ConfigFacts.v
Writer.v
AppService.v
QuicServer.v
QuicFacts.v
Backup.v
Deployment.v
Locks.v
Readiness.v
Certificates.v
Lifecycle.v
Main.v
NativeProcess.v
Migration.v
Logging.v
