(* ===== verification/Prelude.v ===== *)
(** * A verification of the Q-App backend

    The program under [src/src/qapp_backend/] serves Q-App clients: it speaks
    a framed protocol over Reticulum links, keeps application sessions in
    SQLite, proves Qortal identities, checks group membership with Qortal
    Cores, runs group calls, stores encrypted files and hands sessions over to
    a private QUIC transport.  This library models those parts as executable
    definitions and proves what makes them correct.

    ** Parts, files and sources

    Foundations
    - [Prelude]: exceptions, results, the state-and-exception monad [M] in
      which every procedure is written (a raised exception keeps the state
      reached), weakest preconditions, [preserves] and [moves] with their
      tactics and hint database [py].
    - [PyDict], [PyBytes], [PyValue]: ordered dictionaries, bytes and strings
      (UTF-8 byte strings), dynamic values.  [Base64], [Sha256], [Json],
      [JsonFacts], [JsonBytes]: the parts of the Python library the program
      uses, with their round trips.

    Wire formats
    - [ReticulumFraming]: [reticulum/framing.py], frames and their parser.
    - [PrivateFraming]: [private_transport/framing.py], with a reference parser
      of whole streams.
    - [Protocol]: [reticulum/protocol.py], control messages, DATA envelopes,
      RPC requests.  [Rpc]: [reticulum/rpc.py], the request router.

    Sessions and the server
    - [Database]: [storage/database.py], [storage/models.py].
    - [Sessions], [SessionFacts]: [reticulum/sessions.py], session objects in
      a heap shared by all their holders, and the session manager.
    - [Connection], [ConnectionFacts]: [reticulum/connection.py], one physical
      link with its outgoing queue, acknowledgements and timers.
    - [Server], [ServerFacts], [Admission]: [reticulum/server.py], links,
      admission, routing, disconnects, expiry, maintenance.
    - [Lifecycle]: the rest of [reticulum/server.py]: registration, the
      node's identity, start-up, announce and maintenance timers, shutdown.

    Identity and access
    - [QortalIdentity], [QortalFacts]: [auth/qortal_identity.py].
    - [GroupAccess], [GroupFacts]: [auth/group_access.py].
    - [AuthService], [AuthFacts]: [auth/service.py], on the server state.

    Private transport
    - [Authorization], [AttachFacts]: [private_transport/authorization.py],
      one-time attach tokens.
    - [PrivateService], [PrivateFacts]: [private_transport/service.py] and
      [private_transport/reachability.py]: bootstrap, attachment, messages.
    - [NativeServer], [NativePlane]: [private_transport/native_server.py], the
      control plane of the native process: reader, dispatch, attachment.
    - [QuicServer], [QuicFacts]: [private_transport/quic_server.py], the QUIC
      listener: streams, replies, timers, attachment, admission.
    - [NativeProcess]: [start] and [stop] of [private_transport/native_server.py],
      the child process with its sockets and reader.
    - [Certificates]: [ensure_transport_certificate] and the generation of a
      development certificate in [private_transport/service.py].

    Calls
    - [Call], [CallInvariant], [CallPreserve], [CallSpec], [CallTheorems],
      [CallEffects]: [call/service.py], rooms, moderation, screen sharing,
      policy files, timers, delivery.

    Files
    - [FileStore], [FileFacts], [FileOps], [FileTheorems]: [files.py], the
      store of encrypted uploads.
    - [NativeFiles], [NativeFacts]: [private_transport/native_files.py], the
      leases under which the native data plane writes chunks itself.
    - [FileHandler], [HandlerFacts]: the request handler, worker pools and
      cleanup pass of [install_files] in [files.py].
    - [Locks]: [FileStore.file_lock], threads and processes interleaved at every
      step.  [Migration]: opening an index, of an older version too.

    Process
    - [PyNumber], [Config], [ConfigFacts]: [config.py], fields, coercion,
      validation, precedence of environment, document and defaults.
    - [Writer]: [reticulum/writer.py], bounded cancellable writes by worker
      threads, as interleaved events.
    - [AppService]: [app/service.py], the handlers of the reference application.
    - [Backup]: [storage/backup.py], verified snapshots of the database.
    - [Deployment]: [deployment.py], the separation of local storage from a
      Docker installation.
    - [Readiness]: [readiness.py], markers that name a running process.
    - [Main]: [main.py] and [instance_lock.py], one invocation with its exit
      status, and the lock of the deployment.  [Logging]: [logging.py].

    ** Interfaces

    Components meet at classes: [Sessions.Transport] is what a session needs
    to send, [Connection.ConnStore] with its laws where a connection lives in a
    larger state, [ConnectionFacts.CallbacksOk], [ServerFacts.HandlersRespect]
    and [Admission.HandlersAdmit] what applications may do, [AuthService.HasAuth]
    and [PrivateService.HasPrivate], [FileHandler.HasFiles],
    [NativeServer.HasNative], [QuicServer.HasQuic] where a service's state is.
    The handlers a transport calls are arbitrary procedures under a named
    condition, which the file handler and the echo handler discharge.  What the code
    takes from outside is a class too: [QortalIdentity.Unicode] and [Crypto]
    (case tables, RIPEMD-160, Ed25519), [GroupAccess.World] (clock, Core
    answers, thread completion), [Call.P256] (key checks), [PrivateService.IpAddress],
    [Config.UrlParse] and [Config.Repr], [QuicServer.QuicConnection] (aioquic),
    [Backup.Sqlite], [Certificates.X509], [Lifecycle.Reticulum].
    Each is instantiated in the examples that accompany the theorems.

    ** What the theorems show

    - Framing and envelopes: exact recovery of frames for every chunking,
      equality of the incremental parser with the reference parser,
      termination, bounds, round trips of envelopes.
    - Sessions: reachable managers are well formed, a session survives a
      restart, the duplicate filter is the sequence of last ids, expiry removes
      exactly what is due, a rotated token replaces the old one.
    - Server: queues of all connections stay within their limits, admission
      within its own, a remembered message is never handled twice; an RPC
      handler cannot make the dispatcher raise or exceed the response limit.
    - Identity: an accepted proof was signed for an outstanding, unexpired
      challenge, which is then gone; authorization, authentication and
      revalidation fail closed, under any interleaving of the checking threads.
    - Private transport: a token goes only to an entitled session, is accepted
      at most once, for that session, and no more after the session ended;
      issuing is rate limited.
    - Calls: the invariant of rooms, bindings, timers and policy files holds
      in every reachable state, the service refines an abstract membership
      contract, removal takes effect and lasts, rooms expire.
    - Files: index and disk agree in every reachable state whatever I/O
      failed, quotas hold, uploads come back byte for byte, only the owner and
      expiry change a file; a native commit succeeds only under the latest
      lease and keeps index and disk in agreement.
    - File requests reach the store only for an authenticated, unexpired,
      attached and authorized session, whatever other threads do meanwhile; no
      path loses or duplicates a slot of the worker pools.
    - Transports: every session attached to the native process is attached
      through a registered connection, and the end of the control connection
      detaches all; a QUIC connection stays within its limits, cannot act
      after a rejected attach, and releases its session when it ends.
    - Writer: the bytes of a stream are a prefix of the frames in the order of
      the calls, whatever fails or is cancelled.
    - Configuration: what loads is typed, has the right precedence and satisfies
      what the components rely on, whatever order the fields are visited in.
    - Backups: no file is ever overwritten and only verified snapshots become
      visible; local storage never overlaps a reserved installation.
    - File locks: at most one call is in its body for each lock file, an entry
      in use is never replaced, and calls that are let run all come to their end.
    - Life of the process: a marker is accepted exactly while its process lives
      and runs; the node is ready only once everything is up, not after a failed
      start-up or a shutdown, and keeps its destination over restarts; a server is
      built only with a valid configuration, allowed storage and the lock held,
      which is released on every path.
    - Certificates are used only when they match their key, the time and the
      server's name, and are written in pairs; the native process is started or
      leaves nothing behind; log lines cannot forge events; the migration keeps
      every upload.
    - Findings, where the code does not do what it means to, are theorems about
      concrete states: [CallEffects.CallEff.reauthentication_defeats_removal],
      [AuthFacts.AuthThm.Demo.revocation_lost_on_backpressure],
      [NativePlane.NativePlane.Demo.repeated_message_loses_answer],
      [QuicFacts.QuicThm.Demo.failed_connection_attaches],
      [Lifecycle.Lifecycle.Demo.failed_maintenance_is_the_last] and
      [unwritten_identity_is_fatal], [Main.Main.Demo.unknown_log_level],
      [Certificates.Certificates.Demo.foreign_certificate_removed],
      [NativeProcess.NativeProcess.Demo.unread_child_left],
      [Migration.Migration.Demo.interrupted_migration_hides_uploads].

    ** Bounds and fuel

    Loops over the structure of their data are structural.  Fuel appears in the
    frame parsers (the length of the buffer: every iteration removes a header,
    [ReticulumFraming.Reticulum.loop_fuel], [loop_ends]), in JSON parsing (the
    length of the text), in decimal printing (the binary logarithm) and in
    UTF-8 validation (the length); the round-trip theorems show it suffices.
    The waiting loop of [GroupAccess.authorize] recurses over what other
    threads do meanwhile; [GroupFacts] has the interleaving semantics.
    Integers are unbounded as in Python; times are integers of microseconds.

    ** What is not modelled

    Floats other than as literals (times are exact), Python's recursion limit
    and the 4300-digit limit of integer printing; SQLite failures other than a
    closed connection (in the database of sessions) and a failing statement (in
    the index of files); what a scheduled coroutine does; the access modes of
    files; of what the process prints, the text of exceptions; the order of
    commands [argparse] refuses.  Timers are callbacks that may run late, worker
    pools are queues, the writer of a link and system calls are scripts of
    outcomes.  Numbers of the configuration are exact decimals; address and URL
    parsing are parameters.  Reticulum, aioquic, SQLite, X.509, Ed25519 and the
    processes of the machine are parameters.  The package interfaces only
    re-export names; the Go programs (media relay, native data plane, network
    sidecar) and the manual test scripts are left out: the scripts drive a
    running backend over the network and decide by what they observe there. *)

From stdpp Require Import prelude strings list gmap.
From Stdlib Require Import ZArith Lia.

Open Scope Z_scope.

(** ** Python exceptions

    One constructor per exception class the modelled code raises or catches;
    a message is kept where the class carries one. *)

Inductive exn :=
| ValueError (msg : string)
| TypeError (msg : string)
| KeyError (key : string)
| IndexError
| RuntimeError (msg : string)
| OSError
| StructError
| UnicodeError
| BinasciiError
| JSONDecodeError
| ProtocolError (msg : string)
| BackpressureError (msg : string)
| ConnectionClosedError (msg : string)
| FramingError (msg : string)
| AttachRejected
| BootstrapRateLimited
| FileError (code : string)
| GroupAccessDenied
| GroupAccessUnavailable
| ResponseTooLarge
| ReachabilityUnavailable
| OverflowError
| TimeoutError (msg : string)
| ConnectionError (msg : string)
| QueueFull
| InstanceLockError
| InstanceAlreadyRunningError.

#[export] Instance exn_eq_dec : EqDecision exn.
Proof. solve_decision. Defined.

(** [except ValueError]: the subclasses the code base declares or the standard
    library documents. *)
Definition is_ValueError (e : exn) : bool :=
  match e with
  | ValueError _ | UnicodeError | BinasciiError | JSONDecodeError
  | FramingError _ | AttachRejected | BootstrapRateLimited | FileError _ => true
  | _ => false
  end.

(** ** Results and the state-and-exception monad

    [res A] is the outcome of a Python expression; [M S A] is a Python
    procedure over a mutable state [S].  A raised exception keeps the state
    reached so far: Python does not roll back. *)

Inductive res (A : Type) :=
| Ok (a : A)
| Raise (e : exn).
Arguments Ok {A} a.
Arguments Raise {A} e.

Definition M (S A : Type) : Type := S -> S * res A.

Definition rbind {A B} (c : res A) (k : A -> res B) : res B :=
  match c with Ok a => k a | Raise e => Raise e end.

Definition ret {S A} (a : A) : M S A := fun s => (s, Ok a).
Definition raise {S A} (e : exn) : M S A := fun s => (s, Raise e).
Definition bind {S A B} (c : M S A) (k : A -> M S B) : M S B :=
  fun s => match c s with
           | (s', Ok a) => k a s'
           | (s', Raise e) => (s', Raise e)
           end.
Definition get {S} : M S S := fun s => (s, Ok s).
Definition gets {S A} (f : S -> A) : M S A := fun s => (s, Ok (f s)).
Definition put {S} (s' : S) : M S unit := fun _ => (s', Ok tt).
Definition modify {S} (f : S -> S) : M S unit := fun s => (f s, Ok tt).
Definition lift {S A} (r : res A) : M S A := fun s => (s, r).
Definition guard_or {S} (b : bool) (e : exn) : M S unit :=
  if b then ret tt else raise e.

(** [try: c  except <matching>: h(e)]. *)
Definition try_catch {S A} (c : M S A) (matching : exn -> bool) (h : exn -> M S A) : M S A :=
  fun s => match c s with
           | (s', Ok a) => (s', Ok a)
           | (s', Raise e) => if matching e then h e s' else (s', Raise e)
           end.

(** [try: c  finally: last]. *)
Definition finally {S A} (c : M S A) (last : M S unit) : M S A :=
  fun s => let '(s1, r) := c s in
           match last s1 with
           | (s2, Ok _) => (s2, r)
           | (s2, Raise e) => (s2, Raise e)
           end.

(** Running a procedure on a component of a larger state. *)
Definition zoom {S T A} (view : S -> T) (upd : T -> S -> S) (c : M T A) : M S A :=
  fun s => let '(t', r) := c (view s) in (upd t' s, r).

Fixpoint iterM {S A} (f : A -> M S unit) (l : list A) : M S unit :=
  match l with
  | [] => ret tt
  | a :: l' => bind (f a) (fun _ => iterM f l')
  end.

Declare Scope py_scope.
Delimit Scope py_scope with py.

Notation "'let!' x := c 'in' k" := (bind c (fun x => k))
  (at level 200, x name, c at level 200, k at level 200) : py_scope.
Notation "'let!' ' p := c 'in' k" := (bind c (fun x => match x with p => k end))
  (at level 200, p pattern, c at level 200, k at level 200) : py_scope.
Notation "c ';!' k" := (bind c (fun _ => k))
  (at level 199, right associativity) : py_scope.
Notation "'let?' x := c 'in' k" := (rbind c (fun x => k))
  (at level 200, x name, c at level 200, k at level 200) : py_scope.
Notation "'let?' ' p := c 'in' k" := (rbind c (fun x => match x with p => k end))
  (at level 200, p pattern, c at level 200, k at level 200) : py_scope.
Open Scope py_scope.

(** The state and the outcome of a run. *)
Definition run_state {S A} (c : M S A) (s : S) : S := fst (c s).
Definition run_result {S A} (c : M S A) (s : S) : res A := snd (c s).

Definition is_ok {A} (r : res A) : bool := match r with Ok _ => true | Raise _ => false end.

(** Unfold the plumbing of the monad. *)
Ltac munfold := unfold bind, gets, get, put, modify, lift, guard_or, ret, raise, zoom, try_catch, rbind in *.

(** One step of a sequence. *)
Lemma bind_ok {S A B} (c : M S A) (k : A -> M S B) s s' a : c s = (s', Ok a) -> bind c k s = k a s'.
Proof. intros E. unfold bind. by rewrite E. Qed.

Lemma bind_raise {S A B} (c : M S A) (k : A -> M S B) s s' e : c s = (s', Raise e) -> bind c k s = (s', Raise e).
Proof. intros E. unfold bind. by rewrite E. Qed.

(** *** Weakest preconditions *)

Definition wp {S A} (c : M S A) (Q : res A -> S -> Prop) (s : S) : Prop :=
  Q (snd (c s)) (fst (c s)).

Create HintDb py discriminated.
#[export] Hint Constants Opaque : py.

Section wp_rules.
Context {S : Type}.

Lemma wp_mono {A} (c : M S A) (Q Q' : res A -> S -> Prop) s :
  wp c Q s -> (forall r s', Q r s' -> Q' r s') -> wp c Q' s.
Proof. unfold wp. eauto. Qed.

Lemma wp_ret {A} (a : A) (Q : res A -> S -> Prop) s : wp (ret a) Q s <-> Q (Ok a) s.
Proof. done. Qed.

Lemma wp_raise {A} e (Q : res A -> S -> Prop) s : wp (raise e) Q s <-> Q (Raise e) s.
Proof. done. Qed.

Lemma wp_bind {A B} (c : M S A) (k : A -> M S B) Q s :
  wp (bind c k) Q s <->
  wp c (fun r s' => match r with Ok a => wp (k a) Q s' | Raise e => Q (Raise e) s' end) s.
Proof. unfold wp, bind. by destruct (c s) as [s' [a|e]]. Qed.

Lemma wp_gets {A} (f : S -> A) Q s : wp (gets f) Q s <-> Q (Ok (f s)) s.
Proof. done. Qed.

Lemma wp_get (Q : res S -> S -> Prop) s : wp get Q s <-> Q (Ok s) s.
Proof. done. Qed.

Lemma wp_modify (f : S -> S) Q s : wp (modify f) Q s <-> Q (Ok tt) (f s).
Proof. done. Qed.

Lemma wp_lift {A} (r : res A) (Q : res A -> S -> Prop) s : wp (lift r) Q s <-> Q r s.
Proof. done. Qed.

Lemma wp_guard b e (Q : res unit -> S -> Prop) s :
  wp (guard_or b e) Q s <-> if b then Q (Ok tt) s else Q (Raise e) s.
Proof. by destruct b. Qed.

Lemma wp_try {A} (c : M S A) p h (Q : res A -> S -> Prop) s :
  wp (try_catch c p h) Q s <->
  wp c (fun r s' => match r with
                    | Ok a => Q (Ok a) s'
                    | Raise e => if p e then wp (h e) Q s' else Q (Raise e) s'
                    end) s.
Proof. unfold wp, try_catch. destruct (c s) as [s' [a|e]]; simpl; [done|]. by destruct (p e). Qed.

Lemma wp_zoom {T A} (view : S -> T) upd (c : M T A) (Q : res A -> S -> Prop) s :
  wp (zoom view upd c) Q s <-> wp c (fun r t => Q r (upd t s)) (view s).
Proof. unfold wp, zoom. by destruct (c (view s)). Qed.
End wp_rules.

#[export] Hint Rewrite @wp_ret @wp_raise @wp_bind @wp_gets @wp_get @wp_modify
  @wp_lift @wp_guard @wp_try @wp_zoom : wp.

(** [preserves I c]: the procedure keeps the invariant, whether it returns or
    raises.  The rules below follow the shape of the code. *)
Definition preserves {S A} (I : S -> Prop) (c : M S A) : Prop :=
  forall s, I s -> I (fst (c s)).

Section preserves_rules.
Context {S : Type} (I : S -> Prop).

Lemma preserves_ret {A} (a : A) : preserves I (ret a).
Proof. by intros s. Qed.

Lemma preserves_raise {A} e : preserves I (raise (A := A) e).
Proof. by intros s. Qed.

Lemma preserves_gets {A} (f : S -> A) : preserves I (gets f).
Proof. by intros s. Qed.

Lemma preserves_lift {A} (r : res A) : preserves I (lift r).
Proof. by intros s. Qed.

Lemma preserves_guard b e : preserves I (guard_or b e).
Proof. intros s. by destruct b. Qed.

Lemma preserves_bind {A B} (c : M S A) (k : A -> M S B) :
  preserves I c -> (forall a, preserves I (k a)) -> preserves I (bind c k).
Proof.
  intros Hc Hk s Hs. unfold bind. specialize (Hc s Hs).
  destruct (c s) as [s' [a|e]]; simpl in *; [by apply Hk|done].
Qed.

Lemma preserves_try {A} (c : M S A) p h :
  preserves I c -> (forall e, preserves I (h e)) -> preserves I (try_catch c p h).
Proof.
  intros Hc Hh s Hs. unfold try_catch. specialize (Hc s Hs).
  destruct (c s) as [s' [a|e]]; cbn [fst] in *; [done|]. destruct (p e); [by apply Hh|done].
Qed.

Lemma preserves_iterM {A} (f : A -> M S unit) l :
  (forall a, preserves I (f a)) -> preserves I (iterM f l).
Proof. intros Hf. induction l; simpl; [by intros s|]. by apply preserves_bind. Qed.
End preserves_rules.

#[export] Hint Resolve preserves_ret preserves_raise preserves_gets preserves_lift
  preserves_guard preserves_bind preserves_try preserves_iterM : py.

(** [moves R c]: every run of the procedure, returning or raising, relates the
    state before to the state after; for a preorder the rules follow the code. *)
Definition moves {S A} (R : S -> S -> Prop) (c : M S A) : Prop := forall s, R s (fst (c s)).

Section moves_rules.
Context {S : Type} (R : S -> S -> Prop) `{!PreOrder R}.

Lemma moves_still {A} (c : M S A) : (forall s, fst (c s) = s) -> moves R c.
Proof. intros H s. by rewrite H. Qed.

Lemma moves_modify f : (forall s, R s (f s)) -> moves R (modify f).
Proof. intros H s. apply H. Qed.

Lemma moves_bind {A B} (c : M S A) (k : A -> M S B) :
  moves R c -> (forall a, moves R (k a)) -> moves R (bind c k).
Proof.
  intros Hc Hk s. unfold bind. specialize (Hc s). destruct (c s) as [s' [a|e]]; cbn [fst] in *; [|done].
  etransitivity; [exact Hc|apply Hk].
Qed.

Lemma moves_try {A} (c : M S A) p h : moves R c -> (forall e, moves R (h e)) -> moves R (try_catch c p h).
Proof.
  intros Hc Hh s. unfold try_catch. specialize (Hc s). destruct (c s) as [s' [a|e]]; cbn [fst] in *; [done|].
  destruct (p e); [|done]. etransitivity; [exact Hc|apply Hh].
Qed.

Lemma moves_finally {A} (c : M S A) last : moves R c -> moves R last -> moves R (finally c last).
Proof.
  intros Hc Hl s. unfold finally. specialize (Hc s). destruct (c s) as [s1 r]. specialize (Hl s1).
  destruct (last s1) as [s2 [[]|e]]; by etransitivity.
Qed.

Lemma moves_iterM {A} (f : A -> M S unit) l : (forall a, moves R (f a)) -> moves R (iterM f l).
Proof.
  intros Hf. induction l as [|a l IH]; cbn [iterM]; [by apply moves_still|]. by apply moves_bind.
Qed.
End moves_rules.

(** [f] has the same value before and after. *)
Definition stays {S T} (f : S -> T) (s s' : S) : Prop := f s' = f s.

#[export] Instance stays_preorder {S T} (f : S -> T) : PreOrder (stays f).
Proof. split; [by intros s|]. intros s1 s2 s3 E1 E2. by etransitivity. Qed.

(** Split a procedure along its structure; what is left are its primitive
    steps. *)
Ltac moves_step :=
  match goal with
  | |- moves _ (bind _ _) => apply moves_bind; [apply _| |intros ?]
  | |- moves _ (ret _) => apply moves_still; [apply _|done]
  | |- moves _ (raise _) => apply moves_still; [apply _|done]
  | |- moves _ (gets _) => apply moves_still; [apply _|done]
  | |- moves _ get => apply moves_still; [apply _|done]
  | |- moves _ (lift _) => apply moves_still; [apply _|done]
  | |- moves _ (modify _) => apply moves_modify; intros ?
  | |- moves _ (iterM _ _) => apply moves_iterM; [apply _|intros ?]
  | |- moves _ (try_catch _ _ _) => apply moves_try; [apply _| |intros ?]
  | |- moves _ (finally _ _) => apply moves_finally; [apply _| |]
  | |- moves _ (match ?x with _ => _ end) => destruct x
  end.
