(* ===== verification/PyDict.v ===== *)
(** * Python dictionaries with their insertion order

    A [dict] or [OrderedDict] whose iteration order the code observes is an
    association list: an existing key is updated in place, a new key goes to
    the end, exactly as CPython orders them.  Dictionaries that are only read
    and written by key are stdpp [gmap]s in the other files. *)

From stdpp Require Import prelude list gmap.
From Stdlib Require Import ZArith Lia.
From S2P Require Import Prelude.

Abbreviation odict K V := (list (K * V)).

Section odict.
Context {K V : Type} `{EqDecision K}.
Implicit Types (d : odict K V) (k : K) (v : V).

(** [d.get(k)] *)
Fixpoint od_get (k : K) (d : odict K V) : option V :=
  match d with
  | [] => None
  | (k', v) :: d' => if decide (k' = k) then Some v else od_get k d'
  end.

(** [k in d] *)
Definition od_mem (k : K) (d : odict K V) : bool :=
  match od_get k d with Some _ => true | None => false end.

(** [d[k] = v] *)
Fixpoint od_set (k : K) (v : V) (d : odict K V) : odict K V :=
  match d with
  | [] => [(k, v)]
  | (k', v') :: d' => if decide (k' = k) then (k, v) :: d' else (k', v') :: od_set k v d'
  end.

(** [d.pop(k, None)] and [del d[k]], as state changes *)
Fixpoint od_pop (k : K) (d : odict K V) : odict K V :=
  match d with
  | [] => []
  | (k', v) :: d' => if decide (k' = k) then od_pop k d' else (k', v) :: od_pop k d'
  end.

Definition od_keys (d : odict K V) : list K := map fst d.
Definition od_values (d : odict K V) : list V := map snd d.

(** [OrderedDict.popitem(last=False)], as a state change *)
Definition od_popfirst (d : odict K V) : odict K V := tail d.

(** [OrderedDict.move_to_end(k)] *)
Definition od_move_to_end (k : K) (d : odict K V) : odict K V :=
  match od_get k d with Some v => od_pop k d ++ [(k, v)] | None => d end.

(** [while len(d) > limit: d.popitem(last=False)] *)
Fixpoint od_trim (limit : nat) (d : odict K V) : odict K V :=
  match d with
  | [] => []
  | _ :: d' => if decide (length d <= limit)%nat then d else od_trim limit d'
  end.

(** Every Python dictionary has distinct keys. *)
Definition od_wf (d : odict K V) : Prop := NoDup (od_keys d).

Lemma od_get_set_eq k v d : od_get k (od_set k v d) = Some v.
Proof.
  induction d as [|[k' v'] d IH]; simpl; repeat (case_decide; simpl); congruence.
Qed.

Lemma od_get_set_ne k k' v d : k ≠ k' -> od_get k' (od_set k v d) = od_get k' d.
Proof.
  intros Hne. induction d as [|[k1 v1] d IH]; simpl; repeat (case_decide; simpl); congruence.
Qed.

Lemma od_get_set k k' v d :
  od_get k' (od_set k v d) = if decide (k = k') then Some v else od_get k' d.
Proof. case_decide; subst; auto using od_get_set_eq, od_get_set_ne. Qed.

Lemma od_get_pop_eq k d : od_get k (od_pop k d) = None.
Proof. induction d as [|[k' v'] d IH]; simpl; repeat (case_decide; simpl); congruence. Qed.

Lemma od_get_pop_ne k k' d : k ≠ k' -> od_get k' (od_pop k d) = od_get k' d.
Proof.
  intros Hne. induction d as [|[k1 v1] d IH]; simpl; repeat (case_decide; simpl); congruence.
Qed.

Lemma od_get_pop k k' d :
  od_get k' (od_pop k d) = if decide (k = k') then None else od_get k' d.
Proof. case_decide; subst; auto using od_get_pop_eq, od_get_pop_ne. Qed.

Lemma od_get_app k d1 d2 :
  od_get k (d1 ++ d2) = match od_get k d1 with Some v => Some v | None => od_get k d2 end.
Proof. induction d1 as [|[k' v'] d1 IH]; simpl; [done|]. by case_decide. Qed.

Lemma od_get_Some_elem k v d : od_get k d = Some v -> (k, v) ∈ d.
Proof.
  induction d as [|[k' v'] d IH]; simpl; [done|].
  case_decide; intros; simplify_eq; [left|right; auto].
Qed.

Lemma od_get_elem k v d : od_wf d -> (k, v) ∈ d -> od_get k d = Some v.
Proof.
  unfold od_wf. induction d as [|[k' v'] d IH]; simpl; intros Hnd Hin.
  { by apply elem_of_nil in Hin. }
  apply NoDup_cons in Hnd as [Hni Hnd].
  apply elem_of_cons in Hin as [[=]|Hin]; simplify_eq; case_decide; try congruence; auto.
  subst. destruct Hni. apply list_elem_of_fmap. by exists (k, v).
Qed.

Lemma od_get_None k d : od_get k d = None <-> k ∉ od_keys d.
Proof.
  induction d as [|[k' v'] d IH]; simpl.
  { split; [intros _ []%elem_of_nil|done]. }
  rewrite elem_of_cons. case_decide as E; [subst; split; [done|tauto]|].
  rewrite IH. split; [intros ? [?|?]; congruence|tauto].
Qed.

Lemma od_get_is_Some k d : is_Some (od_get k d) <-> k ∈ od_keys d.
Proof.
  rewrite <- not_eq_None_Some, od_get_None.
  destruct (decide (k ∈ od_keys d)); tauto.
Qed.

Lemma od_mem_spec k d : od_mem k d = true <-> is_Some (od_get k d).
Proof. unfold od_mem. destruct (od_get k d); naive_solver. Qed.

Lemma od_keys_set_mem k v d : is_Some (od_get k d) -> od_keys (od_set k v d) = od_keys d.
Proof.
  induction d as [|[k' v'] d IH]; simpl; [intros [? ?]; done|].
  case_decide; simpl; intros Hs; subst; f_equal; auto.
Qed.

Lemma od_keys_set_new k v d : od_get k d = None -> od_set k v d = d ++ [(k, v)].
Proof.
  induction d as [|[k' v'] d IH]; simpl; [done|].
  case_decide; simpl; intros Hs; [done|]. f_equal; auto.
Qed.

Lemma od_pop_sublist k d : od_pop k d `sublist_of` d.
Proof. induction d as [|[k' v'] d IH]; simpl; [done|]. case_decide; by constructor. Qed.

Lemma od_keys_sublist d1 d2 : d1 `sublist_of` d2 -> od_keys d1 `sublist_of` od_keys d2.
Proof. unfold od_keys. induction 1; simpl; by constructor. Qed.

Lemma od_wf_sublist d1 d2 : d1 `sublist_of` d2 -> od_wf d2 -> od_wf d1.
Proof. intros H Hwf. eapply sublist_NoDup; [exact Hwf|]. by apply od_keys_sublist. Qed.

Lemma od_wf_nil : od_wf [].
Proof. constructor. Qed.

Lemma od_wf_set k v d : od_wf d -> od_wf (od_set k v d).
Proof.
  unfold od_wf. intros Hwf. destruct (od_get k d) eqn:E.
  - by rewrite od_keys_set_mem.
  - rewrite od_keys_set_new by done. unfold od_keys. rewrite map_app. simpl.
    apply NoDup_app. split; [done|]. split; [|apply NoDup_singleton].
    intros x Hx ->%list_elem_of_singleton. by apply od_get_None in E.
Qed.

Lemma od_wf_pop k d : od_wf d -> od_wf (od_pop k d).
Proof. apply od_wf_sublist, od_pop_sublist. Qed.

Lemma od_length_set_mem k v d : is_Some (od_get k d) -> length (od_set k v d) = length d.
Proof.
  intros H. pose proof (od_keys_set_mem k v d H) as E.
  apply (f_equal length) in E. unfold od_keys in E. by rewrite !length_map in E.
Qed.

Lemma od_length_set_new k v d : od_get k d = None -> length (od_set k v d) = S (length d).
Proof. intros H. rewrite od_keys_set_new by done. rewrite length_app. simpl. lia. Qed.

Lemma od_length_set_le k v d : (length (od_set k v d) <= S (length d))%nat.
Proof.
  destruct (od_get k d) eqn:E; [rewrite od_length_set_mem; eauto|rewrite od_length_set_new; auto].
Qed.

Lemma od_length_pop_le k d : (length (od_pop k d) <= length d)%nat.
Proof. apply sublist_length, od_pop_sublist. Qed.

Lemma od_pop_not_mem k d : od_get k d = None -> od_pop k d = d.
Proof.
  induction d as [|[k' v'] d IH]; simpl; [done|].
  case_decide; [done|]. intros; f_equal; auto.
Qed.

(** [d[k] = v; del d[k]] gives the dictionary back when [k] was new. *)
Lemma od_pop_set_new k v d : od_get k d = None -> od_pop k (od_set k v d) = d.
Proof.
  induction d as [|[k' v'] d IH]; simpl.
  - intros _. by destruct (decide (k = k)).
  - case_decide; simpl; [done|]. intros. case_decide; [done|]. f_equal; auto.
Qed.

Lemma od_set_id k v d : od_get k d = Some v -> od_set k v d = d.
Proof.
  induction d as [|[k' v'] d IH]; simpl; [done|].
  case_decide; intros; simplify_eq; [done|]. f_equal; auto.
Qed.

Lemma od_set_set k v v' d : od_set k v (od_set k v' d) = od_set k v d.
Proof.
  induction d as [|[k1 v1] d IH]; simpl.
  - by destruct (decide (k = k)).
  - case_decide; simpl; case_decide; congruence.
Qed.

Lemma od_pop_set k v d : od_pop k (od_set k v d) = od_pop k d.
Proof.
  induction d as [|[k1 v1] d IH]; simpl.
  - by destruct (decide (k = k)).
  - case_decide; simpl; case_decide; congruence.
Qed.

Lemma od_elem_pop k k' v d : (k', v) ∈ od_pop k d <-> (k', v) ∈ d /\ k' ≠ k.
Proof.
  induction d as [|[k1 v1] d IH]; simpl.
  { split; [intros []%elem_of_nil|intros [[]%elem_of_nil _]]. }
  case_decide; rewrite ?elem_of_cons, ?IH; naive_solver.
Qed.

Lemma od_elem_set k k' v v' d :
  od_wf d -> (k', v') ∈ od_set k v d <-> (k' = k /\ v' = v) \/ (k' ≠ k /\ (k', v') ∈ d).
Proof.
  intros Hwf. split.
  - intros H%(od_get_elem _ _ _ (od_wf_set k v d Hwf)).
    rewrite od_get_set in H. case_decide; simplify_eq; [by left|right].
    split; [done|]. by apply od_get_Some_elem.
  - intros [[-> ->]|[Hne H]]; apply od_get_Some_elem; rewrite od_get_set.
    + by case_decide.
    + case_decide; [congruence|]. by apply od_get_elem.
Qed.

Lemma od_values_elem v d : v ∈ od_values d <-> exists k, (k, v) ∈ d.
Proof.
  unfold od_values. rewrite list_elem_of_fmap. split.
  - intros ([k v'] & -> & H). eauto.
  - intros [k H]. by exists (k, v).
Qed.

Lemma od_trim_suffix limit d : exists d', d = d' ++ od_trim limit d.
Proof.
  induction d as [|x d [d' IH]]; [by exists []|].
  cbn [od_trim]. case_decide; [by exists []|]. exists (x :: d'). by simpl; f_equal.
Qed.

Lemma od_trim_length limit d : length (od_trim limit d) = Nat.min limit (length d).
Proof.
  induction d as [|x d IH]; [simpl; lia|].
  cbn [od_trim]. case_decide; [lia|]. rewrite IH. simpl in *. lia.
Qed.

Lemma od_trim_drop limit d : od_trim limit d = drop (length d - limit) d.
Proof.
  induction d as [|x d IH]; [done|]. cbn [od_trim]. case_decide as Hc.
  - replace (length (x :: d) - limit)%nat with 0%nat by lia. done.
  - rewrite IH. replace (length (x :: d) - limit)%nat with (S (length d - limit)); [done|].
    simpl in *. lia.
Qed.

Lemma od_wf_trim limit d : od_wf d -> od_wf (od_trim limit d).
Proof. rewrite od_trim_drop. apply od_wf_sublist, sublist_drop. Qed.

Lemma od_move_to_end_wf k d : od_wf d -> od_wf (od_move_to_end k d).
Proof.
  intros Hwf. unfold od_move_to_end. destruct (od_get k d) as [v|] eqn:E; [|done].
  rewrite <- (od_keys_set_new k v (od_pop k d)) by apply od_get_pop_eq.
  by apply od_wf_set, od_wf_pop.
Qed.
End odict.

Lemma filter_ext_in {A} (P Q : A -> Prop) `{!forall x, Decision (P x)} `{!forall x, Decision (Q x)} (l : list A) :
  (forall x, x ∈ l -> P x <-> Q x) -> filter P l = filter Q l.
Proof.
  induction l as [|x l IH]; [done|]. intros Hpq.
  assert (filter P l = filter Q l) as E by (apply IH; intros; apply Hpq; by right).
  assert (P x <-> Q x) as Hx by (apply Hpq; by left). destruct (decide (P x)).
  - rewrite !filter_cons_True by tauto. by f_equal.
  - rewrite !filter_cons_False by tauto. done.
Qed.

Lemma od_pop_filter {K V} `{EqDecision K} (k : K) (d : odict K V) : od_pop k d = filter (fun kv => fst kv ≠ k) d.
Proof.
  induction d as [|[k' v] d IH]; [done|]. cbn [od_pop]. case_decide.
  - rewrite filter_cons_False by (simpl; tauto). exact IH.
  - rewrite filter_cons_True by done. by f_equal.
Qed.

Section od_filter.
Context {K V : Type} `{EqDecision K} (P : K * V -> Prop) `{!forall x, Decision (P x)}.

Lemma od_get_filter_eq (d : odict K V) k :
  od_wf d -> od_get k (filter P d) = match od_get k d with
                                     | Some v => if decide (P (k, v)) then Some v else None
                                     | None => None
                                     end.
Proof.
  intros Hwf. assert (od_wf (filter P d)) as Hwf' by (eapply od_wf_sublist; [apply sublist_filter|done]).
  destruct (od_get k d) as [v|] eqn:E.
  - apply od_get_Some_elem in E. case_decide as Hp.
    + apply od_get_elem; [done|]. by apply list_elem_of_filter.
    + apply eq_None_not_Some. intros [v' Hv']. apply od_get_Some_elem, list_elem_of_filter in Hv' as [Hp' Hin].
      pose proof (od_get_elem _ _ _ Hwf E). pose proof (od_get_elem _ _ _ Hwf Hin). by simplify_eq.
  - apply od_get_None. apply od_get_None in E. intros Hin. apply E. revert Hin.
    unfold od_keys. rewrite !list_elem_of_fmap. intros (kv & -> & [_ Hkv]%list_elem_of_filter). eauto.
Qed.

Lemma od_get_filter (d : odict K V) k v : od_wf d -> od_get k (filter P d) = Some v -> od_get k d = Some v.
Proof. intros Hwf. rewrite od_get_filter_eq by done. destruct (od_get k d); [case_decide|]; congruence. Qed.

Lemma od_wf_filter (d : odict K V) : od_wf d -> od_wf (filter P d).
Proof. apply od_wf_sublist, sublist_filter. Qed.
End od_filter.

Lemma od_values_sublist {K V} (d1 d2 : odict K V) : d1 `sublist_of` d2 -> od_values d1 `sublist_of` od_values d2.
Proof. unfold od_values. induction 1; simpl; by constructor. Qed.

Lemma od_values_set_length {K V} `{EqDecision K} (P : V -> Prop) `{!forall x, Decision (P x)} (k : K) v d :
  (length (filter P (od_values (od_set k v d))) <= (if decide (P v) then 1 else 0) + length (filter P (od_values d)))%nat.
Proof.
  unfold od_values. induction d as [|[k' v'] d IH]; cbn [od_set map snd].
  - destruct (decide (P v)); [rewrite filter_cons_True|rewrite filter_cons_False]; done.
  - destruct (decide (k' = k)); cbn [map snd].
    + rewrite (filter_cons P v), (filter_cons P v'). repeat case_decide; cbn [length] in *; lia.
    + rewrite !(filter_cons P v'). repeat case_decide; cbn [length] in *; lia.
Qed.

#[export] Hint Resolve od_wf_nil od_wf_set od_wf_pop od_wf_trim od_move_to_end_wf
  od_wf_filter od_length_pop_le : py.
#[export] Hint Rewrite @od_get_set_eq @od_get_pop_eq : odict.

(** Rewrite dictionary lookups in the goal and the hypotheses. *)
Ltac od_simpl :=
  repeat (progress (rewrite ?od_get_set, ?od_get_pop in *; simplify_eq) || case_decide).
