(* ===== verification/PyBytes.v ===== *)
(** * Python [bytes] and [str]

    [bytes] is a list of [Byte.byte].  A Python [str] is a Rocq [string]
    holding its UTF-8 bytes (lone surrogates as their three-byte form), so
    [s.encode("utf-8")] is a change of type, code-point order is byte order
    and [len(s)] counts the bytes that start a code point.

    Contents: big-endian integers ([struct] and [int.from_bytes]), slices,
    UTF-8 validity, hexadecimal digits and the character-class patterns the
    code matches with [re.fullmatch]. *)

From stdpp Require Import prelude strings list numbers.
From Stdlib Require Import ZArith Lia.
From Stdlib.Strings Require Import Byte.
From S2P Require Import Prelude.

Abbreviation byte := Byte.byte.
Abbreviation bytes := (list Byte.byte).

#[export] Instance byte_eq_dec : EqDecision byte := Byte.byte_eq_dec.

(** ** Bytes as integers *)

Definition byte_val (b : byte) : Z := Z.of_N (Byte.to_N b).

(** [bytes((n,))] for [0 <= n < 256]; the value is reduced modulo 256. *)
Definition byte_of (n : Z) : byte :=
  match Byte.of_N (Z.to_N (n mod 256)) with Some b => b | None => Byte.x00 end.

(** [int.from_bytes(l, "big")] *)
Definition be_decode (l : bytes) : Z := fold_left (fun acc b => acc * 256 + byte_val b) l 0.

(** [n.to_bytes(w, "big")] and [struct.pack] of a [w]-byte unsigned field, for
    [0 <= n < 256 ^ w]. *)
Fixpoint be_encode (w : nat) (n : Z) : bytes :=
  match w with
  | O => []
  | S w' => be_encode w' (n / 256) ++ [byte_of n]
  end.

(** [l[i:j]] with [0 <= i <= j]. *)
Definition slice (i j : nat) (l : bytes) : bytes := take (j - i) (drop i l).

(** ** Strings *)

(** [s.encode("utf-8")] for a string without lone surrogates. *)
Definition str_bytes (s : string) : bytes := String.list_byte_of_string s.
Definition bytes_str (l : bytes) : string := String.string_of_list_byte l.

Definition is_continuation (b : byte) : bool := (128 <=? byte_val b) && (byte_val b <? 192).

(** [len(s)]: the number of code points. *)
Definition py_len (s : string) : Z :=
  Z.of_nat (length (filter (fun b => is_continuation b = false) (str_bytes s))).

(** [s.encode("ascii")] *)
Definition encode_ascii (s : string) : res bytes :=
  if forallb (fun b => byte_val b <? 128) (str_bytes s)
  then Ok (str_bytes s) else Raise UnicodeError.

(** UTF-8 as CPython decodes it: no overlong forms, no surrogates, nothing
    above U+10FFFF. *)
Definition in_range (lo hi : Z) (b : byte) : bool := (lo <=? byte_val b) && (byte_val b <=? hi).

Fixpoint utf8_valid (fuel : nat) (l : bytes) : bool :=
  match fuel with
  | O => false
  | S fuel' =>
    match l with
    | [] => true
    | b0 :: l1 =>
      if byte_val b0 <? 128 then utf8_valid fuel' l1
      else match l1 with
      | [] => false
      | b1 :: l2 =>
        if in_range 194 223 b0 then in_range 128 191 b1 && utf8_valid fuel' l2
        else match l2 with
        | [] => false
        | b2 :: l3 =>
          if in_range 224 239 b0 then
            let lo := if byte_val b0 =? 224 then 160 else 128 in
            let hi := if byte_val b0 =? 237 then 159 else 191 in
            in_range lo hi b1 && in_range 128 191 b2 && utf8_valid fuel' l3
          else match l3 with
          | [] => false
          | b3 :: l4 =>
            if in_range 240 244 b0 then
              let lo := if byte_val b0 =? 240 then 144 else 128 in
              let hi := if byte_val b0 =? 244 then 143 else 191 in
              in_range lo hi b1 && in_range 128 191 b2 && in_range 128 191 b3
              && utf8_valid fuel' l4
            else false
          end
        end
      end
    end
  end.

(** [l.decode("utf-8")] *)
Definition decode_utf8 (l : bytes) : res string :=
  if utf8_valid (S (length l)) l then Ok (bytes_str l) else Raise UnicodeError.

(** [s.encode("utf-8")]: a lone surrogate cannot be encoded. *)
Definition encode_utf8 (s : string) : res bytes :=
  if utf8_valid (S (length (str_bytes s))) (str_bytes s) then Ok (str_bytes s) else Raise UnicodeError.

(** ** Patterns

    Every pattern the code matches with [fullmatch] is a bounded repetition of
    one ASCII character class. *)

Definition char_class := byte -> bool.
Definition is_upper : char_class := in_range 65 90.
Definition is_lower : char_class := in_range 97 122.
Definition is_digit : char_class := in_range 48 57.
Definition is_hex : char_class := fun b => is_digit b || in_range 97 102 b.
Definition is_alnum : char_class := fun b => is_upper b || is_lower b || is_digit b.
Definition is_char (s : string) : char_class :=
  fun b => existsb (Byte.eqb b) (str_bytes s).

(** [re.fullmatch("^[class]{lo,hi}$", s)] *)
Definition fullmatch (c : char_class) (lo hi : nat) (s : string) : bool :=
  let l := str_bytes s in
  (lo <=? length l)%nat && (length l <=? hi)%nat && forallb c l.

(** [l.hex()] *)
Definition hex_digit (n : Z) : byte :=
  if n <? 10 then byte_of (48 + n) else byte_of (87 + n).
Definition hex_of (l : bytes) : string :=
  bytes_str (flat_map (fun b => [hex_digit (byte_val b / 16); hex_digit (byte_val b mod 16)]) l).

(** ** Lemmas *)

Lemma byte_val_range b : 0 <= byte_val b < 256.
Proof.
  unfold byte_val. pose proof (Byte.to_N_bounded b). lia.
Qed.

Lemma byte_of_val b : byte_of (byte_val b) = b.
Proof.
  unfold byte_of. rewrite Z.mod_small by apply byte_val_range.
  unfold byte_val. by rewrite N2Z.id, Byte.of_to_N.
Qed.

Lemma byte_val_of n : byte_val (byte_of n) = n mod 256.
Proof.
  unfold byte_of, byte_val.
  assert (0 <= n mod 256 < 256) as Hr by (apply Z.mod_pos_bound; lia).
  destruct (Byte.of_N (Z.to_N (n mod 256))) eqn:E.
  - apply Byte.to_of_N in E. rewrite E. lia.
  - apply Byte.of_N_None_iff in E. lia.
Qed.

Lemma byte_val_inj b1 b2 : byte_val b1 = byte_val b2 -> b1 = b2.
Proof. intros H. rewrite <- (byte_of_val b1), <- (byte_of_val b2). by rewrite H. Qed.

Lemma length_be_encode w n : length (be_encode w n) = w.
Proof. revert n. induction w; intros n; simpl; [done|]. rewrite length_app, IHw. simpl. lia. Qed.

Lemma be_decode_app l1 l2 :
  be_decode (l1 ++ l2) = be_decode l1 * 256 ^ Z.of_nat (length l2) + be_decode l2.
Proof.
  unfold be_decode. rewrite fold_left_app. generalize (fold_left (fun acc b => acc * 256 + byte_val b) l1 0).
  induction l2 as [|b l2 IH] using rev_ind; intros acc.
  - simpl. lia.
  - rewrite !fold_left_app, IH. simpl. rewrite length_app. simpl.
    replace (Z.of_nat (length l2 + 1)) with (Z.of_nat (length l2) + 1) by lia.
    rewrite Z.pow_add_r by lia. lia.
Qed.

Lemma be_decode_single b : be_decode [b] = byte_val b.
Proof. unfold be_decode. simpl. lia. Qed.

Lemma be_decode_bound l : 0 <= be_decode l < 256 ^ Z.of_nat (length l).
Proof.
  induction l as [|b l IH] using rev_ind; [simpl; unfold be_decode; simpl; lia|].
  rewrite be_decode_app, be_decode_single, length_app. cbn [length].
  replace (Z.of_nat (length l + 1)) with (Z.of_nat (length l) + 1) by lia.
  change (Z.of_nat 1) with 1.
  rewrite Z.pow_add_r, !Z.pow_1_r by lia. pose proof (byte_val_range b). lia.
Qed.

Lemma be_decode_encode w n : be_decode (be_encode w n) = n mod 256 ^ Z.of_nat w.
Proof.
  revert n. induction w as [|w IH]; intros n.
  - simpl. by rewrite Z.mod_1_r.
  - cbn [be_encode]. rewrite be_decode_app, be_decode_single, IH, byte_val_of. simpl length.
    replace (Z.of_nat (S w)) with (Z.of_nat w + 1) by lia.
    change (Z.of_nat 1) with 1. rewrite Z.pow_add_r, Z.pow_1_r by lia.
    rewrite (Z.mul_comm (256 ^ _) 256). rewrite Z.rem_mul_r; [lia|lia|].
    apply Z.pow_pos_nonneg; lia.
Qed.

Lemma be_decode_encode_small w n :
  0 <= n < 256 ^ Z.of_nat w -> be_decode (be_encode w n) = n.
Proof. intros H. by rewrite be_decode_encode, Z.mod_small. Qed.

Lemma be_encode_decode l : be_encode (length l) (be_decode l) = l.
Proof.
  induction l as [|b l IH] using rev_ind; [done|].
  rewrite length_app, be_decode_app, be_decode_single. cbn [length].
  change (Z.of_nat 1) with 1. rewrite Nat.add_1_r, Z.pow_1_r. cbn [be_encode].
  pose proof (byte_val_range b).
  replace ((be_decode l * 256 + byte_val b) / 256) with (be_decode l).
  2: { rewrite Z.div_add_l by lia. rewrite Z.div_small by lia. lia. }
  rewrite IH. f_equal. f_equal. apply byte_val_inj.
  rewrite byte_val_of. rewrite Z.add_comm, Z.mod_add by lia. by apply Z.mod_small.
Qed.

Lemma length_slice i j l : (j <= length l)%nat -> length (slice i j l) = (j - i)%nat.
Proof. intros H. unfold slice. rewrite length_take, length_drop. lia. Qed.

Lemma str_bytes_str l : str_bytes (bytes_str l) = l.
Proof. apply String.list_byte_of_string_of_list_byte. Qed.

Lemma bytes_str_bytes s : bytes_str (str_bytes s) = s.
Proof. apply String.string_of_list_byte_of_string. Qed.

#[export] Instance str_bytes_inj : Inj (=) (=) str_bytes.
Proof. intros s1 s2 H. rewrite <- (bytes_str_bytes s1), <- (bytes_str_bytes s2). by rewrite H. Qed.

#[export] Instance bytes_str_inj : Inj (=) (=) bytes_str.
Proof. intros l1 l2 H. rewrite <- (str_bytes_str l1), <- (str_bytes_str l2). by rewrite H. Qed.

Lemma str_bytes_nil s : str_bytes s = [] <-> s = "".
Proof.
  split; [|by intros ->]. intros H. rewrite <- (bytes_str_bytes s). by rewrite H.
Qed.

Lemma fullmatch_length c lo hi s :
  fullmatch c lo hi s = true -> (lo <= length (str_bytes s) <= hi)%nat.
Proof. unfold fullmatch. rewrite !andb_true_iff, !Nat.leb_le. tauto. Qed.

(** A pattern with a positive lower bound never matches the empty string. *)
Lemma fullmatch_nonempty c lo hi s : fullmatch c (S lo) hi s = true -> s ≠ "".
Proof. intros H%fullmatch_length ->. simpl in H. lia. Qed.

Lemma fullmatch_class c lo hi s :
  fullmatch c lo hi s = true -> forallb c (str_bytes s) = true.
Proof. unfold fullmatch. rewrite !andb_true_iff. tauto. Qed.

(** ASCII strings are valid UTF-8. *)
Lemma utf8_valid_ascii l fuel :
  (length l < fuel)%nat -> forallb (fun b => byte_val b <? 128) l = true ->
  utf8_valid fuel l = true.
Proof.
  revert fuel. induction l as [|b l IH]; intros [|fuel] Hf H; simpl in *; try lia.
  apply andb_true_iff in H as [-> H]. apply IH; [lia|done].
Qed.

(** What [encode_utf8] produces decodes to the same string. *)
Lemma decode_encode_utf8 s l : encode_utf8 s = Ok l -> l = str_bytes s /\ decode_utf8 l = Ok s.
Proof.
  unfold encode_utf8, decode_utf8. destruct (utf8_valid _ (str_bytes s)) eqn:E; intros [= <-].
  by rewrite E, bytes_str_bytes.
Qed.

#[export] Hint Rewrite length_be_encode str_bytes_str bytes_str_bytes : bytes.
