(* ===== verification/ReticulumFraming.v ===== *)
(** * Reticulum frames ([reticulum/framing.py])

    The 14-byte header [!BBQI] (version, type, message id, payload length),
    [Frame.encode] and the incremental [FrameParser].  The parser's state is
    its configuration and its byte buffer; [feed] is a procedure on it that
    returns the complete frames or raises [ProtocolError] after a reset. *)

From stdpp Require Import prelude strings list pretty.
From Stdlib Require Import ZArith Lia.
From S2P Require Import Prelude PyBytes.

Module Reticulum.

(** ** Model *)

Definition PROTOCOL_VERSION : Z := 1.
Definition HEADER_SIZE : nat := 14.
Definition PROTOCOL_MAX_FRAME_SIZE : Z := 256 * 1024.

Inductive FrameType := DATA | ACK | CONTROL.

#[export] Instance FrameType_eq_dec : EqDecision FrameType.
Proof. solve_decision. Defined.

Definition FrameType_int (t : FrameType) : Z :=
  match t with DATA => 1 | ACK => 2 | CONTROL => 3 end.

(** [FrameType(raw_type)]; [None] is the [ValueError] of an unknown value. *)
Definition FrameType_of (n : Z) : option FrameType :=
  if n =? 1 then Some DATA else if n =? 2 then Some ACK
  else if n =? 3 then Some CONTROL else None.

Record Frame := mkFrame { frame_type : FrameType; message_id : Z; payload : bytes }.

#[export] Instance Frame_eq_dec : EqDecision Frame.
Proof. solve_decision. Defined.

(** [_HEADER.pack(version, type, message_id, length)]: the last two fields
    are 8 and 4 bytes wide, a larger length is a [struct.error]. *)
Definition pack_header (version t mid len : Z) : res bytes :=
  if (0 <=? len) && (len <=? 0xFFFFFFFF)
  then Ok (be_encode 1 version ++ be_encode 1 t ++ be_encode 8 mid ++ be_encode 4 len)
  else Raise StructError.

Definition encode (f : Frame) (max_frame_size : Z) : res bytes :=
  if negb ((0 <=? message_id f) && (message_id f <=? 0xFFFFFFFFFFFFFFFF)) then
    Raise (ValueError "message_id must be an unsigned 64-bit integer")
  else if Z.of_nat (length (payload f)) >? max_frame_size then
    Raise (ValueError "payload exceeds maximum frame size")
  else
    let? header := pack_header PROTOCOL_VERSION (FrameType_int (frame_type f))
                     (message_id f) (Z.of_nat (length (payload f))) in
    Ok (header ++ payload f).

Record FrameParser := mkParser {
  max_frame_size : Z;
  max_receive_buffer_size : Z;
  buffer : bytes
}.

(** [FrameParser(max_frame_size, max_receive_buffer_size)] *)
Definition FrameParser_init (mfs : Z) (mrb : option Z) : res FrameParser :=
  if negb ((0 <? mfs) && (mfs <=? PROTOCOL_MAX_FRAME_SIZE)) then
    Raise (ValueError "invalid max_frame_size")
  else
    let limit := match mrb with
                 | None => mfs * 2
                 | Some n => if n =? 0 then mfs * 2 else n
                 end in
    if limit <? Z.of_nat HEADER_SIZE + mfs then
      Raise (ValueError "receive buffer must hold one maximum-sized frame")
    else Ok (mkParser mfs limit []).

Definition buffered_bytes (p : FrameParser) : Z := Z.of_nat (length (buffer p)).

Definition set_buffer (l : bytes) (p : FrameParser) : FrameParser :=
  mkParser (max_frame_size p) (max_receive_buffer_size p) l.

Definition reset (p : FrameParser) : FrameParser := set_buffer [] p.

(** One iteration of the [while] loop of [feed]: leave the loop, raise after a
    reset, or take one frame off the buffer. *)
Inductive iteration :=
| Break
| Error (msg : string)
| Took (f : Frame) (rest : bytes).

Definition iterate (mfs : Z) (buf : bytes) : iteration :=
  if (length buf <? HEADER_SIZE)%nat then Break
  else
    let version := be_decode (slice 0 1 buf) in
    let raw_type := be_decode (slice 1 2 buf) in
    let mid := be_decode (slice 2 10 buf) in
    let payload_length := be_decode (slice 10 14 buf) in
    if negb (version =? PROTOCOL_VERSION) then
      Error ("unsupported protocol version: " +:+ pretty version)
    else
      match FrameType_of raw_type with
      | None => Error ("unknown frame type: " +:+ pretty raw_type)
      | Some t =>
        if payload_length >? mfs then Error "declared payload exceeds maximum frame size"
        else
          let total := (HEADER_SIZE + Z.to_nat payload_length)%nat in
          if (length buf <? total)%nat then Break
          else
            let body := slice HEADER_SIZE total buf in
            let rest := drop total buf in
            match t, body with
            | ACK, _ :: _ => Error "ACK payload must be empty"
            | _, _ => Took (mkFrame t mid body) rest
            end
      end.

(** The loop: every iteration that continues removes at least the header, so
    [length buf] iterations are enough (see [loop_fuel]). *)
Fixpoint loop (fuel : nat) (mfs : Z) (buf : bytes) : bytes * res (list Frame) :=
  match fuel with
  | O => (buf, Ok [])
  | S fuel' =>
    match iterate mfs buf with
    | Break => (buf, Ok [])
    | Error msg => ([], Raise (ProtocolError msg))
    | Took f rest =>
      match loop fuel' mfs rest with
      | (b, Ok fs) => (b, Ok (f :: fs))
      | (b, Raise e) => (b, Raise e)
      end
    end
  end.

Definition feed (data : bytes) : M FrameParser (list Frame) := fun p =>
  if Z.of_nat (length (buffer p)) + Z.of_nat (length data) >? max_receive_buffer_size p then
    (reset p, Raise (ProtocolError "receive buffer exceeds maximum size"))
  else
    let buf := buffer p ++ data in
    let '(b, r) := loop (length buf) (max_frame_size p) buf in
    (set_buffer b p, r).

(** Feeding the chunks a transport delivers, one [feed] per chunk; the first
    exception ends the run. *)
Fixpoint feed_all (chunks : list bytes) : M FrameParser (list Frame) :=
  match chunks with
  | [] => ret []
  | c :: cs => let! fs := feed c in let! fs' := feed_all cs in ret (fs ++ fs')
  end.

(** ** Well-formedness *)

(** What [__init__] establishes and every [feed] keeps. *)
Definition parser_ok (p : FrameParser) : Prop :=
  0 < max_frame_size p <= PROTOCOL_MAX_FRAME_SIZE /\
  Z.of_nat HEADER_SIZE + max_frame_size p <= max_receive_buffer_size p /\
  buffered_bytes p <= max_receive_buffer_size p.

(** A frame a peer may send: a 64-bit id, a payload within the limit and no
    payload on an acknowledgement. *)
Definition frame_ok (mfs : Z) (f : Frame) : Prop :=
  0 <= message_id f < 2 ^ 64 /\ Z.of_nat (length (payload f)) <= mfs /\
  (frame_type f = ACK -> payload f = []).

(** The bytes of a frame that [frame_ok] admits. *)
Definition wire (f : Frame) : bytes :=
  be_encode 1 PROTOCOL_VERSION ++ be_encode 1 (FrameType_int (frame_type f)) ++
  be_encode 8 (message_id f) ++ be_encode 4 (Z.of_nat (length (payload f))) ++ payload f.

Definition wires (fs : list Frame) : bytes := concat (map wire fs).

(** ** Lemmas on one iteration *)

Lemma length_wire f : length (wire f) = (HEADER_SIZE + length (payload f))%nat.
Proof. unfold wire. rewrite !length_app, !length_be_encode. unfold HEADER_SIZE. lia. Qed.

Lemma encode_wire mfs f :
  mfs <= PROTOCOL_MAX_FRAME_SIZE -> frame_ok mfs f -> encode f mfs = Ok (wire f).
Proof.
  unfold PROTOCOL_MAX_FRAME_SIZE. intros Hm (Hid & Hlen & _). unfold encode, pack_header.
  rewrite (proj2 (Z.leb_le 0 _)), (proj2 (Z.leb_le (message_id f) _)) by lia. cbn [andb negb].
  rewrite Z.gtb_ltb, (proj2 (Z.ltb_ge _ _)) by lia.
  rewrite !(proj2 (Z.leb_le _ _)) by lia. cbn [andb rbind]. unfold wire.
  by rewrite <- !app_assoc.
Qed.

Lemma slice_app_l i j (a b : bytes) : (j <= length a)%nat -> slice i j (a ++ b) = slice i j a.
Proof.
  intros H. unfold slice. destruct (decide (i <= length a)%nat) as [Hi|Hi].
  - rewrite drop_app_le, take_app_le by (rewrite ?length_drop; lia). done.
  - replace (j - i)%nat with 0%nat by lia. by rewrite !take_0.
Qed.

Lemma iterate_app mfs a b :
  match iterate mfs a with
  | Break => True
  | Error msg => iterate mfs (a ++ b) = Error msg
  | Took f rest => iterate mfs (a ++ b) = Took f (rest ++ b)
  end.
Proof.
  unfold iterate, HEADER_SIZE.
  destruct (length a <? 14)%nat eqn:Hlen; [done|]. apply Nat.ltb_ge in Hlen.
  rewrite (proj2 (Nat.ltb_ge (length (a ++ b)) 14)) by (rewrite length_app; lia).
  rewrite !(slice_app_l _ _ a b) by lia.
  destruct (negb _); [done|]. destruct (FrameType_of _) as [t|]; [|done].
  destruct (_ >? _); [done|].
  set (total := (14 + Z.to_nat (be_decode (slice 10 14 a)))%nat).
  destruct (length a <? total)%nat eqn:Ht; [done|]. apply Nat.ltb_ge in Ht.
  rewrite (proj2 (Nat.ltb_ge (length (a ++ b)) total)) by (rewrite length_app; lia).
  rewrite (slice_app_l _ _ a b), drop_app_le by lia.
  by destruct t, (slice 14 total a).
Qed.

Lemma iterate_took_length mfs buf f rest :
  iterate mfs buf = Took f rest ->
  (length buf = length rest + HEADER_SIZE + length (payload f))%nat.
Proof.
  unfold iterate, HEADER_SIZE. intros H.
  destruct (length buf <? 14)%nat; [done|]. destruct (negb _); [done|].
  destruct (FrameType_of _) as [t|]; [|done]. destruct (_ >? _); [done|].
  set (total := (14 + Z.to_nat (be_decode (slice 10 14 buf)))%nat) in *.
  destruct (length buf <? total)%nat eqn:Ht; [done|]. apply Nat.ltb_ge in Ht.
  pose proof (length_slice 14 total buf Ht) as Hs.
  destruct t, (slice 14 total buf) eqn:Es; simplify_eq; simpl in *;
    rewrite length_drop; lia.
Qed.

Lemma iterate_took_ok mfs buf f rest :
  iterate mfs buf = Took f rest -> frame_ok mfs f.
Proof.
  unfold iterate, frame_ok, HEADER_SIZE. intros H.
  destruct (length buf <? 14)%nat eqn:Hl; [done|]. apply Nat.ltb_ge in Hl.
  destruct (negb _); [done|]. destruct (FrameType_of _) as [t|]; [|done].
  rewrite Z.gtb_ltb in H. destruct (_ <? be_decode (slice 10 14 buf)) eqn:Hm; [done|].
  apply Z.ltb_ge in Hm. pose proof (be_decode_bound (slice 10 14 buf)).
  set (total := (14 + Z.to_nat (be_decode (slice 10 14 buf)))%nat) in *.
  destruct (length buf <? total)%nat eqn:Ht; [done|]. apply Nat.ltb_ge in Ht.
  pose proof (length_slice 14 total buf Ht) as Hs.
  pose proof (be_decode_bound (slice 2 10 buf)) as Hid.
  rewrite length_slice in Hid by lia. simpl in Hid.
  destruct t, (slice 14 total buf) eqn:Es; simplify_eq; cbn [message_id payload frame_type];
    (split; [lia|split; [simpl in *; lia|done]]).
Qed.

(** An iteration stops only on a buffer shorter than one maximum-sized frame. *)
Lemma iterate_break_bound mfs buf :
  0 <= mfs -> iterate mfs buf = Break -> Z.of_nat (length buf) < Z.of_nat HEADER_SIZE + mfs.
Proof.
  unfold iterate, HEADER_SIZE. intros Hm H.
  destruct (length buf <? 14)%nat eqn:Hl; [apply Nat.ltb_lt in Hl; lia|].
  destruct (negb _); [done|]. destruct (FrameType_of _) as [t|]; [|done].
  rewrite Z.gtb_ltb in H. destruct (_ <? be_decode (slice 10 14 buf)) eqn:Hd; [done|].
  apply Z.ltb_ge in Hd. pose proof (be_decode_bound (slice 10 14 buf)).
  set (total := (14 + Z.to_nat (be_decode (slice 10 14 buf)))%nat) in *.
  destruct (length buf <? total)%nat eqn:Ht; [apply Nat.ltb_lt in Ht; lia|].
  destruct t, (slice 14 total buf); done.
Qed.

Lemma slice_header (h1 h2 h3 h4 rest : bytes) :
  length h1 = 1%nat -> length h2 = 1%nat -> length h3 = 8%nat -> length h4 = 4%nat ->
  let buf := h1 ++ h2 ++ h3 ++ h4 ++ rest in
  slice 0 1 buf = h1 /\ slice 1 2 buf = h2 /\ slice 2 10 buf = h3 /\ slice 10 14 buf = h4 /\
  drop 14 buf = rest.
Proof.
  intros H1 H2 H3 H4. do 2 (destruct h1 as [|? h1]; simpl in H1; try lia).
  do 2 (destruct h2 as [|? h2]; simpl in H2; try lia).
  do 9 (destruct h3 as [|? h3]; simpl in H3; try lia).
  do 5 (destruct h4 as [|? h4]; simpl in H4; try lia). simpl.
  unfold slice. simpl. by rewrite take_0.
Qed.

(** A frame in front of the buffer is taken off exactly. *)
Lemma iterate_wire mfs f rest :
  mfs <= PROTOCOL_MAX_FRAME_SIZE -> frame_ok mfs f ->
  iterate mfs (wire f ++ rest) = Took f rest.
Proof.
  unfold PROTOCOL_MAX_FRAME_SIZE. intros Hm (Hid & Hlen & Hack).
  unfold iterate, wire. rewrite <- !app_assoc.
  set (h1 := be_encode 1 _). set (h2 := be_encode 1 _). set (h3 := be_encode 8 _).
  set (h4 := be_encode 4 _).
  destruct (slice_header h1 h2 h3 h4 (payload f ++ rest)) as (-> & -> & -> & -> & Hd);
    try apply length_be_encode.
  rewrite (proj2 (Nat.ltb_ge _ _)).
  2: { rewrite !length_app. unfold h1, h2, h3, h4. rewrite !length_be_encode.
       unfold HEADER_SIZE. lia. }
  unfold h1, h2, h3, h4. rewrite !be_decode_encode_small by
    (unfold PROTOCOL_VERSION; destruct (frame_type f); simpl; lia).
  rewrite Z.eqb_refl. cbn [negb].
  assert (FrameType_of (FrameType_int (frame_type f)) = Some (frame_type f)) as ->
    by by destruct (frame_type f).
  rewrite Z.gtb_ltb, (proj2 (Z.ltb_ge _ _)) by lia. rewrite Nat2Z.id.
  fold h1 h2 h3 h4. rewrite (proj2 (Nat.ltb_ge _ _)).
  2: { rewrite !length_app. unfold h1, h2, h3, h4. rewrite !length_be_encode.
       unfold HEADER_SIZE. lia. }
  rewrite <- drop_drop. unfold slice, HEADER_SIZE. rewrite Hd.
  replace (14 + length (payload f) - 14)%nat with (length (payload f)) by lia.
  rewrite take_app_length, drop_app_length.
  destruct f as [t i p]; simpl in *. destruct t; try done. by rewrite Hack.
Qed.

(** ** Lemmas on the loop *)

Lemma loop_fuel mfs n1 n2 buf :
  (length buf <= n1)%nat -> (length buf <= n2)%nat -> loop n1 mfs buf = loop n2 mfs buf.
Proof.
  revert n2 buf. induction n1 as [|n1 IH]; intros [|n2] buf H1 H2; try done.
  - destruct buf; [done|simpl in *; lia].
  - destruct buf; [done|simpl in *; lia].
  - simpl. destruct (iterate mfs buf) as [| |f rest] eqn:E; try done.
    apply iterate_took_length in E. unfold HEADER_SIZE in E.
    rewrite (IH n2 rest) by lia. done.
Qed.

(** With that fuel the loop ends by itself. *)
Lemma loop_ends fuel mfs buf b fs : (length buf <= fuel)%nat -> loop fuel mfs buf = (b, Ok fs) -> iterate mfs b = Break.
Proof.
  revert buf fs. induction fuel as [|fuel IH]; intros buf fs Hlen; cbn [loop].
  - destruct buf; [|cbn in Hlen; lia]. by intros [= <- _].
  - destruct (iterate mfs buf) as [| |f rest] eqn:E; [by intros [= <- _]|done|].
    destruct (loop fuel mfs rest) as [b' [fs'|]] eqn:El; [|done]. intros [= <- _].
    eapply IH; [|exact El]. apply iterate_took_length in E. unfold HEADER_SIZE in E. lia.
Qed.

Lemma loop_raises fuel mfs buf b e : loop fuel mfs buf = (b, Raise e) -> b = [].
Proof.
  revert buf. induction fuel as [|fuel IH]; intros buf; cbn [loop]; [by intros [=]|].
  destruct (iterate mfs buf) as [| |f rest]; [by intros [=]|by intros [= <- _]|].
  destruct (loop fuel mfs rest) as [b2 [fs|e2]] eqn:El; [by intros [=]|]. intros [= -> ->]. by eapply IH.
Qed.

(** The loop with the fuel [feed] gives it. *)
Definition run_loop (mfs : Z) (buf : bytes) : bytes * res (list Frame) := loop (length buf) mfs buf.

Lemma run_loop_eq mfs buf :
  run_loop mfs buf =
  match iterate mfs buf with
  | Break => (buf, Ok [])
  | Error msg => ([], Raise (ProtocolError msg))
  | Took f rest =>
    match run_loop mfs rest with
    | (b, Ok fs) => (b, Ok (f :: fs))
    | (b, Raise e) => (b, Raise e)
    end
  end.
Proof.
  unfold run_loop. destruct (length buf) as [|n] eqn:E.
  - by destruct buf.
  - cbn [loop]. destruct (iterate mfs buf) as [| |f rest] eqn:Ei; try done.
    apply iterate_took_length in Ei. unfold HEADER_SIZE in Ei.
    rewrite (loop_fuel mfs n (length rest) rest) by lia. done.
Qed.

Lemma feed_run_loop data p :
  feed data p =
  if Z.of_nat (length (buffer p)) + Z.of_nat (length data) >? max_receive_buffer_size p then
    (reset p, Raise (ProtocolError "receive buffer exceeds maximum size"))
  else let '(b, r) := run_loop (max_frame_size p) (buffer p ++ data) in (set_buffer b p, r).
Proof. reflexivity. Qed.

(** Splitting the input of the loop anywhere splits its output. *)
Lemma run_loop_app mfs n a b b' fs :
  (length a <= n)%nat -> run_loop mfs (a ++ b) = (b', Ok fs) ->
  exists a' fs1 fs2, run_loop mfs a = (a', Ok fs1) /\
    run_loop mfs (a' ++ b) = (b', Ok fs2) /\ fs = fs1 ++ fs2.
Proof.
  revert a fs. induction n as [|n IH]; intros a fs Hn H;
    pose proof (iterate_app mfs a b) as Ha; rewrite (run_loop_eq mfs a).
  - destruct (iterate mfs a) as [|msg|f rest] eqn:Ei; [by eauto 8| |].
    + by rewrite run_loop_eq, Ha in H.
    + apply iterate_took_length in Ei. unfold HEADER_SIZE in Ei. lia.
  - destruct (iterate mfs a) as [|msg|f rest] eqn:Ei; [by eauto 8| |].
    + by rewrite run_loop_eq, Ha in H.
    + rewrite run_loop_eq, Ha in H. destruct (run_loop mfs (rest ++ b)) as [b1 [fs1|e]] eqn:Er; [|done].
      simplify_eq. apply iterate_took_length in Ei. unfold HEADER_SIZE in Ei.
      destruct (IH rest fs1) as (a' & l1 & l2 & -> & H2 & ->); [lia|done|].
      exists a', (f :: l1), l2. auto.
Qed.

Lemma run_loop_result mfs n buf b r :
  0 <= mfs -> (length buf <= n)%nat -> run_loop mfs buf = (b, r) ->
  match r with
  | Ok fs => Forall (frame_ok mfs) fs /\ Z.of_nat (length b) < Z.of_nat HEADER_SIZE + mfs
             /\ (length b <= length buf)%nat
  | Raise e => b = [] /\ exists msg, e = ProtocolError msg
  end.
Proof.
  intros Hm. revert buf b r. induction n as [|n IH]; intros buf b r Hn H;
    rewrite run_loop_eq in H; destruct (iterate mfs buf) as [|msg|f rest] eqn:Ei; simplify_eq;
    try (split; [done|]; by eauto); try (split; [done|]; split; [|lia];
      by apply iterate_break_bound).
  - apply iterate_took_length in Ei. unfold HEADER_SIZE in Ei. lia.
  - pose proof (iterate_took_length _ _ _ _ Ei) as Hl. unfold HEADER_SIZE in Hl.
    destruct (run_loop mfs rest) as [b1 [fs1|e]] eqn:Er; simplify_eq;
      apply IH in Er; try lia; [|done].
    destruct Er as (? & ? & ?). split; [|split; [done|lia]].
    constructor; [|done]. by eapply iterate_took_ok.
Qed.

Lemma run_loop_wires mfs fs :
  mfs <= PROTOCOL_MAX_FRAME_SIZE -> Forall (frame_ok mfs) fs ->
  run_loop mfs (wires fs) = ([], Ok fs).
Proof.
  intros Hm. induction 1 as [|f fs Hf Hfs IH].
  - reflexivity.
  - change (wires (f :: fs)) with (wire f ++ wires fs).
    rewrite run_loop_eq, iterate_wire by done. by rewrite IH.
Qed.

Lemma run_loop_stuck mfs n buf b fs :
  (length buf <= n)%nat -> run_loop mfs buf = (b, Ok fs) -> run_loop mfs b = (b, Ok []).
Proof.
  revert buf fs. induction n as [|n IH]; intros buf fs Hn H; rewrite run_loop_eq in H;
    destruct (iterate mfs buf) as [|msg|f rest] eqn:Ei; simplify_eq;
    try (by rewrite run_loop_eq, Ei);
    pose proof (iterate_took_length _ _ _ _ Ei) as Hl; unfold HEADER_SIZE in Hl; [lia|].
  destruct (run_loop mfs rest) as [b1 [fs1|e]] eqn:Er; simplify_eq.
  eapply IH; [|exact Er]. lia.
Qed.

Lemma feed_fits data p :
  Z.of_nat (length (buffer p)) + Z.of_nat (length data) <= max_receive_buffer_size p ->
  feed data p = let '(b, r) := run_loop (max_frame_size p) (buffer p ++ data) in (set_buffer b p, r).
Proof. intros H. rewrite feed_run_loop, Z.gtb_ltb, (proj2 (Z.ltb_ge _ _)) by lia. done. Qed.

Lemma feed_all_run_loop p chunks b fs :
  0 <= max_frame_size p ->
  run_loop (max_frame_size p) (buffer p) = (buffer p, Ok []) ->
  run_loop (max_frame_size p) (buffer p ++ concat chunks) = (b, Ok fs) ->
  Forall (fun c => Z.of_nat (length c) + Z.of_nat HEADER_SIZE + max_frame_size p
                   <= max_receive_buffer_size p + 1) chunks ->
  feed_all chunks p = (set_buffer b p, Ok fs).
Proof.
  revert p fs. induction chunks as [|c cs IH]; intros p fs Hm Hst Hrun Hc; simpl in *.
  - rewrite app_nil_r in Hrun. rewrite Hst in Hrun. simplify_eq. by destruct p.
  - apply Forall_cons in Hc as [Hc Hcs]. rewrite app_assoc in Hrun.
    apply (run_loop_app _ (length (buffer p ++ c))) in Hrun as (a' & fs1 & fs2 & H1 & H2 & ->); [|done].
    pose proof (run_loop_result _ (length (buffer p)) _ _ _ Hm (le_n _) Hst) as (_ & Hb & _).
    unfold bind. rewrite feed_fits by lia. rewrite H1.
    rewrite (IH (set_buffer a' p) fs2); try done.
    by eapply run_loop_stuck; [|exact H1].
Qed.

(** ** Properties *)

(** C26: the loop of [feed] terminates on every input by its own condition, never
    by the bound of the model: what it leaves in the buffer is no complete
    frame, and after an exception the buffer is empty. *)
Theorem feed_terminates data p :
  let '(p', r) := feed data p in
  match r with Ok _ => iterate (max_frame_size p) (buffer p') = Break | Raise _ => buffer p' = [] end.
Proof.
  unfold feed. destruct (_ >? _); [done|]. destruct (loop _ _ _) as [b [fs|e]] eqn:E; cbn [buffer set_buffer].
  - eapply loop_ends; [|exact E]. done.
  - by eapply loop_raises.
Qed.


Definition sample_parser : FrameParser := mkParser 100 200 [].
Definition sample_frames : list Frame :=
  [mkFrame DATA 7 (str_bytes "hello"); mkFrame ACK (2 ^ 64 - 1) []; mkFrame CONTROL 0 [Byte.xff]].


(** The outcome of one [feed]. *)
Lemma feed_result (p : FrameParser) (data : bytes) :
  parser_ok p ->
  let '(p', r) := feed data p in
  parser_ok p' /\
  match r with
  | Ok fs => Forall (frame_ok (max_frame_size p)) fs /\
             buffered_bytes p' < Z.of_nat HEADER_SIZE + max_frame_size p
  | Raise e => buffer p' = [] /\ exists msg, e = ProtocolError msg
  end.
Proof.
  intros (Hm & Hl & Hb). rewrite feed_run_loop.
  destruct (_ >? _).
  { unfold parser_ok, buffered_bytes in *. simpl. split; [lia|eauto]. }
  destruct (run_loop _ _) as [b r] eqn:Hr.
  assert (0 <= max_frame_size p) as H0 by lia.
  apply (run_loop_result _ _ _ _ _ H0 (le_n _)) in Hr.
  unfold parser_ok, buffered_bytes in *. cbn [set_buffer max_frame_size max_receive_buffer_size buffer].
  destruct r as [fs|e]; destruct Hr as [? Hr]; [destruct Hr|subst; cbn [length]];
    (split; [split; [lia|split; [lia|lia]]|auto]).
Qed.

Lemma feed_keeps p data : parser_ok p -> parser_ok (fst (feed data p)).
Proof. intros Hp. pose proof (feed_result p data Hp) as H. destruct (feed data p) as [p' r]. apply H. Qed.

(** the parser's memory is bounded: [feed] keeps [parser_ok] (the buffer
    never exceeds the configured limit); after a successful call less than one
    maximum-sized frame stays buffered and every returned frame is well formed;
    after an exception the buffer is empty and the exception is a
    [ProtocolError]. *)
Theorem feed_bounded (p : FrameParser) (data : bytes) :
  parser_ok p ->
  let '(p', r) := feed data p in
  parser_ok p' /\
  match r with
  | Ok fs => Forall (frame_ok (max_frame_size p)) fs /\
             buffered_bytes p' < Z.of_nat HEADER_SIZE + max_frame_size p
  | Raise e => buffer p' = [] /\ exists msg, e = ProtocolError msg
  end.
Proof. apply feed_result. Qed.

Lemma feed_bounded_witness :
  parser_ok sample_parser /\
  (let '(p', r) := feed [Byte.x02] sample_parser in
   parser_ok p' /\
   match r with
   | Ok fs => Forall (frame_ok (max_frame_size sample_parser)) fs /\
              buffered_bytes p' < Z.of_nat HEADER_SIZE + max_frame_size sample_parser
   | Raise e => buffer p' = [] /\ exists msg, e = ProtocolError msg
   end).
Proof.
  assert (parser_ok sample_parser) as H.
  { unfold parser_ok, sample_parser, PROTOCOL_MAX_FRAME_SIZE, HEADER_SIZE, buffered_bytes. simpl. lia. }
  split; [exact H|]. exact (feed_bounded sample_parser [Byte.x02] H).
Defined.

(** a frame whose header is unacceptable (another protocol version, an
    unknown type, or a declared length above the limit) is refused as soon as
    its 14 header bytes are there, before any payload is collected: whatever
    follows the header, [feed] raises and empties the buffer, and none of the
    frames in front of it in the same call is delivered. *)
Theorem feed_rejects_header (p : FrameParser) (fs : list Frame) (version t mid len : Z) (rest : bytes) :
  parser_ok p -> buffer p = [] -> Forall (frame_ok (max_frame_size p)) fs ->
  0 <= version < 256 -> 0 <= t < 256 -> 0 <= mid < 2 ^ 64 -> 0 <= len < 2 ^ 32 ->
  version <> 1 \/ FrameType_of t = None \/ max_frame_size p < len ->
  let bad := be_encode 1 version ++ be_encode 1 t ++ be_encode 8 mid ++ be_encode 4 len in
  exists msg, feed (wires fs ++ bad ++ rest) p = (reset p, Raise (ProtocolError msg)).
Proof.
  intros (Hm & _) Hb Hfs Hv Ht Hi Hl Hbad bad.
  rewrite feed_run_loop. destruct (_ >? _); [by eauto|]. rewrite Hb. cbn [app].
  assert (exists msg, iterate (max_frame_size p) (bad ++ rest) = Error msg) as [msg He].
  { unfold iterate, bad. rewrite <- !app_assoc.
    set (h1 := be_encode 1 _). set (h2 := be_encode 1 _). set (h3 := be_encode 8 _).
    set (h4 := be_encode 4 _).
    destruct (slice_header h1 h2 h3 h4 rest) as (-> & -> & -> & -> & _); try apply length_be_encode.
    rewrite (proj2 (Nat.ltb_ge _ _)).
    2: { rewrite !length_app. unfold h1, h2, h3, h4. rewrite !length_be_encode.
         unfold HEADER_SIZE. lia. }
    unfold h1, h2, h3, h4. rewrite !be_decode_encode_small by (simpl; lia).
    unfold PROTOCOL_VERSION. destruct (version =? 1) eqn:Ev; cbn [negb]; [|by eauto].
    destruct (FrameType_of t) as [ty|]; [|by eauto].
    destruct Hbad as [Hbad|[Hbad|Hbad]]; [lia|done|].
    rewrite Z.gtb_ltb, (proj2 (Z.ltb_lt _ _)) by done. eauto. }
  exists msg. assert (run_loop (max_frame_size p) (wires fs ++ bad ++ rest)
                      = ([], Raise (ProtocolError msg))) as ->; [|done].
  induction Hfs as [|f fs Hf Hfs IH].
  - cbn [app wires concat map]. by rewrite run_loop_eq, He.
  - change (wires (f :: fs)) with (wire f ++ wires fs). rewrite <- app_assoc.
    rewrite run_loop_eq, iterate_wire by (done || lia). by rewrite IH.
Qed.

Lemma feed_rejects_header_witness :
  exists msg, feed (wires [mkFrame DATA 7 []] ++
     (be_encode 1 1 ++ be_encode 1 1 ++ be_encode 8 5 ++ be_encode 4 101) ++ []) sample_parser
  = (reset sample_parser, Raise (ProtocolError msg)).
Proof.
  apply (feed_rejects_header sample_parser [mkFrame DATA 7 []] 1 1 5 101 []).
  - unfold parser_ok, sample_parser, PROTOCOL_MAX_FRAME_SIZE, HEADER_SIZE, buffered_bytes. simpl. lia.
  - reflexivity.
  - unfold frame_ok. repeat constructor; simpl; try lia; done.
  - lia.
  - lia.
  - lia.
  - lia.
  - right. right. reflexivity.
Defined.

(** a parser created the way [PhysicalConnection] creates it (the receive
    buffer twice the frame limit) exists exactly for frame limits from 14 to
    the protocol maximum: every limit from 1 to 13 passes the positivity check
    but makes the constructor raise. *)
Theorem connection_parser_exists (mfs : Z) :
  is_ok (FrameParser_init mfs (Some (mfs * 2))) = true <-> 14 <= mfs <= PROTOCOL_MAX_FRAME_SIZE.
Proof.
  unfold FrameParser_init, PROTOCOL_MAX_FRAME_SIZE, HEADER_SIZE. change (Z.of_nat 14) with 14.
  destruct (0 <? mfs) eqn:E1, (mfs <=? 256 * 1024) eqn:E2; cbn [andb negb is_ok];
    [|split; [done|lia]..].
  destruct (mfs * 2 =? 0) eqn:E0; [lia|].
  destruct (mfs * 2 <? 14 + mfs) eqn:E3; cbn [is_ok];
    split; intros; done || lia.
Qed.

End Reticulum.
