(* ===== verification/PrivateFraming.v ===== *)
(** * Private-transport frames and datagrams ([private_transport/framing.py])

    The 12-byte stream header [>4sBBHI], [encode_frame], the incremental
    [FrameParser] that retains at most one incomplete frame, and the datagram
    codec.  [Private.feed] follows the offset-and-take loop of the source;
    [Private.reference] is the obvious parser that concatenates everything, and
    the two are proved equivalent. *)

From stdpp Require Import prelude strings list.
From Stdlib Require Import ZArith Lia.
From S2P Require Import Prelude PyBytes.

Module Private.

(** ** Model *)

Definition PROTOCOL_VERSION : Z := 1.
Definition FRAME_ATTACH : Z := 1.
Definition FRAME_ATTACHED : Z := 2.
Definition FRAME_RELIABLE : Z := 3.
Definition MAX_METADATA_BYTES : Z := 4 * 1024.
Definition MAX_RELIABLE_PAYLOAD_BYTES : Z := 1024 * 1024.
Definition MAX_DATAGRAM_PAYLOAD_BYTES : Z := 1024.
Definition MAX_MESSAGE_ID_BYTES : Z := 128.
Definition STREAM_MAGIC : bytes := str_bytes "QP3F".
Definition DATAGRAM_MAGIC : bytes := str_bytes "QP3D".
Definition HEADER_size : nat := 12.

Record Frame := mkFrame { frame_type : Z; metadata : bytes; payload : bytes }.

Definition blen (l : bytes) : Z := Z.of_nat (length l).

Definition header (t mlen plen : Z) : bytes :=
  STREAM_MAGIC ++ be_encode 1 PROTOCOL_VERSION ++ be_encode 1 t ++ be_encode 2 mlen ++ be_encode 4 plen.

Definition encode_frame (f : Frame) : res bytes :=
  if (blen (metadata f) >? MAX_METADATA_BYTES) || (blen (payload f) >? MAX_RELIABLE_PAYLOAD_BYTES)
  then Raise (FramingError "inner frame exceeds limit")
  else if negb ((0 <=? frame_type f) && (frame_type f <=? 255)) then Raise StructError
  else Ok (header (frame_type f) (blen (metadata f)) (blen (payload f)) ++ metadata f ++ payload f).

Record FrameParser := mkParser { buffer : bytes; max_payload_bytes : Z }.

Definition set_buffer (b : bytes) (p : FrameParser) : FrameParser := mkParser b (max_payload_bytes p).

(** [magic, version, frame_type, metadata_length, payload_length] of
    [_HEADER.unpack_from(buf)]. *)
Definition unpack (buf : bytes) : bytes * Z * Z * Z * Z :=
  (slice 0 4 buf, be_decode (slice 4 5 buf), be_decode (slice 5 6 buf),
   be_decode (slice 6 8 buf), be_decode (slice 8 12 buf)).

(** The two checks on a complete header. *)
Definition check_header (mpb : Z) (buf : bytes) : res (Z * nat * nat) :=
  let '(magic, version, t, mlen, plen) := unpack buf in
  if negb (bool_decide (magic = STREAM_MAGIC)) || negb (version =? PROTOCOL_VERSION)
  then Raise (FramingError "unsupported inner stream protocol")
  else if (mlen >? MAX_METADATA_BYTES) || (plen >? mpb)
  then Raise (FramingError "inner frame exceeds limit")
  else Ok (t, Z.to_nat mlen, Z.to_nat plen).

(** [while offset < len(incoming)]: [rem] is [incoming[offset:]].  A completed
    frame removes at least the header from [buf ++ rem], which bounds the
    number of iterations. *)
Fixpoint feed_loop (fuel : nat) (mpb : Z) (buf rem : bytes) : bytes * res (list Frame) :=
  match fuel with
  | O => (buf, Ok [])
  | S fuel' =>
    if (0 <? length rem)%nat then
      let take1 := Nat.min (HEADER_size - length buf) (length rem) in
      let buf1 := buf ++ take take1 rem in
      let rem1 := drop take1 rem in
      if (length buf1 <? HEADER_size)%nat then (buf1, Ok [])
      else
        match check_header mpb buf1 with
        | Raise e => (buf1, Raise e)
        | Ok (t, mlen, plen) =>
          let total := (HEADER_size + mlen + plen)%nat in
          let take2 := Nat.min (total - length buf1) (length rem1) in
          let buf2 := buf1 ++ take take2 rem1 in
          let rem2 := drop take2 rem1 in
          if (length buf2 <? total)%nat then (buf2, Ok [])
          else
            let f := mkFrame t (slice HEADER_size (HEADER_size + mlen) buf2)
                               (slice (HEADER_size + mlen) total buf2) in
            match feed_loop fuel' mpb (drop total buf2) rem2 with
            | (b, Ok fs) => (b, Ok (f :: fs))
            | (b, Raise e) => (b, Raise e)
            end
        end
    else (buf, Ok [])
  end.

Definition feed (data : bytes) : M FrameParser (list Frame) := fun p =>
  let '(b, r) := feed_loop (S (length (buffer p) + length data)) (max_payload_bytes p) (buffer p) data in
  (set_buffer b p, r).

Fixpoint feed_all (chunks : list bytes) : M FrameParser (list Frame) :=
  match chunks with
  | [] => ret []
  | c :: cs => let! fs := feed c in let! fs' := feed_all cs in ret (fs ++ fs')
  end.

Definition decode_datagram (data : bytes) : res (string * bytes) :=
  if (length data <? 7)%nat || negb (bool_decide (slice 0 4 data = DATAGRAM_MAGIC))
     || negb (be_decode (slice 4 5 data) =? PROTOCOL_VERSION)
  then Raise (FramingError "invalid inner datagram")
  else
    let message_id_length := be_decode (slice 5 7 data) in
    let payload_offset := 7 + message_id_length in
    if negb ((1 <=? message_id_length) && (message_id_length <=? MAX_MESSAGE_ID_BYTES))
       || (payload_offset >? blen data)
       || (blen data - payload_offset >? MAX_DATAGRAM_PAYLOAD_BYTES)
    then Raise (FramingError "invalid inner datagram lengths")
    else
      match decode_utf8 (slice 7 (Z.to_nat payload_offset) data) with
      | Raise _ => Raise (FramingError "invalid datagram message ID")
      | Ok message_id => Ok (message_id, drop (Z.to_nat payload_offset) data)
      end.

(** [message_id.encode("utf-8")] of a string without lone surrogates. *)
Definition encode_datagram (message_id : string) (pl : bytes) : res bytes :=
  let encoded_id := str_bytes message_id in
  if negb ((1 <=? blen encoded_id) && (blen encoded_id <=? MAX_MESSAGE_ID_BYTES))
     || (blen pl >? MAX_DATAGRAM_PAYLOAD_BYTES)
  then Raise (FramingError "invalid inner datagram")
  else Ok (DATAGRAM_MAGIC ++ be_encode 1 PROTOCOL_VERSION ++ be_encode 2 (blen encoded_id)
           ++ encoded_id ++ pl).

(** ** Reference parser *)

Inductive ref_iteration := Break | Error (e : exn) | Took (f : Frame) (rest : bytes).

Definition ref_step (mpb : Z) (buf : bytes) : ref_iteration :=
  if (length buf <? HEADER_size)%nat then Break
  else match check_header mpb buf with
  | Raise e => Error e
  | Ok (t, mlen, plen) =>
    let total := (HEADER_size + mlen + plen)%nat in
    if (length buf <? total)%nat then Break
    else Took (mkFrame t (slice HEADER_size (HEADER_size + mlen) buf)
                         (slice (HEADER_size + mlen) total buf)) (drop total buf)
  end.

Fixpoint reference (fuel : nat) (mpb : Z) (buf : bytes) : bytes * res (list Frame) :=
  match fuel with
  | O => (buf, Ok [])
  | S fuel' =>
    match ref_step mpb buf with
    | Break => (buf, Ok [])
    | Error e => (buf, Raise e)
    | Took f rest =>
      match reference fuel' mpb rest with
      | (b, Ok fs) => (b, Ok (f :: fs))
      | (b, Raise e) => (b, Raise e)
      end
    end
  end.

(** What a parser retains between calls: the beginning of one frame. *)
Definition partial (mpb : Z) (buf : bytes) : Prop := ref_step mpb buf = Break.

Definition frame_ok (mpb : Z) (f : Frame) : Prop :=
  0 <= frame_type f < 256 /\ blen (metadata f) <= MAX_METADATA_BYTES /\ blen (payload f) <= mpb.

Definition wire (f : Frame) : bytes :=
  header (frame_type f) (blen (metadata f)) (blen (payload f)) ++ metadata f ++ payload f.
Definition wires (fs : list Frame) : bytes := concat (map wire fs).

(** ** Lemmas *)

Lemma slice_take i j n (l : bytes) : (j <= n)%nat -> slice i j (take n l) = slice i j l.
Proof.
  intros H. unfold slice. rewrite skipn_firstn_comm, take_take.
  f_equal. lia.
Qed.

Lemma unpack_take n (l : bytes) : (12 <= n)%nat -> unpack (take n l) = unpack l.
Proof. intros H. unfold unpack. by rewrite !slice_take by lia. Qed.

Lemma check_header_take mpb n (l : bytes) : (12 <= n)%nat -> check_header mpb (take n l) = check_header mpb l.
Proof. intros H. unfold check_header. by rewrite unpack_take. Qed.

Lemma extend_take k (a b : bytes) : a ++ take k b = take (length a + k) (a ++ b).
Proof. by rewrite take_app_add. Qed.

Lemma extend_drop k (a b : bytes) : drop k b = drop (length a + k) (a ++ b).
Proof. by rewrite drop_app_add. Qed.

Lemma ref_step_took mpb buf f rest :
  ref_step mpb buf = Took f rest -> (length rest + 12 <= length buf)%nat.
Proof.
  unfold ref_step, HEADER_size. intros H. destruct (length buf <? 12)%nat eqn:E; [done|].
  destruct (check_header mpb buf) as [[[t m] pl]|]; [|done].
  assert (12 <= 12 + m + pl)%nat as Ht by lia. revert H Ht. generalize (12 + m + pl)%nat.
  intros total H Ht. destruct (length buf <? total)%nat eqn:E2; simplify_eq.
  apply Nat.ltb_ge in E2. rewrite length_drop. lia.
Qed.

Lemma reference_fuel mpb n1 n2 buf :
  (length buf < n1)%nat -> (length buf < n2)%nat -> reference n1 mpb buf = reference n2 mpb buf.
Proof.
  revert n2 buf. induction n1 as [|n1 IH]; intros [|n2] buf H1 H2; try lia. simpl.
  destruct (ref_step mpb buf) as [| |f rest] eqn:E; try done.
  apply ref_step_took in E. by rewrite (IH n2 rest) by lia.
Qed.

Definition run_ref (mpb : Z) (buf : bytes) : bytes * res (list Frame) :=
  reference (S (length buf)) mpb buf.

Lemma run_ref_eq mpb buf :
  run_ref mpb buf =
  match ref_step mpb buf with
  | Break => (buf, Ok [])
  | Error e => (buf, Raise e)
  | Took f rest => match run_ref mpb rest with
                   | (b, Ok fs) => (b, Ok (f :: fs))
                   | (b, Raise e) => (b, Raise e)
                   end
  end.
Proof.
  unfold run_ref at 1. cbn [reference]. destruct (ref_step mpb buf) as [| |f rest] eqn:E; try done.
  apply ref_step_took in E. unfold run_ref. by rewrite (reference_fuel mpb _ (S (length rest)) rest) by lia.
Qed.

Lemma partial_short mpb buf : (length buf < 12)%nat -> partial mpb buf.
Proof. intros H. unfold partial, ref_step, HEADER_size. by rewrite (proj2 (Nat.ltb_lt _ _)). Qed.

(** A parser's buffer is bounded by one maximum-sized frame. *)
Lemma partial_bound mpb buf :
  0 <= mpb -> partial mpb buf -> blen buf < 12 + MAX_METADATA_BYTES + mpb.
Proof.
  unfold partial, ref_step, blen, HEADER_size, check_header. intros Hm H.
  assert (0 < MAX_METADATA_BYTES) by (unfold MAX_METADATA_BYTES; lia).
  destruct (length buf <? 12)%nat eqn:E; [apply Nat.ltb_lt in E; lia|].
  destruct (unpack buf) as [[[[magic v] t] ml] pl]. destruct (negb _ || negb _); [done|].
  destruct ((ml >? MAX_METADATA_BYTES) || (pl >? mpb)) eqn:E2; [done|].
  apply orb_false_iff in E2 as [E2 E3]. rewrite Z.gtb_ltb in E2, E3.
  apply Z.ltb_ge in E2, E3. destruct (length buf <? 12 + _ + _)%nat eqn:E4; [|done].
  apply Nat.ltb_lt in E4. lia.
Qed.

(** One pass of the source's loop agrees with one step of the reference parser
    on everything received so far. *)
Lemma feed_loop_reference mpb n buf rem :
  partial mpb buf -> (length buf + length rem < n)%nat ->
  let '(b, r) := feed_loop n mpb buf rem in
  let '(b', r') := run_ref mpb (buf ++ rem) in
  r = r' /\ (is_ok r = true -> b = b') /\ (is_ok r = false -> length b = 12%nat).
Proof.
  revert buf rem. induction n as [|n IH]; intros buf rem Hp Hn; [lia|].
  rewrite run_ref_eq. cbn [feed_loop]. destruct (0 <? length rem)%nat eqn:E0.
  2: { apply Nat.ltb_ge in E0. destruct rem; [|simpl in *; lia].
       rewrite app_nil_r. rewrite Hp. by repeat split. }
  set (whole := buf ++ rem). set (k := Nat.min (HEADER_size - length buf) (length rem)).
  rewrite (extend_take k buf rem), (extend_drop k buf rem). fold whole.
  assert (length whole = length buf + length rem)%nat as Hw by apply length_app.
  unfold HEADER_size in *. rewrite length_take.
  destruct (Nat.min _ _ <? 12)%nat eqn:E1.
  { apply Nat.ltb_lt in E1. rewrite take_ge by lia. unfold ref_step, HEADER_size.
    rewrite (proj2 (Nat.ltb_lt (length whole) 12)) by lia. by repeat split. }
  apply Nat.ltb_ge in E1. assert (12 <= length buf + k)%nat as Hk by lia.
  rewrite check_header_take by done. unfold ref_step at 1, HEADER_size.
  rewrite (proj2 (Nat.ltb_ge (length whole) 12)) by lia.
  destruct (check_header mpb whole) as [[[t ml] pl]|e] eqn:Ec.
  2: { repeat split; [done|]. intros _. rewrite length_take.
       destruct (decide (length buf < 12)%nat); [lia|]. exfalso.
       unfold partial, ref_step, HEADER_size in Hp.
       rewrite (proj2 (Nat.ltb_ge (length buf) 12)) in Hp by lia.
       rewrite <- (check_header_take mpb (length buf) whole) in Ec by lia.
       unfold whole in Ec. rewrite take_app_length in Ec. by rewrite Ec in Hp. }
  set (total := (12 + ml + pl)%nat).
  assert (length buf + k <= total)%nat as Htot.
  { destruct (decide (length buf < 12)%nat); [lia|].
    unfold partial, ref_step, HEADER_size in Hp.
    rewrite (proj2 (Nat.ltb_ge (length buf) 12)) in Hp by lia.
    rewrite <- (check_header_take mpb (length buf) whole) in Ec by lia.
    unfold whole in Ec. rewrite take_app_length in Ec. rewrite Ec in Hp.
    destruct (length buf <? 12 + _ + _)%nat eqn:E5; [|done]. apply Nat.ltb_lt in E5. lia. }
  rewrite (Nat.min_l (length buf + k)) by lia. rewrite length_drop.
  set (k2 := Nat.min _ _).
  assert (take (length buf + k) whole ++ take k2 (drop (length buf + k) whole)
          = take (length buf + k + k2) whole) as -> by (by rewrite take_take_drop).
  rewrite drop_drop, length_take.
  destruct (Nat.min (length buf + k + k2) (length whole) <? total)%nat eqn:E2.
  { apply Nat.ltb_lt in E2. rewrite (proj2 (Nat.ltb_lt (length whole) total)) by lia.
    rewrite take_ge by lia. by repeat split. }
  apply Nat.ltb_ge in E2. rewrite (proj2 (Nat.ltb_ge (length whole) total)) by lia.
  assert (length buf + k + k2 = total)%nat as -> by lia.
  rewrite !slice_take by lia. rewrite skipn_firstn_comm, Nat.sub_diag, take_0.
  specialize (IH [] (drop total whole)). cbn [app] in IH.
  destruct (feed_loop n mpb [] (drop total whole)) as [b [fs|e]];
    destruct (run_ref mpb (drop total whole)) as [b' [fs'|e']];
    (destruct IH as (Hr & Hb & Hl); [by apply partial_short; simpl; lia|rewrite length_drop; simpl; lia|]);
    simplify_eq; auto.
Qed.

Lemma ref_step_app mpb a b :
  match ref_step mpb a with
  | Break => True
  | Error e => ref_step mpb (a ++ b) = Error e
  | Took f rest => ref_step mpb (a ++ b) = Took f (rest ++ b)
  end.
Proof.
  unfold ref_step, HEADER_size. destruct (length a <? 12)%nat eqn:Hl; [done|]. apply Nat.ltb_ge in Hl.
  rewrite (proj2 (Nat.ltb_ge (length (a ++ b)) 12)) by (rewrite length_app; lia).
  rewrite <- (check_header_take mpb (length a) (a ++ b)), take_app_length by lia.
  destruct (check_header mpb a) as [[[t m] pl]|]; [|done].
  assert (12 + m <= 12 + m + pl)%nat as Ht by lia. revert Ht.
  generalize (12 + m)%nat (12 + m + pl)%nat. intros mid total Ht.
  destruct (length a <? total)%nat eqn:E; [done|]. apply Nat.ltb_ge in E.
  rewrite (proj2 (Nat.ltb_ge (length (a ++ b)) total)) by (rewrite length_app; lia).
  rewrite <- (slice_take 12 mid (length a) (a ++ b)), <- (slice_take mid total (length a) (a ++ b)) by lia.
  by rewrite take_app_length, drop_app_le by lia.
Qed.

Lemma run_ref_app mpb n a b b' fs :
  (length a < n)%nat -> run_ref mpb (a ++ b) = (b', Ok fs) ->
  exists a' fs1 fs2, run_ref mpb a = (a', Ok fs1) /\
    run_ref mpb (a' ++ b) = (b', Ok fs2) /\ fs = fs1 ++ fs2.
Proof.
  revert a fs. induction n as [|n IH]; intros a fs Hn H; [lia|].
  pose proof (ref_step_app mpb a b) as Ha; rewrite (run_ref_eq mpb a).
  destruct (ref_step mpb a) as [|e|f rest] eqn:Ei; [by eauto 8| |].
  - by rewrite run_ref_eq, Ha in H.
  - rewrite run_ref_eq, Ha in H. destruct (run_ref mpb (rest ++ b)) as [b1 [fs1|e]] eqn:Er; [|done].
    simplify_eq. apply ref_step_took in Ei.
    destruct (IH rest fs1) as (a' & l1 & l2 & -> & H2 & ->); [lia|done|].
    exists a', (f :: l1), l2. auto.
Qed.

Lemma run_ref_partial mpb n buf b fs :
  (length buf < n)%nat -> run_ref mpb buf = (b, Ok fs) -> partial mpb b.
Proof.
  revert buf fs. induction n as [|n IH]; intros buf fs Hn H; [lia|]. rewrite run_ref_eq in H.
  destruct (ref_step mpb buf) as [|e|f rest] eqn:Ei; simplify_eq; [done|].
  apply ref_step_took in Ei. destruct (run_ref mpb rest) as [b1 [fs1|e]] eqn:Er; simplify_eq.
  eapply IH; [|exact Er]. lia.
Qed.

Lemma slice_frame_header (h1 h2 h3 h4 h5 rest : bytes) :
  length h1 = 4%nat -> length h2 = 1%nat -> length h3 = 1%nat -> length h4 = 2%nat ->
  length h5 = 4%nat ->
  let buf := h1 ++ h2 ++ h3 ++ h4 ++ h5 ++ rest in
  slice 0 4 buf = h1 /\ slice 4 5 buf = h2 /\ slice 5 6 buf = h3 /\ slice 6 8 buf = h4 /\
  slice 8 12 buf = h5 /\ drop 12 buf = rest.
Proof.
  intros H1 H2 H3 H4 H5. do 5 (destruct h1 as [|? h1]; simpl in H1; try lia).
  do 2 (destruct h2 as [|? h2]; simpl in H2; try lia).
  do 2 (destruct h3 as [|? h3]; simpl in H3; try lia).
  do 3 (destruct h4 as [|? h4]; simpl in H4; try lia).
  do 5 (destruct h5 as [|? h5]; simpl in H5; try lia). simpl.
  unfold slice. simpl. by rewrite take_0.
Qed.

Lemma slice_body (h m p rest : bytes) n :
  length h = n ->
  slice n (n + length m) (h ++ m ++ p ++ rest) = m /\
  slice (n + length m) (n + length m + length p) (h ++ m ++ p ++ rest) = p /\
  drop (n + length m + length p) (h ++ m ++ p ++ rest) = rest.
Proof.
  intros <-. unfold slice. rewrite <- (Nat.add_assoc (length h)), !drop_app_add, !drop_app_length.
  rewrite !Nat.add_assoc.
  replace (length h + length m - length h)%nat with (length m) by lia.
  replace (length h + length m + length p - (length h + length m))%nat with (length p) by lia.
  by rewrite !take_app_length.
Qed.

Lemma ref_step_wire mpb f rest :
  mpb < 2 ^ 32 -> frame_ok mpb f -> ref_step mpb (wire f ++ rest) = Took f rest.
Proof.
  unfold MAX_METADATA_BYTES. intros Hm (Ht & Hml & Hpl). unfold MAX_METADATA_BYTES in Hml.
  unfold ref_step, check_header, unpack, wire, header, HEADER_size, blen in *. rewrite <- !app_assoc.
  set (h2 := be_encode 1 _). set (h3 := be_encode 1 _). set (h4 := be_encode 2 _).
  set (h5 := be_encode 4 _).
  destruct (slice_frame_header STREAM_MAGIC h2 h3 h4 h5 (metadata f ++ payload f ++ rest))
    as (-> & -> & -> & -> & -> & _); try apply length_be_encode; [done|].
  rewrite (proj2 (Nat.ltb_ge _ 12)).
  2: { rewrite !length_app. unfold h2, h3, h4, h5. rewrite !length_be_encode. simpl. lia. }
  unfold h2, h3, h4, h5. rewrite !be_decode_encode_small by (unfold PROTOCOL_VERSION; simpl; lia).
  rewrite bool_decide_eq_true_2, Z.eqb_refl by done. cbn [negb orb]. unfold MAX_METADATA_BYTES.
  rewrite !Z.gtb_ltb, !(proj2 (Z.ltb_ge _ _)) by lia. cbn [orb]. rewrite !Nat2Z.id.
  fold h2 h3 h4 h5. rewrite (proj2 (Nat.ltb_ge _ _)).
  2: { rewrite !length_app. unfold h2, h3, h4, h5. rewrite !length_be_encode. simpl. lia. }
  replace (STREAM_MAGIC ++ h2 ++ h3 ++ h4 ++ h5 ++ metadata f ++ payload f ++ rest)
    with ((STREAM_MAGIC ++ h2 ++ h3 ++ h4 ++ h5) ++ metadata f ++ payload f ++ rest)
    by (by rewrite <- !app_assoc).
  destruct (slice_body (STREAM_MAGIC ++ h2 ++ h3 ++ h4 ++ h5) (metadata f) (payload f) rest 12)
    as (-> & -> & ->).
  { rewrite !length_app. unfold h2, h3, h4, h5. by rewrite !length_be_encode. }
  by destruct f.
Qed.

Lemma run_ref_wires mpb fs :
  mpb < 2 ^ 32 -> Forall (frame_ok mpb) fs -> run_ref mpb (wires fs) = ([], Ok fs).
Proof.
  intros Hm. induction 1 as [|f fs Hf Hfs IH]; [reflexivity|].
  change (wires (f :: fs)) with (wire f ++ wires fs).
  rewrite run_ref_eq, ref_step_wire by done. by rewrite IH.
Qed.

Lemma feed_spec data p :
  partial (max_payload_bytes p) (buffer p) ->
  let '(p', r) := feed data p in
  let '(b', r') := run_ref (max_payload_bytes p) (buffer p ++ data) in
  r = r' /\ max_payload_bytes p' = max_payload_bytes p /\
  (is_ok r = true -> buffer p' = b' /\ partial (max_payload_bytes p) (buffer p')) /\
  (is_ok r = false -> length (buffer p') = 12%nat).
Proof.
  intros Hp. unfold feed.
  pose proof (feed_loop_reference _ (S (length (buffer p) + length data)) _ data Hp (le_n _)) as H.
  destruct (feed_loop _ _ _ _) as [b r]. destruct (run_ref _ _) as [b' r'] eqn:Er.
  destruct H as (-> & Hb & He). simpl. split; [done|]. split; [done|]. split; [|done].
  intros Hok. destruct r'; [|done]. rewrite (Hb Hok). split; [done|].
  eapply run_ref_partial; [|exact Er]. apply Nat.lt_succ_diag_r.
Qed.

Lemma feed_all_spec p chunks b fs :
  partial (max_payload_bytes p) (buffer p) ->
  run_ref (max_payload_bytes p) (buffer p ++ concat chunks) = (b, Ok fs) ->
  feed_all chunks p = (set_buffer b p, Ok fs).
Proof.
  revert p fs. induction chunks as [|c cs IH]; intros p fs Hp Hr; simpl in *.
  - rewrite app_nil_r, run_ref_eq, Hp in Hr. simplify_eq. by destruct p.
  - rewrite app_assoc in Hr.
    apply (run_ref_app _ (S (length (buffer p ++ c)))) in Hr as (a' & fs1 & fs2 & H1 & H2 & ->); [|lia].
    pose proof (feed_spec c p Hp) as Hs. unfold bind. destruct (feed c p) as [p' r].
    rewrite H1 in Hs. destruct Hs as (-> & Hm & Hok & _). destruct Hok as [Hb Hp']; [done|].
    rewrite (IH p' fs2); rewrite ?Hm, ?Hb in *; try done.
    unfold set_buffer. by rewrite Hm.
Qed.

(** ** Properties *)

Definition parser_ok (p : FrameParser) : Prop :=
  0 <= max_payload_bytes p < 2 ^ 32 /\ partial (max_payload_bytes p) (buffer p).

(** C6: the incremental parser computes what the reference parser computes on
    all the bytes received so far: the same frames in the same order, the same
    exception, and after a successful call the same left-over bytes. *)
Theorem feed_equals_reference (p : FrameParser) (data : bytes) :
  partial (max_payload_bytes p) (buffer p) ->
  let all := buffer p ++ data in
  snd (feed data p) = snd (reference (S (length all)) (max_payload_bytes p) all) /\
  (is_ok (snd (feed data p)) = true ->
   buffer (fst (feed data p)) = fst (reference (S (length all)) (max_payload_bytes p) all)).
Proof.
  intros Hp all. pose proof (feed_spec data p Hp) as H.
  fold (run_ref (max_payload_bytes p) all). fold all in H.
  destruct (feed data p) as [p' r]. destruct (run_ref (max_payload_bytes p) all) as [b' r'].
  destruct H as (-> & _ & Hok & _). simpl. split; [done|]. intros Hr. by apply Hok.
Qed.

Definition sample_frame : Frame := mkFrame FRAME_RELIABLE (str_bytes "{}") (str_bytes "payload").

Lemma feed_equals_reference_witness :
  let p := mkParser (str_bytes "QP") 65536 in
  let all := buffer p ++ str_bytes "3F" in
  snd (feed (str_bytes "3F") p) = snd (reference (S (length all)) (max_payload_bytes p) all) /\
  (is_ok (snd (feed (str_bytes "3F") p)) = true ->
   buffer (fst (feed (str_bytes "3F") p)) = fst (reference (S (length all)) (max_payload_bytes p) all)).
Proof.
  apply (feed_equals_reference (mkParser (str_bytes "QP") 65536) (str_bytes "3F")). reflexivity.
Defined.

(** encoding then feeding gives the frames back, for every way of cutting
    the byte stream into chunks, with no condition on the chunk sizes, and the
    parser ends empty. *)
Theorem private_stream_roundtrip (p : FrameParser) (fs : list Frame) (chunks : list bytes) :
  max_payload_bytes p <= MAX_RELIABLE_PAYLOAD_BYTES -> buffer p = [] ->
  Forall (frame_ok (max_payload_bytes p)) fs ->
  (exists encodings, Forall2 (fun f e => encode_frame f = Ok e) fs encodings /\
     concat chunks = concat encodings) ->
  feed_all chunks p = (p, Ok fs).
Proof.
  unfold MAX_RELIABLE_PAYLOAD_BYTES. intros Hm Hb Hfs (encs & Henc & Hcat).
  assert (concat encs = wires fs) as He.
  { clear Hcat. revert Hfs. induction Henc as [|f e fs encs Hf Hrest IH]; intros Hfs; [done|].
    apply Forall_cons in Hfs as [(Ht & Hml & Hpl) Hfs]. unfold wires. simpl.
    rewrite IH by done. unfold wires. f_equal. unfold encode_frame in Hf.
    destruct (_ || _); [done|]. destruct (negb _); [done|]. by injection Hf as <-. }
  rewrite (feed_all_spec p chunks [] fs).
  - unfold set_buffer. destruct p; simpl in *. by subst.
  - rewrite Hb. apply partial_short. simpl. lia.
  - rewrite Hb, Hcat, He. apply run_ref_wires; [lia|done].
Qed.

Lemma private_stream_roundtrip_witness :
  feed_all (map (fun b => [b]) (wires [sample_frame; sample_frame])) (mkParser [] 65536)
  = (mkParser [] 65536, Ok [sample_frame; sample_frame]).
Proof.
  apply (private_stream_roundtrip (mkParser [] 65536) [sample_frame; sample_frame]).
  - vm_compute. discriminate.
  - reflexivity.
  - unfold frame_ok, MAX_METADATA_BYTES, blen. repeat constructor; vm_compute; discriminate.
  - exists [wire sample_frame; wire sample_frame]. split; [|reflexivity].
    repeat constructor.
Defined.

(** the parser retains at most one incomplete frame, whatever arrives and
    also when it raises: fewer bytes than a header plus the largest metadata
    plus the largest payload. *)
Theorem private_buffer_bounded (p : FrameParser) (data : bytes) :
  parser_ok p ->
  blen (buffer (fst (feed data p))) < 12 + MAX_METADATA_BYTES + max_payload_bytes p.
Proof.
  intros [Hm Hp]. pose proof (feed_spec data p Hp) as H.
  destruct (feed data p) as [p' r]. destruct (run_ref _ _) as [b' r'].
  destruct H as (-> & _ & Hok & He). simpl. destruct (is_ok r') eqn:E.
  - apply partial_bound; [lia|]. by apply Hok.
  - unfold blen. rewrite He by done. unfold MAX_METADATA_BYTES. lia.
Qed.

Lemma private_buffer_bounded_witness :
  blen (buffer (fst (feed (str_bytes "QP3X and more") (mkParser [] 10)))) < 12 + MAX_METADATA_BYTES + 10.
Proof.
  apply (private_buffer_bounded (mkParser [] 10) (str_bytes "QP3X and more")).
  split; [simpl; lia|reflexivity].
Defined.

(** the datagram codec round-trips: an encoded datagram decodes to the same
    message id and payload, provided the id is valid UTF-8 (as every encodable
    Python string is). *)
Theorem datagram_roundtrip (message_id : string) (pl data : bytes) :
  utf8_valid (S (length (str_bytes message_id))) (str_bytes message_id) = true ->
  encode_datagram message_id pl = Ok data ->
  decode_datagram data = Ok (message_id, pl).
Proof.
  intros Hu He. unfold encode_datagram in He. unfold MAX_MESSAGE_ID_BYTES, MAX_DATAGRAM_PAYLOAD_BYTES in He.
  set (id := str_bytes message_id) in *.
  destruct (_ || _) eqn:Eb; [done|]. 
  assert (data = DATAGRAM_MAGIC ++ be_encode 1 PROTOCOL_VERSION ++ be_encode 2 (blen id) ++ id ++ pl)
    as -> by congruence. clear He.
  apply orb_false_iff in Eb as [Eb Ep]. apply negb_false_iff, andb_true_iff in Eb as [Eb1 Eb2].
  unfold blen in *. apply Z.leb_le in Eb1, Eb2. rewrite Z.gtb_ltb in Ep. apply Z.ltb_ge in Ep.
  unfold decode_datagram, blen.
  set (h2 := be_encode 1 PROTOCOL_VERSION). set (h3 := be_encode 2 (Z.of_nat (length id))).
  set (hdr := DATAGRAM_MAGIC ++ h2 ++ h3).
  assert (length hdr = 7%nat) as Hh.
  { unfold hdr, h2, h3. rewrite !length_app, !length_be_encode. reflexivity. }
  replace (DATAGRAM_MAGIC ++ h2 ++ h3 ++ id ++ pl) with (hdr ++ id ++ pl)
    by (unfold hdr; by rewrite <- !app_assoc).
  assert (forall i j, (j <= 7)%nat -> slice i j (hdr ++ id ++ pl) = slice i j hdr) as Hs.
  { intros i j Hj. rewrite <- (slice_take i j 7 (hdr ++ id ++ pl)) by done.
    rewrite <- Hh. by rewrite take_app_length. }
  assert (slice 0 4 hdr = DATAGRAM_MAGIC /\ slice 4 5 hdr = h2 /\ slice 5 7 hdr = h3) as (S1 & S2 & S3).
  { unfold hdr, h3. done. }
  clearbody hdr. rewrite !Hs by lia. rewrite S1, S2, S3.
  rewrite bool_decide_eq_true_2 by done. unfold h2, h3. rewrite !be_decode_encode_small by
    (unfold PROTOCOL_VERSION; simpl; lia). rewrite Z.eqb_refl.
  rewrite !length_app, Hh, (proj2 (Nat.ltb_ge _ 7)) by lia. cbn [negb orb].
  unfold MAX_MESSAGE_ID_BYTES, MAX_DATAGRAM_PAYLOAD_BYTES.
  rewrite (proj2 (Z.leb_le 1 _)), (proj2 (Z.leb_le _ 128)) by lia.
  rewrite !Z.gtb_ltb, (proj2 (Z.ltb_ge _ (7 + _))), (proj2 (Z.ltb_ge 1024 _)) by lia. cbn [andb negb orb].
  replace (Z.to_nat (7 + Z.of_nat (length id))) with (7 + length id)%nat by lia.
  pose proof (slice_body hdr id pl [] 7 Hh) as (Hb & _ & _). rewrite app_nil_r in Hb. rewrite Hb.
  unfold decode_utf8. rewrite Hu. unfold id. rewrite bytes_str_bytes. fold id.
  rewrite <- Hh, drop_app_add, drop_app_length. done.
Qed.

Lemma datagram_roundtrip_witness :
  decode_datagram (DATAGRAM_MAGIC ++ [Byte.x01; Byte.x00; Byte.x02] ++ str_bytes "id" ++ [Byte.xff])
  = Ok ("id", [Byte.xff]).
Proof. apply (datagram_roundtrip "id" [Byte.xff]); reflexivity. Defined.

End Private.
