(* ===== verification/Base64.v ===== *)
(** * Base64 as CPython implements it

    [binascii.a2b_base64] in its lenient and strict modes (the character loop
    of the C source: quad position, left-over bits, pad count), [b64encode],
    and the URL-safe translation.  The code base decodes with
    [b64decode(s, validate=True)] (strict) and [urlsafe_b64decode] (lenient). *)

From stdpp Require Import prelude strings list.
From Stdlib Require Import ZArith Lia.
From S2P Require Import Prelude PyBytes.

(** ** Model *)

Definition PAD : byte := Byte.x3d.

(** The standard alphabet. *)
Definition b64_char (v : Z) : byte :=
  if v <? 26 then byte_of (65 + v)
  else if v <? 52 then byte_of (97 + (v - 26))
  else if v <? 62 then byte_of (48 + (v - 52))
  else if v =? 62 then Byte.x2b else Byte.x2f.

Definition b64_val (c : byte) : option Z :=
  let n := byte_val c in
  if in_range 65 90 c then Some (n - 65)
  else if in_range 97 122 c then Some (n - 97 + 26)
  else if in_range 48 57 c then Some (n - 48 + 52)
  else if n =? 43 then Some 62
  else if n =? 47 then Some 63
  else None.

(** The loop of [a2b_base64]: [q] is the position in the current group of four,
    [left] the bits kept from the previous character, [pads] the number of pad
    characters seen, [padded] whether any was seen. *)
Fixpoint a2b_loop (strict : bool) (l : bytes) (q : nat) (left : Z) (pads : nat) (padded : bool)
  : res bytes :=
  match l with
  | [] => match q with O => Ok [] | _ => Raise BinasciiError end
  | c :: l' =>
    if bool_decide (c = PAD) then
      if strict && (q =? 0)%nat then Raise BinasciiError
      else if (2 <=? q)%nat then
        if (4 <=? q + S pads)%nat then
          if strict && (0 <? length l')%nat then Raise BinasciiError else Ok []
        else a2b_loop strict l' q left (S pads) true
      else a2b_loop strict l' q left pads true
    else
      match b64_val c with
      | None => if strict then Raise BinasciiError else a2b_loop strict l' q left pads padded
      | Some v =>
        if strict && padded then Raise BinasciiError
        else match q with
        | 0%nat => a2b_loop strict l' 1 v 0 padded
        | 1%nat => let? r := a2b_loop strict l' 2 (v mod 16) 0 padded in
                   Ok (byte_of (left * 4 + v / 16) :: r)
        | 2%nat => let? r := a2b_loop strict l' 3 (v mod 4) 0 padded in
                   Ok (byte_of (left * 16 + v / 4) :: r)
        | _ => let? r := a2b_loop strict l' 0 0 0 padded in
               Ok (byte_of (left * 64 + v) :: r)
        end
      end
  end.

Definition a2b_base64 (strict : bool) (l : bytes) : res bytes := a2b_loop strict l 0 0 0 false.

(** [base64.b64decode(s, validate=True)]; a non-ASCII string is a
    [ValueError]. *)
Definition b64decode_validate (s : string) : res bytes :=
  match encode_ascii s with
  | Ok l => a2b_base64 true l
  | Raise _ => Raise (ValueError "string argument should contain only ASCII characters")
  end.

(** [base64.urlsafe_b64decode(s)] *)
Definition urlsafe_translate (c : byte) : byte :=
  if bool_decide (c = Byte.x2d) then Byte.x2b
  else if bool_decide (c = Byte.x5f) then Byte.x2f else c.

Definition urlsafe_b64decode (s : string) : res bytes :=
  match encode_ascii s with
  | Ok l => a2b_base64 false (map urlsafe_translate l)
  | Raise _ => Raise (ValueError "string argument should contain only ASCII characters")
  end.

(** The 6-bit groups of a byte string, and [b64encode]. *)
Fixpoint sextets (l : bytes) : list Z :=
  match l with
  | a :: b :: c :: l' =>
    let '(x, y, z) := (byte_val a, byte_val b, byte_val c) in
    [x / 4; x mod 4 * 16 + y / 16; y mod 16 * 4 + z / 64; z mod 64] ++ sextets l'
  | [a; b] => let '(x, y) := (byte_val a, byte_val b) in
              [x / 4; x mod 4 * 16 + y / 16; y mod 16 * 4]
  | [a] => let x := byte_val a in [x / 4; x mod 4 * 16]
  | [] => []
  end.

(** Number of pad characters: [(3 - n mod 3) mod 3]. *)
Definition pad_count (l : bytes) : nat := ((3 - length l mod 3) mod 3)%nat.

Definition b64encode (l : bytes) : bytes := map b64_char (sextets l) ++ replicate (pad_count l) PAD.

(** The URL-safe alphabet, without padding. *)
Definition url_char (v : Z) : byte :=
  if v =? 62 then Byte.x2d else if v =? 63 then Byte.x5f else b64_char v.
Definition b64url_nopad (l : bytes) : bytes := map url_char (sextets l).

(** ** Lemmas *)

Definition sextet_ok (v : Z) : Prop := 0 <= v < 64.

Lemma sextet_cases (P : Z -> Prop) :
  Forall P (seqZ 0 64) -> forall v, sextet_ok v -> P v.
Proof. intros HP v Hv. eapply Forall_forall in HP; [exact HP|]. apply elem_of_seqZ. unfold sextet_ok in Hv. lia. Qed.

Lemma b64_char_facts v : sextet_ok v -> b64_val (b64_char v) = Some v /\ b64_char v ≠ PAD.
Proof.
  revert v. apply sextet_cases. apply Forall_forall. intros v Hv.
  assert (forallb (fun v => bool_decide (b64_val (b64_char v) = Some v) && bool_decide (b64_char v ≠ PAD))
            (seqZ 0 64) = true) as H by (vm_compute; reflexivity).
  rewrite forallb_forall in H. specialize (H v (proj1 (list_elem_of_In _ _) Hv)).
  apply andb_true_iff in H as [H1 H2]. split; [by eapply bool_decide_eq_true_1|by eapply bool_decide_eq_true_1].
Qed.

Lemma url_char_facts v : sextet_ok v ->
  urlsafe_translate (url_char v) = b64_char v /\ url_char v ≠ PAD /\ byte_val (url_char v) < 128 /\
  (is_alnum (url_char v) || is_char "_-" (url_char v)) = true.
Proof.
  revert v. apply sextet_cases. apply Forall_forall. intros v Hv.
  assert (forallb (fun v => bool_decide (urlsafe_translate (url_char v) = b64_char v)
             && bool_decide (url_char v ≠ PAD) && (byte_val (url_char v) <? 128)
             && (is_alnum (url_char v) || is_char "_-" (url_char v)))
            (seqZ 0 64) = true) as H by (vm_compute; reflexivity).
  rewrite forallb_forall in H. specialize (H v (proj1 (list_elem_of_In _ _) Hv)).
  rewrite !andb_true_iff in H. destruct H as [[[H1 H2] H3] H4].
  split; [by eapply bool_decide_eq_true_1|]. split; [by eapply bool_decide_eq_true_1|].
  split; [by apply Z.ltb_lt|done].
Qed.

(** Induction three bytes at a time. *)
Lemma triples_ind (P : bytes -> Prop) :
  P [] -> (forall a, P [a]) -> (forall a b, P [a; b]) ->
  (forall a b c l, P l -> P (a :: b :: c :: l)) -> forall l, P l.
Proof.
  intros H0 H1 H2 H3 l.
  assert (forall n (m : bytes), (length m <= n)%nat -> P m) as H; [|by apply (H (length l))].
  induction n as [|n IH]; intros [|a [|b [|c m]]] Hn; simpl in Hn; auto; try lia.
  apply H3, IH. lia.
Qed.

Lemma sextets_ok l : Forall sextet_ok (sextets l).
Proof.
  unfold sextet_ok. induction l as [|a|a b|a b c l IH] using triples_ind; cbn [sextets app];
    try pose proof (byte_val_range a); try pose proof (byte_val_range b);
    try pose proof (byte_val_range c);
    repeat (apply Forall_cons; split); try apply Forall_nil; try exact IH; try done;
    Z.to_euclidean_division_equations; lia.
Qed.

Lemma sextets_length l : length (sextets l) = ((4 * length l + 2) / 3)%nat.
Proof.
  induction l as [| | |a b c l IH] using triples_ind; try done. cbn [sextets app length]. rewrite IH.
  replace (4 * S (S (S (length l))) + 2)%nat with (4 * length l + 2 + 4 * 3)%nat by lia.
  rewrite Nat.div_add by lia. lia.
Qed.

Lemma a2b_sextet strict v l q left pads :
  sextet_ok v ->
  a2b_loop strict (b64_char v :: l) q left pads false =
  match q with
  | 0%nat => a2b_loop strict l 1 v 0 false
  | 1%nat => let? r := a2b_loop strict l 2 (v mod 16) 0 false in Ok (byte_of (left * 4 + v / 16) :: r)
  | 2%nat => let? r := a2b_loop strict l 3 (v mod 4) 0 false in Ok (byte_of (left * 16 + v / 4) :: r)
  | _ => let? r := a2b_loop strict l 0 0 0 false in Ok (byte_of (left * 64 + v) :: r)
  end.
Proof.
  intros Hv. apply b64_char_facts in Hv as [Hv Hp]. cbn [a2b_loop].
  rewrite bool_decide_eq_false_2, Hv, andb_false_r by done. done.
Qed.

Lemma byte_of_eq b n : n = byte_val b -> byte_of n = b.
Proof. intros ->. apply byte_of_val. Qed.

(** Decoding a complete group of four characters gives its three bytes. *)
Lemma a2b_group strict a b c rest :
  a2b_base64 strict (map b64_char (sextets [a; b; c]) ++ rest)
  = let? r := a2b_base64 strict rest in Ok (a :: b :: c :: r).
Proof.
  unfold a2b_base64. pose proof (sextets_ok [a; b; c]) as Hok. cbn [sextets app] in *.
  apply Forall_cons in Hok as [H1 Hok]. apply Forall_cons in Hok as [H2 Hok].
  apply Forall_cons in Hok as [H3 Hok]. apply Forall_cons in Hok as [H4 _]. cbn [map app].
  rewrite !a2b_sextet by done.
  pose proof (byte_val_range a). pose proof (byte_val_range b). pose proof (byte_val_range c).
  destruct (a2b_loop strict rest 0 0 0 false); cbn [rbind]; [|done].
  rewrite (byte_of_eq a), (byte_of_eq b), (byte_of_eq c); [done| | |];
    Z.to_euclidean_division_equations; lia.
Qed.

(** The last one or two bytes, followed by at least the pad characters that
    complete the group. *)
Lemma a2b_tail strict l k :
  (length l = 1%nat /\ (2 <= k)%nat \/ length l = 2%nat /\ (1 <= k)%nat) ->
  (strict = true -> length l + k = 3)%nat ->
  a2b_base64 strict (map b64_char (sextets l) ++ replicate k PAD) = Ok l.
Proof.
  intros Hl Hs. unfold a2b_base64. pose proof (sextets_ok l) as Hok.
  destruct l as [|a [|b [|c l]]]; simpl in Hl; try lia; cbn [sextets] in *.
  - apply Forall_cons in Hok as [H1 Hok]. apply Forall_cons in Hok as [H2 _].
    cbn [map app]. rewrite !a2b_sextet by done. pose proof (byte_val_range a).
    assert (exists k', k = S (S k')) as [k' ->] by (exists (k - 2)%nat; lia).
    cbn [replicate a2b_loop]. rewrite bool_decide_eq_true_2 by done.
    assert (strict && (0 <? length (replicate k' PAD))%nat = false) as ->.
    { destruct strict; [|done]. simpl in Hs. destruct k'; [done|]. specialize (Hs eq_refl). lia. }
    rewrite !andb_false_r. simpl. rewrite (byte_of_eq a); [done|].
    Z.to_euclidean_division_equations; lia.
  - apply Forall_cons in Hok as [H1 Hok]. apply Forall_cons in Hok as [H2 Hok].
    apply Forall_cons in Hok as [H3 _]. cbn [map app]. rewrite !a2b_sextet by done.
    pose proof (byte_val_range a). pose proof (byte_val_range b).
    assert (exists k', k = S k') as [k' ->] by (exists (k - 1)%nat; lia).
    cbn [replicate a2b_loop]. rewrite bool_decide_eq_true_2 by done.
    assert (strict && (0 <? length (replicate k' PAD))%nat = false) as ->.
    { destruct strict; [|done]. simpl in Hs. destruct k'; [done|]. specialize (Hs eq_refl). lia. }
    rewrite !andb_false_r. simpl.
    rewrite (byte_of_eq a), (byte_of_eq b); [done| |]; Z.to_euclidean_division_equations; lia.
Qed.

(** Pad characters after complete groups are ignored in lenient mode. *)
Lemma a2b_pads_ignored k : a2b_base64 false (replicate k PAD) = Ok [].
Proof.
  unfold a2b_base64. assert (forall p, a2b_loop false (replicate k PAD) 0 0 0 p = Ok []) as H; [|apply H].
  induction k as [|k IH]; intros p; cbn [replicate a2b_loop]; [done|].
  rewrite bool_decide_eq_true_2 by done. simpl. apply IH.
Qed.

Lemma a2b_lenient l k :
  (length l mod 3 = 0 \/ 3 <= length l mod 3 + k)%nat ->
  a2b_base64 false (map b64_char (sextets l) ++ replicate k PAD) = Ok l.
Proof.
  induction l as [| | |a b c l IH] using triples_ind; intros Hk.
  - apply a2b_pads_ignored.
  - apply a2b_tail; [|done]. simpl in *. lia.
  - apply a2b_tail; [|done]. simpl in *. lia.
  - change (sextets (a :: b :: c :: l)) with (sextets [a; b; c] ++ sextets l).
    rewrite map_app, <- app_assoc, a2b_group, IH; [done|].
    change (length (a :: b :: c :: l)) with (3 + length l)%nat in Hk.
    replace ((3 + length l) mod 3)%nat with (length l mod 3)%nat in Hk; [lia|].
    replace (3 + length l)%nat with (length l + 1 * 3)%nat by lia. by rewrite Nat.Div0.mod_add.
Qed.

(** Without enough padding, an incomplete group is an error. *)
Lemma a2b_lenient_unpadded l k :
  (0 < length l mod 3)%nat -> (length l mod 3 + k < 3)%nat ->
  a2b_base64 false (map b64_char (sextets l) ++ replicate k PAD) = Raise BinasciiError.
Proof.
  induction l as [| | |a b c l IH] using triples_ind; intros H1 H2.
  - simpl in H1. lia.
  - unfold a2b_base64. pose proof (sextets_ok [a]) as Hok. cbn [sextets] in *.
    apply Forall_cons in Hok as [Ha Hok]. apply Forall_cons in Hok as [Hb _].
    cbn [map app]. rewrite !a2b_sextet by done. simpl in H2.
    destruct k as [|[|k]]; [done|done|lia].
  - unfold a2b_base64. pose proof (sextets_ok [a; b]) as Hok. cbn [sextets] in *.
    apply Forall_cons in Hok as [Ha Hok]. apply Forall_cons in Hok as [Hb Hok].
    apply Forall_cons in Hok as [Hc _].
    cbn [map app]. rewrite !a2b_sextet by done. simpl in H2.
    destruct k as [|k]; [done|lia].
  - change (sextets (a :: b :: c :: l)) with (sextets [a; b; c] ++ sextets l).
    rewrite map_app, <- app_assoc, a2b_group.
    change (length (a :: b :: c :: l)) with (3 + length l)%nat in H1, H2.
    replace ((3 + length l) mod 3)%nat with (length l mod 3)%nat in H1, H2.
    2: { replace (3 + length l)%nat with (length l + 1 * 3)%nat by lia. by rewrite Nat.Div0.mod_add. }
    by rewrite IH.
Qed.

(** [b64decode(b64encode(l), validate=True) == l] *)
Lemma a2b_strict_encode l : a2b_base64 true (b64encode l) = Ok l.
Proof.
  unfold b64encode, pad_count. induction l as [| | |a b c l IH] using triples_ind.
  - done.
  - apply a2b_tail; simpl; lia.
  - apply a2b_tail; simpl; lia.
  - change (sextets (a :: b :: c :: l)) with (sextets [a; b; c] ++ sextets l).
    rewrite map_app, <- app_assoc, a2b_group.
    change (length (a :: b :: c :: l)) with (3 + length l)%nat.
    replace ((3 + length l) mod 3)%nat with (length l mod 3)%nat.
    2: { replace (3 + length l)%nat with (length l + 1 * 3)%nat by lia. by rewrite Nat.Div0.mod_add. }
    by rewrite IH.
Qed.

Lemma b64encode_ascii l : forallb (fun b => byte_val b <? 128) (b64encode l) = true.
Proof.
  unfold b64encode. rewrite forallb_app. apply andb_true_iff. split.
  - pose proof (sextets_ok l) as H. induction H as [|v vs Hv _ IH]; [done|]. cbn [map forallb].
    rewrite IH, andb_true_r. revert v Hv. apply sextet_cases.
    apply Forall_forall. intros v Hv.
    assert (forallb (fun v => byte_val (b64_char v) <? 128) (seqZ 0 64) = true) as H by (vm_compute; reflexivity).
    rewrite forallb_forall in H. by apply H, list_elem_of_In.
  - induction (pad_count l); [done|]. simpl. by rewrite IHn.
Qed.

Lemma b64decode_encode l : b64decode_validate (bytes_str (b64encode l)) = Ok l.
Proof.
  unfold b64decode_validate, encode_ascii. rewrite str_bytes_str, b64encode_ascii.
  apply a2b_strict_encode.
Qed.
