(* ===== verification/Sha256.v ===== *)
(** * SHA-256 ([hashlib.sha256])

    The code base hashes invitation tokens, session tokens, attachment tokens
    and room names with [hashlib.sha256].  This is the FIPS 180-4 function on
    32-bit words, executable, checked against the standard's test vectors. *)

From stdpp Require Import prelude strings list.
From Stdlib Require Import ZArith Lia.
From S2P Require Import Prelude PyBytes.

Definition w32 (x : Z) : Z := x mod 2 ^ 32.
Definition rotr (n x : Z) : Z := Z.lor (Z.shiftr x n) (w32 (Z.shiftl x (32 - n))).
Definition xor3 (a b c : Z) : Z := Z.lxor a (Z.lxor b c).
Definition not32 (x : Z) : Z := Z.lxor x 0xFFFFFFFF.

(** The constants are the first 32 bits of the fractional parts of the cube
    roots (the round constants) and square roots (the initial hash) of the
    first primes; they are computed here from that definition. *)
Definition is_prime (n : Z) : bool :=
  forallb (fun d => negb (n mod (Z.of_nat d) =? 0)) (seq 2 (Z.to_nat n - 2)).
Definition primes (below : nat) : list Z := List.filter is_prime (map Z.of_nat (seq 2 (below - 2))).

(** The largest [r] with [r ^ 3 <= n], by fixing its bits from the top. *)
Fixpoint cbrt_bits (bits : nat) (acc n : Z) : Z :=
  match bits with
  | O => acc
  | S b => let r := acc + 2 ^ Z.of_nat b in cbrt_bits b (if r * r * r <=? n then r else acc) n
  end.

Definition K256 : list Z :=
  Eval vm_compute in map (fun p => w32 (cbrt_bits 36 0 (Z.shiftl p 96))) (primes 312).

Record hash_state := mkHash { ha : Z; hb : Z; hc : Z; hd : Z; he : Z; hf : Z; hg : Z; hh : Z }.

Definition initial_hash : hash_state :=
  Eval vm_compute in
    match map (fun p => w32 (Z.sqrt (Z.shiftl p 64))) (primes 20) with
    | [a; b; c; d; e; f; g; h] => mkHash a b c d e f g h
    | _ => mkHash 0 0 0 0 0 0 0 0
    end.

(** The message schedule, newest word first. *)
Fixpoint schedule (n : nat) (ws : list Z) : list Z :=
  match n with
  | O => ws
  | S n' =>
    let at_ (i : nat) := nth i ws 0 in
    let s1 := xor3 (rotr 17 (at_ 1%nat)) (rotr 19 (at_ 1%nat)) (Z.shiftr (at_ 1%nat) 10) in
    let s0 := xor3 (rotr 7 (at_ 14%nat)) (rotr 18 (at_ 14%nat)) (Z.shiftr (at_ 14%nat) 3) in
    schedule n' (w32 (s1 + at_ 6%nat + s0 + at_ 15%nat) :: ws)
  end.

Definition round (s : hash_state) (kw : Z * Z) : hash_state :=
  let '(k, w) := kw in
  let S1 := xor3 (rotr 6 (he s)) (rotr 11 (he s)) (rotr 25 (he s)) in
  let ch := Z.lxor (Z.land (he s) (hf s)) (Z.land (not32 (he s)) (hg s)) in
  let t1 := w32 (hh s + S1 + ch + k + w) in
  let S0 := xor3 (rotr 2 (ha s)) (rotr 13 (ha s)) (rotr 22 (ha s)) in
  let maj := xor3 (Z.land (ha s) (hb s)) (Z.land (ha s) (hc s)) (Z.land (hb s) (hc s)) in
  let t2 := w32 (S0 + maj) in
  mkHash (w32 (t1 + t2)) (ha s) (hb s) (hc s) (w32 (hd s + t1)) (he s) (hf s) (hg s).

Definition compress (s : hash_state) (block : list Z) : hash_state :=
  let ws := rev (schedule 48 (rev block)) in
  let r := fold_left round (combine K256 ws) s in
  mkHash (w32 (ha s + ha r)) (w32 (hb s + hb r)) (w32 (hc s + hc r)) (w32 (hd s + hd r))
         (w32 (he s + he r)) (w32 (hf s + hf r)) (w32 (hg s + hg r)) (w32 (hh s + hh r)).

(** Padding to a multiple of 64 bytes: [0x80], zeroes, the bit length. *)
Definition padding (n : nat) : bytes :=
  Byte.x80 :: replicate ((119 - n mod 64) mod 64) Byte.x00 ++ be_encode 8 (8 * Z.of_nat n).

Fixpoint chunks_of (n fuel : nat) (l : bytes) : list bytes :=
  match fuel with
  | O => []
  | S fuel' => match l with [] => [] | _ => take n l :: chunks_of n fuel' (drop n l) end
  end.

Definition sha256 (m : bytes) : bytes :=
  let padded := m ++ padding (length m) in
  let blocks := chunks_of 64 (length padded) padded in
  let words b := map be_decode (chunks_of 4 (length b) b) in
  let s := fold_left (fun s b => compress s (words b)) blocks initial_hash in
  flat_map (be_encode 4) [ha s; hb s; hc s; hd s; he s; hf s; hg s; hh s].

(** [hashlib.sha256(m).hexdigest()] *)
Definition sha256_hex (m : bytes) : string := hex_of (sha256 m).

Lemma length_sha256 m : length (sha256 m) = 32%nat.
Proof.
  unfold sha256. cbn [flat_map]. rewrite !length_app, !length_be_encode. reflexivity.
Qed.

Example sha256_empty :
  sha256_hex [] = "e3b0c44298fc1c149afbf4c8996fb92427ae41e4649b934ca495991b7852b855".
Proof. vm_compute. reflexivity. Qed.

Example sha256_abc :
  sha256_hex (str_bytes "abc") = "ba7816bf8f01cfea414140de5dae2223b00361a396177a9cb410ff61f20015ad".
Proof. vm_compute. reflexivity. Qed.

Example sha256_two_blocks :
  sha256_hex (str_bytes "abcdbcdecdefdefgefghfghighijhijkijkljklmklmnlmnomnopnopq")
  = "248d6a61d20638b8e5c026930c3e6039a33ce45964ff2167f6ecedd419db06c1".
Proof. vm_compute. reflexivity. Qed.
