(* ===== verification/PyValue.v ===== *)
(** * Dynamic Python values

    What a handler receives ([Any]) and what it sends: the values of
    [json.loads] plus [bytes].  A float is kept as the decimal literal that
    denotes it (no IEEE rounding); a [dict] keeps its insertion order. *)

From stdpp Require Import prelude strings list gmap.
From Stdlib Require Import ZArith Lia.
From S2P Require Import Prelude PyDict PyBytes.

Inductive pyval :=
| VNone
| VBool (b : bool)
| VInt (n : Z)
| VFloat (literal : string)
| VStr (s : string)
| VBytes (l : bytes)
| VList (l : list pyval)
| VDict (d : odict string pyval).

(** Induction that reaches the elements of lists and dictionaries. *)
Section pyval_induction.
Context (P : pyval -> Prop).
Context (HNone : P VNone) (HBool : forall b, P (VBool b)) (HInt : forall n, P (VInt n))
  (HFloat : forall s, P (VFloat s)) (HStr : forall s, P (VStr s)) (HBytes : forall l, P (VBytes l))
  (HList : forall l, Forall P l -> P (VList l))
  (HDict : forall d, Forall (fun kv => P (snd kv)) d -> P (VDict d)).

Fixpoint pyval_nested_ind (v : pyval) : P v :=
  match v with
  | VNone => HNone
  | VBool b => HBool b
  | VInt n => HInt n
  | VFloat s => HFloat s
  | VStr s => HStr s
  | VBytes l => HBytes l
  | VList l => HList l ((fix go (l : list pyval) : Forall P l :=
      match l with [] => Forall_nil_2 P | x :: l' => Forall_cons_2 _ _ _ (pyval_nested_ind x) (go l') end) l)
  | VDict d => HDict d ((fix go (d : odict string pyval) : Forall (fun kv => P (snd kv)) d :=
      match d with
      | [] => Forall_nil_2 _
      | (k, x) :: d' => Forall_cons_2 _ (k, x) d' (pyval_nested_ind x) (go d')
      end) d)
  end.
End pyval_induction.

(** [isinstance(v, dict)] *)
Definition as_dict (v : pyval) : option (odict string pyval) :=
  match v with VDict d => Some d | _ => None end.

(** [isinstance(v, str)] *)
Definition as_str (v : pyval) : option string :=
  match v with VStr s => Some s | _ => None end.

(** [d.get(k)]: a missing key gives [None]. *)
Definition dget (k : string) (d : odict string pyval) : pyval := default VNone (od_get k d).

(** [set(message) == {..}] *)
Definition keys_are (ks : list string) (d : odict string pyval) : bool :=
  bool_decide (list_to_set (od_keys d) =@{gset string} list_to_set ks).

(** [isinstance(v, str) and pattern.fullmatch(v)] *)
Definition str_matching (m : string -> bool) (v : pyval) : option string :=
  match v with VStr s => if m s then Some s else None | _ => None end.

(** [v in {...}] for a set of strings: hashing a list or a dict raises. *)
Definition in_strings (v : pyval) (ss : list string) : res bool :=
  match v with
  | VStr s => Ok (bool_decide (s ∈ ss))
  | VList _ | VDict _ => Raise (TypeError "unhashable type")
  | _ => Ok false
  end.

(** The value of a float literal as [mantissa * 10 ^ exponent]; [NaN] and the
    infinities have none. *)
Fixpoint split_at (p : byte -> bool) (l : bytes) : bytes * option bytes :=
  match l with
  | [] => ([], None)
  | b :: l' => if p b then ([], Some l') else let '(i, f) := split_at p l' in (b :: i, f)
  end.

Definition digits_value (l : bytes) : Z := fold_left (fun acc b => acc * 10 + (byte_val b - 48)) l 0.

Definition signed_value (l : bytes) : Z :=
  match l with
  | b :: l' => if byte_val b =? 45 then - digits_value l'
               else if byte_val b =? 43 then digits_value l' else digits_value l
  | [] => 0
  end.

Definition float_value (s : string) : option (Z * Z) :=
  let '(m, e) := split_at (is_char "eE") (str_bytes s) in
  let '(i, f) := split_at (is_char ".") m in
  let frac := default [] f in
  if forallb (fun b => is_digit b || is_char "-" b) i && forallb is_digit frac
  then Some (signed_value (i ++ frac), match e with Some e => signed_value e | None => 0 end
             - Z.of_nat (length frac))
  else None.

(** [v == n] for an integer [n]: Python compares booleans and floats with
    integers by value. *)
Definition eq_int (v : pyval) (n : Z) : bool :=
  match v with
  | VInt m => m =? n
  | VBool b => (if b then 1 else 0) =? n
  | VFloat s => match float_value s with
                | Some (m, e) => if 0 <=? e then m * 10 ^ e =? n else m =? n * 10 ^ (- e)
                | None => false
                end
  | _ => false
  end.

(** [v == s] for a string [s] *)
Definition eq_str (v : pyval) (s : string) : bool :=
  match v with VStr t => bool_decide (t = s) | _ => false end.

(** A dict built from [(key, value)] pairs in order: a repeated key keeps its
    first position and its last value. *)
Definition dict_of_pairs (l : list (string * pyval)) : odict string pyval :=
  fold_left (fun d kv => od_set (fst kv) (snd kv) d) l [].

Lemma dict_of_pairs_wf_aux (l d : odict string pyval) :
  NoDup (od_keys d ++ map fst l) -> fold_left (fun d kv => od_set (fst kv) (snd kv) d) l d = d ++ l.
Proof.
  revert d. induction l as [|[k v] l IH]; intros d Hnd; simpl.
  - by rewrite app_nil_r.
  - simpl in Hnd. rewrite od_keys_set_new.
    + rewrite IH; [by rewrite <- app_assoc|]. unfold od_keys. rewrite map_app. simpl.
      by rewrite <- app_assoc.
    + apply od_get_None. intros Hin. apply NoDup_app in Hnd as (_ & Hd & _).
      apply (Hd k Hin). by left.
Qed.

Lemma dict_of_pairs_wf l : NoDup (map fst l) -> dict_of_pairs l = l.
Proof. intros H. unfold dict_of_pairs. by rewrite dict_of_pairs_wf_aux. Qed.

Lemma keys_are_mem ks d k :
  keys_are ks d = true -> k ∈ ks -> is_Some (od_get k d).
Proof.
  unfold keys_are. intros H%bool_decide_eq_true_1 Hk. apply od_get_is_Some.
  assert (k ∈@{gset string} list_to_set (od_keys d)) as Hin by (rewrite H; by apply elem_of_list_to_set).
  by apply elem_of_list_to_set in Hin.
Qed.
