(* ===== verification/Json.v ===== *)
(** * JSON as Python's [json] module writes and reads it

    [dumps] with the compact separators the code base passes, in both
    [ensure_ascii] modes, and [loads] (the scanner of [json.decoder]: strict
    strings, greedy numbers, last value of a repeated key).  Not modelled: the
    recursion limit of the interpreter on deeply nested input. *)

From stdpp Require Import prelude strings list.
From Stdlib Require Import ZArith Lia.
From S2P Require Import Prelude PyDict PyBytes PyValue.

(** ** Printing *)

Definition QUOTE : byte := Byte.x22.
Definition BACKSLASH : byte := Byte.x5c.
Definition COMMA : byte := Byte.x2c.
Definition COLON : byte := Byte.x3a.

Fixpoint dec_loop (fuel : nat) (n : Z) : bytes :=
  match fuel with
  | O => []
  | S f => if n <? 10 then [byte_of (48 + n)] else dec_loop f (n / 10) ++ [byte_of (48 + n mod 10)]
  end.

(** [str(n)] *)
Definition dec_nat (n : Z) : bytes := dec_loop (S (Z.to_nat (Z.log2 n))) n.
Definition dec (n : Z) : bytes := if n <? 0 then Byte.x2d :: dec_nat (- n) else dec_nat n.

Definition u_escape (n : Z) : bytes :=
  [BACKSLASH; Byte.x75; hex_digit (n / 4096 mod 16); hex_digit (n / 256 mod 16);
   hex_digit (n / 16 mod 16); hex_digit (n mod 16)].

(** The escapes both modes share. *)
Definition short_escape (b : byte) : option bytes :=
  let n := byte_val b in
  if n =? 34 then Some [BACKSLASH; QUOTE]
  else if n =? 92 then Some [BACKSLASH; BACKSLASH]
  else if n =? 10 then Some [BACKSLASH; Byte.x6e]
  else if n =? 13 then Some [BACKSLASH; Byte.x72]
  else if n =? 9 then Some [BACKSLASH; Byte.x74]
  else if n =? 12 then Some [BACKSLASH; Byte.x66]
  else if n =? 8 then Some [BACKSLASH; Byte.x62]
  else None.

Definition escape_byte (b : byte) : bytes :=
  match short_escape b with
  | Some e => e
  | None => if byte_val b <? 32 then u_escape (byte_val b) else [b]
  end.

(** The code point at the head of a (generalised) UTF-8 string. *)
Definition next_code_point (l : bytes) : option (Z * bytes) :=
  match l with
  | [] => None
  | b0 :: l1 =>
    let v := byte_val in
    if v b0 <? 128 then Some (v b0, l1)
    else match l1 with
    | b1 :: l2 =>
      if v b0 <? 224 then Some (v b0 mod 32 * 64 + v b1 mod 64, l2)
      else match l2 with
      | b2 :: l3 =>
        if v b0 <? 240 then Some (v b0 mod 16 * 4096 + v b1 mod 64 * 64 + v b2 mod 64, l3)
        else match l3 with
        | b3 :: l4 => Some (v b0 mod 8 * 262144 + v b1 mod 64 * 4096 + v b2 mod 64 * 64 + v b3 mod 64, l4)
        | [] => None
        end
      | [] => None
      end
    | [] => None
    end
  end.

(** [ensure_ascii=True]: everything outside the printable ASCII range is
    escaped, above U+FFFF as a surrogate pair. *)
Fixpoint escape_ascii (fuel : nat) (l : bytes) : bytes :=
  match fuel with
  | O => []
  | S f =>
    match next_code_point l with
    | None => []
    | Some (c, l') =>
      (if (32 <=? c) && (c <=? 126) && negb ((c =? 34) || (c =? 92)) then [byte_of c]
       else if c <? 128 then
         match short_escape (byte_of c) with Some e => e | None => u_escape c end
       else if c <? 65536 then u_escape c
       else u_escape (55296 + (c - 65536) / 1024) ++ u_escape (56320 + (c - 65536) mod 1024))
      ++ escape_ascii f l'
    end
  end.

Definition print_string (ensure_ascii : bool) (s : string) : bytes :=
  QUOTE :: (if ensure_ascii then escape_ascii (length (str_bytes s)) (str_bytes s)
            else flat_map escape_byte (str_bytes s)) ++ [QUOTE].

Fixpoint join (ls : list bytes) : bytes :=
  match ls with
  | [] => []
  | [x] => x
  | x :: ls' => x ++ COMMA :: join ls'
  end.

Fixpoint print (ea : bool) (v : pyval) : bytes :=
  match v with
  | VNone => str_bytes "null"
  | VBool true => str_bytes "true"
  | VBool false => str_bytes "false"
  | VInt n => dec n
  | VFloat s => str_bytes s
  | VStr s => print_string ea s
  | VBytes _ => []
  | VList l => Byte.x5b :: join (map (print ea) l) ++ [Byte.x5d]
  | VDict d => Byte.x7b :: join (map (fun kv => print_string ea (fst kv) ++ COLON :: print ea (snd kv)) d)
               ++ [Byte.x7d]
  end.

Fixpoint serialisable (v : pyval) : bool :=
  match v with
  | VBytes _ => false
  | VList l => forallb serialisable l
  | VDict d => forallb (fun kv => serialisable (snd kv)) d
  | _ => true
  end.

(** [json.dumps(v, separators=(",", ":"), ensure_ascii=ea)] *)
Definition dumps (ea : bool) (v : pyval) : res string :=
  if serialisable v then Ok (bytes_str (print ea v))
  else Raise (TypeError "Object of type bytes is not JSON serializable").

(** ** Parsing *)

Definition is_ws : char_class := fun b => (byte_val b =? 32) || (byte_val b =? 9) || (byte_val b =? 10) || (byte_val b =? 13).

Fixpoint skip_ws (l : bytes) : bytes :=
  match l with b :: l' => if is_ws b then skip_ws l' else l | [] => [] end.

Fixpoint span (p : byte -> bool) (l : bytes) : bytes * bytes :=
  match l with
  | b :: l' => if p b then let '(a, r) := span p l' in (b :: a, r) else ([], l)
  | [] => ([], [])
  end.

(** [(-?(?:0|[1-9]\d* ))(\.\d+)?([eE][-+]?\d+)?]: the literal, whether it has a
    fraction or an exponent, and what follows. *)
Definition scan_int (l : bytes) : option (bytes * bytes) :=
  match span is_digit l with
  | ([], _) => None
  | (d :: ds, r) => if byte_val d =? 48 then Some ([d], ds ++ r) else Some (d :: ds, r)
  end.

Definition scan_frac (l : bytes) : bytes * bytes :=
  match l with
  | b :: l' => if byte_val b =? 46
               then match span is_digit l' with ([], _) => ([], l) | (ds, r) => (b :: ds, r) end
               else ([], l)
  | [] => ([], [])
  end.

Definition scan_exp (l : bytes) : bytes * bytes :=
  match l with
  | b :: l' =>
    if is_char "eE" b then
      let '(sign, l2) := match l' with
                         | c :: l2 => if is_char "+-" c then ([c], l2) else ([], l')
                         | [] => ([], [])
                         end in
      match span is_digit l2 with ([], _) => ([], l) | (ds, r) => (b :: sign ++ ds, r) end
    else ([], l)
  | [] => ([], [])
  end.

Definition scan_number (l : bytes) : option (bytes * bool * bytes) :=
  let '(sign, l1) := match l with
                     | b :: l' => if byte_val b =? 45 then ([b], l') else ([], l)
                     | [] => ([], [])
                     end in
  match scan_int l1 with
  | None => None
  | Some (i, l2) =>
    let '(f, l3) := scan_frac l2 in
    let '(e, l4) := scan_exp l3 in
    Some (sign ++ i ++ f ++ e, match f ++ e with [] => false | _ => true end, l4)
  end.

(** CPython refuses to convert integer literals of more than 4300 digits. *)
Definition number_value (lit : bytes) (is_float : bool) : res pyval :=
  if is_float then Ok (VFloat (bytes_str lit))
  else if (4300 <? length (filter (fun b => is_digit b = true) lit))%nat
  then Raise (ValueError "Exceeds the limit (4300 digits) for integer string conversion")
  else Ok (VInt (signed_value lit)).

Definition hex_value (b : byte) : option Z :=
  if is_digit b then Some (byte_val b - 48)
  else if in_range 97 102 b then Some (byte_val b - 87)
  else if in_range 65 70 b then Some (byte_val b - 55)
  else None.

Definition hex4 (a b c d : byte) : option Z :=
  match hex_value a, hex_value b, hex_value c, hex_value d with
  | Some x, Some y, Some z, Some w => Some (x * 4096 + y * 256 + z * 16 + w)
  | _, _, _, _ => None
  end.

(** UTF-8 of a code point; a lone surrogate takes its three-byte form. *)
Definition utf8_of (c : Z) : bytes :=
  if c <? 128 then [byte_of c]
  else if c <? 2048 then [byte_of (192 + c / 64); byte_of (128 + c mod 64)]
  else if c <? 65536 then
    [byte_of (224 + c / 4096); byte_of (128 + c / 64 mod 64); byte_of (128 + c mod 64)]
  else [byte_of (240 + c / 262144); byte_of (128 + c / 4096 mod 64);
        byte_of (128 + c / 64 mod 64); byte_of (128 + c mod 64)].

Definition simple_escape (b : byte) : option byte :=
  let n := byte_val b in
  if n =? 34 then Some QUOTE else if n =? 92 then Some BACKSLASH else if n =? 47 then Some b
  else if n =? 98 then Some Byte.x08 else if n =? 102 then Some Byte.x0c
  else if n =? 110 then Some Byte.x0a else if n =? 114 then Some Byte.x0d
  else if n =? 116 then Some Byte.x09 else None.

(** The body of a string literal, after its opening quote. *)
Fixpoint scan_string (l : bytes) : option (bytes * bytes) :=
  match l with
  | [] => None
  | b :: l1 =>
    if bool_decide (b = QUOTE) then Some ([], l1)
    else if bool_decide (b = BACKSLASH) then
      match l1 with
      | [] => None
      | c :: l2 =>
        if byte_val c =? 117 then
          match l2 with
          | h1 :: h2 :: h3 :: h4 :: l3 =>
            match hex4 h1 h2 h3 h4 with
            | None => None
            | Some u =>
              let lone := match scan_string l3 with
                          | Some (s, r) => Some (utf8_of u ++ s, r)
                          | None => None
                          end in
              if (55296 <=? u) && (u <=? 56319) then
                match l3 with
                | b1 :: b2 :: k1 :: k2 :: k3 :: k4 :: l4 =>
                  if bool_decide (b1 = BACKSLASH) && (byte_val b2 =? 117) then
                    match hex4 k1 k2 k3 k4 with
                    | None => None
                    | Some u2 =>
                      if (56320 <=? u2) && (u2 <=? 57343) then
                        match scan_string l4 with
                        | Some (s, r) => Some (utf8_of (65536 + (u - 55296) * 1024 + (u2 - 56320)) ++ s, r)
                        | None => None
                        end
                      else lone
                    end
                  else lone
                | _ => lone
                end
              else lone
            end
          | _ => None
          end
        else
          match simple_escape c with
          | None => None
          | Some e => match scan_string l2 with Some (s, r) => Some (e :: s, r) | None => None end
          end
      end
    else if byte_val b <? 32 then None
    else match scan_string l1 with Some (s, r) => Some (b :: s, r) | None => None end
  end.

Definition strip_prefix (p : string) (l : bytes) : option bytes :=
  if bool_decide (take (length (str_bytes p)) l = str_bytes p)
  then Some (drop (length (str_bytes p)) l) else None.

Definition scan_constant (l : bytes) : res (pyval * bytes) :=
  match strip_prefix "null" l with Some r => Ok (VNone, r) | None =>
  match strip_prefix "true" l with Some r => Ok (VBool true, r) | None =>
  match strip_prefix "false" l with Some r => Ok (VBool false, r) | None =>
  match scan_number l with
  | Some (lit, fl, r) => let? v := number_value lit fl in Ok (v, r)
  | None =>
  match strip_prefix "NaN" l with Some r => Ok (VFloat "NaN", r) | None =>
  match strip_prefix "Infinity" l with Some r => Ok (VFloat "Infinity", r) | None =>
  match strip_prefix "-Infinity" l with Some r => Ok (VFloat "-Infinity", r) | None =>
  Raise JSONDecodeError end end end end end end end.

(** Values, the elements of an array (from the first character of an element)
    and the members of an object (from the quote of a key).  Every call
    consumes at least one character, so [length l] bounds the depth. *)
Fixpoint parse_value (fuel : nat) (l : bytes) {struct fuel} : res (pyval * bytes) :=
  match fuel with
  | O => Raise JSONDecodeError
  | S f =>
    match l with
    | [] => Raise JSONDecodeError
    | b :: l1 =>
      if bool_decide (b = QUOTE) then
        match scan_string l1 with
        | Some (s, r) => Ok (VStr (bytes_str s), r)
        | None => Raise JSONDecodeError
        end
      else if bool_decide (b = Byte.x7b) then
        match skip_ws l1 with
        | [] => Raise JSONDecodeError
        | c :: r => if bool_decide (c = Byte.x7d) then Ok (VDict [], r)
                    else let? '(kvs, r) := parse_members f (c :: r) in Ok (VDict (dict_of_pairs kvs), r)
        end
      else if bool_decide (b = Byte.x5b) then
        match skip_ws l1 with
        | [] => Raise JSONDecodeError
        | c :: r => if bool_decide (c = Byte.x5d) then Ok (VList [], r)
                    else let? '(vs, r) := parse_elems f (c :: r) in Ok (VList vs, r)
        end
      else scan_constant l
    end
  end
with parse_elems (fuel : nat) (l : bytes) {struct fuel} : res (list pyval * bytes) :=
  match fuel with
  | O => Raise JSONDecodeError
  | S f =>
    let? '(v, r) := parse_value f l in
    match skip_ws r with
    | [] => Raise JSONDecodeError
    | c :: r' =>
      if bool_decide (c = Byte.x5d) then Ok ([v], r')
      else if bool_decide (c = COMMA) then
        let? '(vs, r'') := parse_elems f (skip_ws r') in Ok (v :: vs, r'')
      else Raise JSONDecodeError
    end
  end
with parse_members (fuel : nat) (l : bytes) {struct fuel} : res (list (string * pyval) * bytes) :=
  match fuel with
  | O => Raise JSONDecodeError
  | S f =>
    match l with
    | [] => Raise JSONDecodeError
    | b :: l1 =>
      if negb (bool_decide (b = QUOTE)) then Raise JSONDecodeError
      else match scan_string l1 with
      | None => Raise JSONDecodeError
      | Some (k, r) =>
        match skip_ws r with
        | [] => Raise JSONDecodeError
        | c :: r1 =>
          if negb (bool_decide (c = COLON)) then Raise JSONDecodeError
          else
            let? '(v, r2) := parse_value f (skip_ws r1) in
            match skip_ws r2 with
            | [] => Raise JSONDecodeError
            | c2 :: r3 =>
              if bool_decide (c2 = Byte.x7d) then Ok ([(bytes_str k, v)], r3)
              else if bool_decide (c2 = COMMA) then
                let? '(kvs, r4) := parse_members f (skip_ws r3) in Ok ((bytes_str k, v) :: kvs, r4)
              else Raise JSONDecodeError
            end
        end
      end
    end
  end.

(** [json.loads(s)] of a string *)
Definition loads_bytes (l : bytes) : res pyval :=
  let? '(v, r) := parse_value (S (length l)) (skip_ws l) in
  match skip_ws r with [] => Ok v | _ => Raise JSONDecodeError end.

Definition loads (s : string) : res pyval := loads_bytes (str_bytes s).
