(* ===== verification/JsonFacts.v ===== *)
(** * JSON round trip

    [loads (dumps v) = v] for every value whose strings the chosen
    [ensure_ascii] mode prints losslessly, with the lemmas on literals, strings
    and numbers it rests on. *)

From stdpp Require Import prelude strings list.
From Stdlib Require Import ZArith Lia.
From S2P Require Import Prelude PyDict PyBytes PyValue Json.

(** ** What can be printed and read back *)

Definition ascii_string (s : string) : Prop :=
  forallb (fun b => byte_val b <? 128) (str_bytes s) = true.
Definition str_ok (ea : bool) (s : string) : Prop := ea = true -> ascii_string s.

Definition float_ok (s : string) : Prop :=
  scan_number (str_bytes s) = Some (str_bytes s, true, []).

(** No [bytes], integers of at most 4300 digits, distinct keys. *)
Fixpoint json_ok (ea : bool) (v : pyval) : Prop :=
  match v with
  | VBytes _ => False
  | VInt n => (length (dec_nat (Z.abs n)) <= 4300)%nat
  | VFloat s => float_ok s
  | VStr s => str_ok ea s
  | VList l => Forall id (map (json_ok ea) l)
  | VDict d => NoDup (od_keys d) /\ Forall id (map (fun kv => str_ok ea (fst kv) /\ json_ok ea (snd kv)) d)
  | _ => True
  end.

(** What may follow a value inside a larger text. *)
Definition delim (rest : bytes) : Prop :=
  match rest with [] => True | b :: _ => b = COMMA \/ b = Byte.x5d \/ b = Byte.x7d end.

(** ** Integers *)

Lemma digits_value_snoc l b : digits_value (l ++ [b]) = digits_value l * 10 + (byte_val b - 48).
Proof. unfold digits_value. by rewrite fold_left_app. Qed.

Lemma digit_byte n : 0 <= n < 10 -> byte_val (byte_of (48 + n)) = 48 + n.
Proof. intros H. rewrite byte_val_of, Z.mod_small; lia. Qed.

Lemma dec_loop_spec f n :
  0 <= n < 10 ^ Z.of_nat f ->
  digits_value (dec_loop f n) = n /\ forallb is_digit (dec_loop f n) = true /\
  ((0 < f)%nat -> exists d ds, dec_loop f n = d :: ds /\ (byte_val d = 48 -> n = 0 /\ ds = [])).
Proof.
  revert n. induction f as [|f IH]; intros n Hn.
  { change (10 ^ Z.of_nat 0) with 1 in Hn. replace n with 0 by lia.
    split; [done|]. split; [done|]. intros H. inversion H. }
  assert (forall m, 0 <= m < 10 -> is_digit (byte_of (48 + m)) = true) as Hdig.
  { intros m Hm. unfold is_digit, in_range. rewrite digit_byte by done. lia. }
  cbn [dec_loop]. destruct (n <? 10) eqn:E.
  - apply Z.ltb_lt in E. split; [|split].
    + unfold digits_value. cbn [fold_left]. rewrite digit_byte; lia.
    + cbn [forallb]. rewrite Hdig; [done|lia].
    + intros _. exists (byte_of (48 + n)), []. split; [done|]. rewrite digit_byte by lia.
      intros. split; [lia|done].
  - apply Z.ltb_ge in E. replace (Z.of_nat (S f)) with (Z.of_nat f + 1) in Hn by lia.
    rewrite Z.pow_add_r in Hn by lia.
    assert (0 <= n mod 10 < 10) by (apply Z.mod_pos_bound; lia).
    assert (0 <= n / 10 < 10 ^ Z.of_nat f) as Hq.
    { split; [apply Z.div_pos; lia|]. apply Z.div_lt_upper_bound; lia. }
    assert (1 <= n / 10) as Hq1 by (apply Z.div_le_lower_bound; lia).
    destruct (IH _ Hq) as (Hv & Hd & Hh). split; [|split].
    + rewrite digits_value_snoc, Hv, digit_byte by lia. pose proof (Z.div_mod n 10). lia.
    + rewrite forallb_app, Hd. cbn [forallb]. by rewrite Hdig.
    + intros _. destruct f as [|f]; [simpl in Hq; lia|].
      destruct Hh as (d & ds & -> & Hz); [lia|]. exists d, (ds ++ [byte_of (48 + n mod 10)]).
      split; [done|]. intros H0. destruct (Hz H0). lia.
Qed.

Lemma dec_nat_spec n :
  0 <= n ->
  digits_value (dec_nat n) = n /\ forallb is_digit (dec_nat n) = true /\
  exists d ds, dec_nat n = d :: ds /\ (byte_val d = 48 -> n = 0 /\ ds = []).
Proof.
  intros Hn. unfold dec_nat. set (f := S (Z.to_nat (Z.log2 n))).
  destruct (dec_loop_spec f n) as (Hv & Hd & Hh).
  - split; [done|]. destruct (decide (n = 0)) as [->|]; [apply Z.pow_pos_nonneg; lia|].
    pose proof (Z.log2_spec n ltac:(lia)) as [_ Hl]. pose proof (Z.log2_nonneg n).
    replace (Z.of_nat f) with (Z.succ (Z.log2 n)) by lia.
    eapply Z.lt_le_trans; [exact Hl|]. apply Z.pow_le_mono_l. lia.
  - split; [done|]. split; [done|]. apply Hh. lia.
Qed.

Lemma span_all p l rest :
  forallb p l = true -> match rest with [] => True | b :: _ => p b = false end ->
  span p (l ++ rest) = (l, rest).
Proof.
  intros Hl Hr. induction l as [|b l IH]; simpl in *.
  - destruct rest as [|b r]; [done|]. simpl. by rewrite Hr.
  - apply andb_true_iff in Hl as [-> Hl]. by rewrite IH.
Qed.

Lemma span_app p l a r rest :
  span p l = (a, r) -> match rest with [] => True | b :: _ => p b = false end ->
  span p (l ++ rest) = (a, r ++ rest).
Proof.
  intros H Hr. revert a r H. induction l as [|b l IH]; intros a r H; simpl in *.
  - simplify_eq. destruct rest as [|b rest']; [done|]. simpl. by rewrite Hr.
  - destruct (p b); [|by simplify_eq]. destruct (span p l) as [a' r']. simplify_eq.
    by rewrite (IH _ _ eq_refl).
Qed.

Lemma span_split p l a r : span p l = (a, r) -> l = a ++ r.
Proof.
  revert a r. induction l as [|b l IH]; intros a r H; simpl in *; [by simplify_eq|].
  destruct (p b); [|by simplify_eq]. destruct (span p l) as [a' r']. simplify_eq. simpl. f_equal. by apply IH.
Qed.

Lemma delim_not rest (p : byte -> bool) :
  delim rest -> p COMMA = false -> p Byte.x5d = false -> p Byte.x7d = false ->
  match rest with [] => True | b :: _ => p b = false end.
Proof. destruct rest as [|b r]; [done|]. by intros [->|[->| ->]]. Qed.

Lemma scan_int_app l i r rest :
  scan_int l = Some (i, r) -> delim rest -> scan_int (l ++ rest) = Some (i, r ++ rest).
Proof.
  unfold scan_int. intros H Hd. destruct (span is_digit l) as [a r'] eqn:E.
  rewrite (span_app _ _ _ _ rest E) by (by apply delim_not).
  destruct a as [|d ds]; [done|]. destruct (_ =? _); simplify_eq; by rewrite <- ?app_assoc.
Qed.

Lemma scan_frac_app l f r rest :
  scan_frac l = (f, r) -> delim rest -> scan_frac (l ++ rest) = (f, r ++ rest).
Proof.
  unfold scan_frac. intros H Hd. destruct l as [|b l]; simpl in *.
  - simplify_eq. destruct rest as [|c rest]; [done|]. destruct Hd as [->|[->| ->]]; reflexivity.
  - destruct (_ =? _); [|by simplify_eq]. destruct (span is_digit l) as [a r'] eqn:E.
    rewrite (span_app _ _ _ _ rest E) by (by apply delim_not). destruct a; by simplify_eq.
Qed.

Lemma scan_exp_app l e r rest :
  scan_exp l = (e, r) -> delim rest -> scan_exp (l ++ rest) = (e, r ++ rest).
Proof.
  unfold scan_exp. intros H Hd. destruct l as [|b l]; cbn [app] in *.
  - simplify_eq. destruct rest as [|c rest]; [done|]. destruct Hd as [->|[->| ->]]; reflexivity.
  - destruct (is_char "eE" b); [|by simplify_eq].
    destruct l as [|c l]; cbn [app].
    + simpl in H. simplify_eq. destruct rest as [|c rest]; [done|].
      assert (is_char "+-" c = false) as -> by (by destruct Hd as [->|[->| ->]]).
      pose proof (span_all is_digit [] (c :: rest) eq_refl (delim_not _ is_digit Hd eq_refl eq_refl eq_refl)) as Hs.
      simpl app in Hs. by rewrite Hs.
    + destruct (is_char "+-" c).
      * destruct (span is_digit l) as [a r'] eqn:E.
        rewrite (span_app _ _ _ _ rest E) by (by apply delim_not). destruct a; by simplify_eq.
      * destruct (span is_digit (c :: l)) as [a r'] eqn:E.
        change (c :: l ++ rest) with ((c :: l) ++ rest).
        rewrite (span_app _ _ _ _ rest E) by (by apply delim_not). destruct a; by simplify_eq.
Qed.

Lemma scan_number_app l lit fl r rest :
  scan_number l = Some (lit, fl, r) -> delim rest -> scan_number (l ++ rest) = Some (lit, fl, r ++ rest).
Proof.
  unfold scan_number. intros H Hd.
  assert (forall sign l1, match scan_int l1 with
    | None => None
    | Some (i, l2) => let '(f, l3) := scan_frac l2 in let '(e, l4) := scan_exp l3 in
        Some (sign ++ i ++ f ++ e, match f ++ e with [] => false | _ => true end, l4) end
      = Some (lit, fl, r) ->
    match scan_int (l1 ++ rest) with
    | None => None
    | Some (i, l2) => let '(f, l3) := scan_frac l2 in let '(e, l4) := scan_exp l3 in
        Some (sign ++ i ++ f ++ e, match f ++ e with [] => false | _ => true end, l4) end
      = Some (lit, fl, r ++ rest)) as Hgen.
  { intros sign l1 H1. destruct (scan_int l1) as [[i l2]|] eqn:Ei; [|done].
    rewrite (scan_int_app _ _ _ _ Ei Hd). destruct (scan_frac l2) as [f l3] eqn:Ef.
    rewrite (scan_frac_app _ _ _ _ Ef Hd). destruct (scan_exp l3) as [e l4] eqn:Ee.
    rewrite (scan_exp_app _ _ _ _ Ee Hd). by simplify_eq. }
  destruct l as [|b l]; cbn [app] in *.
  - done.
  - destruct (byte_val b =? 45); [by apply Hgen|]. by apply (Hgen [] (b :: l)).
Qed.

Lemma scan_number_head l lit fl r :
  scan_number l = Some (lit, fl, r) ->
  exists b l', l = b :: l' /\ (is_digit b || (byte_val b =? 45)) = true.
Proof.
  unfold scan_number. destruct l as [|b l]; [done|]. intros H. exists b, l. split; [done|].
  destruct (byte_val b =? 45); [by rewrite orb_true_r|].
  unfold scan_int in H. simpl in H. destruct (is_digit b); [done|]. done.
Qed.

Lemma strip_prefix_ne p c (b : byte) l :
  str_bytes p = c -> match c with [] => False | x :: _ => x ≠ b end -> strip_prefix p (b :: l) = None.
Proof.
  intros <- H. unfold strip_prefix. rewrite bool_decide_eq_false_2; [done|].
  destruct (str_bytes p); [done|]. simpl. congruence.
Qed.

Lemma scan_constant_number l lit fl r :
  scan_number l = Some (lit, fl, r) -> scan_constant l = let? v := number_value lit fl in Ok (v, r).
Proof.
  intros H. destruct (scan_number_head _ _ _ _ H) as (b & l' & -> & Hb). unfold scan_constant.
  rewrite (strip_prefix_ne "null" _ b l' eq_refl), (strip_prefix_ne "true" _ b l' eq_refl),
    (strip_prefix_ne "false" _ b l' eq_refl); try (intros <-; done). by rewrite H.
Qed.

Lemma filter_digits l : forallb is_digit l = true -> filter (fun b => is_digit b = true) l = l.
Proof.
  induction l as [|b l IH]; [done|]. cbn [forallb]. intros [Hb Hl]%andb_true_iff.
  rewrite filter_cons_True by done. f_equal; auto.
Qed.

Lemma signed_value_digits l : forallb is_digit l = true -> signed_value l = digits_value l.
Proof.
  destruct l as [|b l]; [done|]. cbn [forallb]. intros [Hb _]%andb_true_iff. unfold signed_value.
  unfold is_digit, in_range in Hb. destruct (byte_val b =? 45) eqn:E1; [lia|].
  destruct (byte_val b =? 43) eqn:E2; [lia|done].
Qed.

Lemma scan_int_dec n : 0 <= n -> scan_int (dec_nat n) = Some (dec_nat n, []).
Proof.
  intros Hn. destruct (dec_nat_spec n Hn) as (_ & Hd & d & ds & E & Hz). unfold scan_int.
  pose proof (span_all is_digit (dec_nat n) [] Hd I) as Hs. rewrite app_nil_r in Hs. rewrite Hs, E.
  destruct (byte_val d =? 48) eqn:E0; [|done].
  apply Z.eqb_eq in E0. destruct (Hz E0) as [_ ->]. done.
Qed.

Lemma scan_number_dec n : scan_number (dec n) = Some (dec n, false, []).
Proof.
  unfold dec. destruct (n <? 0) eqn:E.
  - unfold scan_number. change (byte_val Byte.x2d =? 45) with true. cbn [app]. cbv iota beta.
    rewrite scan_int_dec by lia. simpl. by rewrite app_nil_r.
  - destruct (dec_nat_spec n ltac:(lia)) as (_ & Hd & d & ds & Ed & Hz).
    unfold scan_number. rewrite Ed. rewrite Ed in Hd. cbn [forallb] in Hd.
    apply andb_true_iff in Hd as [Hd _]. unfold is_digit, in_range in Hd.
    destruct (byte_val d =? 45) eqn:E45; [lia|]. rewrite <- Ed.
    rewrite scan_int_dec by lia. simpl. by rewrite !app_nil_r.
Qed.

Lemma number_value_dec n :
  (length (dec_nat (Z.abs n)) <= 4300)%nat -> number_value (dec n) false = Ok (VInt n).
Proof.
  intros Hl. unfold number_value, dec. destruct (n <? 0) eqn:E.
  - destruct (dec_nat_spec (- n) ltac:(lia)) as (Hv & Hd & _).
    rewrite filter_cons_False by done. rewrite filter_digits by done.
    replace (- n) with (Z.abs n) at 1 by lia. rewrite (proj2 (Nat.ltb_ge _ _)) by done.
    unfold signed_value. change (byte_val Byte.x2d =? 45) with true. cbv iota. rewrite Hv. by rewrite Z.opp_involutive.
  - destruct (dec_nat_spec n ltac:(lia)) as (Hv & Hd & _).
    rewrite filter_digits by done. replace n with (Z.abs n) at 1 by lia.
    rewrite (proj2 (Nat.ltb_ge _ _)) by done. by rewrite signed_value_digits, Hv.
Qed.

(** ** Strings *)

Definition push (b : byte) (r : option (bytes * bytes)) : option (bytes * bytes) :=
  match r with Some (s, r) => Some (b :: s, r) | None => None end.

Lemma scan_escaped b l : scan_string (escape_byte b ++ l) = push b (scan_string l).
Proof. destruct b; reflexivity. Qed.

Lemma scan_string_plain s rest :
  scan_string (flat_map escape_byte s ++ QUOTE :: rest) = Some (s, rest).
Proof.
  induction s as [|b s IH]; [done|]. cbn [flat_map]. rewrite <- app_assoc, scan_escaped, IH. done.
Qed.

(** What [escape_ascii] writes for one ASCII byte. *)
Definition escape_ascii_byte (b : byte) : bytes :=
  if byte_val b =? 127 then u_escape 127 else escape_byte b.

Lemma escape_ascii_cons f b l :
  byte_val b <? 128 = true -> escape_ascii (S f) (b :: l) = escape_ascii_byte b ++ escape_ascii f l.
Proof. intros H. destruct b; first [discriminate H | reflexivity]. Qed.

Lemma scan_escaped_ascii b l :
  byte_val b <? 128 = true -> scan_string (escape_ascii_byte b ++ l) = push b (scan_string l).
Proof. intros H. destruct b; first [discriminate H | reflexivity]. Qed.

Lemma scan_string_ascii s rest :
  forallb (fun b => byte_val b <? 128) s = true ->
  scan_string (escape_ascii (length s) s ++ QUOTE :: rest) = Some (s, rest).
Proof.
  induction s as [|b s IH]; [done|]. cbn [forallb length]. intros [Hb Hs]%andb_true_iff.
  rewrite escape_ascii_cons, <- app_assoc, scan_escaped_ascii, IH by done. done.
Qed.

Lemma scan_print_string ea s rest :
  str_ok ea s -> exists body, print_string ea s = QUOTE :: body /\ scan_string (body ++ rest) = Some (str_bytes s, rest).
Proof.
  intros Hs. unfold print_string. eexists. split; [done|]. rewrite <- app_assoc. destruct ea.
  - by apply scan_string_ascii, Hs.
  - apply scan_string_plain.
Qed.

(** ** Values *)

Definition starts_value (l : bytes) : Prop :=
  match l with [] => False | b :: _ => is_ws b = false /\ b ≠ Byte.x5d /\ b ≠ Byte.x7d end.

Lemma starts_number b l : (is_digit b || (byte_val b =? 45)) = true -> starts_value (b :: l).
Proof. intros H. destruct b; first [discriminate H | by repeat split]. Qed.

Lemma print_starts ea v : json_ok ea v -> starts_value (print ea v).
Proof.
  destruct v as [|[]|n|s|s| |l|d]; cbn [print json_ok]; intros Hok; try by repeat split.
  - destruct (scan_number_head _ _ _ _ (scan_number_dec n)) as (b & l & -> & Hb). by apply starts_number.
  - destruct (scan_number_head _ _ _ _ Hok) as (b & l & -> & Hb). by apply starts_number.
Qed.

Lemma starts_app l r : starts_value l -> starts_value (l ++ r).
Proof. by destruct l. Qed.

Lemma skip_ws_starts l : starts_value l -> skip_ws l = l.
Proof. destruct l as [|b l]; [done|]. simpl. by intros (-> & _). Qed.

Lemma parse_value_number fuel l lit fl rest v :
  (0 < fuel)%nat -> scan_number l = Some (lit, fl, []) -> number_value lit fl = Ok v -> delim rest ->
  parse_value fuel (l ++ rest) = Ok (v, rest).
Proof.
  intros Hf Hs Hv Hd. destruct fuel as [|f]; [lia|].
  pose proof (scan_number_app _ _ _ _ _ Hs Hd) as Hn.
  destruct (scan_number_head _ _ _ _ Hs) as (b & l' & -> & Hb). cbn [parse_value app].
  rewrite !bool_decide_eq_false_2 by (intros ->; discriminate Hb).
  change (b :: l' ++ rest) with ((b :: l') ++ rest). rewrite (scan_constant_number _ _ _ _ Hn), Hv. done.
Qed.

Definition parses (ea : bool) (v : pyval) : Prop :=
  forall rest fuel, delim rest -> (length (print ea v) <= fuel)%nat ->
    parse_value fuel (print ea v ++ rest) = Ok (v, rest).

Lemma join_cons x y l : join (x :: y :: l) = x ++ COMMA :: join (y :: l).
Proof. done. Qed.

Lemma starts_join x l : starts_value x -> starts_value (join (x :: l)).
Proof. intros Hx. destruct l; [done|]. rewrite join_cons. by apply starts_app. Qed.

Lemma parse_elems_print ea l :
  Forall (fun v => parses ea v /\ json_ok ea v) l -> l ≠ [] ->
  forall rest fuel, (length (join (map (print ea) l)) < fuel)%nat ->
    parse_elems fuel (join (map (print ea) l) ++ Byte.x5d :: rest) = Ok (l, rest).
Proof.
  induction 1 as [|v l [Hp Hok] Hl IH]; intros Hne rest fuel Hfuel; [done|]. clear Hne.
  destruct fuel as [|f]; [lia|]. destruct l as [|w l]; cbn [parse_elems].
  - cbn [map join] in *. rewrite Hp; [|right; by left|lia]. done.
  - cbn [map] in *. rewrite join_cons in *. rewrite length_app in Hfuel. cbn [length] in Hfuel.
    rewrite <- app_assoc. rewrite Hp; [|by left|lia]. cbn [rbind app].
    change (skip_ws (COMMA :: ?r)) with (COMMA :: r). cbv iota.
    change (bool_decide (COMMA = Byte.x5d)) with false. change (bool_decide (COMMA = COMMA)) with true.
    cbv iota. apply Forall_cons_1 in Hl as Hw. destruct Hw as [[_ Hw] _].
    rewrite skip_ws_starts by (apply starts_app, starts_join, print_starts, Hw).
    rewrite IH by (done || lia). done.
Qed.

Definition print_member (ea : bool) (kv : string * pyval) : bytes :=
  print_string ea (fst kv) ++ COLON :: print ea (snd kv).

Lemma parse_members_print ea d :
  Forall (fun kv => parses ea (snd kv) /\ json_ok ea (snd kv) /\ str_ok ea (fst kv)) d -> d ≠ [] ->
  forall rest fuel, (length (join (map (print_member ea) d)) < fuel)%nat ->
    parse_members fuel (join (map (print_member ea) d) ++ Byte.x7d :: rest) = Ok (d, rest).
Proof.
  induction 1 as [|[k v] d (Hp & Hok & Hk) Hl IH]; intros Hne rest fuel Hfuel; [done|]. clear Hne.
  destruct fuel as [|f]; [lia|]. cbn [fst snd] in *.
  assert (forall tail, exists body, print_member ea (k, v) ++ tail = QUOTE :: body /\
    scan_string body = Some (str_bytes k, COLON :: print ea v ++ tail)) as Hkey.
  { intros tail. destruct (scan_print_string ea k (COLON :: print ea v ++ tail) Hk) as (body & E & Hs).
    exists (body ++ COLON :: print ea v ++ tail). split; [|done]. unfold print_member. cbn [fst snd].
    rewrite E. cbn [app]. by rewrite <- !app_assoc. }
  assert (length (print ea v) <= length (print_member ea (k, v)))%nat as Hlen.
  { unfold print_member. cbn [fst snd]. rewrite length_app. simpl. lia. }
  destruct d as [|kv2 d]; cbn [map] in *.
  - cbn [join] in *. destruct (Hkey (Byte.x7d :: rest)) as (body & -> & Hs). cbn [parse_members].
    rewrite Hs. change (skip_ws (COLON :: ?r)) with (COLON :: r). cbv beta iota.
    rewrite bool_decide_eq_true_2 by done. cbn [negb]. cbv iota.
    rewrite bool_decide_eq_true_2 by done. cbn [negb]. cbv iota.
    rewrite skip_ws_starts by (by apply starts_app, print_starts).
    rewrite Hp; [|right; by right|lia]. cbn [rbind]. by rewrite bytes_str_bytes.
  - rewrite join_cons in *. rewrite length_app in Hfuel. cbn [length] in Hfuel. rewrite <- app_assoc.
    destruct (Hkey ((COMMA :: join (print_member ea kv2 :: map (print_member ea) d)) ++ Byte.x7d :: rest))
      as (body & -> & Hs). cbn [parse_members].
    rewrite Hs. change (skip_ws (COLON :: ?r)) with (COLON :: r). cbv beta iota.
    rewrite bool_decide_eq_true_2 by done. cbn [negb]. cbv iota.
    rewrite bool_decide_eq_true_2 by done. cbn [negb]. cbv iota.
    rewrite skip_ws_starts by (by apply starts_app, print_starts).
    rewrite Hp; [|by left|lia]. cbn [rbind app].
    change (skip_ws (COMMA :: ?r)) with (COMMA :: r). cbv iota.
    change (bool_decide (COMMA = Byte.x7d)) with false. change (bool_decide (COMMA = COMMA)) with true.
    cbv iota. rewrite skip_ws_starts by (by apply starts_app, starts_join, starts_app).
    rewrite IH by (done || lia). cbn [rbind]. by rewrite bytes_str_bytes.
Qed.

Lemma Forall_id_map {A} (P : A -> Prop) l : Forall id (map P l) -> Forall P l.
Proof. intros H. induction l as [|x l IH]; [done|]. inversion H; subst. constructor; auto. Qed.

Lemma parses_ok ea v : json_ok ea v -> parses ea v.
Proof.
  induction v as [|b|n|s|s|l|l IH|d IH] using pyval_nested_ind; intros Hok rest fuel Hd Hfuel;
    cbn [json_ok] in Hok.
  - destruct fuel; [simpl in Hfuel; lia|]. done.
  - destruct fuel; [destruct b; simpl in Hfuel; lia|]. by destruct b.
  - cbn [print] in *. apply parse_value_number with (lit := dec n) (fl := false); auto using scan_number_dec, number_value_dec.
    destruct (scan_number_head _ _ _ _ (scan_number_dec n)) as (b & l & E & _). rewrite E in Hfuel. simpl in Hfuel. lia.
  - cbn [print] in *. apply parse_value_number with (lit := str_bytes s) (fl := true); auto.
    + destruct (scan_number_head _ _ _ _ Hok) as (b & l & E & _). rewrite E in Hfuel. simpl in Hfuel. lia.
    + unfold number_value. by rewrite bytes_str_bytes.
  - cbn [print] in *. destruct (scan_print_string ea s rest Hok) as (body & E & Hs). rewrite E in *.
    destruct fuel; [simpl in Hfuel; lia|]. cbn [app parse_value]. rewrite bool_decide_eq_true_2 by done.
    by rewrite Hs, bytes_str_bytes.
  - done.
  - cbn [print] in *. destruct fuel as [|f]; [simpl in Hfuel; lia|]. apply Forall_id_map in Hok.
    rewrite length_cons, length_app in Hfuel. cbn [length] in Hfuel. cbn [app parse_value].
    rewrite !bool_decide_eq_false_2, bool_decide_eq_true_2 by done.
    destruct l as [|v l]; [done|]. rewrite <- app_assoc. cbn [app].
    assert (Forall (fun v => parses ea v /\ json_ok ea v) (v :: l)) as Hall.
    { apply Forall_forall. intros x Hx. rewrite Forall_forall in IH, Hok. auto. }
    pose proof (parse_elems_print ea (v :: l) Hall ltac:(done) rest f ltac:(lia)) as Hp.
    apply Forall_cons_1 in Hall as [[_ Hv] _].
    assert (starts_value (join (map (print ea) (v :: l)) ++ Byte.x5d :: rest)) as Hst
      by apply starts_app, starts_join, print_starts, Hv.
    rewrite skip_ws_starts by done.
    destruct (join _ ++ _) as [|c r]; [done|]. rewrite bool_decide_eq_false_2 by apply Hst.
    by rewrite Hp.
  - cbn [print] in *. destruct fuel as [|f]; [simpl in Hfuel; lia|]. destruct Hok as [Hnd Hok].
    apply Forall_id_map in Hok. change (fun kv : string * pyval => print_string ea kv.1 ++ COLON :: print ea kv.2)
      with (print_member ea) in *.
    rewrite length_cons, length_app in Hfuel. cbn [length] in Hfuel. cbn [app parse_value].
    rewrite !bool_decide_eq_false_2, bool_decide_eq_true_2 by done.
    destruct d as [|kv d]; [done|]. rewrite <- app_assoc. cbn [app].
    assert (Forall (fun kv => parses ea (snd kv) /\ json_ok ea (snd kv) /\ str_ok ea (fst kv)) (kv :: d)) as Hall.
    { apply Forall_forall. intros x Hx. rewrite Forall_forall in IH, Hok. destruct (Hok x Hx). auto. }
    pose proof (parse_members_print ea (kv :: d) Hall ltac:(done) rest f ltac:(lia)) as Hp.
    assert (starts_value (join (map (print_member ea) (kv :: d)) ++ Byte.x7d :: rest)) as Hst.
    { apply starts_app, starts_join. unfold print_member. by apply starts_app. }
    rewrite skip_ws_starts by done.
    destruct (join _ ++ _) as [|c r]; [done|]. rewrite bool_decide_eq_false_2 by apply Hst.
    rewrite Hp. cbn [rbind]. by rewrite dict_of_pairs_wf.
Qed.

Lemma json_ok_serialisable ea v : json_ok ea v -> serialisable v = true.
Proof.
  induction v as [|b|n|s|s|l|l IH|d IH] using pyval_nested_ind; cbn [json_ok serialisable]; intros Hok; try done.
  - apply Forall_id_map in Hok. apply forallb_forall. intros x Hx%list_elem_of_In.
    rewrite Forall_forall in IH, Hok. auto.
  - destruct Hok as [_ Hok]. apply Forall_id_map in Hok. apply forallb_forall. intros x Hx%list_elem_of_In.
    rewrite Forall_forall in IH, Hok. apply IH; [done|]. by apply Hok.
Qed.

Lemma loads_bytes_print ea v : json_ok ea v -> loads_bytes (print ea v) = Ok v.
Proof.
  intros Hok. unfold loads_bytes. rewrite skip_ws_starts by by apply print_starts in Hok.
  pose proof (parses_ok ea v Hok [] (S (length (print ea v))) I ltac:(lia)) as H.
  rewrite app_nil_r in H. by rewrite H.
Qed.

(** [json.loads(json.dumps(v)) == v] *)
Lemma loads_dumps ea v : json_ok ea v -> exists s, dumps ea v = Ok s /\ loads s = Ok v.
Proof.
  intros Hok. unfold dumps. rewrite (json_ok_serialisable ea v Hok). eexists. split; [done|].
  unfold loads. by rewrite str_bytes_str, (loads_bytes_print ea).
Qed.
