(* ===== verification/JsonBytes.v ===== *)
(** * [json.loads] of a byte string

    Python guesses the encoding of the bytes from their first four
    ([json.detect_encoding]), decodes them with lone surrogates let through,
    and parses the text. *)

From stdpp Require Import prelude strings list.
From Stdlib Require Import ZArith Lia.
From S2P Require Import Prelude PyDict PyBytes PyValue Json.

Inductive encoding := Utf8 | Utf8Sig | Utf16 (big : bool) | Utf32 (big : bool).

(** [json.detect_encoding]; a byte order mark is part of the answer's number of
    bytes to skip. *)
Definition detect_encoding (l : bytes) : encoding * nat :=
  let v i := byte_val (nth i l Byte.x01) in
  let starts p := bool_decide (take (length p) (map byte_val l) = p) in
  if starts [0; 0; 0xFE; 0xFF] then (Utf32 true, 4%nat)
  else if starts [0xFF; 0xFE; 0; 0] then (Utf32 false, 4%nat)
  else if starts [0xFE; 0xFF] then (Utf16 true, 2%nat)
  else if starts [0xFF; 0xFE] then (Utf16 false, 2%nat)
  else if starts [0xEF; 0xBB; 0xBF] then (Utf8Sig, 3%nat)
  else if (4 <=? length l)%nat then
    if v 0%nat =? 0 then (if v 1%nat =? 0 then Utf32 true else Utf16 true, O)
    else if v 1%nat =? 0 then (if (v 2%nat =? 0) && (v 3%nat =? 0) then Utf32 false else Utf16 false, O)
    else (Utf8, O)
  else if (length l =? 2)%nat then
    if v 0%nat =? 0 then (Utf16 true, O) else if v 1%nat =? 0 then (Utf16 false, O) else (Utf8, O)
  else (Utf8, O).

(** The integers of [w] bytes each in [l]; [None] when the last is cut short. *)
Fixpoint units (w : nat) (big : bool) (fuel : nat) (l : bytes) : option (list Z) :=
  match fuel, l with
  | _, [] => Some []
  | O, _ => None
  | S f, _ =>
    if (length l <? w)%nat then None
    else (fun us => be_decode (if big then take w l else rev (take w l)) :: us) <$> units w big f (drop w l)
  end.

Definition high_surrogate (u : Z) : bool := (0xD800 <=? u) && (u <? 0xDC00).
Definition low_surrogate (u : Z) : bool := (0xDC00 <=? u) && (u <? 0xE000).

(** The code points of UTF-16 units: a lone surrogate stands for itself. *)
Fixpoint join_surrogates (us : list Z) : list Z :=
  match us with
  | u :: ((u' :: rest) as tail) =>
    if high_surrogate u && low_surrogate u'
    then 0x10000 + (u - 0xD800) * 0x400 + (u' - 0xDC00) :: join_surrogates rest
    else u :: join_surrogates tail
  | _ => us
  end.

(** Two surrogates in their three-byte forms, as a string holds them. *)
Definition code_points_str (cs : list Z) : string := bytes_str (flat_map utf8_of cs).

(** UTF-8 with [surrogatepass]: the three-byte form of a surrogate counts as
    one (valid) character, everything else is as strict as before. *)
Fixpoint mask_surrogates (l : bytes) : bytes :=
  match l with
  | b0 :: ((b1 :: b2 :: rest) as tail) =>
    if (byte_val b0 =? 0xED) && in_range 160 191 b1 && in_range 128 191 b2
    then Byte.x61 :: mask_surrogates rest else b0 :: mask_surrogates tail
  | _ => l
  end.

Definition utf8_pass (l : bytes) : bool := let m := mask_surrogates l in utf8_valid (S (length m)) m.

(** [l.decode(encoding, "surrogatepass")] *)
Definition decode_as (e : encoding) (l : bytes) : res string :=
  match e with
  | Utf8 | Utf8Sig => if utf8_pass l then Ok (bytes_str l) else Raise UnicodeError
  | Utf16 big => match units 2 big (length l) l with
                 | Some us => Ok (code_points_str (join_surrogates us))
                 | None => Raise UnicodeError
                 end
  | Utf32 big => match units 4 big (length l) l with
                 | Some us => if forallb (fun u => u <? 0x110000) us then Ok (code_points_str us) else Raise UnicodeError
                 | None => Raise UnicodeError
                 end
  end.

(** [json.loads(l)] of a byte string *)
Definition loads_raw (l : bytes) : res pyval :=
  let '(e, skip) := detect_encoding l in
  let? text := decode_as e (drop skip l) in loads text.

Example loads_raw_utf8 : loads_raw (str_bytes "[1,true]") = Ok (VList [VInt 1; VBool true]).
Proof. vm_compute. reflexivity. Qed.
Example loads_raw_utf16 : loads_raw (flat_map (fun b => [b; Byte.x00]) (str_bytes "[1,true]")) = Ok (VList [VInt 1; VBool true]).
Proof. vm_compute. reflexivity. Qed.
Example loads_raw_utf32 : loads_raw (flat_map (fun b => [Byte.x00; Byte.x00; Byte.x00; b]) (str_bytes "[7]")) = Ok (VList [VInt 7]).
Proof. vm_compute. reflexivity. Qed.
Example loads_raw_signature : loads_raw (map byte_of [0xEF; 0xBB; 0xBF] ++ str_bytes "[7]") = Ok (VList [VInt 7]).
Proof. vm_compute. reflexivity. Qed.
Example loads_raw_invalid : loads_raw [Byte.x5b; Byte.xff; Byte.x5d] = Raise UnicodeError.
Proof. vm_compute. reflexivity. Qed.
