(* ===== verification/Database.v ===== *)
(** * The session database ([storage/database.py], [storage/models.py])

    [Database] keeps what the SQLite file holds (its [user_version] and the
    rows of [sessions], in insertion order) and whether the process has it
    open.  SQL statements are their effect on the rows.  A failing SQLite
    (disk full, locked file) is not modelled. *)

From stdpp Require Import prelude strings list.
From Stdlib Require Import ZArith Lia.
From S2P Require Import Prelude PyDict PyBytes.

Record StoredSession := {
  st_session_id : string;
  st_token_hash : bytes;
  st_authenticated_user : option string;
  st_created_at : Z;
  st_last_seen : Z;
  st_expires_at : Z;
  st_metadata_json : string;
  st_subscriptions_json : string;
  st_last_application_sequence : Z
}.

Definition SCHEMA_VERSION : Z := 1.

Record Database := {
  user_version : Z;
  rows : odict string StoredSession;
  is_open : bool
}.

Module Db.

Definition set_rows (r : odict string StoredSession) (d : Database) : Database :=
  {| user_version := user_version d; rows := r; is_open := is_open d |}.

(** [Database.open]: a file of a newer schema is refused, but only after the
    connection was stored. *)
Definition open : M Database unit :=
  let! d := get in
  put {| user_version := user_version d; rows := rows d; is_open := true |} ;!
  if SCHEMA_VERSION <? user_version d
  then raise (RuntimeError "database schema is newer than supported")
  else if user_version d =? 0
  then put {| user_version := 1; rows := []; is_open := true |}
  else ret tt.

Definition close : M Database unit :=
  modify (fun d => {| user_version := user_version d; rows := rows d; is_open := false |}).

(** [Database._connection] *)
Definition connection : M Database unit :=
  let! o := gets is_open in guard_or o (RuntimeError "database is not open").

(** The row an upsert leaves: [created_at] keeps its first value. *)
Definition merge_row (old : option StoredSession) (s : StoredSession) : StoredSession :=
  match old with
  | None => s
  | Some o => {| st_session_id := st_session_id o; st_token_hash := st_token_hash s;
                 st_authenticated_user := st_authenticated_user s; st_created_at := st_created_at o;
                 st_last_seen := st_last_seen s; st_expires_at := st_expires_at s;
                 st_metadata_json := st_metadata_json s; st_subscriptions_json := st_subscriptions_json s;
                 st_last_application_sequence := st_last_application_sequence s |}
  end.

Definition upsert_session (s : StoredSession) : M Database unit :=
  connection ;!
  modify (fun d => set_rows (od_set (st_session_id s) (merge_row (od_get (st_session_id s) (rows d)) s) (rows d)) d).

Definition load_sessions (now : Z) : M Database (list StoredSession) :=
  connection ;!
  gets (fun d => filter (fun s => now < st_expires_at s) (od_values (rows d))).

Definition delete_expired_sessions (now : Z) : M Database Z :=
  connection ;!
  let! n := gets (fun d => length (filter (fun kv => st_expires_at (snd kv) <= now) (rows d))) in
  modify (fun d => set_rows (filter (fun kv => now < st_expires_at (snd kv)) (rows d)) d) ;!
  ret (Z.of_nat n).

Definition delete_session (session_id : string) : M Database unit :=
  connection ;! modify (fun d => set_rows (od_pop session_id (rows d)) d).

(** Every row is filed under its own primary key. *)
Definition db_wf (d : Database) : Prop :=
  od_wf (rows d) /\ forall k s, (k, s) ∈ rows d -> st_session_id s = k.

Lemma merge_row_id o s : (forall x, o = Some x -> st_session_id x = st_session_id s) ->
  st_session_id (merge_row o s) = st_session_id s.
Proof. destruct o; simpl; auto. Qed.

Lemma upsert_wf s : preserves db_wf (upsert_session s).
Proof.
  intros d [Hwf Hk]. unfold upsert_session, connection, bind, gets, guard_or, modify, ret, raise.
  destruct (is_open d); simpl; [|done]. split; simpl; [by apply od_wf_set|].
  intros k s' [[-> ->]|[Hne Hin]]%od_elem_set; [|by apply Hk|done].
  apply merge_row_id. intros x Hx. by apply Hk, od_get_Some_elem.
Qed.

Lemma filter_wf (P : string * StoredSession -> Prop) `{!forall x, Decision (P x)} d :
  db_wf d -> db_wf (set_rows (filter P (rows d)) d).
Proof.
  intros [Hwf Hk]. split; simpl.
  - eapply od_wf_sublist; [|exact Hwf]. apply sublist_filter.
  - intros k s [_ Hin]%list_elem_of_filter. by apply Hk.
Qed.

Lemma delete_session_wf sid : preserves db_wf (delete_session sid).
Proof.
  intros d [Hwf Hk]. unfold delete_session, connection, bind, gets, guard_or, modify, ret, raise.
  destruct (is_open d); simpl; [|done]. split; simpl; [by apply od_wf_pop|].
  intros k s [Hin _]%od_elem_pop. by apply Hk.
Qed.

Lemma delete_expired_wf now : preserves db_wf (delete_expired_sessions now).
Proof.
  intros d Hd. unfold delete_expired_sessions, connection, bind, gets, guard_or, modify, ret, raise.
  destruct (is_open d); simpl; [|done]. by apply filter_wf.
Qed.

End Db.

#[export] Hint Resolve Db.upsert_wf Db.delete_session_wf Db.delete_expired_wf : py.
