(* ===== verification/Sessions.v ===== *)
(** * Application sessions ([reticulum/sessions.py])

    Session objects are mutable and shared (the session index, the call rooms
    and the connections point to the same object), so they live in a heap and
    every holder keeps a reference.  [SessionManager] carries that heap with
    the fields of the Python class; [index] is its [_sessions].  Times are in
    microseconds.  [secrets.token_urlsafe] values are arguments. *)

From stdpp Require Import prelude strings list gmap sorting.
From Stdlib Require Import ZArith Lia.
From S2P Require Import Prelude PyDict PyBytes Sha256 PyValue Json JsonFacts Database.

(** [sorted(strings)] *)
Definition sorted (l : list string) : list string := merge_sort String.le l.

(** [_token_hash] *)
Definition _token_hash (token : string) : res bytes :=
  let? b := encode_ascii token in Ok (sha256 b).

(** ** The session object *)

Record ApplicationSession := {
  session_id : string;
  token_hash : bytes;
  created_at : Z;
  last_seen : Z;
  expires_at : Z;
  authenticated_user : option string;
  metadata : odict string pyval;
  subscriptions : gset string;
  last_application_sequence : Z;
  connection : option nat;
  pending_transport : list (Z * string * bytes * Z);
  provisional : bool;
  dedup : odict Z unit;
  dedup_limit : nat;
  last_persisted_at : Z;
  private_transport : option nat
}.

Definition set_token_hash (x : bytes) (s : ApplicationSession) : ApplicationSession :=
  {| session_id := session_id s; token_hash := x; created_at := created_at s; last_seen := last_seen
     s; expires_at := expires_at s; authenticated_user := authenticated_user s; metadata := metadata
     s; subscriptions := subscriptions s; last_application_sequence := last_application_sequence s;
     connection := connection s; pending_transport := pending_transport s; provisional :=
     provisional s; dedup := dedup s; dedup_limit := dedup_limit s; last_persisted_at :=
     last_persisted_at s; private_transport := private_transport s |}.

Definition set_last_seen (x : Z) (s : ApplicationSession) : ApplicationSession :=
  {| session_id := session_id s; token_hash := token_hash s; created_at := created_at s; last_seen
     := x; expires_at := expires_at s; authenticated_user := authenticated_user s; metadata :=
     metadata s; subscriptions := subscriptions s; last_application_sequence :=
     last_application_sequence s; connection := connection s; pending_transport := pending_transport
     s; provisional := provisional s; dedup := dedup s; dedup_limit := dedup_limit s;
     last_persisted_at := last_persisted_at s; private_transport := private_transport s |}.

Definition set_expires_at (x : Z) (s : ApplicationSession) : ApplicationSession :=
  {| session_id := session_id s; token_hash := token_hash s; created_at := created_at s; last_seen
     := last_seen s; expires_at := x; authenticated_user := authenticated_user s; metadata :=
     metadata s; subscriptions := subscriptions s; last_application_sequence :=
     last_application_sequence s; connection := connection s; pending_transport := pending_transport
     s; provisional := provisional s; dedup := dedup s; dedup_limit := dedup_limit s;
     last_persisted_at := last_persisted_at s; private_transport := private_transport s |}.

Definition set_authenticated_user (x : option string) (s : ApplicationSession) : ApplicationSession :=
  {| session_id := session_id s; token_hash := token_hash s; created_at := created_at s; last_seen
     := last_seen s; expires_at := expires_at s; authenticated_user := x; metadata := metadata s;
     subscriptions := subscriptions s; last_application_sequence := last_application_sequence s;
     connection := connection s; pending_transport := pending_transport s; provisional :=
     provisional s; dedup := dedup s; dedup_limit := dedup_limit s; last_persisted_at :=
     last_persisted_at s; private_transport := private_transport s |}.

Definition set_metadata (x : odict string pyval) (s : ApplicationSession) : ApplicationSession :=
  {| session_id := session_id s; token_hash := token_hash s; created_at := created_at s; last_seen
     := last_seen s; expires_at := expires_at s; authenticated_user := authenticated_user s;
     metadata := x; subscriptions := subscriptions s; last_application_sequence :=
     last_application_sequence s; connection := connection s; pending_transport := pending_transport
     s; provisional := provisional s; dedup := dedup s; dedup_limit := dedup_limit s;
     last_persisted_at := last_persisted_at s; private_transport := private_transport s |}.

Definition set_subscriptions (x : gset string) (s : ApplicationSession) : ApplicationSession :=
  {| session_id := session_id s; token_hash := token_hash s; created_at := created_at s; last_seen
     := last_seen s; expires_at := expires_at s; authenticated_user := authenticated_user s;
     metadata := metadata s; subscriptions := x; last_application_sequence :=
     last_application_sequence s; connection := connection s; pending_transport := pending_transport
     s; provisional := provisional s; dedup := dedup s; dedup_limit := dedup_limit s;
     last_persisted_at := last_persisted_at s; private_transport := private_transport s |}.

Definition set_connection (x : option nat) (s : ApplicationSession) : ApplicationSession :=
  {| session_id := session_id s; token_hash := token_hash s; created_at := created_at s; last_seen
     := last_seen s; expires_at := expires_at s; authenticated_user := authenticated_user s;
     metadata := metadata s; subscriptions := subscriptions s; last_application_sequence :=
     last_application_sequence s; connection := x; pending_transport := pending_transport s;
     provisional := provisional s; dedup := dedup s; dedup_limit := dedup_limit s; last_persisted_at
     := last_persisted_at s; private_transport := private_transport s |}.

Definition set_pending_transport (x : list (Z * string * bytes * Z)) (s : ApplicationSession) : ApplicationSession :=
  {| session_id := session_id s; token_hash := token_hash s; created_at := created_at s; last_seen
     := last_seen s; expires_at := expires_at s; authenticated_user := authenticated_user s;
     metadata := metadata s; subscriptions := subscriptions s; last_application_sequence :=
     last_application_sequence s; connection := connection s; pending_transport := x; provisional :=
     provisional s; dedup := dedup s; dedup_limit := dedup_limit s; last_persisted_at :=
     last_persisted_at s; private_transport := private_transport s |}.

Definition set_provisional (x : bool) (s : ApplicationSession) : ApplicationSession :=
  {| session_id := session_id s; token_hash := token_hash s; created_at := created_at s; last_seen
     := last_seen s; expires_at := expires_at s; authenticated_user := authenticated_user s;
     metadata := metadata s; subscriptions := subscriptions s; last_application_sequence :=
     last_application_sequence s; connection := connection s; pending_transport := pending_transport
     s; provisional := x; dedup := dedup s; dedup_limit := dedup_limit s; last_persisted_at :=
     last_persisted_at s; private_transport := private_transport s |}.

Definition set_dedup (x : odict Z unit) (s : ApplicationSession) : ApplicationSession :=
  {| session_id := session_id s; token_hash := token_hash s; created_at := created_at s; last_seen
     := last_seen s; expires_at := expires_at s; authenticated_user := authenticated_user s;
     metadata := metadata s; subscriptions := subscriptions s; last_application_sequence :=
     last_application_sequence s; connection := connection s; pending_transport := pending_transport
     s; provisional := provisional s; dedup := x; dedup_limit := dedup_limit s; last_persisted_at :=
     last_persisted_at s; private_transport := private_transport s |}.

Definition set_last_persisted_at (x : Z) (s : ApplicationSession) : ApplicationSession :=
  {| session_id := session_id s; token_hash := token_hash s; created_at := created_at s; last_seen
     := last_seen s; expires_at := expires_at s; authenticated_user := authenticated_user s;
     metadata := metadata s; subscriptions := subscriptions s; last_application_sequence :=
     last_application_sequence s; connection := connection s; pending_transport := pending_transport
     s; provisional := provisional s; dedup := dedup s; dedup_limit := dedup_limit s;
     last_persisted_at := x; private_transport := private_transport s |}.

Definition set_private_transport (x : option nat) (s : ApplicationSession) : ApplicationSession :=
  {| session_id := session_id s; token_hash := token_hash s; created_at := created_at s; last_seen
     := last_seen s; expires_at := expires_at s; authenticated_user := authenticated_user s;
     metadata := metadata s; subscriptions := subscriptions s; last_application_sequence :=
     last_application_sequence s; connection := connection s; pending_transport := pending_transport
     s; provisional := provisional s; dedup := dedup s; dedup_limit := dedup_limit s;
     last_persisted_at := last_persisted_at s; private_transport := x |}.

#[export] Instance session_inhabited : Inhabited ApplicationSession :=
  populate {| session_id := ""; token_hash := []; created_at := 0; last_seen := 0; expires_at := 0;
     authenticated_user := None; metadata := []; subscriptions := ∅; last_application_sequence := 0;
     connection := None; pending_transport := []; provisional := false; dedup := [];
     dedup_limit := 512; last_persisted_at := 0; private_transport := None |}.

(** [ApplicationSession.token_matches] *)
Definition token_matches (s : ApplicationSession) (token : string) : res bool :=
  let? h := _token_hash token in Ok (bool_decide (token_hash s = h)).

(** [ApplicationSession.seen_message] *)
Definition seen_message (message_id : Z) : M ApplicationSession bool :=
  let! d := gets dedup in
  if od_mem message_id d then
    modify (fun s => set_dedup (od_move_to_end message_id d) s) ;! ret true
  else
    modify (fun s => set_dedup (od_trim (dedup_limit s) (od_set message_id tt d)) s) ;! ret false.

Definition subscribe (topic : string) : M ApplicationSession unit :=
  if bool_decide (topic = "") || (256 <? py_len topic)
  then raise (ValueError "topic must contain 1 to 256 characters")
  else modify (fun s => set_subscriptions ({[topic]} ∪ subscriptions s) s).

Definition unsubscribe (topic : string) : M ApplicationSession unit :=
  modify (fun s => set_subscriptions (subscriptions s ∖ {[topic]}) s).

(** [ApplicationSession.to_stored] *)
Definition to_stored (s : ApplicationSession) : res StoredSession :=
  let? m := dumps true (VDict (metadata s)) in
  let? t := dumps true (VList (map VStr (sorted (elements (subscriptions s))))) in
  Ok {| st_session_id := session_id s; st_token_hash := token_hash s;
        st_authenticated_user := authenticated_user s; st_created_at := created_at s;
        st_last_seen := last_seen s; st_expires_at := expires_at s;
        st_metadata_json := m; st_subscriptions_json := t;
        st_last_application_sequence := last_application_sequence s |}.

(** ** What a session needs from a physical connection

    [ApplicationSession.send] goes through the connection object; the
    interface is the part of [PhysicalConnection] it uses. *)

Class Transport (W : Type) := {
  conn_closed : nat -> W -> bool;
  send_application : nat -> string -> pyval -> M W Z
}.

(** [ApplicationSession.send] *)
Definition send `{Transport W} (s : ApplicationSession) (payload : pyval) : M W Z :=
  let! w := get in
  match connection s with
  | None => raise (RuntimeError "session has no active physical connection")
  | Some c =>
    if conn_closed c w then raise (RuntimeError "session has no active physical connection")
    else match dget "qapp_connection_id" (metadata s) with
         | VStr id => if bool_decide (id = "")
                      then raise (RuntimeError "session has no Q-App logical connection ID")
                      else send_application c id payload
         | _ => raise (RuntimeError "session has no Q-App logical connection ID")
         end
  end.

(** ** The session manager *)

Record SessionManager := {
  database : Database;
  ttl : Z;
  sm_dedup_limit : nat;
  provisional_ttl : Z;
  persist_interval : Z;
  index : odict string nat;
  heap : gmap nat ApplicationSession;
  next_ref : nat
}.

Definition set_database (x : Database) (s : SessionManager) : SessionManager :=
  {| database := x; ttl := ttl s; sm_dedup_limit := sm_dedup_limit s; provisional_ttl :=
     provisional_ttl s; persist_interval := persist_interval s; index := index s; heap := heap s;
     next_ref := next_ref s |}.

Definition set_index (x : odict string nat) (s : SessionManager) : SessionManager :=
  {| database := database s; ttl := ttl s; sm_dedup_limit := sm_dedup_limit s; provisional_ttl :=
     provisional_ttl s; persist_interval := persist_interval s; index := x; heap := heap s; next_ref
     := next_ref s |}.

Definition set_heap (x : gmap nat ApplicationSession) (s : SessionManager) : SessionManager :=
  {| database := database s; ttl := ttl s; sm_dedup_limit := sm_dedup_limit s; provisional_ttl :=
     provisional_ttl s; persist_interval := persist_interval s; index := index s; heap := x;
     next_ref := next_ref s |}.

Definition SM := M SessionManager.

(** Reading and writing the object behind a reference. *)
Definition obj (r : nat) (m : SessionManager) : ApplicationSession := heap m !!! r.
Definition on_obj (r : nat) (f : ApplicationSession -> ApplicationSession) (m : SessionManager) : SessionManager :=
  set_heap (<[r := f (obj r m)]> (heap m)) m.

(** [self._sessions.get(session.session_id) is session] *)
Definition is_current (r : nat) (m : SessionManager) : bool :=
  bool_decide (od_get (session_id (obj r m)) (index m) = Some r).

Definition in_db {A} (c : M Database A) : SM A := zoom database set_database c.

(** [self.database.upsert_session(session.to_stored())] *)
Definition store (r : nat) : SM unit :=
  let! s := gets (obj r) in
  let! st := lift (to_stored s) in
  in_db (Db.upsert_session st).

(** A fresh object. *)
Definition alloc (s : ApplicationSession) : SM nat :=
  let! r := gets next_ref in
  modify (fun m => {| database := database m; ttl := ttl m; sm_dedup_limit := sm_dedup_limit m;
    provisional_ttl := provisional_ttl m; persist_interval := persist_interval m; index := index m;
    heap := <[r := s]> (heap m); next_ref := S r |}) ;!
  ret r.

(** [json.loads(..)] of the two JSON columns.  Rows are written by [to_stored],
    which puts an object and an array of strings there; other text is not
    given a session here. *)
Definition load_metadata (s : string) : res (odict string pyval) :=
  let? v := loads s in match v with VDict d => Ok d | _ => Raise (TypeError "metadata") end.

Definition load_subscriptions (s : string) : res (gset string) :=
  let? v := loads s in
  match v with
  | VList l => fold_left (fun acc v => let? a := acc in
                 match v with VStr t => Ok ({[t]} ∪ a) | _ => Raise (TypeError "subscription") end) l (Ok ∅)
  | _ => Raise (TypeError "subscriptions")
  end.

Definition load_one (st : StoredSession) : SM unit :=
  let! lim := gets sm_dedup_limit in
  let! md := lift (load_metadata (st_metadata_json st)) in
  let! subs := lift (load_subscriptions (st_subscriptions_json st)) in
  let! r := alloc {| session_id := st_session_id st; token_hash := st_token_hash st;
     created_at := st_created_at st; last_seen := st_last_seen st; expires_at := st_expires_at st;
     authenticated_user := st_authenticated_user st; metadata := md; subscriptions := subs;
     last_application_sequence := st_last_application_sequence st; connection := None;
     pending_transport := []; provisional := false; dedup := []; dedup_limit := lim;
     last_persisted_at := st_last_seen st; private_transport := None |} in
  modify (fun m => set_index (od_set (st_session_id st) r (index m)) m).

(** [SessionManager.load] *)
Definition load (now : Z) : SM unit :=
  let! rows := in_db (Db.load_sessions now) in
  iterM load_one rows.

(** [SessionManager.create]; [sid] and [token] are the two fresh random
    strings. *)
Definition create (sid token : string) (conn : option nat) (now : Z) (prov : bool) : SM (nat * string) :=
  let! m := get in
  let! h := lift (_token_hash token) in
  let! r := alloc {| session_id := sid; token_hash := h; created_at := now; last_seen := now;
     expires_at := now + (if prov then provisional_ttl m else ttl m);
     authenticated_user := None; metadata := []; subscriptions := ∅; last_application_sequence := 0;
     connection := conn; pending_transport := []; provisional := prov; dedup := [];
     dedup_limit := sm_dedup_limit m; last_persisted_at := now; private_transport := None |} in
  modify (fun m => set_index (od_set sid r (index m)) m) ;!
  (if prov then ret tt else store r) ;!
  ret (r, token).

(** [SessionManager.promote] *)
Definition promote (r : nat) (user : string) (now : Z) : SM unit :=
  let! cur := gets (is_current r) in
  guard_or cur (ValueError "session is no longer active") ;!
  modify (fun m => on_obj r (fun s => set_expires_at (now + ttl m) (set_last_seen now
    (set_provisional false (set_authenticated_user (Some user) s)))) m) ;!
  store r ;!
  modify (on_obj r (set_last_persisted_at now)).

(** [SessionManager.touch] *)
Definition touch (r : nat) (now : Z) : SM unit :=
  let! cur := gets (is_current r) in
  if negb cur then ret tt else
  modify (on_obj r (set_last_seen now)) ;!
  let! s := gets (obj r) in
  if provisional s then ret tt else
  modify (fun m => on_obj r (set_expires_at (now + ttl m)) m) ;!
  let! m := get in
  if persist_interval m <=? now - last_persisted_at (obj r m)
  then store r ;! modify (on_obj r (set_last_persisted_at now))
  else ret tt.

(** The connection a resumed session leaves behind is closed. *)
Definition close_replaced (closed : nat -> bool) (close_connection : nat -> string -> SM unit)
    (s : ApplicationSession) (conn : nat) : SM unit :=
  match connection s with
  | Some old => if negb (old =? conn)%nat && negb (closed old)
                then close_connection old "replaced_by_resumed_connection" else ret tt
  | None => ret tt
  end.

(** [SessionManager.resume]; [closed] and [close_connection] are the old
    connection's [closed] flag and [close], [fresh] the rotated token. *)
Definition resume (closed : nat -> bool) (close_connection : nat -> string -> SM unit)
    (sid token : string) (conn : nat) (now : Z) (rotate : bool) (fresh : string)
    : SM (option nat * option string) :=
  let! m := get in
  match od_get sid (index m) with
  | None => ret (None, None)
  | Some r =>
    let s := obj r m in
    if expires_at s <=? now then ret (None, None) else
    let! ok := lift (token_matches s token) in
    if negb ok then ret (None, None) else
    close_replaced closed close_connection s conn ;!
    modify (fun m => on_obj r (fun s => set_expires_at (now + ttl m) (set_last_seen now
      (set_connection (Some conn) s))) m) ;!
    let! t := (if rotate then
                 let! h := lift (_token_hash fresh) in
                 modify (on_obj r (set_token_hash h)) ;! ret (Some fresh)
               else ret None) in
    store r ;!
    modify (on_obj r (set_last_persisted_at now)) ;!
    ret (Some r, t)
  end.

(** [SessionManager.persist] *)
Definition persist (r : nat) : SM unit :=
  let! m := get in
  if provisional (obj r m) || negb (is_current r m) then ret tt
  else store r ;! modify (on_obj r (fun s => set_last_persisted_at (last_seen s) s)).

(** [SessionManager.expire] *)
Definition expire (now : Z) : SM (list nat) :=
  let! expired := gets (fun m => filter (fun r => expires_at (obj r m) <= now) (od_values (index m))) in
  modify (fun m => set_index (fold_left (fun ix r => od_pop (session_id (obj r m)) ix) expired (index m)) m) ;!
  let! m := get in
  (if existsb (fun r => negb (provisional (obj r m))) expired
   then in_db (Db.delete_expired_sessions now) ;! ret tt else ret tt) ;!
  ret expired.

Definition provisional_count (m : SessionManager) : Z :=
  Z.of_nat (length (filter (fun r => provisional (obj r m) = true) (od_values (index m)))).

Definition all (m : SessionManager) : list nat := od_values (index m).
Definition get_session (sid : string) (m : SessionManager) : option nat := od_get sid (index m).

(** [SessionManager.discard] *)
Definition discard (sid : string) : SM unit :=
  let! m := get in
  match od_get sid (index m) with
  | None => ret tt
  | Some r =>
    modify (fun m => set_index (od_pop sid (index m)) m) ;!
    if provisional (obj r m) then ret tt else in_db (Db.delete_session sid)
  end.
