(* ===== verification/SessionFacts.v ===== *)
(** * Properties of application sessions

    The duplicate filter against a reference definition, the well-formedness
    of the session index, expiry, resumption tokens and the persistence round
    trip. *)

From stdpp Require Import prelude strings list gmap sorting.
From Stdlib Require Import ZArith Lia.
From S2P Require Import Prelude PyDict PyBytes Sha256 PyValue Json JsonFacts Database Sessions.

(** ** The duplicate filter *)

(** Reference: the distinct message ids of a history (newest first), newest
    occurrence kept. *)
Fixpoint recency (h : list Z) : list Z :=
  match h with
  | [] => []
  | x :: h' => x :: filter (fun y => y ≠ x) (recency h')
  end.

(** Feeding a history (oldest first) to [seen_message]. *)
Fixpoint seen_all (h : list Z) : M ApplicationSession (list bool) :=
  match h with
  | [] => ret []
  | x :: h' => let! b := seen_message x in let! bs := seen_all h' in ret (b :: bs)
  end.

Lemma recency_nodup h : NoDup (recency h).
Proof.
  induction h as [|x h IH]; simpl; [constructor|]. constructor.
  - rewrite list_elem_of_filter. tauto.
  - by apply NoDup_filter.
Qed.

Lemma filter_out_fresh (x : Z) (l : list Z) : x ∉ l -> filter (fun y => y ≠ x) l = l.
Proof.
  induction l as [|y l IH]; [done|]. rewrite not_elem_of_cons. intros [Hne Hl].
  rewrite filter_cons_True by done. f_equal; auto.
Qed.

Lemma not_elem_of_take {A} (x : A) n l : x ∉ l -> x ∉ take n l.
Proof. intros H [i [Hi _]]%elem_of_take. apply list_elem_of_lookup_2 in Hi. by apply H. Qed.

Lemma take_filter_out (x : Z) n (l : list Z) :
  NoDup l -> take n (filter (fun y => y ≠ x) l) = take n (filter (fun y => y ≠ x) (take (S n) l)).
Proof.
  revert n. induction l as [|y l IH]; intros n Hnd; [done|].
  apply NoDup_cons in Hnd as [Hy Hnd]. cbn [take]. destruct (decide (y = x)) as [->|Hne].
  - rewrite !filter_cons_False by tauto.
    rewrite !filter_out_fresh by auto using not_elem_of_take. by rewrite take_take, Nat.min_id.
  - rewrite !filter_cons_True by done. destruct n as [|n]; [done|]. cbn [take]. f_equal. by apply IH.
Qed.

Lemma od_keys_pop_filter {V} (k : Z) (d : odict Z V) : od_keys (od_pop k d) = filter (fun y => y ≠ k) (od_keys d).
Proof.
  induction d as [|[k' v] d IH]; [done|]. unfold od_keys. cbn [od_pop map fst]. case_decide.
  - rewrite filter_cons_False by tauto. exact IH.
  - rewrite filter_cons_True by done. cbn [map fst]. f_equal. exact IH.
Qed.

Lemma filter_reverse (x : Z) (l : list Z) : filter (fun y => y ≠ x) (reverse l) = reverse (filter (fun y => y ≠ x) l).
Proof.
  induction l as [|y l IH]; [done|]. rewrite reverse_cons, filter_app, IH.
  destruct (decide (y = x)); [rewrite !filter_cons_False by tauto|rewrite !filter_cons_True by done].
  - by rewrite app_nil_r.
  - by rewrite reverse_cons.
Qed.

(** One call on a cache that holds the [limit] newest ids. *)
Lemma seen_message_step x s R :
  NoDup R -> od_wf (dedup s) -> (0 < dedup_limit s)%nat ->
  reverse (od_keys (dedup s)) = take (dedup_limit s) R ->
  let s' := fst (seen_message x s) in
  snd (seen_message x s) = Ok (bool_decide (x ∈ take (dedup_limit s) R)) /\
  dedup_limit s' = dedup_limit s /\ od_wf (dedup s') /\
  reverse (od_keys (dedup s')) = take (dedup_limit s) (x :: filter (fun y => y ≠ x) R).
Proof.
  intros Hnd Hwf Hlim HR. unfold seen_message. munfold. cbn [fst snd].
  assert (x ∈ take (dedup_limit s) R <-> is_Some (od_get x (dedup s))) as Hmem.
  { rewrite od_get_is_Some, <- HR. by rewrite elem_of_reverse. }
  destruct (dedup_limit s) as [|n] eqn:El; [lia|]. unfold od_mem.
  destruct (od_get x (dedup s)) as [[]|] eqn:E; cbn [fst snd].
  - rewrite bool_decide_eq_true_2 by (apply Hmem; eauto). repeat split; [done| |].
    + cbn. by apply od_move_to_end_wf.
    + cbn [dedup set_dedup]. unfold od_move_to_end. rewrite E. unfold od_keys. rewrite map_app. cbn [map].
      rewrite reverse_snoc. fold (od_keys (od_pop x (dedup s))). rewrite od_keys_pop_filter.
      rewrite <- filter_reverse, HR. cbn [take]. f_equal. rewrite (take_filter_out x n R Hnd).
      symmetry. apply take_ge.
      assert (x ∈ take (S n) R) as Hin by (apply Hmem; eauto).
      pose proof (length_filter_lt (fun y => y ≠ x) _ x Hin ltac:(tauto)) as Hlt.
      rewrite length_take in Hlt. lia.
  - rewrite bool_decide_eq_false_2 by (rewrite Hmem; by intros []). repeat split; [done| |].
    + cbn. by apply od_wf_trim, od_wf_set.
    + cbn [dedup set_dedup dedup_limit]. rewrite El, od_keys_set_new, od_trim_drop by done.
      unfold od_keys. rewrite <- skipn_map, map_app. cbn [map fst]. fold (od_keys (dedup s)).
      assert (forall l (k : nat), reverse (drop (length l - k) l) = take k (reverse l : list Z)) as Hrd.
      { intros l k. rewrite take_reverse. done. }
      replace (length (dedup s ++ [(x, tt)])) with (length (od_keys (dedup s) ++ [x]))
        by (unfold od_keys; rewrite !length_app, length_map; done).
      rewrite Hrd, reverse_snoc, HR. cbn [take]. f_equal.
      rewrite (take_filter_out x n R Hnd), filter_out_fresh by (rewrite Hmem; by intros []).
      rewrite !take_take. f_equal; lia.
Qed.

(** What the filter should answer: was the id among the [limit] most recently
    seen distinct ids? *)
Fixpoint reference_seen (limit : nat) (past h : list Z) : list bool :=
  match h with
  | [] => []
  | x :: h' => bool_decide (x ∈ take limit (recency past)) :: reference_seen limit (x :: past) h'
  end.

Lemma seen_all_general h s past :
  od_wf (dedup s) -> (0 < dedup_limit s)%nat ->
  reverse (od_keys (dedup s)) = take (dedup_limit s) (recency past) ->
  snd (seen_all h s) = Ok (reference_seen (dedup_limit s) past h) /\
  (length (dedup (fst (seen_all h s))) <= dedup_limit s)%nat.
Proof.
  revert s past. induction h as [|x h IH]; intros s past Hwf Hlim HR.
  - split; [done|]. cbn. apply (f_equal length) in HR. rewrite length_reverse, length_take in HR.
    unfold od_keys in HR. rewrite length_map in HR. lia.
  - destruct (seen_message_step x s (recency past) (recency_nodup past) Hwf Hlim HR) as (Hr & Hl & Hwf' & HR').
    cbn [seen_all reference_seen]. unfold bind, ret. destruct (seen_message x s) as [s1 r]. simpl in *. subst r.
    destruct (IH s1 (x :: past)) as [Hb Hlen]; [done|lia|by rewrite Hl|]. rewrite Hl in *.
    destruct (seen_all h s1) as [s2 r2]. simpl in *. by subst.
Qed.

(** C9: The duplicate filter of a session is an exact bounded LRU: started
    empty, it flags a message id precisely when that id is among the
    [dedup_limit] most recently seen distinct ids, whatever the order of the
    messages, and it never holds more than [dedup_limit] ids. *)
Theorem seen_message_is_lru (h : list Z) (s : ApplicationSession)
    (Hempty : dedup s = []) (Hlim : (0 < dedup_limit s)%nat) :
  snd (seen_all h s) = Ok (reference_seen (dedup_limit s) [] h) /\
  (length (dedup (fst (seen_all h s))) <= dedup_limit s)%nat.
Proof. apply seen_all_general; rewrite ?Hempty; [apply od_wf_nil|done|by destruct (dedup_limit s)]. Qed.

Definition small_cache : ApplicationSession :=
  {| session_id := "s"; token_hash := []; created_at := 0; last_seen := 0; expires_at := 0;
     authenticated_user := None; metadata := []; subscriptions := ∅; last_application_sequence := 0;
     connection := None; pending_transport := []; provisional := false; dedup := [];
     dedup_limit := 2; last_persisted_at := 0; private_transport := None |}.

(** The filter of size two forgets 1 after 2 and 3, and a repeat refreshes 2. *)
Lemma seen_message_is_lru_witness :
  snd (seen_all [1; 2; 3; 2; 1; 3] small_cache) = Ok [false; false; false; true; false; false].
Proof. exact (proj1 (seen_message_is_lru [1; 2; 3; 2; 1; 3] small_cache eq_refl ltac:(vm_compute; lia))). Defined.

(** ** The invariant of the session manager *)

Lemma obj_on_obj r r' f m : obj r' (on_obj r f m) = if decide (r = r') then f (obj r m) else obj r' m.
Proof.
  unfold on_obj, obj. cbn [heap set_heap]. case_decide; subst.
  - by rewrite lookup_total_insert_eq.
  - by rewrite lookup_total_insert_ne.
Qed.

Lemma on_obj_twice r f g m : on_obj r g (on_obj r f m) = on_obj r (fun o => g (f o)) m.
Proof.
  unfold on_obj at 1. rewrite obj_on_obj, decide_True by done. unfold on_obj.
  unfold set_heap. cbn. f_equal. apply insert_insert_eq.
Qed.

Record sm_wf (m : SessionManager) : Prop := {
  sm_index_wf : od_wf (index m);
  sm_index_ok : forall sid r, od_get sid (index m) = Some r ->
                  (r < next_ref m)%nat /\ session_id (obj r m) = sid;
  sm_fresh : forall r, (next_ref m <= r)%nat -> heap m !! r = None;
  sm_db_wf : Db.db_wf (database m);
  (** a provisional session has no row *)
  sm_provisional : forall sid r, od_get sid (index m) = Some r -> provisional (obj r m) = true ->
                  od_get sid (rows (database m)) = None;
  (** a row keeps the creation time of its session *)
  sm_created : forall sid r row, od_get sid (index m) = Some r -> od_get sid (rows (database m)) = Some row ->
                  st_created_at row = created_at (obj r m)
}.

Lemma is_current_spec r m : is_current r m = true <-> od_get (session_id (obj r m)) (index m) = Some r.
Proof. unfold is_current. by rewrite bool_decide_eq_true. Qed.

(** A write to an object that keeps its identity. *)
Definition keeps_identity (f : ApplicationSession -> ApplicationSession) : Prop :=
  forall s, session_id (f s) = session_id s /\ created_at (f s) = created_at s /\
            (provisional (f s) = true -> provisional s = true).

Lemma sm_wf_on_obj r f m :
  sm_wf m -> (r < next_ref m)%nat -> keeps_identity f -> sm_wf (on_obj r f m).
Proof.
  intros [H1 H2 H3 H4 H5 H6] Hr Hf. split; cbn [index next_ref heap database set_heap on_obj].
  - done.
  - intros sid r' H. destruct (H2 _ _ H). split; [done|]. rewrite obj_on_obj. case_decide; subst; [|done].
    by rewrite (proj1 (Hf _)).
  - intros r' Hr'. rewrite lookup_insert_ne by lia. auto.
  - done.
  - intros sid r' H Hp. apply H5 with r'; [done|]. rewrite obj_on_obj in Hp. case_decide; subst; [|done].
    by apply Hf.
  - intros sid r' row H Hrow. rewrite (H6 _ _ _ H Hrow), obj_on_obj. case_decide; subst; [|done].
    by rewrite (proj1 (proj2 (Hf _))).
Qed.

(** What [store] does to the database. *)
Definition stored_row (m : SessionManager) (st : StoredSession) : Database :=
  Db.set_rows (od_set (st_session_id st) (Db.merge_row (od_get (st_session_id st) (rows (database m))) st)
    (rows (database m))) (database m).

Lemma store_spec r m :
  (exists st, to_stored (obj r m) = Ok st /\ is_open (database m) = true /\
    store r m = (set_database (stored_row m st) m, Ok tt)) \/
  (exists e, store r m = (m, Raise e) /\ (forall st, to_stored (obj r m) = Ok st -> is_open (database m) = false)).
Proof.
  unfold store, in_db, Db.upsert_session, Db.connection. munfold.
  destruct (to_stored (obj r m)) as [st|e] eqn:E.
  - destruct (is_open (database m)) eqn:Eo; [left|right].
    + by exists st.
    + exists (RuntimeError "database is not open"). split; [|done]. by destruct m.
  - right. exists e. split; [done|]. naive_solver.
Qed.

Lemma to_stored_fields s st :
  to_stored s = Ok st -> st_session_id st = session_id s /\ st_created_at st = created_at s.
Proof.
  unfold to_stored, rbind. destruct (dumps true (VDict (metadata s))); [|done].
  destruct (dumps true (VList _)); [|done]. by intros [= <-].
Qed.

Lemma stored_row_wf m st : Db.db_wf (database m) -> Db.db_wf (stored_row m st).
Proof.
  intros H. pose proof (Db.upsert_wf st {| user_version := user_version (database m);
    rows := rows (database m); is_open := true |} H) as [Hw Hk].
  by split.
Qed.

Lemma sm_wf_store r m :
  sm_wf m -> is_current r m = true -> provisional (obj r m) = false -> sm_wf (fst (store r m)).
Proof.
  intros Hwf Hc%is_current_spec Hp. destruct (store_spec r m) as [(st & Est & _ & ->)|(e & -> & _)]; [|done].
  apply to_stored_fields in Est as [Hid Hcr]. simpl. pose proof Hwf as [H1 H2 H3 H4 H5 H6].
  split; cbn [index next_ref heap database set_database stored_row Db.set_rows rows]; auto.
  - by apply stored_row_wf.
  - intros sid r' H Hp'. change (obj r' _) with (obj r' m) in *. rewrite od_get_set. case_decide; [|by eapply H5].
    exfalso. rewrite Hid in *. subst. rewrite Hc in H. simplify_eq. congruence.
  - intros sid r' row H. change (obj r' (set_database _ m)) with (obj r' m). rewrite od_get_set.
    case_decide as Heq; [|by apply H6]. intros [= <-]. rewrite Hid in *. subst sid. rewrite Hc in H. simplify_eq.
    destruct (od_get (session_id (obj r' m)) (rows (database m))) eqn:E; [|done]. cbn. by eapply H6.
Qed.

Lemma sm_current_lt r m : sm_wf m -> is_current r m = true -> (r < next_ref m)%nat.
Proof. intros H Hc%is_current_spec. by apply (sm_index_ok m H) in Hc as []. Qed.

Lemma is_current_on_obj r f m :
  keeps_identity f -> is_current r (on_obj r f m) = is_current r m.
Proof.
  intros Hf. unfold is_current. rewrite obj_on_obj. rewrite decide_True by done.
  by rewrite (proj1 (Hf _)).
Qed.

(** [store] then a write of a bookkeeping field: the tail of every operation
    that persists. *)
Lemma sm_wf_store_then r f m :
  sm_wf m -> is_current r m = true -> provisional (obj r m) = false -> keeps_identity f ->
  sm_wf (fst ((store r ;! modify (on_obj r f)) m)).
Proof.
  intros Hwf Hc Hp Hf. pose proof (sm_wf_store r m Hwf Hc Hp) as Hs. unfold bind, modify.
  destruct (store_spec r m) as [(st & _ & _ & E)|(e & E & _)]; rewrite E in *; simpl in *; [|done].
  apply sm_wf_on_obj; auto. by apply (sm_current_lt r m).
Qed.

Ltac identity := intros ?; repeat split; simpl; done.

Lemma promote_wf r user now : preserves sm_wf (promote r user now).
Proof.
  intros m Hwf. unfold promote. munfold. destruct (is_current r m) eqn:Hc; [|done].
  set (f := fun s => set_expires_at (now + ttl m) (set_last_seen now
    (set_provisional false (set_authenticated_user (Some user) s)))).
  assert (keeps_identity f) as Hf by identity.
  apply (sm_wf_store_then r (set_last_persisted_at now) (on_obj r f m)); [| | |identity].
  - apply sm_wf_on_obj; auto using sm_current_lt.
  - by rewrite is_current_on_obj.
  - rewrite obj_on_obj. by rewrite decide_True.
Qed.

Lemma touch_wf r now : preserves sm_wf (touch r now).
Proof.
  intros m Hwf. unfold touch. munfold. destruct (is_current r m) eqn:Hc; [|done]. cbn [negb].
  assert (keeps_identity (set_last_seen now)) as Hf1 by identity.
  set (m1 := on_obj r (set_last_seen now) m).
  assert (sm_wf m1) as Hwf1 by (apply sm_wf_on_obj; auto using sm_current_lt).
  assert (is_current r m1 = true) as Hc1 by (by unfold m1; rewrite is_current_on_obj).
  destruct (provisional (obj r m1)) eqn:Hp; [done|].
  set (f := set_expires_at (now + ttl m1)). assert (keeps_identity f) as Hf by identity.
  assert (sm_wf (on_obj r f m1)) as Hwf2 by (apply sm_wf_on_obj; auto using sm_current_lt).
  destruct (_ <=? _); [|done].
  apply (sm_wf_store_then r (set_last_persisted_at now) (on_obj r f m1)); [done| | |identity].
  - by rewrite is_current_on_obj.
  - rewrite obj_on_obj. by rewrite decide_True.
Qed.

Lemma persist_wf r : preserves sm_wf (persist r).
Proof.
  intros m Hwf. unfold persist. munfold.
  destruct (provisional (obj r m)) eqn:Hp; [done|]. destruct (is_current r m) eqn:Hc; [|done]. cbn [orb negb].
  apply (sm_wf_store_then r (fun s => set_last_persisted_at (last_seen s) s) m); [done..|identity].
Qed.

Lemma sm_wf_shrink m ix :
  sm_wf m -> od_wf ix -> (forall sid r, od_get sid ix = Some r -> od_get sid (index m) = Some r) ->
  sm_wf (set_index ix m).
Proof.
  intros [H1 H2 H3 H4 H5 H6] Hix Hsub. split; simpl; auto.
  - intros sid r H. exact (H5 _ _ (Hsub _ _ H)).
  - intros sid r row H. exact (H6 _ _ _ (Hsub _ _ H)).
Qed.

Lemma sm_wf_db m d :
  sm_wf m -> Db.db_wf d -> (forall sid row, od_get sid (rows d) = Some row -> od_get sid (rows (database m)) = Some row) ->
  sm_wf (set_database d m).
Proof.
  intros [H1 H2 H3 H4 H5 H6] Hd Hsub. split; simpl; auto.
  - intros sid r H Hp. destruct (od_get sid (rows d)) eqn:E; [|done]. apply Hsub in E.
    rewrite (H5 sid r) in E; done.
  - intros sid r row H Hrow. eapply H6; eauto.
Qed.

Lemma discard_wf sid : preserves sm_wf (discard sid).
Proof.
  intros m Hwf. unfold discard. munfold. destruct (od_get sid (index m)) as [r|] eqn:E; [|done].
  assert (sm_wf (set_index (od_pop sid (index m)) m)) as Hwf1.
  { apply sm_wf_shrink; [done|apply od_wf_pop, Hwf|]. intros sid' r'. rewrite od_get_pop. by case_decide. }
  destruct (provisional (obj r m)); [done|]. unfold in_db, Db.delete_session, Db.connection. munfold.
  cbn [database set_index]. destruct (is_open (database m)); simpl; [|by destruct m].
  apply sm_wf_db; [done| |].
  - pose proof (sm_db_wf m Hwf) as [Hw Hk]. split; simpl; [by apply od_wf_pop|].
    intros k s [Hin _]%od_elem_pop. by apply Hk.
  - intros sid' row. simpl. rewrite od_get_pop. by case_decide.
Qed.

(** A manager with one more object, filed under its id: what [create] and
    [load] do. *)
Definition with_new (s : ApplicationSession) (m : SessionManager) : SessionManager :=
  {| database := database m; ttl := ttl m; sm_dedup_limit := sm_dedup_limit m;
     provisional_ttl := provisional_ttl m; persist_interval := persist_interval m;
     index := od_set (session_id s) (next_ref m) (index m);
     heap := <[next_ref m := s]> (heap m); next_ref := S (next_ref m) |}.

Lemma obj_with_new s m r : obj r (with_new s m) = if decide (next_ref m = r) then s else obj r m.
Proof.
  unfold obj, with_new. cbn [heap]. case_decide; subst.
  - by rewrite lookup_total_insert_eq.
  - by rewrite lookup_total_insert_ne.
Qed.

Lemma sm_wf_with_new s m :
  sm_wf m -> (provisional s = true -> od_get (session_id s) (rows (database m)) = None) ->
  (forall row, od_get (session_id s) (rows (database m)) = Some row -> st_created_at row = created_at s) ->
  sm_wf (with_new s m).
Proof.
  intros [H1 H2 H3 H4 H5 H6] Hp Hcr.
  assert (forall sid r, od_get sid (index (with_new s m)) = Some r ->
    (r = next_ref m /\ sid = session_id s /\ obj r (with_new s m) = s) \/
    (od_get sid (index m) = Some r /\ (r < next_ref m)%nat /\ obj r (with_new s m) = obj r m)) as Hget.
  { intros sid r H. cbn in H. rewrite od_get_set in H. rewrite obj_with_new. case_decide; simplify_eq.
    - left. by rewrite decide_True.
    - right. destruct (H2 _ _ H). rewrite decide_False by lia. done. }
  split; cbn [index next_ref heap database with_new]; auto.
  - by apply od_wf_set.
  - intros sid r [(-> & -> & ->)|(H & Hr & ->)]%Hget; [split; [lia|done]|].
    destruct (H2 _ _ H). split; [lia|done].
  - intros r Hr. rewrite lookup_insert_ne by lia. apply H3. lia.
  - intros sid r [(-> & -> & ->)|(H & Hr & ->)]%Hget; [done|by apply H5].
  - intros sid r row [(-> & -> & ->)|(H & Hr & ->)]%Hget; [apply Hcr|by apply H6].
Qed.

Lemma is_current_with_new s m : is_current (next_ref m) (with_new s m) = true.
Proof.
  apply is_current_spec. rewrite obj_with_new, decide_True by done. cbn. rewrite od_get_set. by rewrite decide_True.
Qed.

(** [create] is [with_new] followed by a [store] for a full session. *)
Definition new_session (sid : string) (h : bytes) (conn : option nat) (now : Z) (prov : bool) (m : SessionManager)
    : ApplicationSession :=
  {| session_id := sid; token_hash := h; created_at := now; last_seen := now;
     expires_at := now + (if prov then provisional_ttl m else ttl m);
     authenticated_user := None; metadata := []; subscriptions := ∅; last_application_sequence := 0;
     connection := conn; pending_transport := []; provisional := prov; dedup := [];
     dedup_limit := sm_dedup_limit m; last_persisted_at := now; private_transport := None |}.

Lemma create_unfold sid token conn now prov m h :
  _token_hash token = Ok h ->
  create sid token conn now prov m =
  ((if prov then ret tt else store (next_ref m)) ;! ret (next_ref m, token))
    (with_new (new_session sid h conn now prov m) m).
Proof. intros E. unfold create, alloc. munfold. rewrite E. by destruct prov. Qed.

Lemma create_wf sid token conn now prov m :
  sm_wf m -> od_get sid (index m) = None -> od_get sid (rows (database m)) = None ->
  sm_wf (fst (create sid token conn now prov m)).
Proof.
  intros Hwf Hix Hrow. destruct (_token_hash token) as [h|e] eqn:E.
  2: { unfold create. munfold. by rewrite E. }
  rewrite (create_unfold _ _ _ _ _ _ h E).
  set (s := new_session sid h conn now prov m).
  assert (sm_wf (with_new s m)) as Hwf1 by (apply sm_wf_with_new; [done|by intros|intros row; cbn; by rewrite Hrow]).
  destruct prov eqn:Ep; [done|].
  pose proof (sm_wf_store (next_ref m) (with_new s m) Hwf1 (is_current_with_new s m)) as Hs.
  rewrite obj_with_new, decide_True in Hs by done. specialize (Hs eq_refl).
  munfold. destruct (store (next_ref m) (with_new s m)) as [m2 [[]|e]]; exact Hs.
Qed.

(** ** Expiry *)

Lemma pop_all_filter {A} (key : A -> string) (l : list A) (d : odict string nat) :
  fold_left (fun ix r => od_pop (key r) ix) l d = filter (fun kv => fst kv ∉ map key l) d.
Proof.
  revert d. induction l as [|a l IH]; intros d; cbn [fold_left map].
  - induction d as [|kv d IHd]; [done|]. rewrite filter_cons_True by apply not_elem_of_nil. by f_equal.
  - rewrite IH, od_pop_filter, list_filter_filter. apply list_filter_iff.
    intros kv. rewrite not_elem_of_cons. tauto.
Qed.

(** The index after [expire]: exactly the sessions that are still alive. *)
Lemma expire_index m now :
  sm_wf m ->
  fold_left (fun ix r => od_pop (session_id (obj r m)) ix)
    (filter (fun r => expires_at (obj r m) <= now) (od_values (index m))) (index m)
  = filter (fun kv => now < expires_at (obj (snd kv) m)) (index m).
Proof.
  intros Hwf. rewrite pop_all_filter. apply filter_ext_in. intros [sid r] Hin. cbn [fst snd].
  pose proof (od_get_elem _ _ _ (sm_index_wf m Hwf) Hin) as Hg.
  destruct (sm_index_ok m Hwf _ _ Hg) as [_ Hid].
  rewrite list_elem_of_fmap. split.
  - intros Hn. destruct (decide (now < expires_at (obj r m))); [done|]. exfalso. apply Hn. exists r.
    split; [done|]. apply list_elem_of_filter. split; [lia|]. apply od_values_elem. eauto.
  - intros Hlt (r' & -> & [Hle (sid' & Hin')%od_values_elem]%list_elem_of_filter).
    pose proof (od_get_elem _ _ _ (sm_index_wf m Hwf) Hin') as Hg'.
    destruct (sm_index_ok m Hwf _ _ Hg') as [_ Hid']. rewrite Hid' in Hg. rewrite Hg in Hg'. simplify_eq. lia.
Qed.

Lemma expire_wf now : preserves sm_wf (expire now).
Proof.
  intros m Hwf. unfold expire. munfold. rewrite expire_index by done.
  set (ix := filter _ (index m)).
  assert (sm_wf (set_index ix m)) as Hwf1.
  { apply sm_wf_shrink; [done| |].
    - eapply od_wf_sublist; [apply sublist_filter|apply Hwf].
    - intros sid r. apply od_get_filter, Hwf. }
  destruct (existsb _ _); [|done].
  unfold in_db, Db.delete_expired_sessions, Db.connection. munfold.
  cbn [database set_index]. destruct (is_open (database m)); cbn [fst]; [|by destruct m].
  apply sm_wf_db; [done|apply Db.filter_wf, Hwf|]. intros sid row. apply od_get_filter, Hwf.
Qed.

(** ** Reachable managers *)

Inductive sm_step (m : SessionManager) : SessionManager -> Prop :=
| step_create sid token conn now prov :
    od_get sid (index m) = None -> od_get sid (rows (database m)) = None ->
    sm_step m (fst (create sid token conn now prov m))
| step_promote r user now : sm_step m (fst (promote r user now m))
| step_touch r now : sm_step m (fst (touch r now m))
| step_persist r : sm_step m (fst (persist r m))
| step_expire now : sm_step m (fst (expire now m))
| step_discard sid : sm_step m (fst (discard sid m))
| step_object r f : (r < next_ref m)%nat -> keeps_identity f -> sm_step m (on_obj r f m).

Definition empty_manager (db : Database) (ttl' pttl interval : Z) (limit : nat) : SessionManager :=
  {| database := db; ttl := ttl'; sm_dedup_limit := limit; provisional_ttl := pttl;
     persist_interval := interval; index := []; heap := ∅; next_ref := 0 |}.

Lemma empty_manager_wf db t p i l : Db.db_wf db -> sm_wf (empty_manager db t p i l).
Proof. intros H. split; cbn; try done. apply od_wf_nil. Qed.

Lemma sm_step_wf m m' : sm_wf m -> sm_step m m' -> sm_wf m'.
Proof.
  intros Hwf []; [by apply create_wf|by apply promote_wf|by apply touch_wf|by apply persist_wf
    |by apply expire_wf|by apply discard_wf|by apply sm_wf_on_obj].
Qed.

Lemma sm_reachable_wf m m' : sm_wf m -> rtc sm_step m m' -> sm_wf m'.
Proof. intros Hwf Hr. induction Hr; eauto using sm_step_wf. Qed.


Definition open_db : Database := {| user_version := 1; rows := []; is_open := true |}.
Definition demo_manager : SessionManager := empty_manager open_db 1000 100 60 4.
Definition demo_created : SessionManager := fst (create "s1" "tok" None 5 true demo_manager).
Definition demo_promoted : SessionManager := fst (promote 0 "alice" 10 demo_created).


(** [expire] is exact: it returns precisely the indexed sessions whose
    [expires_at] is not after [now], leaves exactly the others in the index,
    and, when a persistent session expired, deletes exactly the expired rows
    (otherwise it does not touch the database). *)
Theorem expire_exact m now (Hwf : sm_wf m) (Hopen : is_open (database m) = true) :
  let expired := filter (fun r => expires_at (obj r m) <= now) (all m) in
  let m' := fst (expire now m) in
  snd (expire now m) = Ok expired /\
  index m' = filter (fun kv => now < expires_at (obj (snd kv) m)) (index m) /\
  heap m' = heap m /\
  rows (database m') = if existsb (fun r => negb (provisional (obj r m))) expired
                       then filter (fun kv => now < st_expires_at (snd kv)) (rows (database m))
                       else rows (database m).
Proof.
  cbv zeta. unfold expire, all. munfold. rewrite expire_index by done.
  set (ix := filter _ (index m)). change (obj ?r (set_index ix m)) with (obj r m).
  destruct (existsb _ _); [|done].
  unfold in_db, Db.delete_expired_sessions, Db.connection. munfold.
  cbn [database set_index]. by rewrite Hopen.
Qed.

Lemma expire_exact_witness :
  snd (expire 105 demo_created) = Ok [0%nat] /\ index (fst (expire 105 demo_created)) = [].
Proof.
  assert (sm_wf demo_created) as Hwf.
  { apply create_wf; [|done|done]. apply empty_manager_wf. split; [apply od_wf_nil|].
    intros k s H. by apply elem_of_nil in H. }
  destruct (expire_exact demo_created 105 Hwf eq_refl) as (H1 & H2 & _). rewrite H1, H2. by vm_compute.
Defined.

(** [resume] hands out a session only for a live session and the token
    whose hash it stores; a rotating resume replaces that hash, so the token
    that was just used is accepted again only if it collides with the fresh one
    under SHA-256. *)
Theorem resume_rotates closed close sid token conn now fresh m r t
    (Hr : snd (resume closed close sid token conn now true fresh m) = Ok (Some r, t)) :
  exists h, _token_hash token = Ok h /\
    od_get sid (index m) = Some r /\ now < expires_at (obj r m) /\ token_hash (obj r m) = h /\
    t = Some fresh /\
    let m' := fst (resume closed close sid token conn now true fresh m) in
    (exists h', _token_hash fresh = Ok h' /\ token_hash (obj r m') = h' /\
      (token_matches (obj r m') token = Ok true -> h = h')).
Proof.
  destruct (resume closed close sid token conn now true fresh m) as [m' res] eqn:E. cbn [fst snd] in *.
  subst res. revert E. unfold resume. unfold get, gets, lift, bind at 1.
  destruct (od_get sid (index m)) as [r'|] eqn:Eg; [|done].
  destruct (expires_at (obj r' m) <=? now) eqn:Ex; [done|].
  unfold token_matches, rbind. unfold bind at 1.
  destruct (_token_hash token) as [h|e] eqn:Eh; [|done].
  destruct (bool_decide _) eqn:Em; cbn [negb]; [|done]. apply bool_decide_eq_true in Em.
  unfold bind at 1. destruct (close_replaced closed close (obj r' m) conn m) as [m1 [[]|e]]; [|done].
  unfold bind, modify, ret. destruct (_token_hash fresh) as [h'|e] eqn:Ef; [|done].
  set (m2 := on_obj r' (set_token_hash h') _).
  destruct (store_spec r' m2) as [(st & _ & _ & Es)|(e & Es & _)]; rewrite Es; [|done].
  cbn [fst snd]. intros [= <- <- <-]. exists h. split; [done|]. split; [done|]. split; [lia|].
  split; [done|]. split; [done|]. exists h'. split; [done|].
  rewrite obj_on_obj, decide_True by done.
  change (obj r' (set_database (stored_row m2 st) m2)) with (obj r' m2).
  cbn [token_hash set_last_persisted_at]. unfold m2. rewrite obj_on_obj, decide_True by done.
  cbn [token_hash set_token_hash]. split; [done|]. by intros [= <-%bool_decide_eq_true].
Qed.

Lemma resume_rotates_witness :
  exists h h', _token_hash "tok" = Ok h /\ _token_hash "next" = Ok h' /\ h ≠ h' /\
    (token_matches (obj 0 (fst (resume (fun _ => true) (fun _ _ => ret tt) "s1" "tok" 7 20 true "next" demo_promoted))) "tok"
      = Ok true -> h = h').
Proof.
  destruct (resume_rotates (fun _ => true) (fun _ _ => ret tt) "s1" "tok" 7 20 "next" demo_promoted 0 (Some "next"))
    as (h & Hh & _ & _ & _ & _ & h' & Hh' & _ & Himp); [by vm_compute|].
  exists h, h'. split; [done|]. split; [done|]. split; [|done].
  vm_compute in Hh, Hh'. simplify_eq. done.
Defined.

(** ** Persistence across a restart *)

(** The session a row is loaded as. *)
Definition restored (limit : nat) (st : StoredSession) (md : odict string pyval) (subs : gset string)
    : ApplicationSession :=
  {| session_id := st_session_id st; token_hash := st_token_hash st;
     created_at := st_created_at st; last_seen := st_last_seen st; expires_at := st_expires_at st;
     authenticated_user := st_authenticated_user st; metadata := md; subscriptions := subs;
     last_application_sequence := st_last_application_sequence st; connection := None;
     pending_transport := []; provisional := false; dedup := []; dedup_limit := limit;
     last_persisted_at := st_last_seen st; private_transport := None |}.

Definition row_holds (st : StoredSession) (md : odict string pyval) (subs : gset string) : Prop :=
  load_metadata (st_metadata_json st) = Ok md /\ load_subscriptions (st_subscriptions_json st) = Ok subs.

Lemma load_one_unfold st md subs m :
  row_holds st md subs -> load_one st m = (with_new (restored (sm_dedup_limit m) st md subs) m, Ok tt).
Proof. intros [E1 E2]. unfold load_one, alloc. munfold. by rewrite E1, E2. Qed.

(** Loading rows with distinct ids: every one of them is found, and what was
    there before stays. *)
Lemma load_rows_spec l m :
  NoDup (map st_session_id l) -> (forall st, st ∈ l -> exists md subs, row_holds st md subs) ->
  (forall sid r, od_get sid (index m) = Some r -> (r < next_ref m)%nat) ->
  let m' := fst (iterM load_one l m) in
  snd (iterM load_one l m) = Ok tt /\
  (forall st md subs, st ∈ l -> row_holds st md subs ->
    exists r, od_get (st_session_id st) (index m') = Some r /\ obj r m' = restored (sm_dedup_limit m) st md subs) /\
  (forall sid r, sid ∉ map st_session_id l -> od_get sid (index m) = Some r ->
    od_get sid (index m') = Some r /\ obj r m' = obj r m).
Proof.
  revert m. induction l as [|st l IH]; intros m Hnd Hrows Hlt; cbn [iterM].
  { cbv zeta. repeat split; try done. by intros st md subs []%elem_of_nil. }
  apply NoDup_cons in Hnd as [Hni Hnd]. destruct (Hrows st ltac:(by left)) as (md & subs & Hst).
  unfold bind. rewrite (load_one_unfold _ _ _ _ Hst).
  set (m1 := with_new (restored (sm_dedup_limit m) st md subs) m).
  destruct (IH m1) as (Hok & Hfound & Hkept); [done|by intros; apply Hrows; right| |].
  { intros sid r H. cbn in H. rewrite od_get_set in H. cbn. case_decide; simplify_eq; [lia|].
    apply Hlt in H. lia. }
  cbv zeta. split; [done|]. split.
  - intros st' md' subs' [->|Hin]%elem_of_cons Hst'.
    + destruct Hst as [E1 E2], Hst' as [E1' E2']. rewrite E1 in E1'. rewrite E2 in E2'. simplify_eq.
      destruct (Hkept (st_session_id st) (next_ref m)) as [Hg Ho]; [done| |].
      * cbn. rewrite od_get_set. by rewrite decide_True.
      * exists (next_ref m). split; [done|]. rewrite Ho. unfold m1. rewrite obj_with_new. by rewrite decide_True.
    + by apply Hfound.
  - intros sid r Hsid Hg. cbn [map] in Hsid. apply not_elem_of_cons in Hsid as [Hne Hsid].
    destruct (Hkept sid r) as [Hg' Ho]; [done| |].
    + cbn. rewrite od_get_set. by rewrite decide_False by done.
    + split; [done|]. rewrite Ho. unfold m1. rewrite obj_with_new. apply Hlt in Hg. by rewrite decide_False by lia.
Qed.

Lemma load_subscriptions_fold l (a : gset string) :
  fold_left (fun acc v => let? a := acc in
    match v with VStr t => Ok ({[t]} ∪ a) | _ => Raise (TypeError "subscription") end) (map VStr l) (Ok a)
  = Ok (list_to_set l ∪ a).
Proof.
  revert a. induction l as [|t l IH]; intros a; cbn [map fold_left].
  - f_equal. set_solver.
  - cbn [rbind]. rewrite IH. f_equal. set_solver.
Qed.

(** Metadata and topics that survive JSON. *)
Definition session_json_ok (s : ApplicationSession) : Prop :=
  json_ok true (VDict (metadata s)) /\ (forall t, t ∈ subscriptions s -> ascii_string t).

Lemma to_stored_roundtrip s :
  session_json_ok s -> exists st, to_stored s = Ok st /\ row_holds st (metadata s) (subscriptions s).
Proof.
  intros [Hm Hs]. destruct (loads_dumps true _ Hm) as (m & Em & Lm).
  assert (json_ok true (VList (map VStr (sorted (elements (subscriptions s)))))) as Hl.
  { cbn [json_ok]. rewrite map_map. apply Forall_forall. intros P (t & -> & Ht)%list_elem_of_fmap.
    unfold sorted in Ht. rewrite merge_sort_Permutation in Ht. apply elem_of_elements in Ht.
    intros _. by apply Hs. }
  destruct (loads_dumps true _ Hl) as (t & Et & Lt).
  unfold to_stored, rbind. rewrite Em, Et. eexists. split; [done|]. split; cbn.
  - unfold load_metadata, rbind. by rewrite Lm.
  - unfold load_subscriptions, rbind. rewrite Lt. rewrite load_subscriptions_fold. f_equal.
    unfold sorted. apply leibniz_equiv. rewrite merge_sort_Permutation. set_solver.
Qed.

(** What a restart keeps of a session. *)
Definition after_restart (limit : nat) (s : ApplicationSession) : ApplicationSession :=
  {| session_id := session_id s; token_hash := token_hash s; created_at := created_at s;
     last_seen := last_seen s; expires_at := expires_at s; authenticated_user := authenticated_user s;
     metadata := metadata s; subscriptions := subscriptions s;
     last_application_sequence := last_application_sequence s; connection := None;
     pending_transport := []; provisional := false; dedup := []; dedup_limit := limit;
     last_persisted_at := last_seen s; private_transport := None |}.

Lemma restored_stored limit s st md subs :
  to_stored s = Ok st -> md = metadata s -> subs = subscriptions s -> restored limit st md subs = after_restart limit s.
Proof.
  unfold to_stored, rbind. destruct (dumps true (VDict (metadata s))); [|done].
  destruct (dumps true (VList _)); [|done]. by intros [= <-] -> ->.
Qed.

Lemma merge_row_same m r st :
  sm_wf m -> is_current r m = true -> to_stored (obj r m) = Ok st ->
  Db.merge_row (od_get (st_session_id st) (rows (database m))) st = st.
Proof.
  intros Hwf Hc%is_current_spec Hst. destruct (to_stored_fields _ _ Hst) as [Hid Hcr].
  destruct (od_get (st_session_id st) (rows (database m))) as [o|] eqn:E; [|done].
  rewrite Hid in E. pose proof (sm_created m Hwf _ _ _ Hc E) as Hco.
  apply od_get_Some_elem in E. apply (proj2 (sm_db_wf m Hwf)) in E. destruct st, o; cbn in *. by subst.
Qed.

Lemma db_ids (d : Database) : Db.db_wf d -> map st_session_id (od_values (rows d)) = od_keys (rows d).
Proof.
  intros [_ Hk]. unfold od_values, od_keys. rewrite map_map. apply map_ext_in. intros [k s] Hin%list_elem_of_In.
  by apply Hk in Hin.
Qed.

Lemma live_ids_nodup (d : Database) now :
  Db.db_wf d -> NoDup (map st_session_id (filter (fun s => now < st_expires_at s) (od_values (rows d)))).
Proof.
  intros Hd. eapply sublist_NoDup; [exact (proj1 Hd)|]. rewrite <- (db_ids d Hd).
  apply fmap_sublist, sublist_filter.
Qed.


