(* ===== verification/Call.v ===== *)
(** * Calls ([call/service.py])

    [CallService] is the state behind the service's lock: the rooms, the room
    of each session id, the session manager whose objects the rooms share, the
    policy files the media relay reads, and the running timers.  A handler is
    its locked section; it returns the messages the code sends after releasing
    the lock, in order ([deliver] sends them).  Arguments stand for what a
    handler reads from outside: the wall clock [now] and the monotonic clock
    [mono], both in microseconds.  [P256] is the curve check of the
    [cryptography] package. *)

From stdpp Require Import prelude strings list gmap sorting.
From Stdlib Require Import ZArith Lia.
From S2P Require Import Prelude PyDict PyBytes Base64 Sha256 PyValue Json JsonFacts Database Sessions.

(** [EllipticCurvePublicKey.from_encoded_point(SECP256R1(), b)] accepts [b]. *)
Class P256 := p256_valid : bytes -> bool.

Module Call.

Definition MAX_ROOMS : nat := 1024.
Definition MAX_PARTICIPANTS_PER_ROOM : nat := 32.
Definition MAX_CALL_SECONDS : Z := 3 * 60 * 60.
Definition SCREEN_LEASE_SECONDS : Z := 45.
Definition GROUP_KEY_ENVELOPE_CIPHERTEXT_BYTES : nat := 48.
Definition SECOND : Z := 1000000.

(** ** Patterns and decoding *)

Definition is_word : char_class := fun b => is_alnum b || is_char "_-" b.
Definition _ROOM_ID : string -> bool := fullmatch is_word 3 64.
Definition _PARTICIPANT_ID : string -> bool := fullmatch is_word 3 128.
Definition _REQUEST_ID : string -> bool := fullmatch (fun b => is_alnum b || is_char "._:-" b) 8 128.
Definition _KEY_ID : string -> bool := fullmatch is_hex 32 32.

(** [value.rstrip("=")] *)
Definition rstrip_pad (l : bytes) : bytes :=
  let fix go r := match r with b :: r' => if bool_decide (b = PAD) then go r' else r | [] => [] end in
  rev (go (rev l)).

(** [^[A-Za-z0-9_-]+={0,2}$] *)
Definition _BASE64URL (s : string) : bool :=
  let l := str_bytes s in
  let body := rstrip_pad l in
  (0 <? length body)%nat && forallb is_word body && (length l - length body <=? 2)%nat.

Definition invalid_base64url : exn := ValueError "invalid base64url value".

Definition _decode_base64url (value : pyval) (expected_length : option nat) : res bytes :=
  match str_matching _BASE64URL value with
  | None => Raise invalid_base64url
  | Some s =>
    let l := str_bytes s in
    let padding := replicate ((4 - length l mod 4) mod 4) PAD in
    match urlsafe_b64decode (bytes_str (rstrip_pad l ++ padding)) with
    | Raise _ => Raise invalid_base64url
    | Ok decoded =>
      match expected_length with
      | Some n => if (length decoded =? n)%nat then Ok decoded else Raise (ValueError "invalid key length")
      | None => Ok decoded
      end
    end
  end.

Definition _require_authenticated (s : option ApplicationSession) : res string :=
  match s with
  | None => Raise (ValueError "authenticated session required")
  | Some s =>
    match authenticated_user s with
    | Some u => if provisional s || bool_decide (u = "")
                then Raise (ValueError "authenticated session required") else Ok u
    | None => Raise (ValueError "authenticated session required")
    end
  end.

Definition _validate_public_keys `{P256} (agreement_key signing_key : pyval) : res (string * string) :=
  let? agreement_bytes := _decode_base64url agreement_key (Some 65%nat) in
  match agreement_bytes with
  | b :: _ =>
    if negb (byte_val b =? 4) then Raise (ValueError "invalid P-256 public key")
    else if negb (p256_valid agreement_bytes) then Raise (ValueError "invalid P-256 public key")
    else
      let? _ := _decode_base64url signing_key (Some 32%nat) in
      match agreement_key, signing_key with
      | VStr a, VStr b => Ok (a, b)
      | _, _ => Raise invalid_base64url
      end
  | [] => Raise IndexError
  end.

(** ** State *)

Record Member := {
  participant_id : string;
  key_agreement_public_key : string;
  signing_public_key : string;
  session : nat
}.

(** [existing != member]: the session is not compared. *)
Definition member_eqb (a b : Member) : bool :=
  bool_decide (participant_id a = participant_id b) &&
  bool_decide (key_agreement_public_key a = key_agreement_public_key b) &&
  bool_decide (signing_public_key a = signing_public_key b).

Definition public_value (m : Member) (room_id : string) : pyval :=
  VDict [("participantId", VStr (participant_id m));
         ("keyAgreementPublicKey", VStr (key_agreement_public_key m));
         ("signingPublicKey", VStr (signing_public_key m));
         ("track", VDict [("namespace", VList (map VStr ["qortal"; "call"; room_id; participant_id m]));
                          ("name", VStr "audio")])].

Record Room := {
  room_id : string;
  initiator_id : string;
  invite_token_hash : bytes;
  expires_at_ms : Z;
  revision : Z;
  members : odict string Member;
  expiry_timer : option nat;
  screen_owner : string;
  screen_id : string;
  screen_revision : Z;
  screen_expires_at : Z;
  screen_timer : option nat;
  blocked : gset string;
  muted : gset string
}.

Definition set_revision (x : Z) (s : Room) : Room :=
  {| room_id := room_id s; initiator_id := initiator_id s; invite_token_hash := invite_token_hash s;
     expires_at_ms := expires_at_ms s; revision := x; members := members s; expiry_timer :=
     expiry_timer s; screen_owner := screen_owner s; screen_id := screen_id s; screen_revision :=
     screen_revision s; screen_expires_at := screen_expires_at s; screen_timer := screen_timer s;
     blocked := blocked s; muted := muted s |}.

Definition set_members (x : odict string Member) (s : Room) : Room :=
  {| room_id := room_id s; initiator_id := initiator_id s; invite_token_hash := invite_token_hash s;
     expires_at_ms := expires_at_ms s; revision := revision s; members := x; expiry_timer :=
     expiry_timer s; screen_owner := screen_owner s; screen_id := screen_id s; screen_revision :=
     screen_revision s; screen_expires_at := screen_expires_at s; screen_timer := screen_timer s;
     blocked := blocked s; muted := muted s |}.

Definition set_expiry_timer (x : option nat) (s : Room) : Room :=
  {| room_id := room_id s; initiator_id := initiator_id s; invite_token_hash := invite_token_hash s;
     expires_at_ms := expires_at_ms s; revision := revision s; members := members s; expiry_timer :=
     x; screen_owner := screen_owner s; screen_id := screen_id s; screen_revision := screen_revision
     s; screen_expires_at := screen_expires_at s; screen_timer := screen_timer s; blocked := blocked
     s; muted := muted s |}.

Definition set_screen_owner (x : string) (s : Room) : Room :=
  {| room_id := room_id s; initiator_id := initiator_id s; invite_token_hash := invite_token_hash s;
     expires_at_ms := expires_at_ms s; revision := revision s; members := members s; expiry_timer :=
     expiry_timer s; screen_owner := x; screen_id := screen_id s; screen_revision := screen_revision
     s; screen_expires_at := screen_expires_at s; screen_timer := screen_timer s; blocked := blocked
     s; muted := muted s |}.

Definition set_screen_id (x : string) (s : Room) : Room :=
  {| room_id := room_id s; initiator_id := initiator_id s; invite_token_hash := invite_token_hash s;
     expires_at_ms := expires_at_ms s; revision := revision s; members := members s; expiry_timer :=
     expiry_timer s; screen_owner := screen_owner s; screen_id := x; screen_revision :=
     screen_revision s; screen_expires_at := screen_expires_at s; screen_timer := screen_timer s;
     blocked := blocked s; muted := muted s |}.

Definition set_screen_revision (x : Z) (s : Room) : Room :=
  {| room_id := room_id s; initiator_id := initiator_id s; invite_token_hash := invite_token_hash s;
     expires_at_ms := expires_at_ms s; revision := revision s; members := members s; expiry_timer :=
     expiry_timer s; screen_owner := screen_owner s; screen_id := screen_id s; screen_revision := x;
     screen_expires_at := screen_expires_at s; screen_timer := screen_timer s; blocked := blocked s;
     muted := muted s |}.

Definition set_screen_expires_at (x : Z) (s : Room) : Room :=
  {| room_id := room_id s; initiator_id := initiator_id s; invite_token_hash := invite_token_hash s;
     expires_at_ms := expires_at_ms s; revision := revision s; members := members s; expiry_timer :=
     expiry_timer s; screen_owner := screen_owner s; screen_id := screen_id s; screen_revision :=
     screen_revision s; screen_expires_at := x; screen_timer := screen_timer s; blocked := blocked
     s; muted := muted s |}.

Definition set_screen_timer (x : option nat) (s : Room) : Room :=
  {| room_id := room_id s; initiator_id := initiator_id s; invite_token_hash := invite_token_hash s;
     expires_at_ms := expires_at_ms s; revision := revision s; members := members s; expiry_timer :=
     expiry_timer s; screen_owner := screen_owner s; screen_id := screen_id s; screen_revision :=
     screen_revision s; screen_expires_at := screen_expires_at s; screen_timer := x; blocked :=
     blocked s; muted := muted s |}.

Definition set_blocked (x : gset string) (s : Room) : Room :=
  {| room_id := room_id s; initiator_id := initiator_id s; invite_token_hash := invite_token_hash s;
     expires_at_ms := expires_at_ms s; revision := revision s; members := members s; expiry_timer :=
     expiry_timer s; screen_owner := screen_owner s; screen_id := screen_id s; screen_revision :=
     screen_revision s; screen_expires_at := screen_expires_at s; screen_timer := screen_timer s;
     blocked := x; muted := muted s |}.

Definition set_muted (x : gset string) (s : Room) : Room :=
  {| room_id := room_id s; initiator_id := initiator_id s; invite_token_hash := invite_token_hash s;
     expires_at_ms := expires_at_ms s; revision := revision s; members := members s; expiry_timer :=
     expiry_timer s; screen_owner := screen_owner s; screen_id := screen_id s; screen_revision :=
     screen_revision s; screen_expires_at := screen_expires_at s; screen_timer := screen_timer s;
     blocked := blocked s; muted := x |}.

(** A started [threading.Timer]: what it calls and when. *)
Inductive timer_call :=
| ExpireRoom (room_id : string)
| ExpireScreen (room_id share_id : string).
Record Timer := { callback : timer_call; fires_at : Z }.

(** What the file system does to one policy operation: it succeeds; writing
    fails while removing a file works; nothing works, so a stale file stays (the
    directory could not be created, or the removal failed too). *)
Inductive io_outcome := IoOk | IoFailsClosed | IoFailsOpen.

Record CallService := {
  _rooms : odict string Room;
  _session_rooms : gmap string string;
  sessions : SessionManager;
  policies : option (gmap string pyval);
  io : list io_outcome;
  timers : gmap nat Timer;
  next_timer : nat
}.

Definition set__rooms (x : odict string Room) (s : CallService) : CallService :=
  {| _rooms := x; _session_rooms := _session_rooms s; sessions := sessions s; policies := policies
     s; io := io s; timers := timers s; next_timer := next_timer s |}.

Definition set__session_rooms (x : gmap string string) (s : CallService) : CallService :=
  {| _rooms := _rooms s; _session_rooms := x; sessions := sessions s; policies := policies s; io :=
     io s; timers := timers s; next_timer := next_timer s |}.

Definition set_sessions (x : SessionManager) (s : CallService) : CallService :=
  {| _rooms := _rooms s; _session_rooms := _session_rooms s; sessions := x; policies := policies s;
     io := io s; timers := timers s; next_timer := next_timer s |}.

Definition set_policies (x : option (gmap string pyval)) (s : CallService) : CallService :=
  {| _rooms := _rooms s; _session_rooms := _session_rooms s; sessions := sessions s; policies := x;
     io := io s; timers := timers s; next_timer := next_timer s |}.

Definition set_io (x : list io_outcome) (s : CallService) : CallService :=
  {| _rooms := _rooms s; _session_rooms := _session_rooms s; sessions := sessions s; policies :=
     policies s; io := x; timers := timers s; next_timer := next_timer s |}.

Definition set_timers (x : gmap nat Timer) (s : CallService) : CallService :=
  {| _rooms := _rooms s; _session_rooms := _session_rooms s; sessions := sessions s; policies :=
     policies s; io := io s; timers := x; next_timer := next_timer s |}.

Definition CM := M CallService.

(** One message for one session object. *)
Definition send_t : Type := nat * pyval.

Definition in_sessions {A} (c : SM A) : CM A := zoom sessions set_sessions c.
Definition session_obj (r : nat) (c : CallService) : ApplicationSession := obj r (sessions c).

(** [self._rooms.get(room_id)] and in-place updates of a room. *)
Definition room_at (rid : string) (c : CallService) : option Room := od_get rid (_rooms c).
Definition update_room (rid : string) (f : Room -> Room) : CM unit :=
  modify (fun c => match room_at rid c with
                   | Some room => set__rooms (od_set rid (f room) (_rooms c)) c
                   | None => c
                   end).

(** The outcome of the next file operation. *)
Definition next_io : CM io_outcome :=
  let! c := get in
  match io c with
  | [] => ret IoOk
  | o :: os => put (set_io os c) ;! ret o
  end.

(** [threading.Timer(..)], [timer.start()] and [timer.cancel()] *)
Definition new_timer : CM nat :=
  let! t := gets next_timer in
  modify (fun c => {| _rooms := _rooms c; _session_rooms := _session_rooms c; sessions := sessions c;
                      policies := policies c; io := io c; timers := timers c; next_timer := S t |}) ;!
  ret t.
Definition start_timer (t : nat) (k : timer_call) (at_time : Z) : CM unit :=
  modify (fun c => set_timers (<[t := {| callback := k; fires_at := at_time |}]> (timers c)) c).
Definition cancel_timer (t : option nat) : CM unit :=
  match t with
  | Some t => modify (fun c => set_timers (delete t (timers c)) c)
  | None => ret tt
  end.

(** ** Snapshots *)

Definition strings (l : list string) : pyval := VList (map VStr l).

(** [sorted(room.muted.intersection(room.members))] *)
Definition muted_members (room : Room) : list string :=
  sorted (elements (muted room ∩ list_to_set (od_keys (members room)))).

Definition _screen_snapshot (room : Room) : pyval :=
  VDict [("revision", VInt (screen_revision room)); ("participantId", VStr (screen_owner room));
         ("shareId", VStr (screen_id room))].

Definition _snapshot (room : Room) : odict string pyval :=
  [("roomId", VStr (room_id room)); ("revision", VInt (revision room));
   ("initiatorParticipantId", VStr (initiator_id room)); ("expiresAt", VInt (expires_at_ms room));
   ("screenShare", _screen_snapshot room); ("mutedParticipantIds", strings (muted_members room));
   ("members", VList (omap (fun p => (fun m => public_value m (room_id room)) <$> od_get p (members room))
                           (sorted (od_keys (members room)))))].

Definition recipients_of (room : Room) : list nat := map session (od_values (members room)).
Definition to_all (rs : list nat) (payload : pyval) : list send_t := map (fun r => (r, payload)) rs.
Definition membership_message (room : Room) : pyval := VDict (("type", VStr "call_membership") :: _snapshot room).

(** ** Policy files *)

(** [_policy_path]: the name of the file under [rooms/]. *)
Definition _policy_path (rid : string) : string := (sha256_hex (str_bytes rid) ++ ".json")%string.

(** The JSON document [_write_policy] dumps. *)
Definition policy_document (sm : SessionManager) (room : Room) : pyval :=
  VDict [("roomId", VStr (room_id room)); ("expiresAt", VInt (expires_at_ms room));
         ("members", VDict (map (fun kv => (fst kv, VStr (session_id (obj (session (snd kv)) sm)))) (members room)));
         ("muted", strings (muted_members room))].

Definition _write_policy (rid : string) : CM unit :=
  let! c := get in
  match policies c, room_at rid c with
  | Some files, Some room =>
    let path := _policy_path (room_id room) in
    let! o := next_io in
    match o with
    | IoOk => modify (set_policies (Some (<[path := policy_document (sessions c) room]> files)))
    | IoFailsClosed => modify (set_policies (Some (delete path files))) ;! raise OSError
    | IoFailsOpen => raise OSError
    end
  | _, _ => ret tt
  end.

(** [policy_path.unlink(missing_ok=True)] *)
Definition unlink_policy (rid : string) : CM unit :=
  let! c := get in
  match policies c with
  | None => ret tt
  | Some files =>
    let! o := next_io in
    match o with
    | IoFailsOpen => raise OSError
    | _ => modify (set_policies (Some (delete (_policy_path rid) files)))
    end
  end.

(** ** Helpers of the handlers *)

Definition _request_id (message : odict string pyval) : res string :=
  match str_matching _REQUEST_ID (dget "requestId" message) with
  | Some s => Ok s | None => Raise (ValueError "invalid requestId") end.

Definition _room_id (message : odict string pyval) : res string :=
  match str_matching _ROOM_ID (dget "roomId" message) with
  | Some s => Ok s | None => Raise (ValueError "invalid roomId") end.

(** [isinstance(message, dict) and set(message) == keys] *)
Definition message_with (keys : list string) (error : string) (message : pyval) : res (odict string pyval) :=
  match message with
  | VDict d => if keys_are keys d then Ok d else Raise (ValueError error)
  | _ => Raise (ValueError error)
  end.

Definition _bind_session (r : nat) (rid : string) : CM unit :=
  modify (fun c => set__session_rooms (<[session_id (session_obj r c) := rid]> (_session_rooms c)) c) ;!
  in_sessions (modify (on_obj r (fun s => set_metadata (od_set "call_room_id" (VStr rid) (metadata s)) s))) ;!
  in_sessions (persist r).

Definition _clear_session_metadata (r : nat) : CM unit :=
  in_sessions (modify (on_obj r (fun s => set_metadata (od_pop "call_room_id" (metadata s)) s))) ;!
  in_sessions (persist r).

Definition unbind_session (r : nat) : CM unit :=
  modify (fun c => set__session_rooms (delete (session_id (session_obj r c)) (_session_rooms c)) c).

Definition cleared_screen (room : Room) : Room :=
  set_screen_revision (screen_revision room + 1) (set_screen_expires_at 0
    (set_screen_id "" (set_screen_owner "" (set_screen_timer None room)))).

Definition _clear_screen_locked (rid : string) : CM unit :=
  let! c := get in
  match room_at rid c with
  | None => ret tt
  | Some room => cancel_timer (screen_timer room) ;! update_room rid cleared_screen
  end.

(** [_remove_member_locked]: the session is looked up by its current user. *)
Definition _remove_member_locked (r : nat) (rid : string) : CM (option (list nat * Room)) :=
  let! c := get in
  match room_at rid c, authenticated_user (session_obj r c) with
  | Some room, Some pid =>
    match od_get pid (members room) with
    | None => ret None
    | Some member =>
      if negb (session member =? r)%nat then ret None else
      update_room rid (fun room => set_members (od_pop pid (members room)) room) ;!
      (if bool_decide (screen_owner room = pid) then _clear_screen_locked rid else ret tt) ;!
      unbind_session r ;!
      update_room rid (fun room => set_revision (revision room + 1) room) ;!
      _write_policy rid ;!
      let! c := get in
      ret (match room_at rid c with
           | Some room => Some (recipients_of room, room)
           | None => None
           end)
    end
  | _, _ => ret None
  end.

(** [_end_room_locked]: one member at a time, its binding, its metadata, its
    row. *)
Definition release_member (m : Member) : CM unit :=
  unbind_session (session m) ;! _clear_session_metadata (session m).

Definition _end_room_locked (rid : string) : CM (list nat) :=
  _clear_screen_locked rid ;!
  let! c := get in
  match room_at rid c with
  | None => ret []
  | Some room =>
    modify (fun c => set__rooms (od_pop (room_id room) (_rooms c)) c) ;!
    unlink_policy (room_id room) ;!
    cancel_timer (expiry_timer room) ;!
    iterM release_member (od_values (members room)) ;!
    ret (map session (filter (fun m => participant_id m ≠ initiator_id room) (od_values (members room))))
  end.

(** ** Handlers *)

(** [int(time.time() * 1000)] *)
Definition millis (now : Z) : Z := Z.quot now 1000.

(** The checks [create] and [join] share: the caller, the message and the
    fields both read. *)
Record entry_request := {
  rq_user : string; rq_id : string; rq_room : string; rq_token : bytes;
  rq_agreement : string; rq_signing : string
}.

Definition entry_checks `{P256} (r : nat) (message : pyval) (error token_key : string) : CM entry_request :=
  let! c := get in
  lift (
    let? user := _require_authenticated (Some (session_obj r c)) in
    if negb (_PARTICIPANT_ID user) then Raise (ValueError "invalid authenticated participant") else
    let? msg := message_with ["type"; "requestId"; "roomId"; token_key; "keyAgreementPublicKey"; "signingPublicKey"]
                  error message in
    let? request_id := _request_id msg in
    let? rid := _room_id msg in
    let? token := _decode_base64url (dget token_key msg) (Some 32%nat) in
    let? '(agreement, signing) := _validate_public_keys (dget "keyAgreementPublicKey" msg) (dget "signingPublicKey" msg) in
    Ok {| rq_user := user; rq_id := request_id; rq_room := rid; rq_token := token;
          rq_agreement := agreement; rq_signing := signing |}).

Definition new_room (q : entry_request) (r : nat) (timer : nat) (now : Z) : Room :=
  {| room_id := rq_room q; initiator_id := rq_user q; invite_token_hash := rq_token q;
     expires_at_ms := millis now + MAX_CALL_SECONDS * 1000; revision := 1;
     members := [(rq_user q, {| participant_id := rq_user q; key_agreement_public_key := rq_agreement q;
                                signing_public_key := rq_signing q; session := r |})];
     expiry_timer := Some timer; screen_owner := ""; screen_id := ""; screen_revision := 1;
     screen_expires_at := 0; screen_timer := None; blocked := ∅; muted := ∅ |}.

(** [except OSError: undo; raise] around [_write_policy] in [create] *)
Definition is_OSError (e : exn) : bool := match e with OSError | TimeoutError _ | ConnectionError _ => true | _ => false end.

Definition undo_create (r : nat) (rid : string) : CM unit :=
  modify (fun c => set__rooms (od_pop rid (_rooms c)) c) ;!
  unbind_session r ;!
  _clear_session_metadata r ;!
  raise OSError.

(** [CallService.create] *)
Definition create `{P256} (r : nat) (message : pyval) (now mono : Z) : CM (list send_t) :=
  let! q := entry_checks r message "invalid call_create message" "inviteTokenHash" in
  let rid := rq_room q in
  let! c := get in
  match _session_rooms c !! session_id (session_obj r c) with
  | Some _ => raise (ValueError "leave the current call before creating another")
  | None =>
    if od_mem rid (_rooms c) then raise (ValueError "call room already exists")
    else if (MAX_ROOMS <=? length (_rooms c))%nat then raise (ValueError "call room capacity reached")
    else
      let! t := new_timer in
      modify (fun c => set__rooms (od_set rid (new_room q r t now) (_rooms c)) c) ;!
      _bind_session r rid ;!
      try_catch (_write_policy rid) is_OSError (fun _ => undo_create r rid) ;!
      start_timer t (ExpireRoom rid) (mono + MAX_CALL_SECONDS * SECOND) ;!
      ret [(r, VDict ([("type", VStr "call_created"); ("requestId", VStr (rq_id q))]
                      ++ _snapshot (new_room q r t now)))]
  end.

(** The conditions [join] tests: the session is in another room, the account
    is active through another session, the new member exceeds the capacity. *)
Definition in_other_room (previous : option string) (rid : string) : bool :=
  match previous with Some p => negb (bool_decide (p = rid)) | None => false end.
Definition active_elsewhere (existing : option Member) (r : nat) : bool :=
  match existing with Some m => negb (session m =? r)%nat | None => false end.
Definition member_changed (existing : option Member) (member : Member) : bool :=
  match existing with Some m => negb (member_eqb m member) | None => true end.
Definition over_capacity (existing : option Member) (room : option Room) : bool :=
  match existing, room with
  | None, Some room => (MAX_PARTICIPANTS_PER_ROOM <? length (members room))%nat
  | _, _ => false
  end.

(** [CallService.join] *)
Definition join `{P256} (r : nat) (message : pyval) (now : Z) : CM (list send_t) :=
  let! q := entry_checks r message "invalid call_join message" "inviteToken" in
  let rid := rq_room q in
  let pid := rq_user q in
  let! c := get in
  let previous := _session_rooms c !! session_id (session_obj r c) in
  if in_other_room previous rid
  then raise (ValueError "leave the current call before joining another") else
  let rejected := ret [(r, VDict [("type", VStr "call_join_rejected"); ("requestId", VStr (rq_id q));
                                  ("roomId", VStr rid); ("code", VStr "CALL_UNAVAILABLE")])] in
  match room_at rid c with
  | None => rejected
  | Some room =>
    if expires_at_ms room <=? millis now then rejected
    else if negb (bool_decide (sha256 (rq_token q) = invite_token_hash room))
    then raise (ValueError "invalid call invitation")
    else if bool_decide (pid ∈ blocked room)
    then ret [(r, VDict [("type", VStr "call_removed"); ("roomId", VStr rid)])]
    else
      let existing := od_get pid (members room) in
      if active_elsewhere existing r then raise (ValueError "participant is already active") else
      let member := {| participant_id := pid; key_agreement_public_key := rq_agreement q;
                       signing_public_key := rq_signing q; session := r |} in
      let changed := member_changed existing member in
      update_room rid (fun room => set_members (od_set pid member (members room)) room) ;!
      let! c := get in
      if over_capacity existing (room_at rid c) then update_room rid (fun room => set_members (od_pop pid (members room)) room) ;!
           raise (ValueError "call participant capacity reached")
      else
        _bind_session r rid ;!
        (if changed then update_room rid (fun room => set_revision (revision room + 1) room) else ret tt) ;!
        _write_policy rid ;!
        let! c := get in
        match room_at rid c with
        | None => ret []
        | Some room =>
          ret ((r, VDict ([("type", VStr "call_joined"); ("requestId", VStr (rq_id q))] ++ _snapshot room))
               :: (if changed then to_all (recipients_of room) (membership_message room) else []))
        end
  end.

Definition ended_message (rid reason : string) : pyval :=
  VDict [("type", VStr "call_ended"); ("roomId", VStr rid); ("reason", VStr reason)].

(** What [leave] and [disconnected] do to the room, and whom they tell. *)
Definition depart (r : nat) (rid : string) (room : Room) (user : option string) (reason : string)
    : CM (list send_t) :=
  let! sends := (if bool_decide (user = Some (initiator_id room)) then
                   let! recipients := _end_room_locked rid in
                   ret (to_all recipients (ended_message rid reason))
                 else
                   let! update := _remove_member_locked r rid in
                   ret (match update with
                        | Some (remaining, room') => to_all remaining (membership_message room')
                        | None => []
                        end)) in
  _clear_session_metadata r ;!
  ret sends.

(** [CallService.leave] *)
Definition leave (r : nat) (message : pyval) : CM (list send_t) :=
  let! c := get in
  let! user := lift (_require_authenticated (Some (session_obj r c))) in
  let! '(request_id, rid) := lift (
    let? msg := message_with ["type"; "requestId"; "roomId"] "invalid call_leave message" message in
    let? request_id := _request_id msg in
    let? rid := _room_id msg in
    Ok (request_id, rid)) in
  if negb (bool_decide (_session_rooms c !! session_id (session_obj r c) = Some rid))
  then raise (ValueError "session is not in the call room") else
  match room_at rid c with
  | None => raise (ValueError "call room is unavailable")
  | Some room =>
    let! sends := depart r rid room (Some user) "INITIATOR_LEFT" in
    ret ((r, VDict [("type", VStr "call_left"); ("requestId", VStr request_id); ("roomId", VStr rid)]) :: sends)
  end.

(** [CallService.disconnected] *)
Definition disconnected (r : nat) : CM (list send_t) :=
  let! c := get in
  match _session_rooms c !! session_id (session_obj r c) with
  | None => ret []
  | Some rid =>
    match room_at rid c with
    | None => ret []
    | Some room => depart r rid room (authenticated_user (session_obj r c)) "INITIATOR_DISCONNECTED"
    end
  end.

(** The member object of a user in a room, when it is this session's. *)
Definition own_member (room : Room) (user : string) (r : nat) : option Member :=
  match od_get user (members room) with
  | Some m => if (session m =? r)%nat then Some m else None
  | None => None
  end.

(** [CallService.forward_group_key] *)
Definition forward_group_key (r : nat) (message : pyval) : CM (list send_t) :=
  let! c := get in
  let! sender := lift (_require_authenticated (Some (session_obj r c))) in
  let! '(msg, request_id, rid, target, key_id) := lift (
    let? msg := message_with ["type"; "requestId"; "roomId"; "targetParticipantId"; "keyId"; "nonce";
                              "ciphertext"; "signature"] "invalid call_group_key message" message in
    let? request_id := _request_id msg in
    let? rid := _room_id msg in
    match str_matching _PARTICIPANT_ID (dget "targetParticipantId" msg), str_matching _KEY_ID (dget "keyId" msg) with
    | Some target, Some key_id =>
      if bool_decide (target = sender) then Raise (ValueError "invalid group key metadata") else
      let? _ := _decode_base64url (dget "nonce" msg) (Some 12%nat) in
      let? ciphertext := _decode_base64url (dget "ciphertext" msg) None in
      if negb (length ciphertext =? GROUP_KEY_ENVELOPE_CIPHERTEXT_BYTES)%nat
      then Raise (ValueError "invalid group key ciphertext") else
      let? _ := _decode_base64url (dget "signature" msg) (Some 64%nat) in
      Ok (msg, request_id, rid, target, key_id)
    | _, _ => Raise (ValueError "invalid group key metadata")
    end) in
  let denied := raise (ValueError "group key delivery is not authorized") in
  match room_at rid c with
  | None => denied
  | Some room =>
    if negb (bool_decide (sender = initiator_id room)) then denied else
    match own_member room sender r, od_get target (members room) with
    | Some _, Some member =>
      ret [(session member,
            VDict [("type", VStr "call_group_key"); ("requestId", VStr request_id); ("roomId", VStr rid);
                   ("senderParticipantId", VStr sender); ("targetParticipantId", VStr target);
                   ("keyId", VStr key_id); ("nonce", dget "nonce" msg); ("ciphertext", dget "ciphertext" msg);
                   ("signature", dget "signature" msg)])]
    | _, _ => denied
    end
  end.

Definition moderation_result (request_id rid : string) (room : Room) (accepted : bool) (code : string) : pyval :=
  VDict [("type", VStr "call_moderation_result"); ("requestId", VStr request_id); ("roomId", VStr rid);
         ("revision", VInt (revision room)); ("accepted", VBool accepted); ("code", VStr code);
         ("blockedParticipantIds", strings (sorted (elements (blocked room))))].

(** The locked update of [moderate] for an authorised host; the result is the
    session of a removed participant. *)
Definition apply_moderation (rid : string) (room : Room) (target operation : string) : CM (option nat) :=
  if bool_decide (operation = "readmit") then
    update_room rid (fun room => set_blocked (blocked room ∖ {[target]}) room) ;! ret None
  else if bool_decide (operation = "remove") then
    if negb (od_mem target (members room)) && negb (bool_decide (target ∈ blocked room))
    then raise (ValueError "participant is not in this call")
    else if (256 <=? size (blocked room))%nat && negb (bool_decide (target ∈ blocked room))
    then raise (ValueError "removed participant limit reached")
    else
      update_room rid (fun room => set_blocked ({[target]} ∪ blocked room) room) ;!
      let removed := session <$> od_get target (members room) in
      match removed with
      | Some r => _remove_member_locked r rid ;! _clear_session_metadata r
      | None => ret tt
      end ;!
      update_room rid (fun room => set_muted (muted room ∖ {[target]}) room) ;!
      ret removed
  else
    if negb (od_mem target (members room)) then raise (ValueError "participant is not in this call") else
    (if bool_decide (operation = "mute") then
       if (256 <=? size (muted room))%nat && negb (bool_decide (target ∈ muted room))
       then raise (ValueError "muted participant limit reached")
       else update_room rid (fun room => set_muted ({[target]} ∪ muted room) room)
     else update_room rid (fun room => set_muted (muted room ∖ {[target]}) room)) ;!
    ret None.

(** The checks of [moderate] on the message: request id, room id, target and
    operation. *)
Definition parse_moderation (message : pyval) : res (string * string * string * string) :=
  let? msg := message_with ["type"; "requestId"; "roomId"; "targetParticipantId"; "operation"]
                "invalid moderation request" message in
  let? request_id := _request_id msg in
  let? rid := _room_id msg in
  match str_matching _PARTICIPANT_ID (dget "targetParticipantId" msg) with
  | None => Raise (ValueError "invalid moderation operation")
  | Some target =>
    let? known := in_strings (dget "operation" msg) ["mute"; "allow_mic"; "remove"; "readmit"] in
    match dget "operation" msg with
    | VStr operation => if known then Ok (request_id, rid, target, operation)
                        else Raise (ValueError "invalid moderation operation")
    | _ => Raise (ValueError "invalid moderation operation")
    end
  end.

(** [CallService.moderate] *)
Definition moderate (r : nat) (message : pyval) (now : Z) : CM (list send_t) :=
  let! c := get in
  let! actor := lift (_require_authenticated (Some (session_obj r c))) in
  let! '(request_id, rid, target, operation) := lift (parse_moderation message) in
  let denied := raise (ValueError "only the active call creator can moderate") in
  match room_at rid c with
  | None => denied
  | Some room =>
    if negb (bool_decide (actor = initiator_id room)) then denied else
    match own_member room actor r with
    | None => denied
    | Some _ =>
      if expires_at_ms room <=? millis now then denied
      else if bool_decide (target = actor) then raise (ValueError "cannot moderate the call creator")
      else if negb (bool_decide (operation = "readmit")) && negb (od_mem target (members room))
           && negb (bool_decide (operation = "remove") && bool_decide (target ∈ blocked room))
      then ret [(r, moderation_result request_id rid room false "PARTICIPANT_LEFT")]
      else
        let! removed := apply_moderation rid room target operation in
        update_room rid (fun room => set_revision (revision room + 1) room) ;!
        _write_policy rid ;!
        let! c := get in
        match room_at rid c with
        | None => ret []
        | Some room =>
          ret (match removed with
               | Some s => [(s, VDict [("type", VStr "call_removed"); ("roomId", VStr rid)])]
               | None => []
               end
               ++ to_all (recipients_of room) (membership_message room)
               ++ [(r, moderation_result request_id rid room true "")])
        end
    end
  end.

(** ** Screen sharing *)

(** [owns] and the three branches of [screen_control] on the room: acceptance,
    error code and what happens to the owner. *)
Inductive screen_change := KeepScreen | TakeScreen | DropScreen.

Definition screen_decision (kind : string) (room : Room) (pid share : string) : bool * string * screen_change :=
  let owns := bool_decide (screen_owner room = pid) && bool_decide (screen_id room = share) in
  let idle := bool_decide (screen_id room = "") in
  if bool_decide (kind = "call_screen_start") then
    let accepted := idle || owns in
    (accepted, if accepted then "" else "SCREEN_BUSY", if accepted && negb owns then TakeScreen else KeepScreen)
  else if bool_decide (kind = "call_screen_stop") then
    let accepted := owns || idle in
    (accepted, if accepted then "" else "SCREEN_NOT_OWNER", if owns then DropScreen else KeepScreen)
  else (owns, if owns then "" else "SCREEN_NOT_OWNER", KeepScreen).

Definition screen_state_message (rid : string) (room : Room) : pyval :=
  VDict [("type", VStr "call_screen_state"); ("roomId", VStr rid); ("screenShare", _screen_snapshot room)].

(** The lease: cancel the old timer, set the new deadline, start a timer. *)
Definition renew_lease (rid share : string) (mono : Z) : CM unit :=
  let! c := get in
  match room_at rid c with
  | None => ret tt
  | Some room =>
    cancel_timer (screen_timer room) ;!
    let! t := new_timer in
    update_room rid (fun room => set_screen_timer (Some t)
      (set_screen_expires_at (mono + SCREEN_LEASE_SECONDS * SECOND) room)) ;!
    start_timer t (ExpireScreen rid share) (mono + SCREEN_LEASE_SECONDS * SECOND)
  end.

(** [CallService.screen_control] *)
Definition screen_control (r : nat) (message : pyval) (now mono : Z) : CM (list send_t) :=
  let! c := get in
  let! user := lift (_require_authenticated (Some (session_obj r c))) in
  let! '(kind, request_id, rid, share) := lift (
    let? msg := message_with ["type"; "requestId"; "roomId"; "shareId"] "invalid screen control message" message in
    let? known := in_strings (dget "type" msg) ["call_screen_start"; "call_screen_stop"; "call_screen_renew"] in
    match dget "type" msg with
    | VStr kind =>
      if negb known then Raise (ValueError "invalid screen control message") else
      let? request_id := _request_id msg in
      let? rid := _room_id msg in
      match str_matching _REQUEST_ID (dget "shareId" msg) with
      | Some share => Ok (kind, request_id, rid, share)
      | None => Raise (ValueError "invalid screen share id")
      end
    | _ => Raise (ValueError "invalid screen control message")
    end) in
  let denied := raise (ValueError "screen sharing requires active call membership") in
  match room_at rid c with
  | None => denied
  | Some room0 =>
    match own_member room0 user r with
    | None => denied
    | Some _ =>
      if expires_at_ms room0 <=? millis now then denied else
      (if negb (bool_decide (screen_id room0 = "")) && (screen_expires_at room0 <=? mono)
       then _clear_screen_locked rid else ret tt) ;!
      let! c := get in
      match room_at rid c with
      | None => ret []
      | Some room =>
        let '(accepted, code, change) := screen_decision kind room user share in
        match change with
        | KeepScreen => ret tt
        | TakeScreen => update_room rid (fun room => set_screen_revision (screen_revision room + 1)
                          (set_screen_id share (set_screen_owner user room)))
        | DropScreen => _clear_screen_locked rid
        end ;!
        (if accepted && negb (bool_decide (kind = "call_screen_stop"))
         then renew_lease rid share mono else ret tt) ;!
        let! c := get in
        match room_at rid c with
        | None => ret []
        | Some room =>
          ret ((r, VDict [("type", VStr "call_screen_result"); ("requestId", VStr request_id); ("roomId", VStr rid);
                          ("accepted", VBool accepted); ("code", VStr code); ("screenShare", _screen_snapshot room)])
               :: (if negb (screen_revision room =? screen_revision room0)
                   then to_all (recipients_of room) (screen_state_message rid room) else []))
        end
      end
    end
  end.

(** [CallService._expire_screen] *)
Definition _expire_screen (rid share : string) (mono : Z) : CM (list send_t) :=
  let! c := get in
  match room_at rid c with
  | None => ret []
  | Some room =>
    if negb (bool_decide (screen_id room = share)) || (mono <? screen_expires_at room) then ret [] else
    _clear_screen_locked rid ;!
    let! c := get in
    match room_at rid c with
    | None => ret []
    | Some room => ret (to_all (recipients_of room) (screen_state_message rid room))
    end
  end.

(** [CallService._expire_room] *)
Definition _expire_room (rid : string) : CM (list send_t) :=
  let! c := get in
  match room_at rid c with
  | None => ret []
  | Some _ => let! recipients := _end_room_locked rid in ret (to_all recipients (ended_message rid "EXPIRED"))
  end.

(** A running timer whose time has come: it leaves the set of running timers
    and its callback runs. *)
Definition fire (t : nat) (mono : Z) : CM (list send_t) :=
  let! c := get in
  match timers c !! t with
  | None => ret []
  | Some k =>
    if mono <? fires_at k then ret [] else
    modify (fun c => set_timers (delete t (timers c)) c) ;!
    match callback k with
    | ExpireRoom rid => _expire_room rid
    | ExpireScreen rid share => _expire_screen rid share mono
    end
  end.

(** [CallService.__init__]: policy files of a previous process are removed. *)
Definition is_policy_name (name : string) : bool :=
  let l := str_bytes name in
  (length l =? 69)%nat && forallb is_hex (take 64 l) && bool_decide (drop 64 l = str_bytes ".json").

Definition init (sm : SessionManager) (files : option (gmap string pyval)) : CallService :=
  {| _rooms := []; _session_rooms := ∅; sessions := sm;
     policies := (fun fs => filter (fun kv => is_policy_name (fst kv) = false) fs) <$> files;
     io := []; timers := ∅; next_timer := 0 |}.

(** ** Delivery *)

Section delivery.
Context `{Transport W}.

(** [_safe_send]: only [RuntimeError] is swallowed. *)
Definition is_RuntimeError (e : exn) : bool := match e with RuntimeError _ | ReachabilityUnavailable => true | _ => false end.
Definition _safe_send (s : ApplicationSession) (payload : pyval) : M W bool :=
  try_catch (send s payload ;! ret true) is_RuntimeError (fun _ => ret false).

(** The sends of a handler, in order ([_broadcast] is such a sequence). *)
Definition deliver (sm : SessionManager) (sends : list send_t) : M W unit :=
  iterM (fun sp => _safe_send (obj (fst sp) sm) (snd sp) ;! ret tt) sends.

(** A whole handler call: the locked section, then the sends. *)
Definition run_handler (h : CM (list send_t)) : M (CallService * W) unit :=
  let! sends := zoom fst (fun c s => (c, snd s)) h in
  let! s := get in
  zoom snd (fun w s => (fst s, w)) (deliver (sessions (fst s)) sends).
End delivery.

End Call.
