(* ===== verification/CallInvariant.v ===== *)
(** * The invariant of the call service

    What every reachable state of [CallService] satisfies: rooms and members
    are filed under their own keys, the initiator of a room is one of its
    members, a session is bound to a room exactly when one of the room's members
    is that session, the policy files on disk are current documents of live
    rooms, and every room and every screen share has its running timer.

    It is split into components over the fields of the state, so that a handler
    only has to show what it does to each field. *)

From stdpp Require Import prelude strings list gmap sorting.
From Stdlib Require Import ZArith Lia.
From S2P Require Import Prelude PyDict PyBytes Base64 Sha256 PyValue Json JsonFacts Database Sessions SessionFacts Call.

Module CallInv.
Import Call.

(** ** Sessions as the call service sees them *)

(** The call service changes metadata and bookkeeping of sessions only. *)
Definition same_sessions (sm sm' : SessionManager) : Prop :=
  next_ref sm' = next_ref sm /\
  forall r, session_id (obj r sm') = session_id (obj r sm) /\
            authenticated_user (obj r sm') = authenticated_user (obj r sm) /\
            provisional (obj r sm') = provisional (obj r sm).

#[export] Instance same_sessions_preorder : PreOrder same_sessions.
Proof.
  split.
  - intros sm. by repeat split.
  - intros a b c [E1 H1] [E2 H2]. split; [congruence|]. intros r.
    destruct (H1 r) as (?&?&?), (H2 r) as (?&?&?). repeat split; congruence.
Qed.

(** The database is open and every metadata dictionary can be dumped, so
    persisting a session succeeds. *)
Definition sm_ready (sm : SessionManager) : Prop :=
  is_open (database sm) = true /\ forall r, serialisable (VDict (metadata (obj r sm))) = true.

(** Session ids identify session objects. *)
Definition ids_unique (sm : SessionManager) : Prop :=
  forall r1 r2, (r1 < next_ref sm)%nat -> (r2 < next_ref sm)%nat ->
    session_id (obj r1 sm) = session_id (obj r2 sm) -> r1 = r2.

Lemma ids_unique_same sm sm' : same_sessions sm sm' -> ids_unique sm -> ids_unique sm'.
Proof.
  intros [En H] Hu r1 r2. rewrite En. destruct (H r1) as (-> & _), (H r2) as (-> & _). apply Hu.
Qed.

(** A write to an object that keeps what the call service looks at. *)
Lemma on_obj_same r f sm :
  (forall s, session_id (f s) = session_id s /\ authenticated_user (f s) = authenticated_user s /\
             provisional (f s) = provisional s) ->
  same_sessions sm (on_obj r f sm).
Proof.
  intros Hf. split; [done|]. intros r'. rewrite obj_on_obj. case_decide; subst; [apply Hf|done].
Qed.

Lemma to_stored_ready s : serialisable (VDict (metadata s)) = true -> exists st, to_stored s = Ok st.
Proof.
  intros H. unfold to_stored, dumps. rewrite H. unfold rbind.
  assert (serialisable (VList (map VStr (sorted (elements (subscriptions s))))) = true) as ->.
  { cbn [serialisable]. induction (sorted _); [done|]. by cbn. }
  eauto.
Qed.

Lemma persist_ready r sm :
  sm_ready sm -> exists sm', persist r sm = (sm', Ok tt) /\ same_sessions sm sm' /\ sm_ready sm'.
Proof.
  intros [Ho Hm]. unfold persist. munfold.
  destruct (provisional (obj r sm) || negb (is_current r sm)); [by exists sm|].
  destruct (to_stored_ready _ (Hm r)) as [st Est].
  destruct (store_spec r sm) as [(st' & _ & _ & ->)|(e & _ & Hno)]; [|by rewrite (Hno _ Est) in Ho].
  eexists. split; [done|]. split; [|split; [done|]].
  - transitivity (set_database (stored_row sm st') sm); [by repeat split|]. by apply on_obj_same.
  - intros r'. rewrite obj_on_obj. case_decide; subst; [apply (Hm r')|apply (Hm r')].
Qed.

(** Writing one key of the metadata, then persisting. *)
Lemma metadata_persist_ready r (g : odict string pyval -> odict string pyval) sm :
  (forall d, serialisable (VDict d) = true -> serialisable (VDict (g d)) = true) -> sm_ready sm ->
  exists sm', (modify (on_obj r (fun s => set_metadata (g (metadata s)) s)) ;! persist r) sm = (sm', Ok tt) /\
    same_sessions sm sm' /\ sm_ready sm'.
Proof.
  intros Hg [Ho Hm]. munfold.
  destruct (persist_ready r (on_obj r (fun s => set_metadata (g (metadata s)) s) sm)) as (sm' & -> & Hs & Hr).
  - split; [done|]. intros r'. rewrite obj_on_obj. case_decide; subst; [cbn [metadata set_metadata]; by apply Hg|done].
  - exists sm'. split; [done|]. split; [|done]. etransitivity; [|exact Hs]. by apply on_obj_same.
Qed.

Lemma serialisable_set k v d :
  serialisable v = true -> serialisable (VDict d) = true -> serialisable (VDict (od_set k v d)) = true.
Proof.
  intros Hv. cbn [serialisable]. induction d as [|[k' v'] d IH]; cbn [od_set forallb].
  - intros _. cbn. by rewrite Hv.
  - intros [H1 H2]%andb_true_iff. case_decide; cbn [forallb]; apply andb_true_iff; auto.
Qed.

Lemma serialisable_pop k d : serialisable (VDict d) = true -> serialisable (VDict (od_pop k d)) = true.
Proof.
  cbn [serialisable]. induction d as [|[k' v'] d IH]; cbn [od_pop forallb]; [done|].
  intros [H1 H2]%andb_true_iff. case_decide; cbn [forallb]; auto. apply andb_true_iff; auto.
Qed.

Lemma in_sessions_seq {A} (a : SM unit) (b : SM A) c :
  (in_sessions a ;! in_sessions b) c = in_sessions (a ;! b) c.
Proof.
  unfold in_sessions, zoom, bind. destruct (a (sessions c)) as [sm1 [[]|e]]; [|done].
  cbn [sessions set_sessions]. by destruct (b sm1).
Qed.

Lemma in_sessions_eq {A} (a : SM A) c sm' x :
  a (sessions c) = (sm', x) -> in_sessions a c = (set_sessions sm' c, x).
Proof. intros E. unfold in_sessions, zoom. by rewrite E. Qed.

Lemma clear_metadata_ready r c :
  sm_ready (sessions c) ->
  exists sm', _clear_session_metadata r c = (set_sessions sm' c, Ok tt) /\
    same_sessions (sessions c) sm' /\ sm_ready sm'.
Proof.
  intros Hr. destruct (metadata_persist_ready r (od_pop "call_room_id") (sessions c)) as (sm' & E & H);
    [apply serialisable_pop|done|].
  exists sm'. split; [|done]. unfold _clear_session_metadata. rewrite in_sessions_seq. by apply in_sessions_eq.
Qed.

Lemma bind_session_ready r rid c :
  sm_ready (sessions c) ->
  exists sm', _bind_session r rid c =
      (set_sessions sm' (set__session_rooms (<[session_id (session_obj r c) := rid]> (_session_rooms c)) c), Ok tt) /\
    same_sessions (sessions c) sm' /\ sm_ready sm'.
Proof.
  intros Hr. destruct (metadata_persist_ready r (od_set "call_room_id" (VStr rid)) (sessions c)) as (sm' & E & H);
    [intros d; by apply serialisable_set|done|].
  exists sm'. split; [|done]. unfold _bind_session.
  refine (eq_trans (in_sessions_seq _ _ _) _). by apply in_sessions_eq.
Qed.

(** ** Components of the invariant *)

(** One room on its own. *)
Record room_ok (rid : string) (room : Room) : Prop := {
  ok_id : room_id room = rid;
  ok_members_wf : od_wf (members room);
  ok_keys : forall pid m, od_get pid (members room) = Some m -> participant_id m = pid /\ pid ≠ "";
  ok_initiator : is_Some (od_get (initiator_id room) (members room));
  ok_capacity : (length (members room) <= MAX_PARTICIPANTS_PER_ROOM)%nat;
  ok_screen_idle : screen_owner room = "" <-> screen_id room = "";
  ok_screen_owner : screen_owner room ≠ "" -> is_Some (od_get (screen_owner room) (members room));
  ok_screen_timer : screen_id room = "" -> screen_timer room = None;
  ok_blocked : forall pid, pid ∈ blocked room -> od_get pid (members room) = None;
  ok_blocked_size : (size (blocked room) <= 256)%nat;
  ok_muted_size : (size (muted room) <= 256)%nat
}.

Record rooms_ok (R : odict string Room) : Prop := {
  ok_rooms_wf : od_wf R;
  ok_rooms_capacity : (length R <= MAX_ROOMS)%nat;
  ok_each : forall rid room, od_get rid R = Some room -> room_ok rid room
}.

(** Sessions and members name each other. *)
Record bindings_ok (R : odict string Room) (SR : gmap string string) (sm : SessionManager) : Prop := {
  ok_member_session : forall rid room pid m,
    od_get rid R = Some room -> od_get pid (members room) = Some m ->
    (session m < next_ref sm)%nat /\ authenticated_user (obj (session m) sm) = Some pid /\
    SR !! session_id (obj (session m) sm) = Some rid;
  ok_session_member : forall sid rid, SR !! sid = Some rid ->
    exists room pid m, od_get rid R = Some room /\ od_get pid (members room) = Some m /\
      session_id (obj (session m) sm) = sid
}.

(** Every file with the name of a policy is the current document of a live
    room. *)
Definition policies_ok (R : odict string Room) (sm : SessionManager) (P : option (gmap string pyval)) : Prop :=
  match P with
  | None => True
  | Some files => forall f doc, files !! f = Some doc -> is_policy_name f = true ->
      exists rid room, od_get rid R = Some room /\ f = _policy_path rid /\ doc = policy_document sm room
  end.

(** The room a timer works for. *)
Definition timer_room (k : timer_call) : string :=
  match k with ExpireRoom rid => rid | ExpireScreen rid _ => rid end.

Definition timer_of (k : timer_call) (room : Room) : option nat :=
  match k with ExpireRoom _ => expiry_timer room | ExpireScreen _ _ => screen_timer room end.

Record timers_ok (R : odict string Room) (T : gmap nat Timer) (n : nat) : Prop := {
  ok_expiry : forall rid room, od_get rid R = Some room ->
    exists t k, expiry_timer room = Some t /\ T !! t = Some k /\ callback k = ExpireRoom rid;
  ok_lease : forall rid room, od_get rid R = Some room -> screen_id room ≠ "" ->
    exists t, screen_timer room = Some t /\
      T !! t = Some {| callback := ExpireScreen rid (screen_id room); fires_at := screen_expires_at room |};
  ok_no_leak : forall t k, T !! t = Some k ->
    (t < n)%nat /\ exists room, od_get (timer_room (callback k)) R = Some room /\ timer_of (callback k) room = Some t
}.

Record call_inv (c : CallService) : Prop := {
  inv_rooms : rooms_ok (_rooms c);
  inv_bindings : bindings_ok (_rooms c) (_session_rooms c) (sessions c);
  inv_policies : policies_ok (_rooms c) (sessions c) (policies c);
  inv_timers : timers_ok (_rooms c) (timers c) (next_timer c);
  inv_ids : ids_unique (sessions c);
  inv_ready : sm_ready (sessions c);
  inv_io : Forall (fun o => o ≠ IoFailsOpen) (io c)
}.

(** *** Frame lemmas *)

Lemma document_same sm sm' room : same_sessions sm sm' -> policy_document sm' room = policy_document sm room.
Proof.
  intros [_ H]. unfold policy_document. do 6 f_equal. apply map_ext. intros [k m]. cbn. by rewrite (proj1 (H _)).
Qed.

Lemma policies_same R sm sm' P : same_sessions sm sm' -> policies_ok R sm P -> policies_ok R sm' P.
Proof.
  intros Hs. destruct P as [files|]; [|done]. intros H f doc Hf Hn. destruct (H f doc Hf Hn) as (rid & room & H1 & H2 & ->).
  exists rid, room. by rewrite (document_same sm sm').
Qed.

Lemma bindings_same R SR sm sm' : same_sessions sm sm' -> bindings_ok R SR sm -> bindings_ok R SR sm'.
Proof.
  intros [En H] [H1 H2]. split.
  - intros rid room pid m Hr Hm. destruct (H (session m)) as (-> & -> & _). rewrite En. eauto.
  - intros sid rid Hs. destruct (H2 _ _ Hs) as (room & pid & m & ? & ? & <-). exists room, pid, m.
    by rewrite (proj1 (H _)).
Qed.

Lemma inv_same_sessions c sm' :
  same_sessions (sessions c) sm' -> sm_ready sm' -> call_inv c -> call_inv (set_sessions sm' c).
Proof.
  intros Hs Hr []. split; cbn; eauto using bindings_same, policies_same, ids_unique_same.
Qed.

(** *** What happens to each component when a room is replaced or removed *)

Lemma rooms_ok_set R rid room :
  rooms_ok R -> is_Some (od_get rid R) \/ (length R < MAX_ROOMS)%nat -> room_ok rid room ->
  rooms_ok (od_set rid room R).
Proof.
  intros [H1 H2 H3] Hcap Hroom. split.
  - by apply od_wf_set.
  - destruct (od_get rid R) eqn:E; [by rewrite od_length_set_mem|]. rewrite od_length_set_new by done.
    destruct Hcap as [[? ?]|?]; [done|lia].
  - intros rid' room'. rewrite od_get_set. case_decide; [by intros; simplify_eq|auto].
Qed.

Lemma rooms_ok_pop R rid : rooms_ok R -> rooms_ok (od_pop rid R).
Proof.
  intros [H1 H2 H3]. split.
  - by apply od_wf_pop.
  - pose proof (od_length_pop_le rid R). lia.
  - intros rid' room'. rewrite od_get_pop. case_decide; [done|auto].
Qed.

(** Files other than the room's keep their room; the room's own file is gone
    or current. *)
Lemma policies_change R R' sm files files' rid :
  policies_ok R sm (Some files) ->
  (forall rid', rid' ≠ rid -> od_get rid' R' = od_get rid' R) ->
  (forall f, f ≠ _policy_path rid -> files' !! f = files !! f) ->
  (forall doc, files' !! _policy_path rid = Some doc ->
     exists room, od_get rid R' = Some room /\ doc = policy_document sm room) ->
  policies_ok R' sm (Some files').
Proof.
  intros H HR Hf Hown f doc Hdoc Hn. destruct (decide (f = _policy_path rid)) as [->|Hne].
  - destruct (Hown doc Hdoc) as (room & ? & ?). eauto.
  - rewrite Hf in Hdoc by done. destruct (H f doc Hdoc Hn) as (rid' & room & H1 & -> & H3). exists rid', room.
    split; [|done]. rewrite HR; [done|]. congruence.
Qed.

(** A change of the room that its document does not show. *)
Lemma policies_hidden R sm P rid room room' :
  policies_ok R sm P -> od_get rid R = Some room -> policy_document sm room' = policy_document sm room ->
  policies_ok (od_set rid room' R) sm P.
Proof.
  intros H Hr Hdoc. destruct P as [files|]; [|done]. intros f doc Hf Hn.
  destruct (H f doc Hf Hn) as (rid' & room1 & H1 & -> & ->). exists rid'. rewrite od_get_set. case_decide.
  - subst. rewrite Hr in H1. injection H1 as <-. by exists room'.
  - by exists room1.
Qed.

Lemma timers_change R R' T T' n n' rid :
  timers_ok R T n -> (n <= n')%nat ->
  (forall rid', rid' ≠ rid -> od_get rid' R' = od_get rid' R) ->
  (forall t k, T !! t = Some k -> timer_room (callback k) ≠ rid -> T' !! t = Some k) ->
  (forall t k, T' !! t = Some k ->
     (timer_room (callback k) ≠ rid /\ T !! t = Some k) \/
     (timer_room (callback k) = rid /\ (t < n')%nat /\
      exists room, od_get rid R' = Some room /\ timer_of (callback k) room = Some t)) ->
  (forall room, od_get rid R' = Some room ->
     (exists t k, expiry_timer room = Some t /\ T' !! t = Some k /\ callback k = ExpireRoom rid) /\
     (screen_id room ≠ "" -> exists t, screen_timer room = Some t /\
       T' !! t = Some {| callback := ExpireScreen rid (screen_id room); fires_at := screen_expires_at room |})) ->
  timers_ok R' T' n'.
Proof.
  intros [H1 H2 H3] Hn HR Hkeep Hnew Hown. split.
  - intros rid' room Hr. destruct (decide (rid' = rid)) as [->|Hne]; [by apply Hown|].
    rewrite HR in Hr by done. destruct (H1 _ _ Hr) as (t & k & ? & ? & Hk). exists t, k.
    split; [done|]. split; [|done]. apply Hkeep; [done|]. by rewrite Hk.
  - intros rid' room Hr Hs. destruct (decide (rid' = rid)) as [->|Hne]; [by apply Hown|].
    rewrite HR in Hr by done. destruct (H2 _ _ Hr Hs) as (t & ? & ?). exists t. split; [done|]. by apply Hkeep.
  - intros t k Hk. destruct (Hnew t k Hk) as [[Hne Ht]|(-> & Hlt & Hroom)]; [|done].
    destruct (H3 t k Ht) as (Hlt & room & Hr & Ho). split; [lia|]. exists room. by rewrite HR.
Qed.

Lemma bindings_change R R' SR SR' sm rid :
  bindings_ok R SR sm ->
  (forall rid', rid' ≠ rid -> od_get rid' R' = od_get rid' R) ->
  (forall sid rid', rid' ≠ rid -> SR' !! sid = Some rid' <-> SR !! sid = Some rid') ->
  (forall room pid m, od_get rid R' = Some room -> od_get pid (members room) = Some m ->
     (session m < next_ref sm)%nat /\ authenticated_user (obj (session m) sm) = Some pid /\
     SR' !! session_id (obj (session m) sm) = Some rid) ->
  (forall sid, SR' !! sid = Some rid ->
     exists room pid m, od_get rid R' = Some room /\ od_get pid (members room) = Some m /\
       session_id (obj (session m) sm) = sid) ->
  bindings_ok R' SR' sm.
Proof.
  intros [H1 H2] HR HS Hown1 Hown2. split.
  - intros rid' room pid m Hr Hm. destruct (decide (rid' = rid)) as [->|Hne]; [eauto|].
    rewrite HR in Hr by done. rewrite HS by done. eauto.
  - intros sid rid' Hs. destruct (decide (rid' = rid)) as [->|Hne]; [eauto|].
    rewrite HS in Hs by done. destruct (H2 _ _ Hs) as (room & pid & m & ? & ?). exists room, pid, m. by rewrite HR.
Qed.

Lemma get_set_other {V} (rid : string) (x : V) R rid' : rid' ≠ rid -> od_get rid' (od_set rid x R) = od_get rid' R.
Proof. intros. by apply od_get_set_ne. Qed.

Lemma get_pop_other {V} rid (R : odict string V) rid' : rid' ≠ rid -> od_get rid' (od_pop rid R) = od_get rid' R.
Proof. intros. by apply od_get_pop_ne. Qed.

(** Two members of a room with the same session id are the same member. *)
Lemma member_session_inj R SR sm rid room pid1 m1 pid2 m2 :
  bindings_ok R SR sm -> ids_unique sm -> od_get rid R = Some room ->
  od_get pid1 (members room) = Some m1 -> od_get pid2 (members room) = Some m2 ->
  session_id (obj (session m1) sm) = session_id (obj (session m2) sm) -> pid1 = pid2.
Proof.
  intros [HB _] Hu Hr H1 H2 E. destruct (HB _ _ _ _ Hr H1) as (L1 & U1 & _), (HB _ _ _ _ Hr H2) as (L2 & U2 & _).
  rewrite (Hu _ _ L1 L2 E) in U1. congruence.
Qed.

(** A session enters a room (as its creator or as a new or known member). *)
Lemma bindings_enter R SR sm rid room' r pid m :
  bindings_ok R SR sm -> (r < next_ref sm)%nat -> authenticated_user (obj r sm) = Some pid -> session m = r ->
  (SR !! session_id (obj r sm) = None \/ SR !! session_id (obj r sm) = Some rid) ->
  members room' = od_set pid m (default [] (members <$> od_get rid R)) ->
  (forall m0, (od_get rid R ≫= fun room => od_get pid (members room)) = Some m0 -> session m0 = r) ->
  bindings_ok (od_set rid room' R) (<[session_id (obj r sm) := rid]> SR) sm.
Proof.
  intros HB Hlt Hu Hm HS Hmem Hold. eapply bindings_change with (rid := rid); [exact HB|apply get_set_other|..].
  - intros sid rid' Hne. destruct (decide (sid = session_id (obj r sm))) as [->|Hs].
    + rewrite lookup_insert_eq. destruct HS as [-> | ->]; split; congruence.
    + by rewrite lookup_insert_ne.
  - intros room pid' m'. rewrite od_get_set_eq. intros [= <-]. rewrite Hmem, od_get_set. case_decide.
    + intros [= <-]. subst pid'. rewrite Hm, lookup_insert_eq. done.
    + intros H'. destruct (od_get rid R) as [room0|] eqn:E; cbn in *; [|done].
      destruct (ok_member_session _ _ _ HB _ _ _ _ E H') as (? & ? & Hb). split; [done|]. split; [done|].
      destruct (decide (session_id (obj r sm) = session_id (obj (session m') sm))) as [->|].
      * by rewrite lookup_insert_eq.
      * by rewrite lookup_insert_ne.
  - intros sid Hs. exists room'. rewrite od_get_set_eq.
    destruct (decide (sid = session_id (obj r sm))) as [->|Hne].
    + exists pid, m. rewrite Hmem, od_get_set_eq, Hm. done.
    + rewrite lookup_insert_ne in Hs by done.
      destruct (ok_session_member _ _ _ HB _ _ Hs) as (room0 & pid0 & m0 & E & Hm0 & Hid).
      exists pid0, m0. split; [done|]. split; [|done]. rewrite Hmem, E. cbn. rewrite od_get_set.
      case_decide; [|done]. subst pid0. rewrite E in Hold. cbn in Hold. rewrite (Hold m0 Hm0) in Hid. congruence.
Qed.

(** A member leaves its room. *)
Lemma bindings_leave R SR sm rid room room' pid m :
  bindings_ok R SR sm -> ids_unique sm -> od_get rid R = Some room -> od_get pid (members room) = Some m ->
  members room' = od_pop pid (members room) ->
  bindings_ok (od_set rid room' R) (delete (session_id (obj (session m) sm)) SR) sm.
Proof.
  intros HB Hu Hr Hm Hmem. pose proof (ok_member_session _ _ _ HB _ _ _ _ Hr Hm) as (_ & _ & Hb).
  eapply bindings_change with (rid := rid); [exact HB|apply get_set_other|..].
  - intros sid rid' Hne. destruct (decide (sid = session_id (obj (session m) sm))) as [->|Hs].
    + rewrite lookup_delete_eq, Hb. split; congruence.
    + by rewrite lookup_delete_ne.
  - intros room1 pid' m'. rewrite od_get_set_eq. intros [= <-]. rewrite Hmem, od_get_pop. case_decide; [done|].
    intros H'. destruct (ok_member_session _ _ _ HB _ _ _ _ Hr H') as (? & ? & ?). split; [done|]. split; [done|].
    rewrite lookup_delete_ne; [done|]. intros E. by apply (member_session_inj _ _ _ _ _ _ _ _ _ HB Hu Hr Hm H') in E.
  - intros sid Hs. apply lookup_delete_Some in Hs as [Hne Hs].
    destruct (ok_session_member _ _ _ HB _ _ Hs) as (room0 & pid0 & m0 & E & Hm0 & Hid).
    rewrite Hr in E. injection E as <-. exists room', pid0, m0. rewrite od_get_set_eq, Hmem, od_get_pop.
    split; [done|]. split; [|done]. case_decide; [|done]. congruence.
Qed.

(** A room changes without gaining or losing members. *)
Lemma bindings_keep R SR sm rid room room' :
  bindings_ok R SR sm -> od_get rid R = Some room -> members room' = members room ->
  bindings_ok (od_set rid room' R) SR sm.
Proof.
  intros HB Hr Hmem. eapply bindings_change with (rid := rid); [exact HB|apply get_set_other|done|..].
  - intros room1 pid' m'. rewrite od_get_set_eq. intros [= <-]. rewrite Hmem. eauto using ok_member_session.
  - intros sid Hs. destruct (ok_session_member _ _ _ HB _ _ Hs) as (room0 & pid0 & m0 & E & Hm0 & Hid).
    rewrite Hr in E. injection E as <-. exists room', pid0, m0. rewrite od_get_set_eq, Hmem. done.
Qed.

End CallInv.
