(* ===== verification/CallPreserve.v ===== *)
(** * Every handler of the call service keeps the invariant

    One lemma per helper of [call/service.py] that describes its run from a
    state satisfying [call_inv], then one preservation lemma per handler. *)

From stdpp Require Import prelude strings list gmap sorting.
From Stdlib Require Import ZArith Lia.
From S2P Require Import Prelude PyDict PyBytes Base64 Sha256 PyValue Json JsonFacts Database Sessions SessionFacts Call CallInvariant.

Module CallPreserve.
Import Call CallInv.

Definition no_open (l : list io_outcome) : Prop := Forall (fun o => o ≠ IoFailsOpen) l.

(** ** Runs of the helpers *)

(** What a policy update leaves on disk. *)
Definition written (P : option (gmap string pyval)) (sm : SessionManager) (room : Room)
    (P' : option (gmap string pyval)) (x : res unit) : Prop :=
  match P with
  | None => P' = None /\ x = Ok tt
  | Some files =>
    (P' = Some (<[_policy_path (room_id room) := policy_document sm room]> files) /\ x = Ok tt) \/
    (P' = Some (delete (_policy_path (room_id room)) files) /\ x = Raise OSError)
  end.

Lemma next_io_spec c : no_open (io c) ->
  exists o l, next_io c = (set_io l c, Ok o) /\ no_open l /\ o ≠ IoFailsOpen.
Proof.
  intros H. unfold next_io. munfold. destruct (io c) as [|o l] eqn:E.
  - exists IoOk, []. split; [|done]. by destruct c; cbn in *; subst.
  - apply Forall_cons in H as [? ?]. by exists o, l.
Qed.

Lemma write_policy_spec rid room c :
  room_at rid c = Some room -> no_open (io c) ->
  exists P l x, _write_policy rid c = (set_policies P (set_io l c), x) /\ no_open l /\
    written (policies c) (sessions c) room P x.
Proof.
  intros Hr Hio. unfold _write_policy. unfold bind at 1, get. unfold written.
  destruct (policies c) as [files|] eqn:EP.
  - rewrite Hr. destruct (next_io_spec c Hio) as (o & l & E & Hl & Ho). unfold bind at 1. rewrite E.
    destruct o; [| |done]; eexists _, l, _; (split; [reflexivity|]); auto.
  - exists None, (io c), (Ok tt). split; [|done]. destruct c; cbn in *. by subst.
Qed.

Lemma unlink_policy_spec rid c :
  no_open (io c) ->
  exists l, unlink_policy rid c = (set_policies (delete (_policy_path rid) <$> policies c) (set_io l c), Ok tt) /\ no_open l.
Proof.
  intros Hio. unfold unlink_policy. unfold bind at 1, get. destruct (policies c) as [files|] eqn:EP.
  - destruct (next_io_spec c Hio) as (o & l & E & Hl & Ho). unfold bind at 1. rewrite E.
    exists l. by destruct o.
  - exists (io c). split; [|done]. destruct c; cbn in *. by subst.
Qed.

(** The file of the room that changed is current or gone. *)
Lemma policies_written R R' sm sm0 P P' rid room x :
  policies_ok R sm P -> (forall rid', rid' ≠ rid -> od_get rid' R' = od_get rid' R) ->
  od_get rid R' = Some room -> room_id room = rid -> same_sessions sm0 sm ->
  written P sm0 room P' x -> policies_ok R' sm P'.
Proof.
  intros HP HR Hr Hid Hs Hw. unfold written in Hw. destruct P as [files|]; [|by destruct Hw as [-> _]].
  rewrite Hid in Hw. destruct Hw as [[-> _]|[-> _]].
  - eapply (policies_change R R' sm files _ rid HP HR).
    + intros f Hf. by rewrite lookup_insert_ne.
    + intros doc. rewrite lookup_insert_eq. intros [= <-]. exists room. split; [done|].
      symmetry. by apply document_same.
  - eapply (policies_change R R' sm files _ rid HP HR).
    + intros f Hf. by rewrite lookup_delete_ne.
    + intros doc. by rewrite lookup_delete_eq.
Qed.

Lemma require_authenticated_ok s u :
  _require_authenticated (Some s) = Ok u -> authenticated_user s = Some u /\ u ≠ "" /\ provisional s = false.
Proof.
  unfold _require_authenticated. destruct (authenticated_user s) as [u'|]; [|done].
  destruct (provisional s); [done|]. cbn [orb]. case_bool_decide; [done|]. intros [= <-]. done.
Qed.

Lemma entry_checks_state `{P256} r msg e k c : fst (entry_checks r msg e k c) = c.
Proof. done. Qed.

Lemma entry_checks_ok `{P256} r msg e k c c' q :
  entry_checks r msg e k c = (c', Ok q) ->
  c' = c /\ authenticated_user (session_obj r c) = Some (rq_user q) /\ rq_user q ≠ "".
Proof.
  unfold entry_checks. munfold. intros Heq. pose proof (f_equal fst Heq) as H1. pose proof (f_equal snd Heq) as H2.
  cbn [fst snd] in H1, H2. split; [done|]. revert H2. clear Heq.
  destruct (_require_authenticated (Some (session_obj r c))) as [u|] eqn:E; [|done]. apply require_authenticated_ok in E as (E & Hne & _).
  destruct (negb (_PARTICIPANT_ID u)); [done|]. destruct (message_with _ _ _); [|done].
  destruct (_request_id _); [|done]. destruct (_room_id _); [|done]. destruct (_decode_base64url _ _); [|done].
  destruct (_validate_public_keys _ _) as [[]|]; [|done]. intros [= <-]. done.
Qed.

(** Steps of a run: the helper is replaced by its described outcome. *)
Ltac step_bind_session :=
  match goal with |- context [_bind_session ?r ?rid ?c] =>
    let sm := fresh "sm" in let E := fresh "E" in let Hs := fresh "Hsame" in let Hr := fresh "Hready" in
    destruct (bind_session_ready r rid c) as (sm & E & Hs & Hr); [try done|rewrite E; clear E] end.

Ltac step_clear_metadata :=
  match goal with |- context [_clear_session_metadata ?r ?c] =>
    let sm := fresh "sm" in let E := fresh "E" in let Hs := fresh "Hsame" in let Hr := fresh "Hready" in
    destruct (clear_metadata_ready r c) as (sm & E & Hs & Hr); [try done|rewrite E; clear E] end.

(** ** [create] *)

Lemma new_room_ok q r t now : rq_user q ≠ "" -> room_ok (rq_room q) (new_room q r t now).
Proof.
  intros Hne. split; cbn; try done.
  - apply NoDup_singleton.
  - intros pid m. case_decide; [|done]. intros [= <-]. by subst.
  - rewrite decide_True by done. eauto.
  - unfold MAX_PARTICIPANTS_PER_ROOM. lia.
  - rewrite size_empty. lia.
  - rewrite size_empty. lia.
Qed.

Lemma timers_create R T n rid room mono :
  timers_ok R T n -> od_get rid R = None -> expiry_timer room = Some n -> screen_id room = "" ->
  timers_ok (od_set rid room R) (<[n := {| callback := ExpireRoom rid; fires_at := mono |}]> T) (S n).
Proof.
  intros HT Hr He Hs. assert (T !! n = None) as Hfresh.
  { destruct (T !! n) eqn:E; [|done]. apply (ok_no_leak _ _ _ HT) in E as [? _]. lia. }
  eapply timers_change with (rid := rid); [exact HT|lia|apply get_set_other|..].
  - intros t k Ht _. rewrite lookup_insert_ne; [done|]. intros ->. congruence.
  - intros t k Hk. apply lookup_insert_Some in Hk as [[<- <-]|[Hne Hk]]; [right|left].
    + split; [done|]. split; [lia|]. exists room. by rewrite od_get_set_eq.
    + split; [|done]. intros <-. apply (ok_no_leak _ _ _ HT) in Hk as (_ & room' & Hk & _). congruence.
  - intros room'. rewrite od_get_set_eq. intros [= <-]. split; [|by rewrite Hs].
    eexists n, _. split; [done|]. by rewrite lookup_insert_eq.
Qed.

(** A session id that is bound nowhere can be taken back. *)
Lemma delete_insert_fresh (SR : gmap string string) sid rid : SR !! sid = None -> delete sid (<[sid := rid]> SR) = SR.
Proof. intros H. by rewrite delete_insert_id. Qed.

Lemma create_inv `{P256} r msg now mono c :
  (r < next_ref (sessions c))%nat -> call_inv c -> call_inv (fst (create r msg now mono c)).
Proof.
  intros Hlt Hinv. unfold create. unfold bind at 1.
  destruct (entry_checks _ _ _ _ c) as [c0 [q|e]] eqn:Eq; [|by injection Eq as <- _].
  apply entry_checks_ok in Eq as (-> & Hu & Hne). unfold bind at 1, get.
  destruct (_session_rooms c !! _) eqn:Esr; [done|]. unfold od_mem.
  destruct (od_get (rq_room q) (_rooms c)) eqn:Er; [done|].
  destruct (MAX_ROOMS <=? _)%nat eqn:Ecap; [done|]. apply Nat.leb_gt in Ecap.
  set (rid := rq_room q) in *. set (room := new_room q r (next_timer c) now).
  unfold new_timer, start_timer. munfold. step_bind_session; [apply Hinv|].
  pose proof Hinv as [HR HB HP HT HU _ HI]. cbn [_session_rooms sessions set__rooms session_obj] in *.
  match goal with |- context [_write_policy rid ?c1] =>
    destruct (write_policy_spec rid room c1) as (P & l & x & Ew & Hl & Hw) end; [|done|].
  { unfold room_at. cbn. by rewrite od_get_set_eq. }
  rewrite Ew. cbn in Hw. assert (room_ok rid room) as Hroom by by apply new_room_ok.
  assert (rooms_ok (od_set rid room (_rooms c))) as HR' by (apply rooms_ok_set; auto).
  assert (x = Ok tt \/ x = Raise OSError) as [-> | ->]
    by (unfold written in Hw; destruct (policies c); naive_solver).
  - cbn [fst]. split; cbn; [done| | | |by eapply ids_unique_same|done|done].
    + eapply bindings_same; [exact Hsame|]. eapply (bindings_enter _ _ _ rid room r (rq_user q) _ HB Hlt Hu); [|by left|by rewrite Er|by rewrite Er].
      done.
    + eapply policies_written with (rid := rid) (room := room);
        [eapply policies_same, HP; exact Hsame|apply get_set_other| |done| |exact Hw].
      * by rewrite od_get_set_eq.
      * done.
    + by apply timers_create.
  - cbn [is_OSError]. unfold undo_create, unbind_session. munfold. step_clear_metadata.
    cbn [fst]. eapply (inv_same_sessions _ sm0); [exact Hsame0|done|].
    cbn [_rooms _session_rooms session_obj sessions set_policies set_io set__rooms set__session_rooms set_sessions] in *.
    split; cbn; [| | | |by eapply ids_unique_same|done|done].
    + rewrite od_pop_set_new by done. apply HR.
    + rewrite od_pop_set_new by done. unfold session_obj. cbn [sessions set_policies set_io set__rooms set__session_rooms set_sessions].
      rewrite (proj1 (proj2 Hsame r)).
      rewrite delete_insert_fresh by done. by eapply bindings_same.
    + rewrite od_pop_set_new by done. unfold written in Hw. destruct (policies c) as [files|] eqn:EP; [|by destruct Hw].
      destruct Hw as [[_ Hw]|[-> _]]; [done|].
      eapply (policies_change _ _ _ files _ rid); [eapply policies_same, HP; exact Hsame|done|..].
      * intros f Hf. by rewrite lookup_delete_ne.
      * intros doc. by rewrite lookup_delete_eq.
    + rewrite od_pop_set_new by done. destruct HT as [T1 T2 T3]. split; [done..|].
      intros t k Ht. destruct (T3 t k Ht). split; [lia|done].
Qed.

(** ** [join] *)

Lemma room_ok_revision rid room n : room_ok rid room -> room_ok rid (set_revision n room).
Proof. intros []. by split. Qed.

Lemma room_ok_enter rid room m pid :
  room_ok rid room -> participant_id m = pid -> pid ≠ "" -> pid ∉ blocked room ->
  (length (od_set pid m (members room)) <= MAX_PARTICIPANTS_PER_ROOM)%nat ->
  room_ok rid (set_members (od_set pid m (members room)) room).
Proof.
  intros [] Hm Hne Hb Hlen. split; cbn; auto.
  - by apply od_wf_set.
  - intros pid' m'. rewrite od_get_set. case_decide; [|auto]. intros [= <-]. by subst.
  - rewrite od_get_set. case_decide; eauto.
  - intros. rewrite od_get_set. case_decide; eauto.
  - intros pid' Hpid'. rewrite od_get_set. case_decide; [by subst|auto].
Qed.

Lemma timers_keep R T n rid room room' :
  timers_ok R T n -> od_get rid R = Some room -> expiry_timer room' = expiry_timer room ->
  screen_timer room' = screen_timer room -> screen_id room' = screen_id room ->
  screen_expires_at room' = screen_expires_at room -> timers_ok (od_set rid room' R) T n.
Proof.
  intros HT Hr E1 E2 E3 E4. eapply timers_change with (rid := rid); [exact HT|lia|apply get_set_other|done|..].
  - intros t k Hk. destruct (decide (timer_room (callback k) = rid)) as [<-|]; [right|by left].
    destruct (ok_no_leak _ _ _ HT _ _ Hk) as (? & room0 & H0 & Ho). split; [done|]. split; [done|].
    exists room'. rewrite od_get_set_eq. split; [done|]. rewrite Hr in H0. injection H0 as <-.
    rewrite <- Ho. unfold timer_of. destruct (callback k); auto.
  - intros room1. rewrite od_get_set_eq. intros [= <-]. rewrite E1, E2, E3, E4. split.
    + by apply (ok_expiry _ _ _ HT).
    + by apply (ok_lease _ _ _ HT).
Qed.

Lemma set_members_id room : set_members (members room) room = room.
Proof. by destruct room. Qed.

Lemma set_rooms_id c : set__rooms (_rooms c) c = c.
Proof. by destruct c. Qed.

Lemma update_room_eq rid f c room :
  room_at rid c = Some room -> update_room rid f c = (set__rooms (od_set rid (f room) (_rooms c)) c, Ok tt).
Proof. intros E. unfold update_room, modify. by rewrite E. Qed.

Lemma room_at_set rid room c : room_at rid (set__rooms (od_set rid room (_rooms c)) c) = Some room.
Proof. unfold room_at. cbn. by rewrite od_get_set_eq. Qed.

(** The end of [join]: the member is in, the session is bound, the policy is
    rewritten. *)
Lemma inv_join c rid room r pid m n sm P l x :
  call_inv c -> (r < next_ref (sessions c))%nat -> room_at rid c = Some room ->
  authenticated_user (session_obj r c) = Some pid -> pid ≠ "" -> pid ∉ blocked room ->
  participant_id m = pid -> session m = r ->
  (_session_rooms c !! session_id (session_obj r c) = None \/ _session_rooms c !! session_id (session_obj r c) = Some rid) ->
  (forall m0, od_get pid (members room) = Some m0 -> session m0 = r) ->
  (length (od_set pid m (members room)) <= MAX_PARTICIPANTS_PER_ROOM)%nat ->
  same_sessions (sessions c) sm -> sm_ready sm -> no_open l ->
  let room' := set_revision n (set_members (od_set pid m (members room)) room) in
  written (policies c) sm room' P x ->
  call_inv {| _rooms := od_set rid room' (_rooms c);
              _session_rooms := <[session_id (session_obj r c) := rid]> (_session_rooms c);
              sessions := sm; policies := P; io := l; timers := timers c; next_timer := next_timer c |}.
Proof.
  intros [HR HB HP HT HU _ HI] Hlt Hr Hu Hne Hb Hmp Hms HS Hold Hlen Hsame Hready Hl room' Hw.
  assert (room_ok rid room) as Hok by by apply (ok_each _ HR).
  split; cbn; [| | | |by eapply ids_unique_same|done|done].
  - apply rooms_ok_set; [done|left; eauto|]. by apply room_ok_revision, room_ok_enter.
  - eapply bindings_same; [exact Hsame|].
    apply (bindings_enter _ _ _ rid room' r pid m HB Hlt Hu Hms HS); unfold room_at in Hr; rewrite Hr; done.
  - eapply policies_written with (rid := rid) (room := room');
      [eapply policies_same, HP; exact Hsame|apply get_set_other| |apply Hok| |exact Hw].
    + by rewrite od_get_set_eq.
    + done.
  - eapply timers_keep; eauto.
Qed.

Lemma join_inv `{P256} r msg now c :
  (r < next_ref (sessions c))%nat -> call_inv c -> call_inv (fst (join r msg now c)).
Proof.
  intros Hlt Hinv. unfold join. unfold bind at 1.
  destruct (entry_checks _ _ _ _ c) as [c0 [q|e]] eqn:Eq; [|by injection Eq as <- _].
  apply entry_checks_ok in Eq as (-> & Hu & Hne). unfold bind at 1, get.
  set (rid := rq_room q) in *. set (pid := rq_user q) in *.
  destruct (in_other_room _ rid) eqn:Eprev; [done|].
  assert (_session_rooms c !! session_id (session_obj r c) = None \/
          _session_rooms c !! session_id (session_obj r c) = Some rid) as HS.
  { destruct (_session_rooms c !! _) as [p|]; [|by left]. right. cbn in Eprev. case_bool_decide; [by subst|done]. }
  destruct (room_at rid c) as [room|] eqn:Er; [|done].
  destruct (_ <=? _); [done|]. destruct (negb _); [done|]. case_bool_decide as Hb; [done|].
  destruct (active_elsewhere _ r) eqn:Eact; [done|].
  assert (forall m0, od_get pid (members room) = Some m0 -> session m0 = r) as Hold.
  { intros m0 E0. rewrite E0 in Eact. cbn in Eact. destruct (Nat.eqb_spec (session m0) r); [done|done]. }
  set (m := {| participant_id := pid; key_agreement_public_key := _; signing_public_key := _; session := r |}).
  set (changed := member_changed _ m). clearbody changed.
  unfold bind at 1. rewrite (update_room_eq _ _ _ _ Er). unfold bind at 1. rewrite room_at_set.
  destruct (over_capacity _ _) eqn:Ecap.
  - (* the member is taken out again *)
    destruct (od_get pid (members room)) eqn:E0; [done|].
    unfold bind at 1. rewrite (update_room_eq _ _ _ _ (room_at_set _ _ _)). cbn [fst raise _rooms set__rooms members set_members].
    rewrite od_set_set, od_pop_set_new by done.
    replace (set_members (members room) (set_members (od_set pid m (members room)) room)) with room by by destruct room.
    rewrite od_set_id by exact Er. by destruct c.
  - assert (length (od_set pid m (members room)) <= MAX_PARTICIPANTS_PER_ROOM)%nat as Hlen.
    { destruct (od_get pid (members room)) eqn:E0.
      - rewrite od_length_set_mem by eauto. apply (ok_capacity rid room), (ok_each _ (inv_rooms _ Hinv)), Er.
      - unfold over_capacity in Ecap. by apply Nat.ltb_ge in Ecap. }
    unfold bind at 1. step_bind_session; [apply Hinv|]. cbn [_session_rooms set__rooms].
    set (n := if changed then revision room + 1 else revision room).
    set (room' := set_revision n (set_members (od_set pid m (members room)) room)).
    set (c2 := set__rooms (od_set rid room' (_rooms c)) (set__session_rooms
       (<[session_id (session_obj r c) := rid]> (_session_rooms c)) (set_sessions sm c))).
    assert (forall (k : CM (list send_t)),
      ((if changed then update_room rid (fun room => set_revision (revision room + 1) room) else ret tt) ;! k)
        (set_sessions sm (set__session_rooms (<[session_id (session_obj r c) := rid]> (_session_rooms c))
           (set__rooms (od_set rid (set_members (od_set pid m (members room)) room) (_rooms c)) c))) = k c2) as Hrev.
    { intros k. unfold c2, room', n. destruct changed; unfold bind.
      - rewrite (update_room_eq rid _ _ (set_members (od_set pid m (members room)) room))
          by (unfold room_at; cbn; by rewrite od_get_set_eq).
        cbn. by rewrite od_set_set.
      - cbn. by destruct room. }
    unfold session_obj in *. cbn [sessions set__rooms] in *.
    rewrite Hrev. clear Hrev. unfold bind at 1.
    destruct (write_policy_spec rid room' c2) as (P & l & x & -> & Hl & Hw);
      [unfold room_at; cbn; by rewrite od_get_set_eq|apply Hinv|].
    assert (call_inv (set_policies P (set_io l c2))) as Hfin
      by (eapply (inv_join c rid room r pid m n sm P l x); eauto).
    destruct x as [[]|e]; [|done]. unfold bind, get.
    by destruct (room_at rid (set_policies P (set_io l c2))).
Qed.

(** ** Removing a member *)

(** [timers] without an optional timer. *)
Definition del (t : option nat) (T : gmap nat Timer) : gmap nat Timer :=
  match t with Some t => delete t T | None => T end.

Lemma clear_screen_eq rid room c :
  room_at rid c = Some room ->
  _clear_screen_locked rid c =
    (set__rooms (od_set rid (cleared_screen room) (_rooms c)) (set_timers (del (screen_timer room) (timers c)) c), Ok tt).
Proof.
  intros Hr. unfold _clear_screen_locked. unfold bind at 1, get. rewrite Hr.
  unfold cancel_timer, del. destruct (screen_timer room) as [t|]; unfold bind, modify, ret.
  - erewrite update_room_eq; [reflexivity|]. exact Hr.
  - rewrite (update_room_eq _ _ _ _ Hr). by destruct c.
Qed.

Lemma timers_clear R T n rid room room' :
  timers_ok R T n -> od_get rid R = Some room -> room_ok rid room ->
  expiry_timer room' = expiry_timer room -> screen_id room' = "" ->
  timers_ok (od_set rid room' R) (del (screen_timer room) T) n.
Proof.
  intros HT Hr Hok E1 E2.
  assert (forall t, screen_timer room = Some t -> exists k, T !! t = Some k /\ callback k = ExpireScreen rid (screen_id room)) as Hs.
  { intros t Et. destruct (decide (screen_id room = "")) as [E|E].
    - apply (ok_screen_timer _ _ Hok) in E. congruence.
    - destruct (ok_lease _ _ _ HT _ _ Hr E) as (t' & E' & ?). replace t' with t in * by congruence. eauto. }
  assert (forall t k, del (screen_timer room) T !! t = Some k <-> T !! t = Some k /\ screen_timer room ≠ Some t) as Hdel.
  { intros t k. unfold del. destruct (screen_timer room) as [t'|]; [|naive_solver].
    rewrite lookup_delete_Some. naive_solver. }
  eapply timers_change with (rid := rid); [exact HT|lia|apply get_set_other|..].
  - intros t k Hk Hne. apply Hdel. split; [done|]. intros Et. destruct (Hs t Et) as (k' & ? & Hk').
    apply Hne. replace k with k' by congruence. by rewrite Hk'.
  - intros t k [Hk Hne]%Hdel. destruct (decide (timer_room (callback k) = rid)) as [E|]; [right|by left].
    split; [done|]. destruct (ok_no_leak _ _ _ HT _ _ Hk) as (Hlt & room0 & H0 & Ho). split; [done|].
    rewrite E, Hr in H0. injection H0 as <-. exists room'. rewrite od_get_set_eq. split; [done|].
    destruct (callback k); cbn in *; congruence.
  - intros room1. rewrite od_get_set_eq. intros [= <-]. split; [|by rewrite E2].
    destruct (ok_expiry _ _ _ HT _ _ Hr) as (t & k & He & Hk & Hc). exists t, k. rewrite E1. split; [done|].
    split; [|done]. apply Hdel. split; [done|]. intros Et. destruct (Hs t Et) as (k' & ? & Hk'). congruence.
Qed.

(** The room a departing member leaves behind. *)
Definition without_member (pid : string) (room : Room) : Room :=
  let room1 := set_members (od_pop pid (members room)) room in
  let room2 := if bool_decide (screen_owner room = pid) then cleared_screen room1 else room1 in
  set_revision (revision room2 + 1) room2.

Definition timers_without (pid : string) (room : Room) (T : gmap nat Timer) : gmap nat Timer :=
  if bool_decide (screen_owner room = pid) then del (screen_timer room) T else T.

Lemma remove_member_run r rid room pid m c :
  room_at rid c = Some room -> authenticated_user (session_obj r c) = Some pid ->
  od_get pid (members room) = Some m -> session m = r -> no_open (io c) ->
  exists P l x,
    _remove_member_locked r rid c =
      ({| _rooms := od_set rid (without_member pid room) (_rooms c);
          _session_rooms := delete (session_id (session_obj r c)) (_session_rooms c);
          sessions := sessions c; policies := P; io := l;
          timers := timers_without pid room (timers c); next_timer := next_timer c |},
       match x with
       | Ok _ => Ok (Some (recipients_of (without_member pid room), without_member pid room))
       | Raise e => Raise e
       end) /\
    no_open l /\ written (policies c) (sessions c) (without_member pid room) P x.
Proof.
  intros Hr Hu Hm Hs Hio. unfold _remove_member_locked. unfold bind at 1, get. rewrite Hr, Hu, Hm, Hs, Nat.eqb_refl.
  cbn [negb]. unfold bind at 1. rewrite (update_room_eq _ _ _ _ Hr).
  set (c1 := set__rooms _ c). set (room1 := set_members (od_pop pid (members room)) room) in *.
  set (room2 := if bool_decide (screen_owner room = pid) then cleared_screen room1 else room1).
  set (c2 := set_timers (timers_without pid room (timers c)) (set__rooms (od_set rid room2 (_rooms c)) c)).
  assert ((if bool_decide (screen_owner room = pid) then _clear_screen_locked rid else ret tt) c1 = (c2, Ok tt)) as E2.
  { unfold c2, room2, timers_without. case_bool_decide; [|by destruct c].
    rewrite (clear_screen_eq rid room1) by apply room_at_set. unfold c1. cbn. by rewrite od_set_set. }
  unfold bind at 1.
  match goal with |- context [(if bool_decide _ then ?a else ?b) c1] =>
    replace ((if bool_decide (screen_owner room = pid) then a else b) c1) with (c2, Ok tt : res unit)
      by (symmetry; exact E2) end.
  unfold unbind_session. unfold bind at 1, modify. unfold bind at 1.
  rewrite (update_room_eq rid _ _ room2) by (unfold room_at; cbn; by rewrite od_get_set_eq).
  unfold bind at 1. match goal with |- context [_write_policy rid ?c3] => set (c3' := c3) end.
  destruct (write_policy_spec rid (without_member pid room) c3') as (P & l & x & Ew & Hl & Hw).
  - unfold room_at. cbn. by rewrite od_get_set_eq.
  - done.
  - exists P, l, x. rewrite Ew. split; [|done].
    assert (set_policies P (set_io l c3') =
      {| _rooms := od_set rid (without_member pid room) (_rooms c);
         _session_rooms := delete (session_id (session_obj r c)) (_session_rooms c);
         sessions := sessions c; policies := P; io := l;
         timers := timers_without pid room (timers c); next_timer := next_timer c |}) as <-.
    { unfold c3', c2, set_policies, set_io. cbn. by rewrite od_set_set. }
    destruct x as [[]|e]; [|done]. unfold bind, get, ret, room_at. cbn [_rooms set_policies set_io c3' set__rooms].
    by rewrite od_get_set_eq.
Qed.

Lemma room_ok_without rid room pid B :
  room_ok rid room -> is_Some (od_get pid (members room)) -> pid ≠ initiator_id room -> pid ≠ "" ->
  (forall p, p ∈ B -> p ∈ blocked room \/ p = pid) -> (size B <= 256)%nat ->
  room_ok rid (without_member pid (set_blocked B room)).
Proof.
  intros [] Hm Hne Hnz HB Hsz. unfold without_member. cbn [screen_owner set_blocked members].
  assert (forall p, od_get p (members room) = None -> od_get p (od_pop pid (members room)) = None) as Hpop.
  { intros p Hp. rewrite od_get_pop. by case_decide. }
  case_bool_decide as Ho; split; cbn; auto using od_wf_pop.
  all: try (intros p m0; rewrite od_get_pop; case_decide; [done|by auto]).
  all: try (rewrite od_get_pop; case_decide; [congruence|done]).
  all: try (pose proof (od_length_pop_le pid (members room)); lia).
  all: try (intros p Hp; destruct (HB p Hp) as [?| ->]; [auto|by rewrite od_get_pop_eq]).
Qed.

Lemma timers_without_ok R T n rid room room' pid :
  timers_ok R T n -> od_get rid R = Some room -> room_ok rid room -> expiry_timer room' = expiry_timer room ->
  (if bool_decide (screen_owner room = pid) then screen_id room' = ""
   else screen_timer room' = screen_timer room /\ screen_id room' = screen_id room /\
        screen_expires_at room' = screen_expires_at room) ->
  timers_ok (od_set rid room' R) (timers_without pid room T) n.
Proof.
  intros HT Hr Hok He Hs. unfold timers_without. case_bool_decide.
  - by apply timers_clear.
  - destruct Hs as (? & ? & ?). by eapply timers_keep.
Qed.

(** The state after [_remove_member_locked], with an updated list of removed
    accounts. *)
Lemma inv_removed c rid room pid m B P l x :
  call_inv c -> room_at rid c = Some room -> od_get pid (members room) = Some m -> pid ≠ initiator_id room ->
  (forall p, p ∈ B -> p ∈ blocked room \/ p = pid) -> (size B <= 256)%nat -> no_open l ->
  written (policies c) (sessions c) (without_member pid (set_blocked B room)) P x ->
  call_inv {| _rooms := od_set rid (without_member pid (set_blocked B room)) (_rooms c);
              _session_rooms := delete (session_id (session_obj (session m) c)) (_session_rooms c);
              sessions := sessions c; policies := P; io := l;
              timers := timers_without pid room (timers c); next_timer := next_timer c |}.
Proof.
  intros [HR HB HP HT HU HS HI] Hr Hm Hne HBl Hsz Hl Hw.
  assert (room_ok rid room) as Hok by by apply (ok_each _ HR).
  assert (forall room0, members (set_revision (revision (if bool_decide (screen_owner room = pid) then cleared_screen room0 else room0) + 1)
     (if bool_decide (screen_owner room = pid) then cleared_screen room0 else room0)) = members room0) as Hmem
    by (intros; by case_bool_decide).
  split; cbn; [| | | |done..].
  - apply rooms_ok_set; [done|left; eauto|]. apply room_ok_without; eauto.
    by apply (ok_keys _ _ Hok) in Hm as [_ ?].
  - eapply bindings_leave; [done..|]. apply Hmem.
  - eapply policies_written with (rid := rid) (room := without_member pid (set_blocked B room));
      [exact HP|apply get_set_other| | |done|exact Hw].
    + by rewrite od_get_set_eq.
    + unfold without_member. cbn [screen_owner set_blocked]. case_bool_decide; apply Hok.
  - eapply timers_without_ok; eauto; unfold without_member; cbn [screen_owner set_blocked]; by case_bool_decide.
Qed.

(** ** Ending a room *)

Definition release_all (sm : SessionManager) (ms : list Member) (SR : gmap string string) : gmap string string :=
  fold_left (fun SR m => delete (session_id (obj (session m) sm)) SR) ms SR.

Lemma release_all_lookup sm ms SR sid rid :
  release_all sm ms SR !! sid = Some rid <->
  SR !! sid = Some rid /\ forall m, m ∈ ms -> session_id (obj (session m) sm) ≠ sid.
Proof.
  revert SR. induction ms as [|m ms IH]; intros SR; cbn.
  - split; [|tauto]. intros H. split; [done|]. by intros m []%elem_of_nil.
  - unfold release_all in *. rewrite IH, lookup_delete_Some. setoid_rewrite elem_of_cons. naive_solver.
Qed.

Lemma release_all_same sm sm' ms SR : same_sessions sm sm' -> release_all sm' ms SR = release_all sm ms SR.
Proof.
  intros Hs. revert SR. induction ms as [|m ms IH]; intros SR; [done|]. unfold release_all in *. cbn.
  by rewrite (proj1 (proj2 Hs _)).
Qed.

Lemma release_members_run ms c :
  sm_ready (sessions c) ->
  exists sm', iterM release_member ms c =
    (set_sessions sm' (set__session_rooms (release_all (sessions c) ms (_session_rooms c)) c), Ok tt) /\
    same_sessions (sessions c) sm' /\ sm_ready sm'.
Proof.
  revert c. induction ms as [|m ms IH]; intros c Hr; cbn [iterM].
  - exists (sessions c). split; [|done]. by destruct c.
  - unfold release_member at 1, unbind_session. unfold bind at 1. unfold bind at 1, modify.
    step_clear_metadata. destruct (IH (set_sessions sm (set__session_rooms
      (delete (session_id (session_obj (session m) c)) (_session_rooms c)) c))) as (sm2 & E2 & Hs2 & Hr2); [done|].
    exists sm2. cbn [sessions set_sessions set__session_rooms _session_rooms] in *. rewrite E2.
    split; [|split; [by etransitivity|done]]. f_equal. unfold set_sessions, set__session_rooms. cbn. f_equal.
    by apply release_all_same.
Qed.

Lemma bindings_end R SR sm rid room :
  bindings_ok R SR sm -> od_get rid R = Some room -> od_wf (members room) ->
  bindings_ok (od_pop rid R) (release_all sm (od_values (members room)) SR) sm.
Proof.
  intros HB Hr Hwf. eapply bindings_change with (rid := rid); [exact HB|apply get_pop_other|..].
  - intros sid rid' Hne. rewrite release_all_lookup. split; [tauto|]. intros Hs. split; [done|].
    intros m (pid & Hm)%od_values_elem E.
    apply od_get_elem in Hm; [|done]. destruct (ok_member_session _ _ _ HB _ _ _ _ Hr Hm) as (_ & _ & Hb). congruence.
  - intros room' pid m. by rewrite od_get_pop_eq.
  - intros sid [Hs Hno]%release_all_lookup.
    destruct (ok_session_member _ _ _ HB _ _ Hs) as (room0 & pid0 & m0 & E & Hm0 & Hid).
    rewrite Hr in E. injection E as <-. destruct (Hno m0); [|done]. apply od_values_elem. exists pid0.
    by apply od_get_Some_elem.
Qed.

Lemma del_lookup o T t (k : Timer) : del o T !! t = Some k <-> T !! t = Some k /\ o ≠ Some t.
Proof. unfold del. destruct o as [t'|]; [|naive_solver]. rewrite lookup_delete_Some. naive_solver. Qed.

Lemma timers_end R T n rid room :
  timers_ok R T n -> od_get rid R = Some room -> room_ok rid room ->
  timers_ok (od_pop rid R) (del (expiry_timer room) (del (screen_timer room) T)) n.
Proof.
  intros HT Hr Hok. pose proof (ok_expiry _ _ _ HT _ _ Hr) as (te & ke & Ee & Hke & Hce).
  eapply timers_change with (rid := rid); [exact HT|lia|apply get_pop_other|..].
  - intros t k Hk Hne. rewrite !del_lookup. split; [split; [done|]|].
    + intros Es. destruct (decide (screen_id room = "")) as [E|E].
      * apply (ok_screen_timer _ _ Hok) in E. congruence.
      * destruct (ok_lease _ _ _ HT _ _ Hr E) as (t' & E' & Ht'). apply Hne.
        replace t' with t in Ht' by congruence. rewrite Ht' in Hk. by injection Hk as <-.
    + rewrite Ee. intros [= ->]. apply Hne. rewrite Hke in Hk. injection Hk as <-. by rewrite Hce.
  - intros t k [[Hk Hs]%del_lookup He]%del_lookup. left. split; [|done]. intros E.
    destruct (ok_no_leak _ _ _ HT _ _ Hk) as (_ & room0 & H0 & Ho). rewrite E, Hr in H0. injection H0 as <-.
    by destruct (callback k).
  - intros room'. by rewrite od_get_pop_eq.
Qed.

(** The state after [_end_room_locked]. *)
Definition ended (rid : string) (room : Room) (sm : SessionManager) (l : list io_outcome) (c : CallService) : CallService :=
  {| _rooms := od_pop rid (_rooms c);
     _session_rooms := release_all (sessions c) (od_values (members room)) (_session_rooms c);
     sessions := sm; policies := delete (_policy_path rid) <$> policies c; io := l;
     timers := del (expiry_timer room) (del (screen_timer room) (timers c)); next_timer := next_timer c |}.

Lemma cancel_eq t c : cancel_timer t c = (set_timers (del t (timers c)) c, Ok tt).
Proof. destruct t; [done|]. by destruct c. Qed.

Lemma end_room_run rid room c :
  room_at rid c = Some room -> room_id room = rid -> sm_ready (sessions c) -> no_open (io c) ->
  exists sm l, _end_room_locked rid c =
      (ended rid room sm l c,
       Ok (map session (filter (fun m => participant_id m ≠ initiator_id room) (od_values (members room))))) /\
    same_sessions (sessions c) sm /\ sm_ready sm /\ no_open l.
Proof.
  intros Hr Hid Hrdy Hio. unfold _end_room_locked. unfold bind at 1. rewrite (clear_screen_eq _ _ _ Hr).
  unfold bind at 1, get. rewrite (room_at_set rid (cleared_screen room) (set_timers _ c)).
  unfold bind at 1, modify. cbn [room_id cleared_screen set_screen_revision set_screen_expires_at set_screen_id
    set_screen_owner set_screen_timer expiry_timer members initiator_id]. rewrite Hid.
  set (c1 := set__rooms (od_pop rid _) _).
  destruct (unlink_policy_spec rid c1) as (l & El & Hl); [done|]. unfold bind at 1. rewrite El.
  unfold bind at 1. rewrite cancel_eq. unfold bind at 1.
  match goal with |- context [iterM release_member ?ms ?c2] =>
    destruct (release_members_run ms c2) as (sm & E & Hs & Hr2); [done|] end.
  rewrite E. exists sm, l. split; [|done]. unfold ret, ended. f_equal.
  unfold set_sessions, set__session_rooms. cbn. by rewrite od_pop_set.
Qed.

Lemma inv_ended c rid room sm l :
  call_inv c -> room_at rid c = Some room -> same_sessions (sessions c) sm -> sm_ready sm -> no_open l ->
  call_inv (ended rid room sm l c).
Proof.
  intros [HR HB HP HT HU HS HI] Hr Hsame Hrdy Hl. assert (room_ok rid room) as Hok by by apply (ok_each _ HR).
  split; cbn; [by apply rooms_ok_pop| | |by apply timers_end|by eapply ids_unique_same|done|done].
  - eapply bindings_same; [exact Hsame|]. eapply bindings_end; eauto. apply Hok.
  - eapply policies_same; [exact Hsame|]. destruct (policies c) as [files|]; [|done]. cbn.
    eapply (policies_change _ _ _ files _ rid HP (get_pop_other _ _)).
    + intros f Hf. by rewrite lookup_delete_ne.
    + intros doc. by rewrite lookup_delete_eq.
Qed.

(** A bound session is a member of its room, under its current user. *)
Lemma bound_member c r rid room :
  call_inv c -> (r < next_ref (sessions c))%nat ->
  _session_rooms c !! session_id (session_obj r c) = Some rid -> room_at rid c = Some room ->
  exists pid m, authenticated_user (session_obj r c) = Some pid /\ od_get pid (members room) = Some m /\ session m = r.
Proof.
  intros Hinv Hlt Hs Hr. pose proof (inv_bindings c Hinv) as HB.
  destruct (ok_session_member _ _ _ HB _ _ Hs) as (room0 & pid & m & E & Hm & Hid). unfold room_at in Hr.
  rewrite Hr in E. injection E as <-. destruct (ok_member_session _ _ _ HB _ _ _ _ Hr Hm) as (Hlt' & Hu & _).
  assert (session m = r) as Es by (by apply (inv_ids c Hinv)). exists pid, m. rewrite <- Es at 1. done.
Qed.

Lemma set_blocked_id room : set_blocked (blocked room) room = room.
Proof. by destruct room. Qed.

Lemma depart_inv r rid room reason c :
  call_inv c -> (r < next_ref (sessions c))%nat ->
  _session_rooms c !! session_id (session_obj r c) = Some rid -> room_at rid c = Some room ->
  call_inv (fst (depart r rid room (authenticated_user (session_obj r c)) reason c)).
Proof.
  intros Hinv Hlt Hs Hr. assert (room_ok rid room) as Hok by by apply (ok_each _ (inv_rooms c Hinv)).
  unfold depart. unfold bind at 1. case_bool_decide as Hi.
  - destruct (end_room_run rid room c Hr (ok_id _ _ Hok) (inv_ready c Hinv) (inv_io c Hinv)) as (sm & l & E & Hsame & Hrdy & Hl).
    unfold bind at 1. rewrite E. unfold ret at 1. unfold bind at 1. step_clear_metadata.
    apply inv_same_sessions; auto. by apply inv_ended.
  - destruct (bound_member c r rid room Hinv Hlt Hs Hr) as (pid & m & Hu & Hm & Hms).
    destruct (remove_member_run r rid room pid m c Hr Hu Hm Hms (inv_io c Hinv)) as (P & l & x & E & Hl & Hw).
    unfold bind at 1. rewrite E.
    assert (call_inv {| _rooms := od_set rid (without_member pid room) (_rooms c);
      _session_rooms := delete (session_id (session_obj r c)) (_session_rooms c); sessions := sessions c;
      policies := P; io := l; timers := timers_without pid room (timers c); next_timer := next_timer c |}) as Hfin.
    { rewrite <- Hms. pose proof (inv_removed c rid room pid m (blocked room) P l x Hinv Hr Hm) as Hrem.
      rewrite set_blocked_id in Hrem. apply Hrem; [congruence|auto|apply Hok|done|done]. }
    destruct x as [[]|e]; [|done]. unfold ret at 1. unfold bind at 1. step_clear_metadata; [apply Hinv|].
    by apply inv_same_sessions.
Qed.

Lemma leave_inv r msg c : (r < next_ref (sessions c))%nat -> call_inv c -> call_inv (fst (leave r msg c)).
Proof.
  intros Hlt Hinv. unfold leave. unfold bind at 1, get. unfold bind at 1, lift.
  destruct (_require_authenticated _) as [u|] eqn:Eu; [|done]. apply require_authenticated_ok in Eu as (Eu & _ & _).
  unfold bind at 1. match goal with |- context [match ?x with Ok _ => _ | Raise _ => _ end] => destruct x as [[rq rid]|] end; [|done].
  case_bool_decide as Hs; [|done]. cbn [negb]. destruct (room_at rid c) as [room|] eqn:Er; [|done].
  unfold bind at 1. pose proof (depart_inv r rid room "INITIATOR_LEFT" c Hinv Hlt Hs Er) as Hd. rewrite Eu in Hd.
  destruct (depart _ _ _ _ _ c) as [c1 [sends|e]]; exact Hd.
Qed.

Lemma disconnected_inv r c : (r < next_ref (sessions c))%nat -> call_inv c -> call_inv (fst (disconnected r c)).
Proof.
  intros Hlt Hinv. unfold disconnected. unfold bind at 1, get.
  destruct (_session_rooms c !! _) as [rid|] eqn:Es; [|done]. destruct (room_at rid c) as [room|] eqn:Er; [|done].
  by apply depart_inv.
Qed.

Lemma expire_room_inv rid c : call_inv c -> call_inv (fst (_expire_room rid c)).
Proof.
  intros Hinv. unfold _expire_room. unfold bind at 1, get. destruct (room_at rid c) as [room|] eqn:Er; [|done].
  assert (room_ok rid room) as Hok by by apply (ok_each _ (inv_rooms c Hinv)).
  destruct (end_room_run rid room c Er (ok_id _ _ Hok) (inv_ready c Hinv) (inv_io c Hinv)) as (sm & l & E & Hsame & Hrdy & Hl).
  unfold bind at 1. rewrite E. by apply inv_ended.
Qed.

(** ** [moderate] *)

(** Between a change of a room and the policy update that follows it, only the
    file of that room may be out of date. *)
Definition policies_but (rid : string) (R : odict string Room) (sm : SessionManager) (P : option (gmap string pyval)) : Prop :=
  match P with
  | None => True
  | Some files => policies_ok R sm (Some (delete (_policy_path rid) files))
  end.

Record inv_but (rid : string) (c : CallService) : Prop := {
  but_rooms : rooms_ok (_rooms c);
  but_bindings : bindings_ok (_rooms c) (_session_rooms c) (sessions c);
  but_policies : policies_but rid (_rooms c) (sessions c) (policies c);
  but_timers : timers_ok (_rooms c) (timers c) (next_timer c);
  but_ids : ids_unique (sessions c);
  but_ready : sm_ready (sessions c);
  but_io : no_open (io c)
}.

Lemma inv_weaken rid c : call_inv c -> inv_but rid c.
Proof.
  intros []. split; auto. unfold policies_but. destruct (policies c) as [files|]; [|done].
  intros f doc [_ Hf]%lookup_delete_Some. by apply inv_policies0.
Qed.

Lemma inv_but_update rid c room f :
  inv_but rid c -> room_at rid c = Some room -> room_ok rid (f room) -> members (f room) = members room ->
  expiry_timer (f room) = expiry_timer room -> screen_timer (f room) = screen_timer room ->
  screen_id (f room) = screen_id room -> screen_expires_at (f room) = screen_expires_at room ->
  inv_but rid (set__rooms (od_set rid (f room) (_rooms c)) c).
Proof.
  intros [] Hr Hok Hm H1 H2 H3 H4. split; cbn; auto.
  - apply rooms_ok_set; eauto.
  - eapply bindings_keep; eauto.
  - unfold policies_but in *. destruct (policies c) as [files|]; [|done].
    eapply (policies_change _ _ _ _ _ rid but_policies0); [apply get_set_other|done|].
    intros doc. by rewrite lookup_delete_eq.
  - eapply timers_keep; eauto.
Qed.

Lemma write_restores rid room c :
  inv_but rid c -> room_at rid c = Some room ->
  call_inv (fst (_write_policy rid c)) /\
  (forall c' x, _write_policy rid c = (c', x) -> _rooms c' = _rooms c).
Proof.
  intros [HR HB HP HT HU HS HI] Hr. destruct (write_policy_spec rid room c Hr HI) as (P & l & x & E & Hl & Hw).
  rewrite E. split; [|by intros ? ? [= <- _]]. split; cbn; auto.
  assert (room_ok rid room) as Hok by by apply (ok_each _ HR).
  destruct (policies c) as [files|] eqn:EP; [|by destruct Hw as [-> _]].
  unfold written in Hw. rewrite (ok_id _ _ Hok) in Hw.
  assert (policies_ok (_rooms c) (sessions c) (Some (delete (_policy_path rid) files))) as HP' by exact HP.
  destruct Hw as [[-> _]|[-> _]]; [|done]. rewrite <- insert_delete_eq.
  eapply (policies_change _ _ _ _ _ rid HP'); [done| |].
  - intros f Hf. by rewrite lookup_insert_ne.
  - intros doc. rewrite lookup_insert_eq. intros [= <-]. eauto.
Qed.

Lemma room_ok_muted rid room X : room_ok rid room -> (size X <= 256)%nat -> room_ok rid (set_muted X room).
Proof. intros [] H. by split. Qed.

Lemma room_ok_blocked rid room B :
  room_ok rid room -> (size B <= 256)%nat -> (forall p, p ∈ B -> p ∈ blocked room) -> room_ok rid (set_blocked B room).
Proof. intros [] H HB. split; auto. Qed.

Lemma size_add (x : string) (X : gset string) :
  (size X <= 256)%nat -> (256 <=? size X)%nat && negb (bool_decide (x ∈ X)) = false -> (size ({[x]} ∪ X) <= 256)%nat.
Proof.
  intros Hs Hc. destruct (decide (x ∈ X)) as [Hin|Hni].
  - replace ({[x]} ∪ X) with X by set_solver. done.
  - rewrite bool_decide_eq_false_2, andb_true_r in Hc by done. apply Nat.leb_gt in Hc.
    rewrite size_union by set_solver. rewrite size_singleton. lia.
Qed.

Lemma size_remove (x : string) (X : gset string) : (size X <= 256)%nat -> (size (X ∖ {[x]}) <= 256)%nat.
Proof. intros H. etransitivity; [|exact H]. apply subseteq_size. set_solver. Qed.

(** What [apply_moderation] guarantees. *)
Definition moderated (rid : string) (y : CallService * res (option nat)) : Prop :=
  match snd y with
  | Ok _ => inv_but rid (fst y) /\ is_Some (room_at rid (fst y))
  | Raise _ => call_inv (fst y)
  end.

Lemma moderated_update rid room c f :
  inv_but rid c -> room_at rid c = Some room -> room_ok rid (f room) -> members (f room) = members room ->
  expiry_timer (f room) = expiry_timer room -> screen_timer (f room) = screen_timer room ->
  screen_id (f room) = screen_id room -> screen_expires_at (f room) = screen_expires_at room ->
  forall v, moderated rid ((update_room rid f ;! ret v) c).
Proof.
  intros Hi Hr H0 H1 H2 H3 H4 H5 v. unfold bind. rewrite (update_room_eq _ _ _ _ Hr).
  unfold moderated, ret. cbn [fst snd]. split; [by apply inv_but_update|]. rewrite room_at_set. eauto.
Qed.

Lemma moderate_remove rid room target c :
  call_inv c -> room_at rid c = Some room -> target ≠ initiator_id room -> target ≠ "" ->
  (256 <=? size (blocked room))%nat && negb (bool_decide (target ∈ blocked room)) = false ->
  moderated rid ((update_room rid (fun room => set_blocked ({[target]} ∪ blocked room) room) ;!
    match session <$> od_get target (members room) with
    | Some r => _remove_member_locked r rid ;! _clear_session_metadata r
    | None => ret tt
    end ;!
    update_room rid (fun room => set_muted (muted room ∖ {[target]}) room) ;!
    ret (session <$> od_get target (members room))) c).
Proof.
  intros Hinv Hr Hne Hnz Hcap. assert (room_ok rid room) as Hok by by apply (ok_each _ (inv_rooms c Hinv)).
  set (B := {[target]} ∪ blocked room).
  assert (size B <= 256)%nat as HB by (apply size_add; [apply Hok|done]).
  unfold bind at 1. rewrite (update_room_eq _ _ _ _ Hr). unfold bind at 1.
  destruct (od_get target (members room)) as [m|] eqn:Em; cbn [fmap option_fmap option_map].
  - set (c1 := set__rooms _ c). pose proof (inv_bindings c Hinv) as Hb.
    destruct (ok_member_session _ _ _ Hb _ _ _ _ Hr Em) as (Hlt & Hu & _).
    destruct (remove_member_run (session m) rid (set_blocked B room) target m c1) as (P & l & x & E & Hl & Hw);
      [apply room_at_set|exact Hu|done|done|apply Hinv|].
    unfold bind at 1. rewrite E. unfold c1. cbn [_rooms set__rooms _session_rooms sessions timers next_timer].
    rewrite od_set_set. set (c2 := {| _rooms := _ |}).
    assert (call_inv c2) as Hc2.
    { eapply (inv_removed c rid room target m B P l x); eauto. intros p. unfold B. set_solver. }
    assert (room_at rid c2 = Some (without_member target (set_blocked B room))) as Hr2
      by (unfold room_at; cbn; by rewrite od_get_set_eq).
    destruct x as [[]|e]; [|done]. step_clear_metadata; [apply Hc2|].
    assert (call_inv (set_sessions sm c2)) as Hc3 by by apply inv_same_sessions.
    eapply moderated_update; [by apply inv_weaken|exact Hr2| |done..].
    apply room_ok_muted; [by apply (ok_each _ (inv_rooms c2 Hc2))|]. apply size_remove.
    by apply (ok_muted_size rid), (ok_each _ (inv_rooms c2 Hc2)).
  - unfold ret at 1. set (c1 := set__rooms _ c).
    assert (room_ok rid (set_blocked B room)) as Hok1.
    { destruct Hok. split; auto. cbn. intros p [->%elem_of_singleton|Hp]%elem_of_union; auto. }
    eapply (moderated_update rid (set_blocked B room)); [|apply room_at_set| |done..].
    + apply (inv_but_update rid c room (set_blocked B)); auto using inv_weaken.
    + apply room_ok_muted; [done|]. apply size_remove, Hok.
Qed.

Lemma participant_nonempty s lo hi c : fullmatch c (S lo) hi s = true -> s ≠ "".
Proof. intros H ->. done. Qed.

Lemma str_matching_Some m v s : str_matching m v = Some s -> v = VStr s /\ m s = true.
Proof. destruct v; try done. cbn. destruct (m s0) eqn:E; [|done]. by intros [= <-]. Qed.

Lemma apply_moderation_inv rid room target op c :
  call_inv c -> room_at rid c = Some room -> target ≠ initiator_id room -> target ≠ "" ->
  moderated rid (apply_moderation rid room target op c).
Proof.
  intros Hinv Hr Hne Hnz. assert (room_ok rid room) as Hok by by apply (ok_each _ (inv_rooms c Hinv)).
  unfold apply_moderation. case_bool_decide.
  - eapply moderated_update; [by apply inv_weaken|done| |done..].
    apply room_ok_blocked; [done|apply size_remove, Hok|set_solver].
  - case_bool_decide.
    + destruct (negb _ && negb _); [done|]. destruct (_ && _) eqn:Ec; [done|]. by apply moderate_remove.
    + destruct (negb _); [done|]. case_bool_decide; [destruct (_ && _) eqn:Ec; [done|]|].
      * eapply moderated_update; [by apply inv_weaken|done| |done..].
        apply room_ok_muted; [done|]. apply size_add; [apply Hok|done].
      * eapply moderated_update; [by apply inv_weaken|done| |done..].
        apply room_ok_muted; [done|]. apply size_remove, Hok.
Qed.

Lemma moderate_inv r msg now c : call_inv c -> call_inv (fst (moderate r msg now c)).
Proof.
  intros Hinv. unfold moderate. unfold bind at 1, get. unfold bind at 1, lift.
  destruct (_require_authenticated _) as [actor|] eqn:Eu; [|done]. unfold bind at 1.
  destruct (parse_moderation msg) as [[[[rq rid] target] op]|] eqn:Ex; [|done].
  assert (target ≠ "") as Hnz.
  { revert Ex. unfold parse_moderation, rbind. destruct (message_with _ _ _); [|done]. destruct (_request_id _); [|done].
    destruct (_room_id _); [|done]. destruct (str_matching _ _) eqn:E; [|done].
    apply str_matching_Some in E as [_ E%participant_nonempty].
    destruct (in_strings _ _) as [known|]; [|done]. destruct (dget "operation" _); try done.
    destruct known; [|done]. by intros [= _ _ <- _]. }
  destruct (room_at rid c) as [room|] eqn:Er; [|done].
  case_bool_decide as Ha; [|done]. cbn [negb]. destruct (own_member room actor r); [|done].
  destruct (_ <=? _); [done|]. case_bool_decide as Ht; [done|]. destruct (_ && _); [done|].
  pose proof (apply_moderation_inv rid room target op c Hinv Er ltac:(congruence) Hnz) as Hm. unfold bind at 1.
  destruct (apply_moderation rid room target op c) as [c1 [removed|e]]; [|exact Hm].
  destruct Hm as [Hi [room1 Hr1]]. cbn [fst] in *. unfold bind at 1. rewrite (update_room_eq _ _ _ _ Hr1).
  set (c2 := set__rooms _ c1).
  assert (inv_but rid c2) as Hi2.
  { apply (inv_but_update rid c1 room1 (fun room => set_revision (revision room + 1) room)); try done.
    by apply room_ok_revision, (ok_each _ (but_rooms _ _ Hi)). }
  destruct (write_restores rid _ c2 Hi2 (room_at_set _ _ _)) as [Hfin _]. unfold bind at 1.
  destruct (_write_policy rid c2) as [c3 [[]|e]]; [|exact Hfin]. unfold bind, get. cbn [fst] in Hfin.
  by destruct (room_at rid c3).
Qed.

(** ** Screen sharing *)

Lemma room_ok_cleared rid room : room_ok rid room -> room_ok rid (cleared_screen room).
Proof. intros []. by split. Qed.

Lemma inv_clear c rid room :
  call_inv c -> room_at rid c = Some room ->
  call_inv (set__rooms (od_set rid (cleared_screen room) (_rooms c)) (set_timers (del (screen_timer room) (timers c)) c)).
Proof.
  intros [HR HB HP HT HU HS HI] Hr. assert (room_ok rid room) as Hok by by apply (ok_each _ HR).
  split; cbn; [| | | |done..].
  - apply rooms_ok_set; eauto using room_ok_cleared.
  - by eapply bindings_keep.
  - by eapply policies_hidden.
  - by eapply timers_clear.
Qed.

Lemma timers_lease R T n rid room room' d :
  timers_ok R T n -> od_get rid R = Some room -> room_ok rid room -> expiry_timer room' = expiry_timer room ->
  screen_timer room' = Some n -> screen_expires_at room' = d ->
  timers_ok (od_set rid room' R)
    (<[n := {| callback := ExpireScreen rid (screen_id room'); fires_at := d |}]> (del (screen_timer room) T)) (S n).
Proof.
  intros HT Hr Hok E1 E2 E3.
  pose proof (timers_clear R T n rid room (cleared_screen room) HT Hr Hok eq_refl eq_refl) as HT1.
  assert (del (screen_timer room) T !! n = None) as Hfresh.
  { destruct (del _ T !! n) eqn:E; [|done]. apply (ok_no_leak _ _ _ HT1) in E as [? _]. lia. }
  assert (od_set rid room' R = od_set rid room' (od_set rid (cleared_screen room) R)) as -> by by rewrite od_set_set.
  eapply timers_change with (rid := rid); [exact HT1|lia|apply get_set_other|..].
  - intros t k Hk _. rewrite lookup_insert_ne; [done|]. intros ->. congruence.
  - intros t k Hk. apply lookup_insert_Some in Hk as [[<- <-]|[Hne Hk]].
    + right. split; [done|]. split; [lia|]. exists room'. by rewrite od_get_set_eq.
    + destruct (ok_no_leak _ _ _ HT1 _ _ Hk) as (Hlt & room0 & H0 & Ho).
      destruct (decide (timer_room (callback k) = rid)) as [E|]; [right|by left]. split; [done|]. split; [lia|].
      exists room'. rewrite od_get_set_eq. split; [done|]. rewrite E, od_get_set_eq in H0. injection H0 as <-.
      destruct (callback k); cbn in *; congruence.
  - intros room1. rewrite od_get_set_eq. intros [= <-]. split.
    + destruct (ok_expiry _ _ _ HT1 rid (cleared_screen room)) as (t & k & He & Hk & Hc); [by rewrite od_get_set_eq|].
      exists t, k. rewrite E1. split; [exact He|]. split; [|done]. rewrite lookup_insert_ne; [done|]. intros ->. congruence.
    + intros _. exists n. rewrite E2, E3. split; [done|]. by rewrite lookup_insert_eq.
Qed.

(** What a started or renewed share leaves behind. *)
Lemma renew_lease_run rid share mono c room :
  room_at rid c = Some room ->
  renew_lease rid share mono c =
    ({| _rooms := od_set rid (set_screen_timer (Some (next_timer c))
          (set_screen_expires_at (mono + SCREEN_LEASE_SECONDS * SECOND) room)) (_rooms c);
        _session_rooms := _session_rooms c; sessions := sessions c; policies := policies c; io := io c;
        timers := <[next_timer c := {| callback := ExpireScreen rid share;
                                       fires_at := mono + SCREEN_LEASE_SECONDS * SECOND |}]>
                    (del (screen_timer room) (timers c));
        next_timer := S (next_timer c) |}, Ok tt).
Proof.
  intros Hr. unfold renew_lease. unfold bind at 1, get. rewrite Hr. unfold bind at 1. rewrite cancel_eq.
  unfold new_timer. munfold. cbn [next_timer set_timers].
  unfold update_room, start_timer. munfold. unfold room_at in *. cbn [_rooms set_timers]. by rewrite Hr.
Qed.

Lemma inv_lease c rid room room1 share mono :
  call_inv c -> room_at rid c = Some room -> room_ok rid room1 -> members room1 = members room ->
  policy_document (sessions c) room1 = policy_document (sessions c) room ->
  expiry_timer room1 = expiry_timer room -> screen_timer room1 = screen_timer room -> screen_id room1 = share ->
  share ≠ "" ->
  call_inv (fst (renew_lease rid share mono (set__rooms (od_set rid room1 (_rooms c)) c))).
Proof.
  intros [HR HB HP HT HU HS HI] Hr Hok1 Hm Hd E1 E2 E3 Hnz.
  rewrite (renew_lease_run rid share mono _ room1) by apply room_at_set. cbn [fst _rooms set__rooms timers next_timer
    _session_rooms sessions policies io]. rewrite od_set_set, E2.
  assert (room_ok rid room) as Hok by by apply (ok_each _ HR).
  split; cbn; [| | | |done..].
  - apply rooms_ok_set; [done|eauto|]. destruct Hok1. split; cbn; auto. congruence.
  - by eapply bindings_keep.
  - eapply policies_hidden; [exact HP|exact Hr|exact Hd].
  - rewrite <- E3. by eapply timers_lease with (room' := set_screen_timer (Some (next_timer c))
      (set_screen_expires_at (mono + SCREEN_LEASE_SECONDS * SECOND) room1)).
Qed.

Lemma screen_decision_cases kind room user share accepted code change :
  screen_decision kind room user share = (accepted, code, change) ->
  if accepted && negb (bool_decide (kind = "call_screen_stop"))
  then (change = TakeScreen /\ screen_id room = "") \/
       (change = KeepScreen /\ screen_owner room = user /\ screen_id room = share)
  else change ≠ TakeScreen.
Proof.
  unfold screen_decision.
  case_bool_decide as H1; [|case_bool_decide as H2].
  - subst kind. cbn. rewrite andb_true_r.
    destruct (bool_decide (screen_owner room = user) && bool_decide (screen_id room = share)) eqn:Eo.
    + rewrite orb_true_r, andb_false_r. apply andb_true_iff in Eo as [?%bool_decide_eq_true ?%bool_decide_eq_true].
      intros [= <- _ <-]. by right.
    + clear Eo. rewrite orb_false_r, andb_true_r. intros [= <- _ <-]. case_bool_decide; [by left|done].
  - subst kind. rewrite andb_false_r. intros [= _ _ <-]. by destruct (_ && _).
  - destruct (bool_decide (screen_owner room = user) && bool_decide (screen_id room = share)) eqn:Eo;
      intros [= <- _ <-]; cbn.
    + apply andb_true_iff in Eo as [?%bool_decide_eq_true ?%bool_decide_eq_true]. by right.
    + done.
Qed.

Lemma room_ok_take rid room user share n :
  room_ok rid room -> is_Some (od_get user (members room)) -> user ≠ "" -> share ≠ "" ->
  room_ok rid (set_screen_revision n (set_screen_id share (set_screen_owner user room))).
Proof. intros [] Hm Hu Hs. split; cbn; auto; [tauto|done]. Qed.

(** The locked part of [screen_control] after the checks. *)
Lemma screen_update_inv c rid room user share kind accepted code change mono (Q : CM (list send_t)) :
  call_inv c -> room_at rid c = Some room -> is_Some (od_get user (members room)) -> user ≠ "" -> share ≠ "" ->
  screen_decision kind room user share = (accepted, code, change) ->
  (forall c', fst (Q c') = c') ->
  call_inv (fst ((match change with
        | KeepScreen => ret tt
        | TakeScreen => update_room rid (fun room => set_screen_revision (screen_revision room + 1)
                          (set_screen_id share (set_screen_owner user room)))
        | DropScreen => _clear_screen_locked rid
        end ;!
        (if accepted && negb (bool_decide (kind = "call_screen_stop")) then renew_lease rid share mono else ret tt) ;! Q) c)).
Proof.
  intros Hinv Hr Hm Hu Hs Hd HQ. assert (room_ok rid room) as Hok by by apply (ok_each _ (inv_rooms c Hinv)).
  apply screen_decision_cases in Hd.
  assert (forall c' (x : CM unit), call_inv (fst (x c')) -> call_inv (fst ((x ;! Q) c'))) as Htail.
  { intros c' x Hx. unfold bind. destruct (x c') as [c2 [a|e]]; cbn in *; [by rewrite HQ|done]. }
  destruct (accepted && negb _).
  - destruct Hd as [[-> Hid]|(-> & Ho & Hid)]; unfold bind at 1.
    + rewrite (update_room_eq _ _ _ _ Hr). apply Htail. eapply inv_lease; eauto using room_ok_take.
    + unfold ret. apply Htail. pose proof (inv_lease c rid room room share mono Hinv Hr) as Hl.
      rewrite od_set_id in Hl by exact Hr. rewrite set_rooms_id in Hl. by apply Hl.
  - unfold bind at 1. destruct change; [|done|].
    + unfold ret at 1. by apply Htail.
    + rewrite (clear_screen_eq _ _ _ Hr). apply Htail. by apply inv_clear.
Qed.

Lemma own_member_Some room user r m : own_member room user r = Some m -> od_get user (members room) = Some m /\ session m = r.
Proof.
  unfold own_member. destruct (od_get user (members room)) as [m'|]; [|done].
  destruct (Nat.eqb_spec (session m') r); [|done]. by intros [= <-].
Qed.

Lemma screen_control_inv r msg now mono c : call_inv c -> call_inv (fst (screen_control r msg now mono c)).
Proof.
  intros Hinv. unfold screen_control. unfold bind at 1, get. unfold bind at 1, lift.
  destruct (_require_authenticated _) as [user|] eqn:Eu; [|done]. apply require_authenticated_ok in Eu as (_ & Hnu & _).
  unfold bind at 1.
  match goal with |- context [match ?x with Ok _ => _ | Raise _ => _ end] => destruct x as [[[[kind rq] rid] share]|] eqn:Ex end; [|done].
  assert (share ≠ "") as Hns.
  { revert Ex. unfold rbind. destruct (message_with _ _ _); [|done]. destruct (in_strings _ _) as [known|]; [|done].
    destruct (dget "type" _); try done. destruct (negb known); [done|]. destruct (_request_id _); [|done].
    destruct (_room_id _); [|done]. destruct (str_matching _ _) eqn:E; [|done]. intros [= _ _ _ <-].
    by apply str_matching_Some in E as [_ E%participant_nonempty]. }
  destruct (room_at rid c) as [room0|] eqn:Er; [|done].
  destruct (own_member room0 user r) as [m|] eqn:Em; [|done]. apply own_member_Some in Em as [Em _].
  destruct (_ <=? _); [done|].
  set (room := if negb (bool_decide (screen_id room0 = "")) && (screen_expires_at room0 <=? mono) then cleared_screen room0 else room0).
  assert (exists c1, (if negb (bool_decide (screen_id room0 = "")) && (screen_expires_at room0 <=? mono)
     then _clear_screen_locked rid else ret tt) c = (c1, Ok tt) /\ call_inv c1 /\ room_at rid c1 = Some room) as (c1 & E1 & Hi1 & Hr1).
  { unfold room. destruct (negb _ && _); [|by exists c]. rewrite (clear_screen_eq _ _ _ Er). eexists. split; [done|].
    split; [by apply inv_clear|]. unfold room_at. cbn. by rewrite od_get_set_eq. }
  unfold bind at 1. unfold CM in *. rewrite E1. unfold bind at 1. rewrite Hr1.
  destruct (screen_decision kind room user share) as [[accepted code] change] eqn:Ed.
  eapply screen_update_inv; eauto.
  - unfold room. destruct (negb _ && _); cbn; eauto.
  - intros c'. unfold bind. by destruct (room_at rid c').
Qed.

Lemma expire_screen_inv rid share mono c : call_inv c -> call_inv (fst (_expire_screen rid share mono c)).
Proof.
  intros Hinv. unfold _expire_screen. unfold bind at 1, get. destruct (room_at rid c) as [room|] eqn:Er; [|done].
  destruct (_ || _); [done|]. unfold bind at 1. rewrite (clear_screen_eq _ _ _ Er).
  unfold bind at 1. rewrite (room_at_set rid (cleared_screen room) (set_timers _ c)). by apply inv_clear.
Qed.

Lemma forward_group_key_state r msg c : fst (forward_group_key r msg c) = c.
Proof.
  unfold forward_group_key. unfold bind at 1, get. unfold bind at 1, lift.
  destruct (_require_authenticated _); [|done]. unfold bind at 1.
  match goal with |- context [match ?x with Ok _ => _ | Raise _ => _ end] => destruct x as [[[[[m rq] rid] t] k]|] end; [|done].
  destruct (room_at rid c) as [room|]; [|done]. destruct (negb _); [done|].
  destruct (own_member _ _ _); [|done]. by destruct (od_get t (members room)).
Qed.

(** ** Timers that fire *)

Lemma del_delete o t T : del o (delete t T) = delete t (del o T).
Proof. destruct o; cbn; [apply delete_delete|done]. Qed.

Lemma del_del t T : del (Some t) (delete t T) = del (Some t) T.
Proof. cbn. apply delete_delete_eq. Qed.

(** A due room timer ends its room. *)
Lemma fire_room_run t k rid mono c :
  call_inv c -> timers c !! t = Some k -> fires_at k <= mono -> callback k = ExpireRoom rid ->
  exists room sm l, room_at rid c = Some room /\
    fire t mono c = (ended rid room sm l c,
      Ok (to_all (map session (filter (fun m => participant_id m ≠ initiator_id room) (od_values (members room))))
            (ended_message rid "EXPIRED"))) /\
    same_sessions (sessions c) sm /\ sm_ready sm /\ no_open l.
Proof.
  intros Hinv Hk Hdue Hc. pose proof (ok_no_leak _ _ _ (inv_timers c Hinv) _ _ Hk) as (_ & room & Hr & Ht).
  rewrite Hc in Hr, Ht. cbn in Hr, Ht. assert (room_ok rid room) as Hok by by apply (ok_each _ (inv_rooms c Hinv)).
  exists room. unfold fire. unfold bind at 1, get. rewrite Hk.
  destruct (mono <? fires_at k) eqn:E; [lia|]. unfold bind at 1, modify. rewrite Hc.
  set (c1 := set_timers _ c). unfold _expire_room. unfold bind at 1, get.
  change (room_at rid c1) with (od_get rid (_rooms c)). rewrite Hr.
  destruct (end_room_run rid room c1 Hr (ok_id _ _ Hok) (inv_ready c Hinv) (inv_io c Hinv)) as (sm & l & Ee & H).
  exists sm, l. split; [exact Hr|]. split; [|exact H]. unfold bind. rewrite Ee. unfold ret. f_equal.
  unfold ended, c1. cbn [_rooms _session_rooms sessions policies timers next_timer set_timers]. f_equal.
  by rewrite del_delete, Ht, del_del.
Qed.

(** A due lease timer finds its share still expired and clears it. *)
Lemma fire_screen_run t k rid share mono c :
  call_inv c -> timers c !! t = Some k -> fires_at k <= mono -> callback k = ExpireScreen rid share ->
  exists room, room_at rid c = Some room /\ screen_id room = share /\ screen_expires_at room = fires_at k /\
    fire t mono c =
      (set__rooms (od_set rid (cleared_screen room) (_rooms c)) (set_timers (del (screen_timer room) (timers c)) c),
       Ok (to_all (recipients_of room) (screen_state_message rid (cleared_screen room)))).
Proof.
  intros Hinv Hk Hdue Hc. pose proof (ok_no_leak _ _ _ (inv_timers c Hinv) _ _ Hk) as (_ & room & Hr & Ht).
  rewrite Hc in Hr, Ht. cbn in Hr, Ht. assert (room_ok rid room) as Hok by by apply (ok_each _ (inv_rooms c Hinv)).
  destruct (decide (screen_id room = "")) as [Ei|Ei].
  { apply (ok_screen_timer _ _ Hok) in Ei. congruence. }
  destruct (ok_lease _ _ _ (inv_timers c Hinv) _ _ Hr Ei) as (t' & Et' & Hk'). rewrite Ht in Et'. injection Et' as <-.
  rewrite Hk in Hk'. injection Hk' as ->. cbn in Hc, Hdue. injection Hc as <-. cbn [fires_at].
  exists room. split; [exact Hr|]. split; [done|]. split; [done|].
  unfold fire. unfold bind at 1, get. rewrite Hk. cbn [fires_at callback].
  destruct (mono <? screen_expires_at room) eqn:E; [lia|]. unfold bind at 1, modify.
  set (c1 := set_timers _ c). unfold _expire_screen. unfold bind at 1, get.
  change (room_at rid c1) with (od_get rid (_rooms c)). rewrite Hr, bool_decide_eq_true_2, E by done. cbn [negb orb].
  unfold bind at 1. rewrite (clear_screen_eq rid room c1 Hr). unfold bind at 1.
  rewrite (room_at_set rid (cleared_screen room) (set_timers _ c1)). unfold ret. f_equal.
  unfold c1, set__rooms. cbn [_rooms _session_rooms sessions policies io timers next_timer set_timers]. f_equal.
  by rewrite Ht, del_del.
Qed.

Lemma fire_inv t mono c : call_inv c -> call_inv (fst (fire t mono c)).
Proof.
  intros Hinv. destruct (timers c !! t) as [k|] eqn:Hk.
  2:{ unfold fire. unfold bind at 1, get. by rewrite Hk. }
  destruct (Z_lt_le_dec mono (fires_at k)) as [Hearly|Hdue].
  { unfold fire. unfold bind at 1, get. rewrite Hk. by destruct (mono <? fires_at k) eqn:E; [|lia]. }
  destruct (callback k) as [rid|rid share] eqn:Hc.
  - destruct (fire_room_run t k rid mono c Hinv Hk Hdue Hc) as (room & sm & l & Hr & -> & ? & ? & ?). by apply inv_ended.
  - destruct (fire_screen_run t k rid share mono c Hinv Hk Hdue Hc) as (room & Hr & _ & _ & ->). by apply inv_clear.
Qed.

(** ** The initial state and the environment *)

Lemma init_inv sm files : sm_ready sm -> ids_unique sm -> call_inv (init sm files).
Proof.
  intros Hr Hu. split; cbn; [|by split| |by split|done|done|constructor].
  - split; [apply od_wf_nil|unfold MAX_ROOMS; cbn; lia|done].
  - destruct files as [fs|]; [|done]. cbn. intros f doc Hf Hn.
    apply map_lookup_filter_Some in Hf as [_ Hf]. cbn in Hf. congruence.
Qed.

(** What the rest of the server may do to sessions meanwhile: create new ones,
    change their bookkeeping, authenticate those that are not in a call. *)
Definition env_change (c : CallService) (sm : SessionManager) : Prop :=
  (next_ref (sessions c) <= next_ref sm)%nat /\
  (forall r, (r < next_ref (sessions c))%nat ->
     session_id (obj r sm) = session_id (obj r (sessions c)) /\
     (is_Some (_session_rooms c !! session_id (obj r (sessions c))) ->
      authenticated_user (obj r sm) = authenticated_user (obj r (sessions c)))) /\
  ids_unique sm /\ sm_ready sm.

Lemma env_inv c sm : env_change c sm -> call_inv c -> call_inv (set_sessions sm c).
Proof.
  intros (Hn & He & Hu & Hrd) [HR HB HP HT HU HS HI].
  assert (forall rid room pid m, od_get rid (_rooms c) = Some room -> od_get pid (members room) = Some m ->
    session_id (obj (session m) sm) = session_id (obj (session m) (sessions c))) as Hid.
  { intros rid room pid m Hr Hm. destruct (ok_member_session _ _ _ HB _ _ _ _ Hr Hm) as (Hlt & _). by apply He. }
  split; cbn; auto.
  - split.
    + intros rid room pid m Hr Hm. destruct (ok_member_session _ _ _ HB _ _ _ _ Hr Hm) as (Hlt & Hua & Hb).
      split; [lia|]. destruct (He _ Hlt) as [-> Hau]. rewrite Hau by eauto. done.
    + intros sid rid Hs. destruct (ok_session_member _ _ _ HB _ _ Hs) as (room & pid & m & Hr & Hm & <-).
      exists room, pid, m. split; [done|]. split; [done|]. eauto.
  - destruct (policies c) as [files|]; [|done]. intros f doc Hf Hnm.
    destruct (HP f doc Hf Hnm) as (rid & room & Hr & -> & ->). exists rid, room. split; [done|]. split; [done|].
    unfold policy_document. do 6 f_equal. apply map_ext_in. intros [k m] Hin%list_elem_of_In. cbn.
    rewrite (Hid rid room k m Hr); [done|]. apply od_get_elem; [|done]. by apply (ok_members_wf rid), (ok_each _ HR).
Qed.

End CallPreserve.
