(* ===== verification/CallSpec.v ===== *)
(** * The contract of the call service

    An abstract state machine of call membership: who hosts a room, who is
    present, who was removed, and a version that grows with every change.  Its
    transitions say who may cause them: only the user in question enters or
    leaves, only the host removes, readmits or mutes, only the host or the
    clock closes a room, nobody on the removed list enters.  The handlers of
    [call/service.py] refine it: each run of a handler is one transition (or
    none) of the contract, on every path, failed policy writes included. *)

From stdpp Require Import prelude strings list gmap sorting.
From Stdlib Require Import ZArith Lia.
From S2P Require Import Prelude PyDict PyBytes Base64 Sha256 PyValue Json JsonFacts Database Sessions SessionFacts Call CallInvariant CallPreserve.

Module CallSpec.
Import Call CallInv CallPreserve.

(** ** The abstract machine *)

Record SpecRoom := { host : string; present : gset string; banned : gset string; version : Z }.
Abbreviation spec_state := (gmap string SpecRoom).
Inductive actor := User (u : string) | Clock.

Inductive spec_step (S : spec_state) : actor -> spec_state -> Prop :=
| spec_idle a : spec_step S a S
| spec_open rid u :
    S !! rid = None ->
    spec_step S (User u) (<[rid := {| host := u; present := {[u]}; banned := ∅; version := 1 |}]> S)
| spec_enter rid sr u v :
    S !! rid = Some sr -> u ∉ banned sr -> (size ({[u]} ∪ present sr) <= MAX_PARTICIPANTS_PER_ROOM)%nat ->
    (version sr < v \/ (u ∈ present sr /\ v = version sr)) ->
    spec_step S (User u) (<[rid := {| host := host sr; present := {[u]} ∪ present sr; banned := banned sr; version := v |}]> S)
| spec_exit rid sr u v :
    S !! rid = Some sr -> u ∈ present sr -> u ≠ host sr -> version sr < v ->
    spec_step S (User u) (<[rid := {| host := host sr; present := present sr ∖ {[u]}; banned := banned sr; version := v |}]> S)
| spec_close rid sr a :
    S !! rid = Some sr -> a = User (host sr) \/ a = Clock -> spec_step S a (delete rid S)
| spec_ban rid sr u v :
    S !! rid = Some sr -> u ≠ host sr -> version sr < v ->
    spec_step S (User (host sr))
      (<[rid := {| host := host sr; present := present sr ∖ {[u]}; banned := {[u]} ∪ banned sr; version := v |}]> S)
| spec_unban rid sr u v :
    S !! rid = Some sr -> version sr < v ->
    spec_step S (User (host sr))
      (<[rid := {| host := host sr; present := present sr; banned := banned sr ∖ {[u]}; version := v |}]> S)
| spec_mark rid sr v :
    S !! rid = Some sr -> version sr < v ->
    spec_step S (User (host sr))
      (<[rid := {| host := host sr; present := present sr; banned := banned sr; version := v |}]> S).

(** ** The abstraction *)

Definition view (room : Room) : SpecRoom :=
  {| host := initiator_id room; present := list_to_set (od_keys (members room)); banned := blocked room;
     version := revision room |}.

Definition abs_rooms (R : odict string Room) : spec_state :=
  list_to_map (map (fun kv => (fst kv, view (snd kv))) R).
Definition abs (c : CallService) : spec_state := abs_rooms (_rooms c).

Lemma abs_lookup R rid : abs_rooms R !! rid = view <$> od_get rid R.
Proof.
  unfold abs_rooms. induction R as [|[k room] R IH]; [done|]. cbn [map fst snd od_get].
  rewrite list_to_map_cons. case_decide; subst.
  - by rewrite lookup_insert_eq.
  - by rewrite lookup_insert_ne.
Qed.

Lemma abs_at c rid : abs c !! rid = view <$> room_at rid c.
Proof. apply abs_lookup. Qed.

Lemma abs_set R rid room : abs_rooms (od_set rid room R) = <[rid := view room]> (abs_rooms R).
Proof.
  apply map_eq. intros k. rewrite abs_lookup, od_get_set. case_decide; subst.
  - by rewrite lookup_insert_eq.
  - by rewrite lookup_insert_ne, abs_lookup.
Qed.

Lemma abs_pop R rid : abs_rooms (od_pop rid R) = delete rid (abs_rooms R).
Proof.
  apply map_eq. intros k. rewrite abs_lookup, od_get_pop. case_decide; subst.
  - by rewrite lookup_delete_eq.
  - by rewrite lookup_delete_ne, abs_lookup.
Qed.

Lemma keys_set_pid (d : odict string Member) pid m :
  list_to_set (od_keys (od_set pid m d)) =@{gset string} {[pid]} ∪ list_to_set (od_keys d).
Proof.
  apply set_eq. intros x. rewrite elem_of_union, elem_of_singleton, !elem_of_list_to_set, <- !od_get_is_Some, od_get_set.
  case_decide; naive_solver.
Qed.

Lemma keys_pop_pid (d : odict string Member) pid :
  list_to_set (od_keys (od_pop pid d)) =@{gset string} list_to_set (od_keys d) ∖ {[pid]}.
Proof.
  apply set_eq. intros x. rewrite elem_of_difference, elem_of_singleton, !elem_of_list_to_set, <- !od_get_is_Some, od_get_pop.
  case_decide; subst; [|naive_solver]. split; [by intros []|tauto].
Qed.

Lemma keys_size (d : odict string Member) : od_wf d -> size (list_to_set (od_keys d) : gset string) = length d.
Proof. intros H. rewrite size_list_to_set by done. unfold od_keys. by rewrite length_map. Qed.

Lemma present_spec room pid : pid ∈ present (view room) <-> is_Some (od_get pid (members room)).
Proof. cbn. by rewrite elem_of_list_to_set, od_get_is_Some. Qed.

(** The abstract room after a member left. *)
Lemma view_without pid room :
  view (without_member pid room) =
  {| host := initiator_id room; present := present (view room) ∖ {[pid]}; banned := blocked room; version := revision room + 1 |}.
Proof. unfold without_member, view. case_bool_decide; f_equal; apply keys_pop_pid. Qed.

(** ** One lemma per handler *)

Definition user_actor (r : nat) (c : CallService) : actor :=
  match authenticated_user (session_obj r c) with Some u => User u | None => Clock end.

Lemma create_refines `{P256} r msg now mono c :
  call_inv c -> spec_step (abs c) (user_actor r c) (abs (fst (create r msg now mono c))).
Proof.
  intros Hinv. unfold create. unfold bind at 1.
  destruct (entry_checks _ _ _ _ c) as [c0 [q|e]] eqn:Eq; [|injection Eq as <- _; apply spec_idle].
  apply entry_checks_ok in Eq as (-> & Hu & Hne). unfold user_actor. rewrite Hu. unfold bind at 1, get.
  destruct (_session_rooms c !! _) eqn:Esr; [apply spec_idle|]. unfold od_mem.
  destruct (od_get (rq_room q) (_rooms c)) eqn:Er; [apply spec_idle|].
  destruct (MAX_ROOMS <=? _)%nat; [apply spec_idle|].
  set (room := new_room q r (next_timer c) now).
  unfold new_timer, start_timer. munfold. step_bind_session; [apply Hinv|].
  match goal with |- context [_write_policy ?rid ?c1] =>
    destruct (write_policy_spec rid room c1) as (P & l & x & Ew & _ & _) end; [|apply Hinv|].
  { unfold room_at. cbn. by rewrite od_get_set_eq. }
  assert (spec_step (abs c) (User (rq_user q)) (abs_rooms (od_set (rq_room q) room (_rooms c)))) as Hopen.
  { rewrite abs_set. replace (view room) with {| host := rq_user q; present := {[rq_user q]}; banned := ∅; version := 1 |}.
    - apply spec_open. unfold abs. by rewrite abs_lookup, Er.
    - unfold view. cbn. by rewrite union_empty_r_L. }
  rewrite Ew. destruct x as [[]|e]; [exact Hopen|]. destruct (is_OSError e); [|exact Hopen].
  unfold undo_create, unbind_session. munfold. step_clear_metadata.
  change (spec_step (abs c) (User (rq_user q)) (abs_rooms (od_pop (rq_room q) (od_set (rq_room q) room (_rooms c))))).
  rewrite od_pop_set_new by done. apply spec_idle.
Qed.

(** A room that gained a member, or whose member changed its keys. *)
Lemma enter_refines R rid room pid m n :
  od_get rid R = Some room -> od_wf (members room) -> pid ∉ blocked room ->
  (length (od_set pid m (members room)) <= MAX_PARTICIPANTS_PER_ROOM)%nat ->
  (revision room < n \/ (is_Some (od_get pid (members room)) /\ n = revision room)) ->
  spec_step (abs_rooms R) (User pid)
    (abs_rooms (od_set rid (set_revision n (set_members (od_set pid m (members room)) room)) R)).
Proof.
  intros Hr Hwf Hb Hlen Hn. rewrite abs_set.
  replace (view _) with {| host := host (view room); present := {[pid]} ∪ present (view room);
    banned := banned (view room); version := n |}
    by (unfold view; f_equal; symmetry; apply keys_set_pid).
  apply spec_enter.
  - by rewrite abs_lookup, Hr.
  - done.
  - cbn [present view]. rewrite <- (keys_set_pid _ pid m), keys_size by by apply od_wf_set. done.
  - destruct Hn as [?|[? ->]]; [by left|right]. by rewrite present_spec.
Qed.

Lemma join_refines `{P256} r msg now c :
  call_inv c -> spec_step (abs c) (user_actor r c) (abs (fst (join r msg now c))).
Proof.
  intros Hinv. unfold join. unfold bind at 1.
  destruct (entry_checks _ _ _ _ c) as [c0 [q|e]] eqn:Eq; [|injection Eq as <- _; apply spec_idle].
  apply entry_checks_ok in Eq as (-> & Hu & Hne). unfold user_actor. rewrite Hu. unfold bind at 1, get.
  set (rid := rq_room q) in *. set (pid := rq_user q) in *.
  destruct (in_other_room _ rid); [apply spec_idle|].
  destruct (room_at rid c) as [room|] eqn:Er; [|apply spec_idle].
  destruct (_ <=? _); [apply spec_idle|]. destruct (negb _); [apply spec_idle|].
  case_bool_decide as Hb; [apply spec_idle|]. destruct (active_elsewhere _ r); [apply spec_idle|].
  set (m := {| participant_id := pid; key_agreement_public_key := _; signing_public_key := _; session := r |}).
  set (changed := member_changed _ m).
  assert (changed = false -> is_Some (od_get pid (members room))) as Hch.
  { unfold changed, member_changed. by destruct (od_get pid (members room)); [eauto|]. }
  clearbody changed. unfold bind at 1. rewrite (update_room_eq _ _ _ _ Er). unfold bind at 1. rewrite room_at_set.
  assert (room_ok rid room) as Hok by by apply (ok_each _ (inv_rooms c Hinv)).
  destruct (over_capacity _ _) eqn:Ecap.
  - destruct (od_get pid (members room)) eqn:E0; [done|].
    unfold bind at 1. rewrite (update_room_eq _ _ _ _ (room_at_set _ _ _)). cbn [fst raise _rooms set__rooms members set_members].
    rewrite od_set_set, od_pop_set_new by done.
    replace (set_members (members room) (set_members (od_set pid m (members room)) room)) with room by by destruct room.
    rewrite od_set_id by exact Er. apply spec_idle.
  - assert (length (od_set pid m (members room)) <= MAX_PARTICIPANTS_PER_ROOM)%nat as Hlen.
    { destruct (od_get pid (members room)) eqn:E0.
      - rewrite od_length_set_mem by eauto. apply Hok.
      - unfold over_capacity in Ecap. by apply Nat.ltb_ge in Ecap. }
    set (n := if changed then revision room + 1 else revision room).
    assert (spec_step (abs c) (User pid) (abs_rooms (od_set rid (set_revision n (set_members
      (od_set pid m (members room)) room)) (_rooms c)))) as Henter.
    { apply enter_refines; auto; [apply Hok|]. unfold n. destruct changed; [left; lia|right; auto]. }
    unfold bind at 1. step_bind_session; [apply Hinv|]. unfold bind at 1.
    match goal with |- context [set_sessions sm ?c0] => set (c1 := set_sessions sm c0) end.
    assert (room_at rid c1 = Some (set_members (od_set pid m (members room)) room)) as Hr1
      by (unfold room_at; cbn; by rewrite od_get_set_eq).
    assert (exists c2, (if changed then update_room rid (fun room => set_revision (revision room + 1) room) else ret tt) c1
      = (c2, Ok tt) /\ room_at rid c2 = Some (set_revision n (set_members (od_set pid m (members room)) room)) /\
        io c2 = io c /\ abs c2 = abs_rooms (od_set rid (set_revision n (set_members (od_set pid m (members room)) room)) (_rooms c)))
      as (c2 & E2 & Hr2 & Hio2 & Ha2).
    { unfold n. destruct changed.
      - rewrite (update_room_eq _ _ _ _ Hr1). eexists. split; [done|]. rewrite room_at_set. split; [done|]. split; [done|].
        unfold abs. cbn [_rooms set__rooms]. change (_rooms c1) with (od_set rid (set_members (od_set pid m (members room)) room) (_rooms c)).
        by rewrite od_set_set.
      - eexists. split; [done|]. rewrite Hr1. split; [by destruct room|]. split; [done|]. unfold abs. cbn. by destruct room. }
    unfold CM in *. rewrite E2. unfold bind at 1.
    destruct (write_policy_spec rid _ c2 Hr2) as (P & l & x & -> & _ & _); [rewrite Hio2; apply Hinv|].
    change (abs c2) with (abs (set_policies P (set_io l c2))) in Ha2.
    destruct x as [[]|e]; [|cbn [fst]; by rewrite Ha2]. unfold bind, get.
    destruct (room_at rid (set_policies P (set_io l c2))); cbn [fst ret]; by rewrite Ha2.
Qed.

(** A non-host member is gone. *)
Lemma exit_refines R rid room pid :
  od_get rid R = Some room -> is_Some (od_get pid (members room)) -> pid ≠ initiator_id room ->
  spec_step (abs_rooms R) (User pid) (abs_rooms (od_set rid (without_member pid room) R)).
Proof.
  intros Hr Hm Hne. rewrite abs_set, view_without.
  apply (spec_exit _ rid (view room)); [by rewrite abs_lookup, Hr|by rewrite present_spec|done|cbn; lia].
Qed.

Lemma depart_refines r rid room reason c :
  call_inv c -> (r < next_ref (sessions c))%nat ->
  _session_rooms c !! session_id (session_obj r c) = Some rid -> room_at rid c = Some room ->
  spec_step (abs c) (user_actor r c) (abs (fst (depart r rid room (authenticated_user (session_obj r c)) reason c))).
Proof.
  intros Hinv Hlt Hs Hr. assert (room_ok rid room) as Hok by by apply (ok_each _ (inv_rooms c Hinv)).
  unfold depart, user_actor. unfold bind at 1. case_bool_decide as Hi.
  - destruct (end_room_run rid room c Hr (ok_id _ _ Hok) (inv_ready c Hinv) (inv_io c Hinv)) as (sm & l & E & Hsame & Hrdy & Hl).
    unfold bind at 1. rewrite E. unfold ret at 1. unfold bind at 1. step_clear_metadata. rewrite Hi.
    change (spec_step (abs c) (User (initiator_id room)) (abs_rooms (od_pop rid (_rooms c)))). rewrite abs_pop.
    apply (spec_close _ rid (view room)); [by rewrite abs_at, Hr|by left].
  - destruct (bound_member c r rid room Hinv Hlt Hs Hr) as (pid & m & Hu & Hm & Hms).
    destruct (remove_member_run r rid room pid m c Hr Hu Hm Hms (inv_io c Hinv)) as (P & l & x & E & Hl & Hw).
    unfold bind at 1. rewrite E, Hu.
    assert (spec_step (abs c) (User pid) (abs_rooms (od_set rid (without_member pid room) (_rooms c)))) as Hexit
      by (apply exit_refines; eauto; congruence).
    destruct x as [[]|e]; [|exact Hexit]. unfold ret at 1. unfold bind at 1. step_clear_metadata; [apply Hinv|].
    exact Hexit.
Qed.

(** What [apply_moderation] does to the abstract room: a change the host may
    make, whose version has not been raised yet or has; or nothing. *)
Definition host_change (sr sr' : SpecRoom) : Prop :=
  host sr' = host sr /\ version sr <= version sr' /\
  exists u, u ≠ host sr /\
    ((present sr' = present sr ∖ {[u]} /\ banned sr' = {[u]} ∪ banned sr) \/
     (present sr' = present sr /\ banned sr' = banned sr ∖ {[u]}) \/
     (present sr' = present sr /\ banned sr' = banned sr)).

Lemma host_change_step S rid sr sr' v :
  S !! rid = Some sr -> host_change sr sr' -> version sr < v ->
  spec_step S (User (host sr))
    (<[rid := {| host := host sr'; present := present sr'; banned := banned sr'; version := v |}]> S).
Proof.
  intros Hs (Hh & Hv & u & Hu & [[-> ->]|[[-> ->]|[-> ->]]]) Hlt; rewrite Hh.
  - by apply spec_ban.
  - by apply spec_unban.
  - by apply spec_mark.
Qed.

(** The rooms after [apply_moderation]: untouched when it raises early, changed
    by the host otherwise; a raise after a change has already raised the
    version. *)
Definition moderation_effect (rid : string) (room : Room) (c : CallService) (y : CallService * res (option nat)) : Prop :=
  match snd y with
  | Ok _ => exists room1, room_at rid (fst y) = Some room1 /\ host_change (view room) (view room1) /\
              (forall room2, abs_rooms (od_set rid room2 (_rooms (fst y))) = <[rid := view room2]> (abs c)) /\
              no_open (io (fst y))
  | Raise _ => abs (fst y) = abs c \/
      exists sr, host_change (view room) sr /\ version (view room) < version sr /\ abs (fst y) = <[rid := sr]> (abs c)
  end.

Lemma effect_update rid room c f v :
  room_at rid c = Some room -> no_open (io c) -> host_change (view room) (view (f room)) ->
  moderation_effect rid room c ((update_room rid f ;! ret v) c).
Proof.
  intros Hr Hio Hh. unfold bind. rewrite (update_room_eq _ _ _ _ Hr). unfold moderation_effect, ret. cbn [fst snd].
  exists (f room). rewrite room_at_set. split; [done|]. split; [done|]. split; [|done]. intros room2.
  cbn [_rooms set__rooms]. by rewrite od_set_set, abs_set.
Qed.

Lemma remove_effect rid room target c :
  call_inv c -> room_at rid c = Some room -> target ≠ initiator_id room ->
  moderation_effect rid room c ((update_room rid (fun room => set_blocked ({[target]} ∪ blocked room) room) ;!
    match session <$> od_get target (members room) with
    | Some r => _remove_member_locked r rid ;! _clear_session_metadata r
    | None => ret tt
    end ;!
    update_room rid (fun room => set_muted (muted room ∖ {[target]}) room) ;!
    ret (session <$> od_get target (members room))) c).
Proof.
  intros Hinv Hr Hne. set (B := {[target]} ∪ blocked room).
  unfold bind at 1. rewrite (update_room_eq _ _ _ _ Hr). unfold bind at 1. fold B.
  destruct (od_get target (members room)) as [m|] eqn:Em; cbn [fmap option_fmap option_map].
  - set (c1 := set__rooms _ c).
    destruct (ok_member_session _ _ _ (inv_bindings c Hinv) _ _ _ _ Hr Em) as (Hlt & Hu & _).
    destruct (remove_member_run (session m) rid (set_blocked B room) target m c1) as (P & l & x & E & Hl & Hw);
      [apply room_at_set|exact Hu|done|done|apply Hinv|].
    assert (host_change (view room) (view (without_member target (set_blocked B room)))) as Hh.
    { rewrite view_without. split; [done|]. split; [cbn; lia|]. exists target. split; [done|]. by left. }
    unfold bind at 1. rewrite E. set (c2 := {| _rooms := _ |}).
    assert (forall room2, abs_rooms (od_set rid room2 (_rooms c2)) = <[rid := view room2]> (abs c)) as Hset.
    { intros room2. unfold c2, c1. cbn [_rooms set__rooms]. by rewrite !od_set_set, abs_set. }
    destruct x as [[]|e].
    + step_clear_metadata; [apply Hinv|].
      assert (room_at rid (set_sessions sm c2) = Some (without_member target (set_blocked B room))) as Hr2
        by (unfold room_at; cbn [_rooms set_sessions c2]; by rewrite od_get_set_eq).
      unfold bind. rewrite (update_room_eq _ _ _ _ Hr2). unfold moderation_effect, ret. cbn [fst snd].
      eexists. rewrite room_at_set. split; [done|]. split; [exact Hh|]. split; [|done].
      intros room2. cbn [_rooms set__rooms set_sessions]. rewrite od_set_set. apply Hset.
    + right. exists (view (without_member target (set_blocked B room))). split; [done|].
      rewrite view_without. split; [cbn; lia|]. rewrite <- view_without.
      unfold abs, c2, c1. cbn [fst _rooms set__rooms]. by rewrite od_set_set, abs_set.
  - assert (target ∉ present (view room)) as Hnp by (rewrite present_spec, Em; by intros []).
    unfold ret at 1. unfold bind. rewrite (update_room_eq _ _ _ _ (room_at_set _ _ _)).
    unfold moderation_effect, ret. cbn [fst snd]. eexists. rewrite room_at_set. split; [done|]. split.
    + split; [done|]. split; [done|]. exists target. split; [done|]. left. split; [|done].
      cbn [present view members set_blocked set_muted] in *. set_solver.
    + split; [|apply Hinv]. intros room2. cbn [_rooms set__rooms]. by rewrite !od_set_set, abs_set.
Qed.

Lemma apply_moderation_effect rid room target op c :
  call_inv c -> room_at rid c = Some room -> target ≠ initiator_id room ->
  moderation_effect rid room c (apply_moderation rid room target op c).
Proof.
  intros Hinv Hr Hne. pose proof (inv_io c Hinv) as Hio.
  assert (forall room', view room' = view room -> host_change (view room) (view room')) as Hsame.
  { intros room' ->. split; [done|]. split; [done|]. exists target. auto. }
  unfold apply_moderation. case_bool_decide.
  - apply effect_update; [done|done|]. split; [done|]. split; [done|]. exists target. split; [done|]. right. by left.
  - case_bool_decide.
    + destruct (negb _ && negb _); [by left|]. destruct (_ && _); [by left|]. by apply remove_effect.
    + destruct (negb _); [by left|]. case_bool_decide; [destruct (_ && _); [by left|]|]; apply effect_update; auto.
Qed.

Lemma moderate_refines r msg now c :
  call_inv c -> spec_step (abs c) (user_actor r c) (abs (fst (moderate r msg now c))).
Proof.
  intros Hinv. unfold moderate, user_actor. unfold bind at 1, get. unfold bind at 1, lift.
  destruct (_require_authenticated _) as [actor|] eqn:Eu; [|apply spec_idle].
  apply require_authenticated_ok in Eu as (-> & _ & _). unfold bind at 1.
  destruct (parse_moderation msg) as [[[[rq rid] target] op]|]; [|apply spec_idle].
  destruct (room_at rid c) as [room|] eqn:Er; [|apply spec_idle].
  case_bool_decide as Ha; [|apply spec_idle]. cbn [negb]. destruct (own_member room actor r); [|apply spec_idle].
  destruct (_ <=? _); [apply spec_idle|]. case_bool_decide as Ht; [apply spec_idle|]. destruct (_ && _); [apply spec_idle|].
  assert (abs c !! rid = Some (view room)) as Hat by by rewrite abs_at, Er.
  replace (User actor) with (User (host (view room))) by (by subst actor).
  pose proof (apply_moderation_effect rid room target op c Hinv Er ltac:(congruence)) as Hm. unfold bind at 1.
  destruct (apply_moderation rid room target op c) as [c1 [removed|e]]; unfold moderation_effect in Hm; cbn [fst snd] in Hm.
  - destruct Hm as (room1 & Hr1 & Hh & Hset & Hio). unfold bind at 1. rewrite (update_room_eq _ _ _ _ Hr1).
    set (room2 := set_revision (revision room1 + 1) room1). set (c2 := set__rooms _ c1).
    assert (spec_step (abs c) (User (host (view room))) (abs c2)) as Hstep.
    { unfold abs at 2, c2. cbn [_rooms set__rooms]. rewrite Hset.
      apply (host_change_step _ rid (view room) (view room1)); [done|done|]. destruct Hh as (_ & Hv & _). cbn in *. lia. }
    unfold bind at 1. destruct (write_policy_spec rid room2 c2 (room_at_set _ _ _)) as (P & l & x & -> & _ & _); [done|].
    destruct x as [[]|e]; [|exact Hstep]. unfold bind, get.
    destruct (room_at rid (set_policies P (set_io l c2))); exact Hstep.
  - cbn [fst]. destruct Hm as [->|(sr & Hh & Hv & ->)]; [apply spec_idle|].
    pose proof (host_change_step _ rid (view room) sr (version sr) Hat Hh Hv) as Hstep. by destruct sr.
Qed.

(** Screen sharing is invisible in the contract. *)
Lemma abs_same_view R rid room room' :
  od_get rid R = Some room -> view room' = view room -> abs_rooms (od_set rid room' R) = abs_rooms R.
Proof. intros Hr Hv. rewrite abs_set, Hv. apply insert_id. by rewrite abs_lookup, Hr. Qed.

Lemma clear_screen_abs rid c : abs (fst (_clear_screen_locked rid c)) = abs c.
Proof.
  destruct (room_at rid c) as [room|] eqn:Er.
  - rewrite (clear_screen_eq _ _ _ Er). by apply (abs_same_view _ _ room).
  - unfold _clear_screen_locked. unfold bind, get. by rewrite Er.
Qed.

Lemma renew_lease_abs rid share mono c : abs (fst (renew_lease rid share mono c)) = abs c.
Proof.
  destruct (room_at rid c) as [room|] eqn:Er.
  - rewrite (renew_lease_run _ _ _ _ _ Er). by apply (abs_same_view _ _ room).
  - unfold renew_lease. unfold bind, get. by rewrite Er.
Qed.

Lemma update_room_abs rid f c : (forall room, view (f room) = view room) -> abs (fst (update_room rid f c)) = abs c.
Proof.
  intros Hf. unfold update_room, modify. destruct (room_at rid c) as [room|] eqn:Er; [|done].
  by apply (abs_same_view _ _ room).
Qed.

Lemma abs_bind {A B} (x : CM A) (k : A -> CM B) c :
  abs (fst (x c)) = abs c -> (forall a c', abs (fst (k a c')) = abs c') -> abs (fst (bind x k c)) = abs c.
Proof. intros Hx Hk. unfold bind. destruct (x c) as [c1 [a|e]]; cbn in *; [by rewrite Hk|done]. Qed.

Lemma screen_control_abs r msg now mono c : abs (fst (screen_control r msg now mono c)) = abs c.
Proof.
  unfold screen_control. apply abs_bind; [done|]. intros c1 c2. apply abs_bind; [done|]. intros user c3.
  apply abs_bind; [done|]. intros [[[kind rq] rid] share] c4.
  destruct (room_at rid c1) as [room0|]; [|done]. destruct (own_member room0 user r); [|done].
  destruct (_ <=? _); [done|]. apply abs_bind; [destruct (_ && _); [apply clear_screen_abs|done]|]. intros _ c5.
  apply abs_bind; [done|]. intros c6 c7. destruct (room_at rid c6) as [room|]; [|done].
  destruct (screen_decision kind room user share) as [[accepted code] change].
  apply abs_bind; [destruct change; [done|by apply update_room_abs|apply clear_screen_abs]|]. intros _ c8.
  apply abs_bind; [destruct (_ && _); [apply renew_lease_abs|done]|]. intros _ c9.
  apply abs_bind; [done|]. intros c10 c11. by destruct (room_at rid c10).
Qed.

Lemma expire_room_refines rid c : call_inv c -> spec_step (abs c) Clock (abs (fst (_expire_room rid c))).
Proof.
  intros Hinv. unfold _expire_room. unfold bind at 1, get. destruct (room_at rid c) as [room|] eqn:Er; [|apply spec_idle].
  assert (room_ok rid room) as Hok by by apply (ok_each _ (inv_rooms c Hinv)).
  destruct (end_room_run rid room c Er (ok_id _ _ Hok) (inv_ready c Hinv) (inv_io c Hinv)) as (sm & l & E & _).
  unfold bind at 1. rewrite E. change (spec_step (abs c) Clock (abs_rooms (od_pop rid (_rooms c)))). rewrite abs_pop.
  apply (spec_close _ rid (view room)); [by rewrite abs_at, Er|by right].
Qed.

Lemma fire_refines t mono c : call_inv c -> spec_step (abs c) Clock (abs (fst (fire t mono c))).
Proof.
  intros Hinv. destruct (timers c !! t) as [k|] eqn:Hk.
  2:{ unfold fire. unfold bind at 1, get. rewrite Hk. apply spec_idle. }
  destruct (Z_lt_le_dec mono (fires_at k)) as [Hearly|Hdue].
  { unfold fire. unfold bind at 1, get. rewrite Hk. destruct (mono <? fires_at k) eqn:E; [apply spec_idle|lia]. }
  destruct (callback k) as [rid|rid share] eqn:Hc.
  - destruct (fire_room_run t k rid mono c Hinv Hk Hdue Hc) as (room & sm & l & Hr & -> & _).
    change (spec_step (abs c) Clock (abs_rooms (od_pop rid (_rooms c)))). rewrite abs_pop.
    apply (spec_close _ rid (view room)); [by rewrite abs_at, Hr|by right].
  - destruct (fire_screen_run t k rid share mono c Hinv Hk Hdue Hc) as (room & Hr & _ & _ & ->).
    unfold abs at 2. cbn [fst _rooms set__rooms]. rewrite (abs_same_view _ _ room) by done. apply spec_idle.
Qed.

(** ** The events of the service *)

Inductive event :=
| Create (r : nat) (msg : pyval) (now mono : Z)
| Join (r : nat) (msg : pyval) (now : Z)
| Leave (r : nat) (msg : pyval)
| GroupKey (r : nat) (msg : pyval)
| Moderate (r : nat) (msg : pyval) (now : Z)
| Screen (r : nat) (msg : pyval) (now mono : Z)
| Disconnected (r : nat)
| Fire (t : nat) (mono : Z).

Definition run_event `{P256} (e : event) : CM (list send_t) :=
  match e with
  | Create r msg now mono => create r msg now mono
  | Join r msg now => join r msg now
  | Leave r msg => leave r msg
  | GroupKey r msg => forward_group_key r msg
  | Moderate r msg now => moderate r msg now
  | Screen r msg now mono => screen_control r msg now mono
  | Disconnected r => disconnected r
  | Fire t mono => fire t mono
  end.

(** The session an event comes from. *)
Definition source (e : event) : option nat :=
  match e with
  | Create r _ _ _ | Join r _ _ | Leave r _ | GroupKey r _ | Moderate r _ _ | Screen r _ _ _ | Disconnected r => Some r
  | Fire _ _ => None
  end.

Definition event_actor (e : event) (c : CallService) : actor :=
  match source e with Some r => user_actor r c | None => Clock end.

Definition event_ok (e : event) (c : CallService) : Prop :=
  match source e with Some r => (r < next_ref (sessions c))%nat | None => True end.

Lemma leave_refines r msg c :
  call_inv c -> (r < next_ref (sessions c))%nat -> spec_step (abs c) (user_actor r c) (abs (fst (leave r msg c))).
Proof.
  intros Hinv Hlt. unfold leave. unfold bind at 1, get. unfold bind at 1, lift.
  destruct (_require_authenticated _) as [u|] eqn:Eu; [|apply spec_idle]. apply require_authenticated_ok in Eu as (Eu & _ & _).
  unfold bind at 1. match goal with |- context [match ?x with Ok _ => _ | Raise _ => _ end] => destruct x as [[rq rid]|] end; [|apply spec_idle].
  case_bool_decide as Hs; [|apply spec_idle]. cbn [negb]. destruct (room_at rid c) as [room|] eqn:Er; [|apply spec_idle].
  unfold bind at 1. pose proof (depart_refines r rid room "INITIATOR_LEFT" c Hinv Hlt Hs Er) as Hd. rewrite Eu in Hd.
  destruct (depart _ _ _ _ _ c) as [c1 [sends|e]]; exact Hd.
Qed.

Lemma disconnected_refines r c :
  call_inv c -> (r < next_ref (sessions c))%nat -> spec_step (abs c) (user_actor r c) (abs (fst (disconnected r c))).
Proof.
  intros Hinv Hlt. unfold disconnected. unfold bind at 1, get.
  destruct (_session_rooms c !! _) as [rid|] eqn:Es; [|apply spec_idle].
  destruct (room_at rid c) as [room|] eqn:Er; [|apply spec_idle]. by apply depart_refines.
Qed.

Lemma event_refines `{P256} e c :
  call_inv c -> event_ok e c -> spec_step (abs c) (event_actor e c) (abs (fst (run_event e c))).
Proof.
  unfold event_ok, event_actor. destruct e; cbn [run_event source]; intros Hinv Hok;
    auto using create_refines, join_refines, leave_refines, moderate_refines, disconnected_refines, fire_refines.
  - rewrite forward_group_key_state. apply spec_idle.
  - rewrite screen_control_abs. apply spec_idle.
Qed.

Lemma event_inv `{P256} e c : call_inv c -> event_ok e c -> call_inv (fst (run_event e c)).
Proof.
  unfold event_ok. destruct e; cbn [run_event source]; intros Hinv Hok; auto using create_inv, join_inv, leave_inv, moderate_inv, screen_control_inv,
    disconnected_inv, fire_inv.
  by rewrite forward_group_key_state.
Qed.

(** The steps of the whole system, as the call service sees them: its events, a
    timer callback that was already waiting for the lock when its timer was
    cancelled, the rest of the server working on sessions, and the file system
    deciding how future policy updates end. *)
Inductive call_step `{P256} (c : CallService) : CallService -> Prop :=
| step_event e : event_ok e c -> call_step c (fst (run_event e c))
| step_late_room rid : call_step c (fst (_expire_room rid c))
| step_late_screen rid share mono : call_step c (fst (_expire_screen rid share mono c))
| step_sessions sm : env_change c sm -> call_step c (set_sessions sm c)
| step_io l : no_open l -> call_step c (set_io l c).

Lemma call_step_inv `{P256} c c' : call_inv c -> call_step c c' -> call_inv c'.
Proof.
  intros Hinv []; auto using event_inv, expire_room_inv, expire_screen_inv, env_inv.
  by destruct Hinv; split.
Qed.

Lemma call_steps_inv `{P256} c c' : call_inv c -> rtc call_step c c' -> call_inv c'.
Proof. intros Hi Hr. induction Hr; eauto using call_step_inv. Qed.

(** States reachable from a start over some session manager. *)
Definition reachable `{P256} (c : CallService) : Prop :=
  exists sm files, sm_ready sm /\ ids_unique sm /\ rtc call_step (init sm files) c.

Lemma reachable_inv `{P256} c : reachable c -> call_inv c.
Proof. intros (sm & files & Hr & Hu & Hs). eapply call_steps_inv; [|done]. by apply init_inv. Qed.

End CallSpec.
