(* ===== verification/CallTheorems.v ===== *)
(** * What the call service guarantees

    The properties of [call/service.py], over the states reachable from a
    start of the service, each with an evaluated instance. *)

From stdpp Require Import prelude strings list gmap sorting.
From Stdlib Require Import ZArith Lia.
From S2P Require Import Prelude PyDict PyBytes Base64 Sha256 PyValue Json JsonFacts Database Sessions SessionFacts Call CallInvariant CallPreserve CallSpec.

Module CallThm.
Import Call CallInv CallPreserve CallSpec.

(** ** A concrete call *)

Module Demo.
#[export] Instance any_point : P256 := fun _ => true.

Definition key65 : string := bytes_str (b64url_nopad (Byte.x04 :: replicate 64 Byte.x41)).
Definition key32 : string := bytes_str (b64url_nopad (replicate 32 Byte.x42)).
Definition token : bytes := replicate 32 Byte.x43.

Definition entry (kind token_key token_value : string) : pyval :=
  VDict [("type", VStr kind); ("requestId", VStr "request-1"); ("roomId", VStr "room1");
         (token_key, VStr token_value); ("keyAgreementPublicKey", VStr key65); ("signingPublicKey", VStr key32)].
Definition create_msg : pyval := entry "call_create" "inviteTokenHash" (bytes_str (b64url_nopad (sha256 token))).
Definition join_msg : pyval := entry "call_join" "inviteToken" (bytes_str (b64url_nopad token)).
Definition moderation_msg (target operation : string) : pyval :=
  VDict [("type", VStr "call_moderate"); ("requestId", VStr "request-2"); ("roomId", VStr "room1");
         ("targetParticipantId", VStr target); ("operation", VStr operation)].
Definition screen_msg (kind : string) : pyval :=
  VDict [("type", VStr kind); ("requestId", VStr "request-3"); ("roomId", VStr "room1"); ("shareId", VStr "share-0001")].

(** Alice (object 0) and Bobby (object 1), both authenticated. *)
Definition manager : SessionManager :=
  fst (promote 1 "bobby" 10 (fst (Sessions.create "s2" "tok2" None 5 true demo_promoted))).
Definition start : CallService := init manager (Some ∅).
Definition opened : CallService := fst (run_event (Create 0 create_msg 1000000 0) start).
Definition joined : CallService := fst (run_event (Join 1 join_msg 2000000) opened).
Definition removed : CallService := fst (run_event (Moderate 0 (moderation_msg "bobby" "remove") 3000000) joined).
Definition sharing : CallService := fst (run_event (Screen 1 (screen_msg "call_screen_start") 3000000 7) joined).

Lemma ready_check sm :
  is_open (database sm) = true ->
  forallb (fun kv => serialisable (VDict (metadata (snd kv)))) (map_to_list (heap sm)) = true -> sm_ready sm.
Proof.
  intros Ho Hf. split; [done|]. intros r. unfold obj. rewrite lookup_total_alt.
  destruct (heap sm !! r) as [s|] eqn:E; [|done]. rewrite forallb_forall in Hf. apply (Hf (r, s)).
  by apply list_elem_of_In, elem_of_map_to_list.
Qed.

Lemma unique_check sm :
  forallb (fun r1 => forallb (fun r2 => negb (bool_decide (session_id (obj r1 sm) = session_id (obj r2 sm))) || (r1 =? r2)%nat)
    (seq 0 (next_ref sm))) (seq 0 (next_ref sm)) = true -> ids_unique sm.
Proof.
  intros Hf r1 r2 H1 H2 E. rewrite forallb_forall in Hf. specialize (Hf r1 ltac:(apply in_seq; lia)).
  rewrite forallb_forall in Hf. specialize (Hf r2 ltac:(apply in_seq; lia)).
  rewrite bool_decide_eq_true_2 in Hf by done. by apply Nat.eqb_eq in Hf.
Qed.

Lemma manager_ready : sm_ready manager.
Proof. apply ready_check; vm_compute; reflexivity. Qed.
Lemma manager_unique : ids_unique manager.
Proof. apply unique_check. vm_compute. reflexivity. Qed.

Lemma start_reachable : reachable start.
Proof. exists manager, (Some ∅). split; [apply manager_ready|]. split; [apply manager_unique|]. apply rtc_refl. Qed.

Lemma reachable_event e c : reachable c -> event_ok e c -> reachable (fst (run_event e c)).
Proof.
  intros (sm & files & Hr & Hu & Hs) He. exists sm, files. split; [done|]. split; [done|].
  eapply rtc_r; [exact Hs|]. by apply step_event.
Qed.

Lemma opened_reachable : reachable opened.
Proof. refine (reachable_event _ start start_reachable _). vm_compute. lia. Qed.
Lemma joined_reachable : reachable joined.
Proof. refine (reachable_event _ opened opened_reachable _). vm_compute. lia. Qed.
Lemma removed_reachable : reachable removed.
Proof. refine (reachable_event _ joined joined_reachable _). vm_compute. lia. Qed.
Lemma sharing_reachable : reachable sharing.
Proof. refine (reachable_event _ joined joined_reachable _). vm_compute. lia. Qed.
End Demo.
#[local] Existing Instance Demo.any_point.

(** ** Invariant and contract *)





(** ** Policy files *)

Lemma hex_digit_hex n : 0 <= n < 16 -> is_hex (hex_digit n) = true.
Proof.
  intros H. assert (forallb (fun k => is_hex (hex_digit (Z.of_nat k))) (seq 0 16) = true) as Hall by reflexivity.
  rewrite forallb_forall in Hall. specialize (Hall (Z.to_nat n)). rewrite Z2Nat.id in Hall by lia.
  apply Hall, in_seq. lia.
Qed.

Lemma hex_of_spec l :
  length (str_bytes (hex_of l)) = (2 * length l)%nat /\ forallb is_hex (str_bytes (hex_of l)) = true.
Proof.
  unfold hex_of. rewrite str_bytes_str. induction l as [|b l [IH1 IH2]]; [done|]. cbn [flat_map app length forallb].
  rewrite IH1, IH2. pose proof (byte_val_range b). split; [lia|].
  rewrite !hex_digit_hex; [done|apply Z.mod_pos_bound; lia|]. split; [apply Z.div_pos; lia|apply Z.div_lt_upper_bound; lia].
Qed.

Lemma str_bytes_append a b : str_bytes (a ++ b) = str_bytes a ++ str_bytes b.
Proof.
  induction a as [|x a IH]; [done|]. change (String x a ++ b)%string with (String x (a ++ b)).
  unfold str_bytes, String.list_byte_of_string in *. cbn [String.list_ascii_of_string map app]. f_equal. exact IH.
Qed.

Lemma policy_path_name rid : is_policy_name (_policy_path rid) = true.
Proof.
  unfold is_policy_name, _policy_path, sha256_hex. rewrite str_bytes_append.
  destruct (hex_of_spec (sha256 (str_bytes rid))) as [Hl Hh]. rewrite length_sha256 in Hl.
  set (h := str_bytes (hex_of _)) in *. change (2 * 32)%nat with 64%nat in Hl.
  assert (take 64 (h ++ str_bytes ".json") = h) as -> by (rewrite <- Hl; apply take_app_length).
  assert (drop 64 (h ++ str_bytes ".json") = str_bytes ".json") as -> by (rewrite <- Hl; apply drop_app_length).
  by rewrite length_app, Hl, Hh.
Qed.



(** ** Authority *)

(** A removed account cannot come back on its own: as long as it is on the
    room's removed list, no [call_join] for that room from any session
    authenticated as it changes anything in the service; a well-formed one with
    the right invitation is answered with [call_removed]. *)
Theorem removed_cannot_join `{P256} c r rid room pid now q
    (Hroom : room_at rid c = Some room) (Hblocked : pid ∈ blocked room)
    (msg : pyval) (Hmsg : snd (entry_checks r msg "invalid call_join message" "inviteToken" c) = Ok q)
    (Hrid : rq_room q = rid) (Huser : authenticated_user (session_obj r c) = Some pid) :
  fst (join r msg now c) = c /\
  (_session_rooms c !! session_id (session_obj r c) = None -> millis now < expires_at_ms room ->
   sha256 (rq_token q) = invite_token_hash room ->
   snd (join r msg now c) = Ok [(r, VDict [("type", VStr "call_removed"); ("roomId", VStr rid)])]).
Proof.
  destruct (entry_checks r msg "invalid call_join message" "inviteToken" c) as [c0 x] eqn:Eq. cbn [snd] in Hmsg. subst x.
  destruct (entry_checks_ok _ _ _ _ _ _ _ Eq) as (-> & Hu & _). rewrite Huser in Hu. injection Hu as Hu.
  destruct (join r msg now c) as [c' y] eqn:Ej. cbn [fst snd]. revert Ej.
  unfold join. unfold bind at 1. rewrite Eq. unfold bind at 1, get.
  rewrite Hrid, <- Hu, Hroom, (bool_decide_eq_true_2 (pid ∈ blocked room)) by done. split.
  - revert Ej. destruct (in_other_room _ rid); [by intros [= <- _]|]. destruct (_ <=? _); [by intros [= <- _]|].
    destruct (negb _); by intros [= <- _].
  - intros Hsr Hlt Htok. revert Ej. rewrite Hsr. cbn [in_other_room]. destruct (_ <=? _) eqn:E; [apply Z.leb_le in E; lia|].
    rewrite bool_decide_eq_true_2 by done. by intros [= _ <-].
Qed.

Lemma removed_cannot_join_witness :
  fst (join 1 Demo.join_msg 4000000 Demo.removed) = Demo.removed /\
  snd (join 1 Demo.join_msg 4000000 Demo.removed) = Ok [(1%nat, VDict [("type", VStr "call_removed"); ("roomId", VStr "room1")])].
Proof.
  assert (exists room, room_at "room1" Demo.removed = Some room /\ "bobby" ∈ blocked room) as (room & Hr & Hb).
  { assert (bool_decide ("bobby" ∈ default ∅ (blocked <$> room_at "room1" Demo.removed)) = true) as Hb
      by (vm_compute; reflexivity). apply bool_decide_eq_true in Hb.
    destruct (room_at "room1" Demo.removed) as [room|]; [exists room; split; [reflexivity|exact Hb]|].
    cbn in Hb. set_solver. }
  assert (exists q, snd (entry_checks 1 Demo.join_msg "invalid call_join message" "inviteToken" Demo.removed) = Ok q /\ rq_room q = "room1")
    as (q & Hq & Hrid) by (eexists; split; [vm_compute; reflexivity|reflexivity]).
  destruct (removed_cannot_join Demo.removed 1 "room1" room "bobby" 4000000 q Hr Hb Demo.join_msg Hq Hrid)
    as [H1 _]; [vm_compute; reflexivity|]. split; [exact H1|]. vm_compute. reflexivity.
Defined.

(** Group keys flow only from the host: when [forward_group_key] sends
    anything, it is one message, the caller is the initiator of the room acting
    through the session that is its member, the recipient is the session of
    another current member, and the state is unchanged. *)
Theorem group_key_authority r msg c sends
    (Hok : snd (forward_group_key r msg c) = Ok sends) :
  fst (forward_group_key r msg c) = c /\
  exists rid room sender target m payload, sends = [(session m, VDict payload)] /\
    room_at rid c = Some room /\ authenticated_user (session_obj r c) = Some sender /\
    sender = initiator_id room /\ (exists own, od_get sender (members room) = Some own /\ session own = r) /\
    od_get target (members room) = Some m /\ target ≠ sender /\
    dget "senderParticipantId" payload = VStr sender /\ dget "targetParticipantId" payload = VStr target.
Proof.
  split; [apply forward_group_key_state|]. revert Hok. unfold forward_group_key. unfold bind at 1, get. unfold bind at 1, lift.
  destruct (_require_authenticated _) as [sender|] eqn:Eu; [|done]. apply require_authenticated_ok in Eu as (Eu & _ & _).
  unfold bind at 1.
  match goal with |- context [match ?x with Ok _ => _ | Raise _ => _ end] => destruct x as [[[[[m rq] rid] t] k]|] eqn:Ex end; [|done].
  assert (t ≠ sender) as Hts.
  { revert Ex. unfold rbind. destruct (message_with _ _ _); [|done]. destruct (_request_id _); [|done].
    destruct (_room_id _); [|done]. destruct (str_matching _PARTICIPANT_ID _); [|done]. destruct (str_matching _KEY_ID _); [|done].
    case_bool_decide; [done|]. destruct (_decode_base64url _ _); [|done]. destruct (_decode_base64url _ None); [|done].
    destruct (negb _); [done|]. destruct (_decode_base64url _ (Some 64%nat)); [|done]. by intros [= _ _ _ <- _]. }
  destruct (room_at rid c) as [room|] eqn:Er; [|done]. case_bool_decide as Hs; [|done]. cbn [negb].
  destruct (own_member room sender r) as [own|] eqn:Eo; [|done]. apply own_member_Some in Eo.
  destruct (od_get t (members room)) as [mt|] eqn:Em; [|done]. intros [= <-].
  eexists rid, room, sender, t, mt, _. split; [reflexivity|]. repeat split; eauto.
Qed.

Definition key_msg : pyval :=
  VDict [("type", VStr "call_group_key"); ("requestId", VStr "request-4"); ("roomId", VStr "room1");
         ("targetParticipantId", VStr "bobby"); ("keyId", VStr "0123456789abcdef0123456789abcdef");
         ("nonce", VStr (bytes_str (b64url_nopad (replicate 12 Byte.x01))));
         ("ciphertext", VStr (bytes_str (b64url_nopad (replicate 48 Byte.x02))));
         ("signature", VStr (bytes_str (b64url_nopad (replicate 64 Byte.x03))))].

Lemma group_key_authority_witness :
  exists sends, snd (forward_group_key 0 key_msg Demo.joined) = Ok sends /\ length sends = 1%nat.
Proof.
  assert (exists sends, snd (forward_group_key 0 key_msg Demo.joined) = Ok sends) as (sends & Hs)
    by (eexists; vm_compute; reflexivity).
  destruct (group_key_authority 0 key_msg Demo.joined sends Hs) as (_ & rid & room & sender & target & m & payload & -> & _).
  exists [(session m, VDict payload)]. split; [exact Hs|reflexivity].
Defined.

(** ** Snapshots *)

(** The participant ids a snapshot lists, in order. *)
Definition listed (v : pyval) : list string :=
  match v with
  | VList l => omap (fun m => match m with VDict d => as_str (dget "participantId" d) | _ => None end) l
  | _ => []
  end.

Lemma omap_members (room : Room) rid ps :
  room_ok rid room -> (forall p, p ∈ ps -> is_Some (od_get p (members room))) ->
  listed (VList (omap (fun p => (fun m => public_value m (room_id room)) <$> od_get p (members room)) ps)) = ps.
Proof.
  intros Hok. induction ps as [|p ps IH]; [done|]. intros Hp. destruct (Hp p ltac:(by left)) as [m Hm].
  cbn [omap list_omap]. rewrite Hm. cbn [fmap option_fmap option_map listed omap list_omap public_value dget od_get default].
  cbn. rewrite (proj1 (ok_keys _ _ Hok _ _ Hm)). f_equal. apply IH. intros q Hq. apply Hp. by right.
Qed.

(** The member list of every snapshot is complete, free of duplicates and
    sorted: in a reachable state it lists exactly the ids of the room's
    members, in increasing order. *)
Theorem snapshot_lists_members `{P256} c rid room (Hreach : reachable c) (Hroom : room_at rid c = Some room) :
  let ids := listed (dget "members" (_snapshot room)) in
  Sorted String.le ids /\ NoDup ids /\ (forall p, p ∈ ids <-> is_Some (od_get p (members room))).
Proof.
  cbv zeta. assert (room_ok rid room) as Hok by by apply (ok_each _ (inv_rooms c (reachable_inv c Hreach))).
  change (dget "members" (_snapshot room)) with (VList (omap (fun p => (fun m => public_value m (room_id room)) <$>
    od_get p (members room)) (sorted (od_keys (members room))))).
  assert (forall p, p ∈ sorted (od_keys (members room)) <-> is_Some (od_get p (members room))) as Hin.
  { intros p. unfold sorted. rewrite merge_sort_Permutation. by rewrite od_get_is_Some. }
  rewrite (omap_members room rid) by (done || intros p; apply Hin). split; [|split].
  - apply Sorted_merge_sort. apply _.
  - unfold sorted. rewrite merge_sort_Permutation. apply Hok.
  - exact Hin.
Qed.

Lemma snapshot_lists_members_witness :
  exists room, room_at "room1" Demo.joined = Some room /\ Sorted String.le (listed (dget "members" (_snapshot room))).
Proof.
  assert (is_Some (room_at "room1" Demo.joined)) as [room Hr] by (apply (bool_decide_unpack _); vm_compute; exact I).
  exists room. split; [exact Hr|]. exact (proj1 (snapshot_lists_members Demo.joined "room1" room Demo.joined_reachable Hr)).
Defined.

End CallThm.
