(* ===== verification/CallEffects.v ===== *)
(** * Effects of the call service

    Removal by the host, expiry by timers, delivery of messages, and the wire
    values the service decodes. *)

From stdpp Require Import prelude strings list gmap sorting.
From Stdlib Require Import ZArith Lia.
From S2P Require Import Prelude PyDict PyBytes Base64 Sha256 PyValue Json JsonFacts Database Sessions SessionFacts Call CallInvariant CallPreserve CallSpec CallTheorems.

Module CallEff.
Import Call CallInv CallPreserve CallSpec CallThm.
#[local] Existing Instance Demo.any_point.

(** ** Timers *)



(** A screen share ends with its lease: in a reachable state an active share
    has a running timer due exactly when the lease ends; when it fires the share
    is cleared, the screen revision grows and every member is told. *)
Theorem screen_lease_expires `{P256} c rid room
    (Hreach : reachable c) (Hroom : room_at rid c = Some room) (Hactive : screen_id room ≠ "") :
  is_Some (od_get (screen_owner room) (members room)) /\
  exists t k, timers c !! t = Some k /\ fires_at k = screen_expires_at room /\
    forall mono, screen_expires_at room <= mono ->
      exists room', room_at rid (fst (fire t mono c)) = Some room' /\
        screen_id room' = "" /\ screen_owner room' = "" /\ screen_revision room' = screen_revision room + 1 /\
        members room' = members room /\ timers (fst (fire t mono c)) !! t = None /\
        snd (fire t mono c) = Ok (to_all (recipients_of room) (screen_state_message rid room')).
Proof.
  pose proof (reachable_inv c Hreach) as Hinv. assert (room_ok rid room) as Hok by by apply (ok_each _ (inv_rooms c Hinv)).
  split.
  { apply (ok_screen_owner _ _ Hok). intros E. apply (ok_screen_idle _ _ Hok) in E. done. }
  destruct (ok_lease _ _ _ (inv_timers c Hinv) _ _ Hroom Hactive) as (t & Et & Hk). eexists t, _.
  split; [exact Hk|]. split; [done|]. intros mono Hdue.
  destruct (fire_screen_run t _ rid (screen_id room) mono c Hinv Hk Hdue eq_refl) as (room0 & Hr0 & _ & _ & Ef).
  rewrite Hroom in Hr0. injection Hr0 as <-. rewrite Ef. exists (cleared_screen room). cbn [fst snd].
  rewrite (room_at_set rid (cleared_screen room) (set_timers _ c)). repeat split; try done.
  cbn. rewrite Et. apply lookup_delete_eq.
Qed.

Lemma screen_lease_expires_witness :
  exists room t k, room_at "room1" Demo.sharing = Some room /\ screen_owner room = "bobby" /\
    timers Demo.sharing !! t = Some k /\ fires_at k = 45000007.
Proof.
  assert (exists room, room_at "room1" Demo.sharing = Some room /\ screen_owner room = "bobby" /\ screen_id room = "share-0001" /\
    screen_expires_at room = 45000007) as (room & Hr & Ho & Hi & He) by (eexists; split; [vm_compute; reflexivity|done]).
  destruct (screen_lease_expires Demo.sharing "room1" room Demo.sharing_reachable Hr) as (_ & t & k & Hk & Hf & _);
    [rewrite Hi; discriminate|].
  exists room, t, k. split; [exact Hr|]. split; [exact Ho|]. split; [exact Hk|]. rewrite Hf. exact He.
Defined.

(** ** Removal *)

(** The account is on the removed list, not a member, and its session is
    bound to no room. *)
Definition out_of_room (rid target sid : string) (c : CallService) : Prop :=
  exists room, room_at rid c = Some room /\ target ∈ blocked room /\ od_get target (members room) = None /\
    _session_rooms c !! sid = None.

Lemma out_of_room_update rid target sid c room f :
  out_of_room rid target sid c -> room_at rid c = Some room ->
  blocked (f room) = blocked room -> members (f room) = members room ->
  out_of_room rid target sid (set__rooms (od_set rid (f room) (_rooms c)) c).
Proof.
  intros (room0 & Hr0 & Hb & Hm & Hs) Hr Ef Em. rewrite Hr in Hr0. injection Hr0 as <-.
  exists (f room). rewrite room_at_set, Ef, Em. done.
Qed.

Lemma remove_out rid room target m c :
  call_inv c -> room_at rid c = Some room -> od_get target (members room) = Some m -> (size (blocked room) < 256)%nat ->
  let y := apply_moderation rid room target "remove" c in
  out_of_room rid target (session_id (session_obj (session m) c)) (fst y) /\
  no_open (io (fst y)) /\ match snd y with Ok _ => True | Raise e => e = OSError end.
Proof.
  intros Hinv Hr Hm Hsz. cbv zeta. destruct (apply_moderation rid room target "remove" c) as [c' y] eqn:Ey.
  cbn [fst snd]. revert Ey. unfold apply_moderation. change (bool_decide ("remove" = "readmit")) with false.
  change (bool_decide ("remove" = "remove")) with true. cbv iota. unfold od_mem. rewrite Hm. cbn [negb andb].
  rewrite (proj2 (Nat.leb_gt _ _)) by done. cbn [andb]. unfold bind at 1. rewrite (update_room_eq _ _ _ _ Hr).
  set (B := {[target]} ∪ blocked room). cbn [fmap option_fmap option_map]. unfold bind at 1.
  set (c1 := set__rooms _ c).
  destruct (ok_member_session _ _ _ (inv_bindings c Hinv) _ _ _ _ Hr Hm) as (_ & Hu & _).
  destruct (remove_member_run (session m) rid (set_blocked B room) target m c1) as (P & l & x & E & Hl & Hw);
    [apply room_at_set|exact Hu|done|done|apply Hinv|].
  unfold bind at 1. rewrite E. set (c2 := {| _rooms := _ |}).
  assert (room_at rid c2 = Some (without_member target (set_blocked B room))) as Hr2
    by (unfold room_at; cbn [_rooms c2]; by rewrite od_get_set_eq).
  assert (out_of_room rid target (session_id (session_obj (session m) c)) c2) as Hout.
  { eexists. split; [exact Hr2|]. unfold without_member. cbn [screen_owner set_blocked].
    split; [|split].
    - assert (target ∈ B) by set_solver. by case_bool_decide.
    - case_bool_decide; apply od_get_pop_eq.
    - unfold c2. cbn [_session_rooms c1 set__rooms]. apply lookup_delete_eq. }
  destruct x as [[]|e].
  2:{ intros [= <- <-]. split; [exact Hout|]. split; [exact Hl|]. unfold written in Hw.
      destruct (policies c1); [destruct Hw as [[_ Hw]|[_ Hw]]|destruct Hw as [_ Hw]]; congruence. }
  step_clear_metadata; [apply Hinv|].
  unfold bind. rewrite (update_room_eq rid _ (set_sessions sm c2) _ Hr2). unfold ret. intros Ey.
  pose proof (f_equal fst Ey) as Ec. pose proof (f_equal snd Ey) as Ev. cbn [fst snd] in Ec, Ev. subst c' y. clear Ey.
  split; [|done]. apply (out_of_room_update rid target _ (set_sessions sm c2) _ (fun room => set_muted (muted room ∖ {[target]}) room)); done.
Qed.



(** ** Delivery *)

Section deliver.
Context `{Transport W}.

Lemma safe_send_eq s p w :
  _safe_send s p w = (fst (send s p w), match snd (send s p w) with
                                        | Ok _ => Ok true
                                        | Raise e => if is_RuntimeError e then Ok false else Raise e
                                        end).
Proof. unfold _safe_send, try_catch, bind, ret. destruct (send s p w) as [w' [y|e]]; [done|]. cbn. by destruct (is_RuntimeError e). Qed.

(** Delivery stops at the first failure that is not a [RuntimeError]: when
    the transport refuses one recipient with another exception (a full queue
    raises [BackpressureError], a link closing under the write
    [ConnectionClosedError]), that exception leaves the handler and none of the
    later recipients is sent anything. *)
Theorem deliver_stops_at_failure sm before r payload after w w1 w2 e
    (Hbefore : deliver sm before w = (w1, Ok tt)) (Hfails : send (obj r sm) payload w1 = (w2, Raise e))
    (Hother : is_RuntimeError e = false) :
  deliver sm (before ++ (r, payload) :: after) w = (w2, Raise e).
Proof.
  unfold deliver in *. revert w Hbefore. induction before as [|x before IH]; intros w Hb.
  - injection Hb as ->. cbn [app iterM fst snd]. unfold bind. rewrite safe_send_eq, Hfails. cbn. by rewrite Hother.
  - cbn [app iterM] in *. unfold bind at 1 in Hb. unfold bind at 1.
    destruct ((_safe_send (obj (fst x) sm) (snd x) ;! ret tt) w) as [w' [[]|e']]; [|done]. by apply IH.
Qed.

(** Otherwise delivery completes: if no send raises anything but
    [RuntimeError], every message is handed to the transport in order and the
    handler returns. *)
Theorem deliver_completes sm sends
    (Hquiet : forall s p w e, snd (send s p w) = Raise e -> is_RuntimeError e = true) w :
  deliver sm sends w =
    (fold_left (fun w sp => fst (send (obj (fst sp) sm) (snd sp) w)) sends w, Ok tt).
Proof.
  unfold deliver. revert w. induction sends as [|x sends IH]; intros w; [done|]. cbn [iterM fold_left].
  unfold bind at 1. unfold bind at 1. rewrite safe_send_eq.
  pose proof (Hquiet (obj (fst x) sm) (snd x) w) as Hq. destruct (send (obj (fst x) sm) (snd x) w) as [w' [y|e]].
  - apply IH.
  - cbn [fst snd] in *. rewrite (Hq e eq_refl). apply IH.
Qed.
End deliver.

(** A transport that records who was reached and refuses connection 0. *)
#[local] Instance refusing : Transport (list nat) := {|
  conn_closed := fun _ _ => false;
  send_application := fun c _ _ => if (c =? 0)%nat then raise (BackpressureError "maximum queued traffic bytes reached")
                                   else (modify (fun l => l ++ [c]) ;! ret 0)
|}.

(** Alice on connection 0, Bobby on connection 1. *)
Definition online (conn : nat) (id : string) (s : ApplicationSession) : ApplicationSession :=
  set_metadata [("qapp_connection_id", VStr id)] (set_connection (Some conn) s).
Definition both_online : SessionManager := on_obj 1 (online 1 "b") (on_obj 0 (online 0 "a") Demo.manager).

Lemma deliver_stops_at_failure_witness :
  deliver both_online ([] ++ (0%nat, VNone) :: [(1%nat, VNone)]) [] = ([], Raise (BackpressureError "maximum queued traffic bytes reached")).
Proof.
  apply (deliver_stops_at_failure (W := list nat) both_online [] 0 VNone [(1%nat, VNone)] [] [] []);
    vm_compute; reflexivity.
Defined.

(** A transport without refusals. *)
Definition recording : Transport (list nat) := {|
  conn_closed := fun c _ => (c =? 0)%nat;
  send_application := fun c _ _ => modify (fun l => l ++ [c]) ;! ret 0
|}.

Lemma deliver_completes_witness :
  @deliver (list nat) recording both_online [(0%nat, VNone); (1%nat, VNone)] [] = ([1%nat], Ok tt).
Proof.
  rewrite (deliver_completes (H := recording) both_online [(0%nat, VNone); (1%nat, VNone)]); [vm_compute; reflexivity|].
  intros s p w e. unfold send. munfold. destruct (connection s) as [c|]; [|by intros [= <-]].
  cbn [conn_closed recording]. destruct (c =? 0)%nat; [by intros [= <-]|].
  destruct (dget "qapp_connection_id" (metadata s)); try (by intros [= <-]). case_bool_decide; [by intros [= <-]|done].
Defined.

(** ** Re-authentication during a call *)

(** Removal depends on the account a session authenticated as not changing
    while it is in a call.  When the server promotes Bobby's session to another
    account during the call (as a second AUTHENTICATE does), the host's removal
    of Bobby is reported as accepted, yet Bobby stays in the member list of the
    room, in the policy the media relay reads, and bound to the room. *)
Theorem reauthentication_defeats_removal :
  let reauthenticated := set_sessions (fst (promote 1 "carol" 11 (sessions Demo.joined))) Demo.joined in
  let (c, result) := moderate 0 (Demo.moderation_msg "bobby" "remove") 3000000 reauthenticated in
  is_ok result = true /\
  match room_at "room1" c with
  | Some room => bool_decide ("bobby" ∈ blocked room) = true /\ od_mem "bobby" (members room) = true
  | None => False
  end /\
  _session_rooms c !! "s2" = Some "room1" /\
  match policies c ≫= lookup (_policy_path "room1") with
  | Some (VDict doc) => match dget "members" doc with VDict ms => od_get "bobby" ms = Some (VStr "s2") | _ => False end
  | _ => False
  end.
Proof. vm_compute. repeat split. Qed.

(** ** Wire values *)

Lemma b64url_chars l : Forall (fun b => is_word b = true /\ b ≠ PAD /\ byte_val b < 128) (b64url_nopad l).
Proof.
  unfold b64url_nopad. apply Forall_forall. intros b (v & -> & Hv)%list_elem_of_fmap.
  pose proof (sextets_ok l) as Hok. rewrite Forall_forall in Hok.
  destruct (url_char_facts v (Hok v Hv)) as (_ & H1 & H2 & H3). done.
Qed.

Lemma rev_replicate {A} k (x : A) : rev (replicate k x) = replicate k x.
Proof. induction k as [|k IH]; [done|]. cbn. rewrite IH. symmetry. apply replicate_cons_app. Qed.

Lemma rstrip_pad_app l k : Forall (fun b => b ≠ PAD) l -> rstrip_pad (l ++ replicate k PAD) = l.
Proof.
  intros Hl. unfold rstrip_pad. rewrite rev_app_distr, rev_replicate.
  set (go := fix go r := match r with b :: r' => if bool_decide (b = PAD) then go r' else r | [] => [] end).
  assert (forall k r, go (replicate k PAD ++ r) = go r) as Hskip.
  { intros n r. induction n as [|n IH]; [done|]. cbn [replicate app]. cbn -[bool_decide PAD]. by rewrite bool_decide_eq_true_2. }
  rewrite Hskip. destruct (rev l) as [|b r] eqn:E.
  - apply (f_equal (@rev _)) in E. rewrite rev_involutive in E. by subst.
  - assert (b ≠ PAD) as Hb.
    { rewrite Forall_forall in Hl. apply Hl. apply list_elem_of_In, in_rev. rewrite E. by left. }
    cbn -[bool_decide PAD rev]. rewrite bool_decide_eq_false_2 by done. rewrite <- E. apply rev_involutive.
Qed.

Lemma urlsafe_decode_nopad l k :
  urlsafe_b64decode (bytes_str (b64url_nopad l ++ replicate k PAD)) =
  a2b_base64 false (map b64_char (sextets l) ++ replicate k PAD).
Proof.
  unfold urlsafe_b64decode, encode_ascii. rewrite str_bytes_str.
  assert (forallb (fun b => byte_val b <? 128) (b64url_nopad l ++ replicate k PAD) = true) as ->.
  { apply forallb_forall. intros b Hb. apply in_app_iff in Hb as [Hb|Hb].
    - pose proof (b64url_chars l) as Hc. rewrite Forall_forall in Hc. apply Z.ltb_lt, (Hc b). by apply list_elem_of_In.
    - apply list_elem_of_In, elem_of_replicate in Hb as [-> _]. done. }
  f_equal. rewrite map_app. f_equal.
  - unfold b64url_nopad. rewrite map_map. apply map_ext_in. intros v Hv%list_elem_of_In.
    pose proof (sextets_ok l) as Hok. rewrite Forall_forall in Hok. by apply url_char_facts, Hok.
  - clear. induction k; [done|]. cbn [replicate map]. by rewrite IHk.
Qed.

Lemma rstrip_nopad l k : rstrip_pad (b64url_nopad l ++ replicate k PAD) = b64url_nopad l.
Proof. apply rstrip_pad_app. eapply Forall_impl; [apply b64url_chars|]. naive_solver. Qed.

Lemma length_nopad l : length (b64url_nopad l) = length (sextets l).
Proof. unfold b64url_nopad. apply length_map. Qed.

(** The pattern admits an encoding with at most two pad characters. *)
Lemma base64url_pattern l k :
  l ≠ [] -> (k <= 2)%nat -> _BASE64URL (bytes_str (b64url_nopad l ++ replicate k PAD)) = true.
Proof.
  intros Hne Hk. unfold _BASE64URL. rewrite str_bytes_str, rstrip_nopad.
  assert (0 < length (sextets l))%nat as Hpos by (destruct l as [|a [|b [|c l]]]; [done|cbn; lia..]).
  assert (forallb is_word (b64url_nopad l) = true) as ->.
  { apply forallb_forall. intros b Hb%list_elem_of_In. pose proof (b64url_chars l) as Hc.
    rewrite Forall_forall in Hc. by apply (Hc b). }
  rewrite length_app, length_replicate, length_nopad.
  replace (length (sextets l) + k - length (sextets l))%nat with k by lia.
  by rewrite (proj2 (Nat.ltb_lt _ _)), (proj2 (Nat.leb_le _ _)).
Qed.

(** How [_decode_base64url] sees an encoding followed by [k] pad characters. *)
Lemma decode_base64url_eq l k n :
  l ≠ [] -> (k <= 2)%nat ->
  _decode_base64url (VStr (bytes_str (b64url_nopad l ++ replicate k PAD))) (Some n) =
  match a2b_base64 false (map b64_char (sextets l) ++ replicate ((4 - (length (sextets l) + k) mod 4) mod 4) PAD) with
  | Ok decoded => if (length decoded =? n)%nat then Ok decoded else Raise (ValueError "invalid key length")
  | Raise _ => Raise invalid_base64url
  end.
Proof.
  intros Hne Hk. unfold _decode_base64url, str_matching. rewrite base64url_pattern by done.
  rewrite str_bytes_str, rstrip_nopad, length_app, length_replicate, length_nopad. by rewrite urlsafe_decode_nopad.
Qed.

Lemma sextets_mod l :
  (length (sextets l) mod 4 = if length l mod 3 =? 0 then 0 else S (length l mod 3))%nat.
Proof.
  induction l as [| | |a b c l IH] using triples_ind; [done..|].
  change (length (sextets (a :: b :: c :: l))) with (4 + length (sextets l))%nat.
  change (length (a :: b :: c :: l)) with (3 + length l)%nat.
  replace (4 + length (sextets l))%nat with (length (sextets l) + 1 * 4)%nat by lia.
  replace (3 + length l)%nat with (length l + 1 * 3)%nat by lia. by rewrite !Nat.Div0.mod_add.
Qed.

(** Base64url values without padding, the form the clients send, decode to
    the bytes they encode: every field of 32, 65, 12, 48 or 64 bytes the
    messages carry is read back exactly. *)
Theorem base64url_roundtrip l (Hne : l ≠ []) :
  _decode_base64url (VStr (bytes_str (b64url_nopad l))) (Some (length l)) = Ok l.
Proof.
  pose proof (decode_base64url_eq l 0 (length l) Hne ltac:(lia)) as E. cbn [replicate] in E. rewrite app_nil_r in E.
  rewrite E, a2b_lenient; [by rewrite Nat.eqb_refl|]. rewrite Nat.add_0_r, sextets_mod.
  pose proof (Nat.mod_upper_bound (length l) 3 ltac:(lia)).
  destruct (length l mod 3)%nat as [|[|[|r]]]; cbn; lia.
Qed.

Lemma base64url_roundtrip_witness :
  _decode_base64url (VStr "QQ") (Some 1%nat) = Ok [Byte.x41].
Proof. exact (base64url_roundtrip [Byte.x41] ltac:(discriminate)). Defined.

(** A correctly padded base64url value is rejected: although the pattern of
    the service admits up to two pad characters, the padding it adds is computed
    from a length that counts them, so it adds none, and the decoder refuses the
    value whenever padding is needed (always for the 32-byte and 65-byte
    fields). *)
Theorem padded_base64url_rejected l n (Hpad : (0 < length l mod 3)%nat) :
  _BASE64URL (bytes_str (b64url_nopad l ++ replicate (pad_count l) PAD)) = true /\
  _decode_base64url (VStr (bytes_str (b64url_nopad l ++ replicate (pad_count l) PAD))) (Some n) = Raise invalid_base64url.
Proof.
  assert (l ≠ []) as Hne by (intros ->; cbn in Hpad; lia).
  assert (pad_count l <= 2)%nat as Hk by (unfold pad_count; pose proof (Nat.mod_upper_bound (3 - length l mod 3) 3); lia).
  split.
  - by apply base64url_pattern.
  - rewrite (decode_base64url_eq l (pad_count l) n Hne Hk). rewrite a2b_lenient_unpadded; [done|done|].
    rewrite Nat.Div0.add_mod, sextets_mod. unfold pad_count.
    pose proof (Nat.mod_upper_bound (length l) 3 ltac:(lia)).
    destruct (length l mod 3)%nat as [|[|[|r]]]; cbn; lia.
Qed.

Lemma padded_base64url_rejected_witness :
  _decode_base64url (VStr "QQ==") (Some 1%nat) = Raise invalid_base64url.
Proof. exact (proj2 (padded_base64url_rejected [Byte.x41] 1 ltac:(cbn; lia))). Defined.

End CallEff.
