(* ===== verification/Authorization.v ===== *)
(** * One-time attach tokens ([private_transport/authorization.py])

    [AttachTokenAuthority] hands out bearer tokens for the private transport.
    It keeps only the SHA-256 of a token; a token is good for one [consume],
    even one that fails; issuing is limited per session and per user over a
    sliding minute and by the number of unused tokens.  Times are in
    microseconds; the clock and [secrets.token_urlsafe] are arguments. *)

From stdpp Require Import prelude strings list gmap.
From Stdlib Require Import ZArith Lia.
From S2P Require Import Prelude PyDict PyBytes Sha256 PyValue Sessions.

Module Attach.

Definition token_hash (token : string) : res bytes :=
  let? b := encode_ascii token in Ok (sha256 b).

Record AttachGrant := {
  grant_token_hash : bytes;
  logical_session_id : string;
  logical_connection_id : string;
  grant_user : string;
  qapp_identity : string * string;
  purpose : string;
  owner_binding_hash : string;
  nonce : string;
  grant_expires_at : Z
}.

#[export] Instance grant_eq_dec : EqDecision AttachGrant.
Proof. solve_decision. Defined.

Record AttachTokenAuthority := {
  ttl : Z;
  per_session_per_minute : Z;
  per_user_per_minute : Z;
  max_unused_per_session : Z;
  max_unused_global : Z;
  _grants : odict bytes AttachGrant;
  _issued : odict string (list Z);
  _issued_users : odict string (list Z)
}.

Definition set_grants (x : odict bytes AttachGrant) (a : AttachTokenAuthority) : AttachTokenAuthority :=
  {| ttl := ttl a; per_session_per_minute := per_session_per_minute a; per_user_per_minute := per_user_per_minute a;
     max_unused_per_session := max_unused_per_session a; max_unused_global := max_unused_global a;
     _grants := x; _issued := _issued a; _issued_users := _issued_users a |}.
Definition set_issued (x : odict string (list Z)) (a : AttachTokenAuthority) : AttachTokenAuthority :=
  {| ttl := ttl a; per_session_per_minute := per_session_per_minute a; per_user_per_minute := per_user_per_minute a;
     max_unused_per_session := max_unused_per_session a; max_unused_global := max_unused_global a;
     _grants := _grants a; _issued := x; _issued_users := _issued_users a |}.
Definition set_issued_users (x : odict string (list Z)) (a : AttachTokenAuthority) : AttachTokenAuthority :=
  {| ttl := ttl a; per_session_per_minute := per_session_per_minute a; per_user_per_minute := per_user_per_minute a;
     max_unused_per_session := max_unused_per_session a; max_unused_global := max_unused_global a;
     _grants := _grants a; _issued := _issued a; _issued_users := x |}.

(** [AttachTokenAuthority.__init__] *)
Definition init (t per_session per_user unused_session unused_global : Z) : AttachTokenAuthority :=
  {| ttl := t; per_session_per_minute := per_session; per_user_per_minute := per_user;
     max_unused_per_session := unused_session; max_unused_global := unused_global;
     _grants := []; _issued := []; _issued_users := [] |}.

Definition AM := M AttachTokenAuthority.

(** [_expire_locked] *)
Definition _expire_locked (now : Z) : AM unit :=
  modify (fun a => set_grants (filter (fun kv => now < grant_expires_at (snd kv)) (_grants a)) a).

(** [while recent and recent[0] <= cutoff: recent.popleft()] *)
Fixpoint popleft_while (cutoff : Z) (recent : list Z) : list Z :=
  match recent with
  | [] => []
  | t :: recent' => if t <=? cutoff then popleft_while cutoff recent' else recent
  end.

(** One of the two maps of [_prune_rates_locked]. *)
Definition prune (cutoff : Z) (mapping : odict string (list Z)) : odict string (list Z) :=
  filter (fun kv => snd kv ≠ []) (map (fun kv => (fst kv, popleft_while cutoff (snd kv))) mapping).

Definition MINUTE : Z := 60 * 1000000.

Definition _prune_rates_locked (now : Z) : AM unit :=
  modify (fun a => set_issued_users (prune (now - MINUTE) (_issued_users a))
                     (set_issued (prune (now - MINUTE) (_issued a)) a)).

(** [mapping.setdefault(key, deque())], as a state change *)
Definition setdefault (key : string) (mapping : odict string (list Z)) : odict string (list Z) :=
  if od_mem key mapping then mapping else od_set key [] mapping.
Definition deque_of (key : string) (mapping : odict string (list Z)) : list Z := default [] (od_get key mapping).

(** [sum(grant.logical_session_id == sid for grant in self._grants.values())] *)
Definition unused (sid : string) (a : AttachTokenAuthority) : Z :=
  Z.of_nat (length (filter (fun g => logical_session_id g = sid) (od_values (_grants a)))).

(** [AttachTokenAuthority.issue]; [token] is the value of
    [secrets.token_urlsafe(32)]. *)
Definition issue (sid conn user : string) (qapp : string * string) (purp binding nonc token : string)
    (timestamp : Z) : AM (string * AttachGrant) :=
  _expire_locked timestamp ;!
  _prune_rates_locked timestamp ;!
  modify (fun a => set_issued (setdefault sid (_issued a)) a) ;!
  modify (fun a => set_issued_users (setdefault user (_issued_users a)) a) ;!
  let! a := get in
  let recent := deque_of sid (_issued a) in
  let user_recent := deque_of user (_issued_users a) in
  if (per_session_per_minute a <=? Z.of_nat (length recent))
     || (per_user_per_minute a <=? Z.of_nat (length user_recent))
     || (max_unused_per_session a <=? unused sid a)
     || (max_unused_global a <=? Z.of_nat (length (_grants a)))
  then raise BootstrapRateLimited
  else
    let! digest := lift (token_hash token) in
    let grant := {| grant_token_hash := digest; logical_session_id := sid; logical_connection_id := conn;
                    grant_user := user; qapp_identity := qapp; purpose := purp; owner_binding_hash := binding;
                    nonce := nonc; grant_expires_at := timestamp + ttl a |} in
    modify (fun a => set_grants (od_set digest grant (_grants a)) a) ;!
    modify (fun a => set_issued (od_set sid (recent ++ [timestamp]) (_issued a)) a) ;!
    modify (fun a => set_issued_users (od_set user (user_recent ++ [timestamp]) (_issued_users a)) a) ;!
    ret (token, grant).

(** The characters of a [str], as one-character strings. *)
Fixpoint group_chars (l : bytes) : list bytes :=
  match l with
  | [] => []
  | b :: l' =>
    match group_chars l' with
    | [] => [[b]]
    | [] :: gs => [b] :: gs
    | (c :: g) :: gs => if is_continuation c then (b :: c :: g) :: gs else [b] :: (c :: g) :: gs
    end
  end.

(** [tuple(v or ())] *)
Definition tuple_or_empty (v : pyval) : res (list pyval) :=
  match v with
  | VNone => Ok []
  | VBool b => if b then Raise (TypeError "object is not iterable") else Ok []
  | VInt n => if n =? 0 then Ok [] else Raise (TypeError "object is not iterable")
  | VFloat _ => if eq_int v 0 then Ok [] else Raise (TypeError "object is not iterable")
  | VStr s => Ok (map (fun g => VStr (bytes_str g)) (group_chars (str_bytes s)))
  | VBytes l => Ok (map (fun b => VInt (byte_val b)) l)
  | VList l => Ok l
  | VDict d => Ok (map VStr (od_keys d))
  end.

(** [vs == (a, b)] for two strings *)
Definition is_pair_of (vs : list pyval) (p : string * string) : bool :=
  match vs with [x; y] => eq_str x (fst p) && eq_str y (snd p) | _ => false end.

(** The checks of [consume] on the session a grant was issued for: [Ok false]
    is a mismatch.  The conditions are evaluated from left to right. *)
Definition session_accepts (closed : nat -> bool) (s : ApplicationSession) (g : AttachGrant) (timestamp : Z) : res bool :=
  if provisional s || (expires_at s <=? timestamp)
     || negb (bool_decide (authenticated_user s = Some (grant_user g))) then Ok false else
  let? identity := tuple_or_empty (dget "qapp_identity" (metadata s)) in
  Ok (is_pair_of identity (qapp_identity g)
      && eq_str (dget "qapp_connection_id" (metadata s)) (logical_connection_id g)
      && match connection s with Some c => negb (closed c) | None => false end).

Definition is_UnicodeError (e : exn) : bool := match e with UnicodeError => true | _ => false end.

(** [AttachTokenAuthority.consume].  The caller passes [str] values; the
    lookup returns the session object, [closed] reads its connection. *)
Definition consume (lookup : string -> option ApplicationSession) (closed : nat -> bool)
    (token sid purp binding nonc : string) (timestamp : Z) : AM (AttachGrant * ApplicationSession) :=
  let rejected := raise AttachRejected in
  let! digest := try_catch (lift (token_hash token)) is_UnicodeError (fun _ => raise AttachRejected) in
  _expire_locked timestamp ;!
  let! grant := gets (fun a => od_get digest (_grants a)) in
  modify (fun a => set_grants (od_pop digest (_grants a)) a) ;!
  match grant with
  | None => rejected
  | Some g =>
    if negb (bool_decide (grant_token_hash g = digest)) then rejected else
    if (grant_expires_at g <=? timestamp) || negb (bool_decide (logical_session_id g = sid))
       || negb (bool_decide (purpose g = purp)) || negb (bool_decide (owner_binding_hash g = binding))
       || negb (bool_decide (nonce g = nonc))
    then rejected else
    match lookup (logical_session_id g) with
    | None => rejected
    | Some s =>
      let! accepted := lift (session_accepts closed s g timestamp) in
      if accepted then ret (g, s) else rejected
    end
  end.

(** [AttachTokenAuthority.invalidate_session] *)
Definition invalidate_session (sid : string) : AM unit :=
  modify (fun a => set_grants (filter (fun kv => logical_session_id (snd kv) ≠ sid) (_grants a)) a) ;!
  modify (fun a => set_issued (od_pop sid (_issued a)) a).

(** [AttachTokenAuthority.release] *)
Definition release (token : string) : AM unit :=
  match token_hash token with
  | Raise _ => ret tt
  | Ok digest => modify (fun a => set_grants (od_pop digest (_grants a)) a)
  end.

(** [AttachTokenAuthority.outstanding] *)
Definition outstanding (sid : option string) (now : Z) : AM Z :=
  _expire_locked now ;!
  let! a := get in
  ret (match sid with None => Z.of_nat (length (_grants a)) | Some s => unused s a end).

End Attach.
