(* ===== verification/AttachFacts.v ===== *)
(** * What the attach-token authority guarantees

    Histories of operations on [AttachTokenAuthority] with the grants they
    issue and accept: a grant is accepted at most once, the number of unused
    grants is bounded, and no user is issued more than its limit in any
    minute. *)

From stdpp Require Import prelude strings list gmap sorting.
From Stdlib Require Import ZArith Lia.
From S2P Require Import Prelude PyDict PyBytes Sha256 PyValue Sessions Authorization.

Module AttachThm.
Import Attach.

(** ** Histories *)

Inductive op :=
| Issue (sid conn user : string) (qapp : string * string) (purp binding nonc token : string) (now : Z)
| Consume (lookup : string -> option ApplicationSession) (closed : nat -> bool)
    (token sid purp binding nonc : string) (now : Z)
| Invalidate (sid : string)
| Release (token : string)
| Outstanding (sid : option string) (now : Z).

Inductive event := Issued (g : AttachGrant) (now : Z) | Accepted (g : AttachGrant) (now : Z).

Definition run_op (o : op) (a : AttachTokenAuthority) : AttachTokenAuthority * list event :=
  match o with
  | Issue sid conn user qapp purp binding nonc token now =>
    let '(a', r) := issue sid conn user qapp purp binding nonc token now a in
    (a', match r with Ok (_, g) => [Issued g now] | Raise _ => [] end)
  | Consume lookup closed token sid purp binding nonc now =>
    let '(a', r) := consume lookup closed token sid purp binding nonc now a in
    (a', match r with Ok (g, _) => [Accepted g now] | Raise _ => [] end)
  | Invalidate sid => (fst (invalidate_session sid a), [])
  | Release token => (fst (release token a), [])
  | Outstanding sid now => (fst (outstanding sid now a), [])
  end.

Fixpoint run_ops (os : list op) (a : AttachTokenAuthority) : AttachTokenAuthority * list event :=
  match os with
  | [] => (a, [])
  | o :: os' => let '(a1, e1) := run_op o a in let '(a2, e2) := run_ops os' a1 in (a2, e1 ++ e2)
  end.

(** ** The outcomes of [issue] and [consume] *)

(** The state in which [issue] checks its limits. *)
Definition swept (sid user : string) (now : Z) (a : AttachTokenAuthority) : AttachTokenAuthority :=
  set_issued_users (setdefault user (prune (now - MINUTE) (_issued_users a)))
    (set_issued (setdefault sid (prune (now - MINUTE) (_issued a)))
      (set_grants (filter (fun kv => now < grant_expires_at (snd kv)) (_grants a)) a)).

Definition within_limits (sid user : string) (a : AttachTokenAuthority) : Prop :=
  Z.of_nat (length (deque_of sid (_issued a))) < per_session_per_minute a /\
  Z.of_nat (length (deque_of user (_issued_users a))) < per_user_per_minute a /\
  unused sid a < max_unused_per_session a /\
  Z.of_nat (length (_grants a)) < max_unused_global a.

Definition granted (sid user : string) (g : AttachGrant) (now : Z) (a : AttachTokenAuthority) : AttachTokenAuthority :=
  set_issued_users (od_set user (deque_of user (_issued_users a) ++ [now]) (_issued_users a))
    (set_issued (od_set sid (deque_of sid (_issued a) ++ [now]) (_issued a))
      (set_grants (od_set (grant_token_hash g) g (_grants a)) a)).

Definition the_grant (a : AttachTokenAuthority) sid conn user qapp purp binding nonc digest now : AttachGrant :=
  {| grant_token_hash := digest; logical_session_id := sid; logical_connection_id := conn;
     grant_user := user; qapp_identity := qapp; purpose := purp; owner_binding_hash := binding;
     nonce := nonc; grant_expires_at := now + ttl a |}.

Definition limited (sid user : string) (a : AttachTokenAuthority) : bool :=
  (per_session_per_minute a <=? Z.of_nat (length (deque_of sid (_issued a))))
  || (per_user_per_minute a <=? Z.of_nat (length (deque_of user (_issued_users a))))
  || (max_unused_per_session a <=? unused sid a) || (max_unused_global a <=? Z.of_nat (length (_grants a))).

Lemma limited_false sid user a : limited sid user a = false <-> within_limits sid user a.
Proof. unfold limited, within_limits. rewrite !orb_false_iff, !Z.leb_gt. tauto. Qed.

Lemma issue_unfold sid conn user qapp purp binding nonc token now a :
  issue sid conn user qapp purp binding nonc token now a =
    let s := swept sid user now a in
    if limited sid user s then (s, Raise BootstrapRateLimited)
    else match token_hash token with
         | Ok d => let g := the_grant a sid conn user qapp purp binding nonc d now in
                   (granted sid user g now s, Ok (token, g))
         | Raise e => (s, Raise e)
         end.
Proof.
  unfold issue, _expire_locked, _prune_rates_locked. munfold. cbv zeta.
  match goal with |- (if ?b then _ else _) _ = _ => change b with (limited sid user (swept sid user now a)) end.
  destruct (limited _ _ _); [done|]. by destruct (token_hash token).
Qed.

(** [issue] either raises in the swept state or, within the limits, adds the
    grant it returns. *)
Lemma issue_cases sid conn user qapp purp binding nonc token now a :
  let s := swept sid user now a in
  (exists e, issue sid conn user qapp purp binding nonc token now a = (s, Raise e)) \/
  (within_limits sid user s /\
   exists d, token_hash token = Ok d /\
     let g := the_grant a sid conn user qapp purp binding nonc d now in
     issue sid conn user qapp purp binding nonc token now a = (granted sid user g now s, Ok (token, g))).
Proof.
  cbv zeta. rewrite issue_unfold. cbv zeta. destruct (limited _ _ _) eqn:El; [left; by eexists|].
  apply limited_false in El. destruct (token_hash token) as [d|e]; [right|left; by eexists]. eauto.
Qed.

(** The state after [consume] whatever its outcome. *)
Definition consumed (d : bytes) (now : Z) (a : AttachTokenAuthority) : AttachTokenAuthority :=
  set_grants (od_pop d (filter (fun kv => now < grant_expires_at (snd kv)) (_grants a))) a.

Lemma set_grants_twice x y a : set_grants x (set_grants y a) = set_grants x a.
Proof. reflexivity. Qed.

Lemma consume_state lookup closed token sid purp binding nonc now a d :
  token_hash token = Ok d ->
  fst (consume lookup closed token sid purp binding nonc now a) = consumed d now a.
Proof.
  intros Hd. unfold consume, _expire_locked. munfold. rewrite Hd.
  destruct (od_get d _) as [g|]; [|done].
  repeat match goal with |- context [if ?b then _ else _] => destruct b end; try done.
  all: destruct (lookup _) as [s|]; [|done]; destruct (session_accepts _ _ _ _) as [[]|]; done.
Qed.

Lemma consume_bad_token lookup closed token sid purp binding nonc now a e :
  token_hash token = Raise e -> consume lookup closed token sid purp binding nonc now a = (a, Raise AttachRejected).
Proof.
  intros He. unfold consume. munfold. rewrite He.
  assert (e = UnicodeError) as ->; [|done]. revert He. unfold token_hash, encode_ascii. munfold.
  by destruct (forallb _ _); intros [=].
Qed.

(** Everything an accepted token proves. *)
Definition accepts (lookup : string -> option ApplicationSession) (closed : nat -> bool)
    (sid purp binding nonc : string) (now : Z) (g : AttachGrant) (s : ApplicationSession) : Prop :=
  now < grant_expires_at g /\ logical_session_id g = sid /\ purpose g = purp /\
  owner_binding_hash g = binding /\ nonce g = nonc /\ lookup sid = Some s /\
  session_accepts closed s g now = Ok true.

Lemma consume_cases lookup closed token sid purp binding nonc now a d :
  token_hash token = Ok d ->
  (exists g s, od_get d (filter (fun kv => now < grant_expires_at (snd kv)) (_grants a)) = Some g /\
     grant_token_hash g = d /\ accepts lookup closed sid purp binding nonc now g s /\
     snd (consume lookup closed token sid purp binding nonc now a) = Ok (g, s)) \/
  exists e, snd (consume lookup closed token sid purp binding nonc now a) = Raise e.
Proof.
  intros Hd. unfold consume, _expire_locked. munfold. rewrite Hd. cbn [_grants set_grants].
  destruct (od_get d _) as [g|] eqn:Eg; [|by right; eexists].
  destruct (negb (bool_decide (grant_token_hash g = d))) eqn:E1; [by right; eexists|].
  match goal with |- context [if ?b then _ else _] => destruct b eqn:E2 end; [by right; eexists|].
  destruct (lookup _) as [s|] eqn:El; [|by right; eexists].
  destruct (session_accepts _ _ _ _) as [[]|e] eqn:Es; [|by right; eexists..].
  left. exists g, s. apply negb_false_iff, bool_decide_eq_true_1 in E1.
  rewrite !orb_false_iff, !negb_false_iff, !bool_decide_eq_true, Z.leb_gt in E2.
  destruct E2 as ((((H1 & H2) & H3) & H4) & H5). unfold accepts. rewrite <- H2 in *. repeat split; done.
Qed.

(** ** Single use *)

Definition issues (g : AttachGrant) (e : event) : bool :=
  match e with Issued g' _ => bool_decide (g' = g) | Accepted _ _ => false end.
Definition uses (g : AttachGrant) (e : event) : bool :=
  match e with Accepted g' _ => bool_decide (g' = g) | Issued _ _ => false end.
Definition times (p : event -> bool) (evs : list event) : nat := length (List.filter p evs).

(** 1 when the grant is still unused. *)
Definition live (g : AttachGrant) (a : AttachTokenAuthority) : nat :=
  if bool_decide (od_get (grant_token_hash g) (_grants a) = Some g) then 1%nat else 0%nat.

Lemma times_app p l1 l2 : times p (l1 ++ l2) = (times p l1 + times p l2)%nat.
Proof. unfold times. by rewrite List.filter_app, length_app. Qed.

Lemma live_le g a a' :
  (od_get (grant_token_hash g) (_grants a') = Some g -> od_get (grant_token_hash g) (_grants a) = Some g) ->
  (live g a' <= live g a)%nat.
Proof. intros H. unfold live. repeat case_bool_decide; try lia. exfalso. auto. Qed.

(** Operations only add the grant they issue. *)
Lemma grants_filter (P : bytes * AttachGrant -> Prop) `{!forall x, Decision (P x)} g a a' :
  od_wf (_grants a) -> _grants a' = filter P (_grants a) -> (live g a' <= live g a)%nat.
Proof. intros Hwf E. apply live_le. rewrite E. by apply od_get_filter. Qed.

Definition op_keeps (g : AttachGrant) (o : op) : Prop := forall a, od_wf (_grants a) ->
  let '(a', evs) := run_op o a in
  od_wf (_grants a') /\ (times (uses g) evs + live g a' <= times (issues g) evs + live g a)%nat.

Lemma issue_keeps g sid conn user qapp purp binding nonc token now :
  op_keeps g (Issue sid conn user qapp purp binding nonc token now).
Proof.
  intros a Hwf. cbn [run_op].
  destruct (issue_cases sid conn user qapp purp binding nonc token now a) as [[e E]|(_ & d & _ & E)];
    cbv zeta in E; rewrite E; clear E.
  - split; [apply od_wf_filter, Hwf|]. cbn [times List.filter length]. by eapply grants_filter.
  - set (g0 := the_grant _ _ _ _ _ _ _ _ _ _). split; [by apply od_wf_set, od_wf_filter|].
    unfold times. cbn [List.filter issues uses length]. case_bool_decide as Eg; cbn [length].
    + unfold live. repeat case_bool_decide; lia.
    + apply live_le. unfold granted. cbn [_grants set_issued_users set_issued set_grants].
      rewrite od_get_set. case_decide; [congruence|]. by apply od_get_filter.
Qed.

Lemma consume_keeps g lookup closed token sid purp binding nonc now :
  op_keeps g (Consume lookup closed token sid purp binding nonc now).
Proof.
  intros a Hwf. cbn [run_op]. destruct (token_hash token) as [d|e] eqn:Ed.
  2: { rewrite (consume_bad_token _ _ _ _ _ _ _ _ _ _ Ed). split; [done|]. cbn. lia. }
  pose proof (consume_state lookup closed token sid purp binding nonc now a d Ed) as Hs.
  pose proof (consume_cases lookup closed token sid purp binding nonc now a d Ed) as Hc.
  destruct (consume _ _ _ _ _ _ _ _ a) as [a' r]. cbn [fst snd] in Hs, Hc. subst a'.
  split; [by apply od_wf_pop, od_wf_filter|].
  assert (live g (consumed d now a) <= live g a)%nat as Hle.
  { apply live_le. cbn [_grants consumed set_grants]. rewrite od_get_pop. case_decide; [done|]. by apply od_get_filter. }
  destruct Hc as [(g0 & s & Hg & Hd & _ & ->)|[e ->]]; [|done].
  unfold times. cbn [List.filter issues uses length]. case_bool_decide as Eg; [subst g0|done]. cbn [length].
  apply od_get_filter in Hg; [|done]. unfold live at 2. rewrite Hd, Hg, bool_decide_true by done.
  unfold live. cbn [_grants consumed set_grants]. rewrite Hd, od_get_pop_eq. done.
Qed.

Lemma run_op_keeps g o : op_keeps g o.
Proof.
  destruct o; [apply issue_keeps|apply consume_keeps|..]; intros a Hwf; cbn [run_op].
  - split; [apply od_wf_filter, Hwf|]. by eapply grants_filter.
  - unfold release. destruct (token_hash token) as [d|e]; [|done]. split; [apply od_wf_pop, Hwf|].
    apply live_le. cbn. rewrite od_get_pop. by case_decide.
  - split; [apply od_wf_filter, Hwf|]. by eapply grants_filter.
Qed.

Lemma run_ops_keeps g os a : od_wf (_grants a) ->
  (times (uses g) (snd (run_ops os a)) + live g (fst (run_ops os a)) <=
   times (issues g) (snd (run_ops os a)) + live g a)%nat.
Proof.
  revert a. induction os as [|o os IH]; intros a Hwf; cbn [run_ops]; [done|].
  pose proof (run_op_keeps g o a Hwf) as Ho. destruct (run_op o a) as [a1 e1]. destruct Ho as [Hwf1 Ho].
  specialize (IH a1 Hwf1). destruct (run_ops os a1) as [a2 e2]. cbn [fst snd] in *. rewrite !times_app. lia.
Qed.

(** C11: An attach grant is used at most once: in every history of the
    authority (issues, attach attempts with any tokens and fields, session
    invalidations, releases), a grant is accepted no more often than exactly
    that grant was issued, and while it is still unused strictly less often.
    So nothing is accepted that was not issued, and a consumed token is dead. *)
Theorem grant_used_at_most_once t ps pu us ug os g :
  (times (uses g) (snd (run_ops os (init t ps pu us ug))) + live g (fst (run_ops os (init t ps pu us ug)))
   <= times (issues g) (snd (run_ops os (init t ps pu us ug))))%nat.
Proof.
  pose proof (run_ops_keeps g os (init t ps pu us ug) od_wf_nil) as H.
  change (live g (init t ps pu us ug)) with 0%nat in H. lia.
Qed.

(** ** Bounded numbers of unused grants *)

Definition grants_bounded (a : AttachTokenAuthority) : Prop :=
  Z.of_nat (length (_grants a)) <= Z.max 0 (max_unused_global a) /\
  forall sid, unused sid a <= Z.max 0 (max_unused_per_session a).

Definition same_limits (a a' : AttachTokenAuthority) : Prop :=
  max_unused_global a' = max_unused_global a /\ max_unused_per_session a' = max_unused_per_session a /\
  per_user_per_minute a' = per_user_per_minute a.

Lemma filter_sublist {A} (P : A -> Prop) `{!forall x, Decision (P x)} (l1 l2 : list A) :
  l1 `sublist_of` l2 -> filter P l1 `sublist_of` filter P l2.
Proof.
  induction 1 as [|x l1 l2 _ IH|x l1 l2 _ IH]; [done|..]; destruct (decide (P x));
    rewrite ?filter_cons_True, ?filter_cons_False by done; by try constructor.
Qed.

Lemma grants_bounded_sublist a a' :
  same_limits a a' -> _grants a' `sublist_of` _grants a -> grants_bounded a -> grants_bounded a'.
Proof.
  intros (E1 & E2 & _) Hs [Hg Hu]. split.
  - apply sublist_length in Hs. lia.
  - intros sid. specialize (Hu sid). unfold unused in *. rewrite E2.
    pose proof (sublist_length _ _ (filter_sublist (fun g => logical_session_id g = sid) _ _ (od_values_sublist _ _ Hs))).
    lia.
Qed.

Lemma issue_bounded sid user g now a : logical_session_id g = sid ->
  within_limits sid user a -> grants_bounded a -> grants_bounded (granted sid user g now a).
Proof.
  intros Hg (_ & _ & Hu & Hn) [Hb1 Hb2].
  assert (_grants (granted sid user g now a) = od_set (grant_token_hash g) g (_grants a)) as E by reflexivity.
  split.
  - rewrite E. pose proof (od_length_set_le (grant_token_hash g) g (_grants a)).
    change (max_unused_global (granted sid user g now a)) with (max_unused_global a). lia.
  - intros sid'. specialize (Hb2 sid'). unfold unused in *. rewrite E.
    change (max_unused_per_session (granted sid user g now a)) with (max_unused_per_session a).
    pose proof (od_values_set_length (fun g => logical_session_id g = sid') (grant_token_hash g) g (_grants a)) as Hl.
    cbn beta in Hl. case_decide; [subst sid'; rewrite <- Hg in Hu; lia|lia].
Qed.

Lemma run_op_bounded o a : grants_bounded a -> let a' := fst (run_op o a) in grants_bounded a' /\ same_limits a a'.
Proof.
  intros Hb. cbv zeta. destruct o; cbn [run_op].
  - destruct (issue_cases sid conn user qapp purp binding nonc token now a) as [[e E]|(Hl & d & _ & E)];
      cbv zeta in E; rewrite E; cbn [fst].
    + split; [|done]. eapply grants_bounded_sublist; [..|exact Hb]; [done|apply sublist_filter].
    + split; [|done]. apply issue_bounded; [done|done|].
      eapply grants_bounded_sublist; [..|exact Hb]; [done|apply sublist_filter].
  - destruct (token_hash token) as [d|e] eqn:Ed.
    + pose proof (consume_state lookup closed token sid purp binding nonc now a d Ed) as Hs.
      destruct (consume _ _ _ _ _ _ _ _ a) as [a' r]. cbn [fst] in *. subst a'. split; [|done].
      eapply grants_bounded_sublist; [..|exact Hb]; [done|].
      etransitivity; [apply od_pop_sublist|apply sublist_filter].
    + by rewrite (consume_bad_token _ _ _ _ _ _ _ _ _ _ Ed).
  - split; [|done]. eapply grants_bounded_sublist; [..|exact Hb]; [done|apply sublist_filter].
  - unfold release. destruct (token_hash token) as [d|e]; [|done]. split; [|done].
    eapply grants_bounded_sublist; [..|exact Hb]; [done|apply od_pop_sublist].
  - split; [|done]. eapply grants_bounded_sublist; [..|exact Hb]; [done|apply sublist_filter].
Qed.

Lemma run_ops_bounded os a : grants_bounded a -> let a' := fst (run_ops os a) in grants_bounded a' /\ same_limits a a'.
Proof.
  cbv zeta. revert a. induction os as [|o os IH]; intros a Hb; cbn [run_ops]; [done|].
  pose proof (run_op_bounded o a Hb) as [Hb1 (E1 & E2 & E3)]. destruct (run_op o a) as [a1 e1]. cbn [fst] in *.
  destruct (IH a1 Hb1) as [Hb2 (F1 & F2 & F3)]. destruct (run_ops os a1) as [a2 e2]. cbn [fst] in *.
  split; [done|]. unfold same_limits. rewrite F1, F2, F3. done.
Qed.

(** The memory of the authority is bounded: after any history there are at
    most [max_unused_global] unused grants, and at most
    [max_unused_per_session] for any one session. *)
Theorem unused_grants_bounded t ps pu us ug os :
  let a := fst (run_ops os (init t ps pu us ug)) in
  Z.of_nat (length (_grants a)) <= Z.max 0 ug /\ (forall sid, unused sid a <= Z.max 0 us).
Proof.
  cbv zeta. destruct (run_ops_bounded os (init t ps pu us ug)) as [[H1 H2] (E1 & E2 & _)].
  - split; [cbn; lia|]. intros sid. unfold unused. cbn. lia.
  - rewrite E1 in H1. rewrite E2 in H2. done.
Qed.

(** ** The sliding minute *)

Definition issue_times (u : string) (evs : list event) : list Z :=
  omap (fun e => match e with
                 | Issued g now => if bool_decide (grant_user g = u) then Some now else None
                 | Accepted _ _ => None
                 end) evs.
Definition issue_clock (o : op) : option Z :=
  match o with Issue _ _ _ _ _ _ _ _ now => Some now | _ => None end.

(** At most [limit] of the times lie in any minute. *)
Definition window_ok (limit : Z) (E : list Z) : Prop :=
  forall t, Z.of_nat (length (filter (fun x => t - MINUTE < x <= t) E)) <= Z.max 0 limit.

Lemma filter_all (P : Z -> Prop) `{!forall x, Decision (P x)} E : Forall P E -> filter P E = E.
Proof. induction 1; [done|]. rewrite filter_cons_True by done. by f_equal. Qed.

Lemma popleft_while_filter k E : StronglySorted Z.le E -> popleft_while k E = filter (fun x => k < x) E.
Proof.
  induction 1 as [|x E Hs IH Hx]; [done|]. cbn [popleft_while]. destruct (x <=? k) eqn:Ek.
  - by rewrite filter_cons_False by lia.
  - rewrite filter_cons_True by lia. f_equal. symmetry. apply filter_all.
    eapply Forall_impl; [exact Hx|]. cbn. lia.
Qed.

Lemma sorted_filter (P : Z -> Prop) `{!forall x, Decision (P x)} E :
  StronglySorted Z.le E -> StronglySorted Z.le (filter P E).
Proof.
  induction 1 as [|x E Hs IH Hx]; [constructor|]. destruct (decide (P x)).
  - rewrite filter_cons_True by done. constructor; [done|].
    eapply Forall_forall. intros y [_ Hy]%list_elem_of_filter. eapply Forall_forall in Hx; done.
  - by rewrite filter_cons_False.
Qed.

Lemma sorted_snoc E x : StronglySorted Z.le E -> Forall (fun y => y <= x) E -> StronglySorted Z.le (E ++ [x]).
Proof.
  induction 1 as [|y E Hs IH Hy]; intros HE; cbn [app]; [repeat constructor|].
  inversion_clear HE. constructor; [by apply IH|]. apply Forall_app. split; [done|]. by constructor.
Qed.

Lemma filter_later k k' (E : list Z) :
  k <= k' -> filter (fun x => k' < x) (filter (fun x => k < x) E) = filter (fun x => k' < x) E.
Proof. intros H. rewrite list_filter_filter. apply list_filter_iff. intros x. lia. Qed.

Lemma deque_of_prune u k m : od_wf m -> deque_of u (prune k m) = popleft_while k (deque_of u m).
Proof.
  intros Hwf. unfold deque_of, prune. rewrite od_get_filter_eq.
  2: { unfold od_wf, od_keys in *. rewrite map_map. exact Hwf. }
  clear Hwf. induction m as [|[k1 v1] m IH]; [done|]. cbn [map od_get fst snd]. case_decide; [|exact IH].
  cbn [default snd]. case_decide as Hn; [done|]. by cbn.
Qed.

Lemma od_wf_prune k m : od_wf m -> od_wf (prune k m).
Proof. intros Hwf. apply od_wf_filter. unfold od_wf, od_keys in *. by rewrite map_map. Qed.

Lemma deque_of_setdefault u v m : deque_of u (setdefault v m) = deque_of u m.
Proof.
  unfold deque_of, setdefault, od_mem. destruct (od_get v m) eqn:E; [done|]. rewrite od_get_set.
  case_decide; [subst; by rewrite E|done].
Qed.

Lemma od_wf_setdefault v m : od_wf m -> od_wf (setdefault v m).
Proof. unfold setdefault. destruct (od_mem v m); auto using od_wf_set. Qed.

(** The queue of a user holds the issue times of the last minute. *)
Record rate_inv (u : string) (E : list Z) (clock : Z) (a : AttachTokenAuthority) : Prop := {
  ri_wf : od_wf (_issued_users a);
  ri_past : Forall (fun x => x <= clock) E;
  ri_sorted : StronglySorted Z.le E;
  ri_queue : exists k, k <= clock - MINUTE /\ deque_of u (_issued_users a) = filter (fun x => k < x) E;
  ri_window : window_ok (per_user_per_minute a) E
}.

Lemma rate_swept u E c now sid user a : c <= now -> rate_inv u E c a ->
  rate_inv u E now (swept sid user now a) /\
  deque_of u (_issued_users (swept sid user now a)) = filter (fun x => now - MINUTE < x) E.
Proof.
  intros Hc [Hwf Hpast Hsort (k & Hk & Hq) Hwin].
  assert (deque_of u (_issued_users (swept sid user now a)) = filter (fun x => now - MINUTE < x) E) as E1.
  { cbn [swept _issued_users set_issued_users]. rewrite deque_of_setdefault, deque_of_prune by done.
    rewrite Hq, popleft_while_filter by by apply sorted_filter. apply filter_later. lia. }
  split; [|done]. split.
  - by apply od_wf_setdefault, od_wf_prune.
  - eapply Forall_impl; [exact Hpast|]. cbn. lia.
  - done.
  - eexists. split; [|exact E1]. lia.
  - exact Hwin.
Qed.

Lemma window_snoc limit E now : window_ok limit E -> Forall (fun x => x <= now) E ->
  Z.of_nat (length (filter (fun x => now - MINUTE < x) E)) < limit -> window_ok limit (E ++ [now]).
Proof.
  intros Hw Hp Hl t. rewrite filter_app, length_app. specialize (Hw t). destruct (decide (now <= t)).
  - assert (length (filter (fun x => t - MINUTE < x <= t)%Z E) <= length (filter (fun x => now - MINUTE < x)%Z E))%nat.
    { clear Hw Hl Hp. induction E as [|x E IH]; [done|]. rewrite !filter_cons.
      repeat case_decide; cbn [length]; lia. }
    rewrite filter_cons. case_decide; cbn [length filter]; cbn; lia.
  - rewrite (filter_cons_False _ now) by lia. cbn. lia.
Qed.

Lemma rate_granted u E now sid user g a :
  grant_user g = user -> within_limits sid user a -> rate_inv u E now a ->
  deque_of u (_issued_users a) = filter (fun x => now - MINUTE < x) E ->
  rate_inv u (E ++ issue_times u [Issued g now]) now (granted sid user g now a).
Proof.
  intros Hg (_ & Hl & _) [Hwf Hpast Hsort _ Hwin] Hq. unfold issue_times. cbn [omap list_omap].
  assert (0 < MINUTE) as HM by (unfold MINUTE; lia).
  case_bool_decide as Eu.
  - rewrite Hg in Eu. subst user u. rewrite Hq in Hl. split.
    + by apply od_wf_set.
    + apply Forall_app. split; [done|]. by repeat constructor.
    + by apply sorted_snoc.
    + exists (now - MINUTE). split; [done|]. cbn [granted _issued_users set_issued_users].
      unfold deque_of at 1. rewrite od_get_set_eq. cbn [default]. rewrite Hq, filter_app.
      rewrite filter_cons_True by lia. done.
    + by apply window_snoc.
  - rewrite app_nil_r. split; [by apply od_wf_set|done|done| |exact Hwin].
    exists (now - MINUTE). split; [done|]. cbn [granted _issued_users set_issued_users].
    unfold deque_of at 1. rewrite od_get_set_ne by congruence. exact Hq.
Qed.

Lemma rate_same u E c a a' :
  _issued_users a' = _issued_users a -> per_user_per_minute a' = per_user_per_minute a ->
  rate_inv u E c a -> rate_inv u E c a'.
Proof. intros E1 E2 []. split; rewrite ?E1, ?E2; done. Qed.

Lemma rate_op u E c o a : rate_inv u E c a -> (forall now, issue_clock o = Some now -> c <= now) ->
  rate_inv u (E ++ issue_times u (snd (run_op o a))) (default c (issue_clock o)) (fst (run_op o a)).
Proof.
  intros Hr Hc. destruct o; cbn [run_op issue_clock default].
  - specialize (Hc now eq_refl). destruct (rate_swept u E c now sid user a Hc Hr) as [Hs Hq].
    destruct (issue_cases sid conn user qapp purp binding nonc token now a) as [[e Ei]|(Hl & d & _ & Ei)];
      cbv zeta in Ei; rewrite Ei; cbn [fst snd].
    + cbn. by rewrite app_nil_r.
    + by apply rate_granted.
  - destruct (token_hash token) as [d|e] eqn:Ed.
    + pose proof (consume_state lookup closed token sid purp binding nonc now a d Ed) as Hs.
      destruct (consume _ _ _ _ _ _ _ _ a) as [a' r]. cbn [fst snd] in *. subst a'.
      replace (issue_times u _) with (@nil Z) by by destruct r as [[]|]. rewrite app_nil_r. by eapply rate_same; [..|exact Hr].
    + rewrite (consume_bad_token _ _ _ _ _ _ _ _ _ _ Ed). cbn. by rewrite app_nil_r.
  - rewrite app_nil_r. by eapply rate_same; [..|exact Hr].
  - rewrite app_nil_r. unfold release. destruct (token_hash token) as [d|e]; [|done].
    by eapply rate_same; [..|exact Hr].
  - rewrite app_nil_r. by eapply rate_same; [..|exact Hr].
Qed.

Lemma rate_ops u os a E c : rate_inv u E c a -> Sorted Z.le (c :: omap issue_clock os) ->
  exists c', rate_inv u (E ++ issue_times u (snd (run_ops os a))) c' (fst (run_ops os a)).
Proof.
  revert a E c. induction os as [|o os IH]; intros a E c Hr Hs; cbn [run_ops].
  { exists c. cbn. by rewrite app_nil_r. }
  apply Sorted_StronglySorted in Hs; [|intros ???; lia]. cbn [omap list_omap] in Hs.
  assert (forall now, issue_clock o = Some now -> c <= now) as Hc.
  { intros now E1. rewrite E1 in Hs. inversion_clear Hs as [|? ? _ Hall]. by inversion_clear Hall. }
  pose proof (rate_op u E c o a Hr Hc) as Ho. destruct (run_op o a) as [a1 e1]. cbn [fst snd] in Ho.
  destruct (IH a1 _ _ Ho) as [c' H'].
  { apply StronglySorted_Sorted. destruct (issue_clock o); cbn [default]; [by inversion_clear Hs|done]. }
  exists c'. destruct (run_ops os a1) as [a2 e2]. cbn [fst snd] in *.
  unfold issue_times in *. by rewrite omap_app, app_assoc.
Qed.

(** The per-user limit is a true sliding window: in any history whose
    issue requests carry a clock that does not run backwards, no user is
    issued more than [per_user_per_minute] tokens within any 60 seconds,
    however the requests are spread over sessions, used, released or
    invalidated. *)
Theorem user_rate_limited t ps pu us ug os u
    (Hclock : Sorted Z.le (omap issue_clock os)) :
  window_ok pu (issue_times u (snd (run_ops os (init t ps pu us ug)))).
Proof.
  set (c := match omap issue_clock os with x :: _ => x | [] => 0 end).
  destruct (rate_ops u os (init t ps pu us ug) [] c) as [c' H].
  - split; [constructor|constructor|constructor| |].
    + exists (c - MINUTE). done.
    + intros t'. cbn. lia.
  - unfold c. destruct (omap issue_clock os) as [|x l]; repeat constructor; [by inversion Hclock..|lia].
  - pose proof (ri_window _ _ _ _ H) as Hw.
    destruct (run_ops_bounded os (init t ps pu us ug)) as [_ (_ & _ & E3)];
      [split; [cbn; lia|intros; unfold unused; cbn; lia]|]. rewrite E3 in Hw. exact Hw.
Qed.

(** ** A token attaches once *)

Lemma consume_absent lookup closed token sid purp binding nonc now a d :
  token_hash token = Ok d -> od_wf (_grants a) -> od_get d (_grants a) = None ->
  snd (consume lookup closed token sid purp binding nonc now a) = Raise AttachRejected.
Proof.
  intros Hd Hwf Hn. unfold consume, _expire_locked. munfold. rewrite Hd. cbn [_grants set_grants].
  by rewrite od_get_filter_eq, Hn by done.
Qed.

Lemma consume_accepts lookup closed token sid purp binding nonc now a d g s :
  token_hash token = Ok d -> od_wf (_grants a) -> od_get d (_grants a) = Some g -> grant_token_hash g = d ->
  accepts lookup closed sid purp binding nonc now g s ->
  snd (consume lookup closed token sid purp binding nonc now a) = Ok (g, s).
Proof.
  intros Hd Hwf Hg Eg (H1 & H2 & H3 & H4 & H5 & H6 & H7).
  unfold consume, _expire_locked. munfold. rewrite Hd. cbn [_grants set_grants].
  rewrite od_get_filter_eq, Hg by done. rewrite decide_True by done.
  rewrite (proj2 (Z.leb_gt _ _) H1), !bool_decide_true by done. cbn [negb orb].
  rewrite H2, H6, H7. done.
Qed.

(** A fresh token works, once: after a successful [issue], an attach with
    that token and the fields it was issued for, before its expiry and for a
    session that still passes the checks, returns exactly the issued grant and
    the session.  Whatever the first attempt with the token was, also one that
    failed on another field, every later attempt is rejected. *)
Theorem token_attaches_once sid conn user qapp purp binding nonc token now a a' g
    (Hwf : od_wf (_grants a))
    (Hissue : issue sid conn user qapp purp binding nonc token now a = (a', Ok (token, g))) :
  (forall lookup closed s later, lookup sid = Some s -> session_accepts closed s g later = Ok true ->
     later < now + ttl a ->
     snd (consume lookup closed token sid purp binding nonc later a') = Ok (g, s)) /\
  (forall lookup1 closed1 sid1 purp1 binding1 nonc1 t1 lookup2 closed2 sid2 purp2 binding2 nonc2 t2,
     snd (consume lookup2 closed2 token sid2 purp2 binding2 nonc2 t2
            (fst (consume lookup1 closed1 token sid1 purp1 binding1 nonc1 t1 a'))) = Raise AttachRejected).
Proof.
  destruct (issue_cases sid conn user qapp purp binding nonc token now a) as [[e E]|(_ & d & Hd & E)];
    cbv zeta in E; rewrite E in Hissue; [done|].
  assert (g = the_grant a sid conn user qapp purp binding nonc d now) as Eg by congruence.
  assert (_grants a' = od_set d g (filter (fun kv => now < grant_expires_at (snd kv)) (_grants a))) as Ea.
  { apply (f_equal fst) in Hissue. cbn [fst] in Hissue. by rewrite <- Hissue, Eg. }
  assert (od_wf (_grants a')) as Hwf' by (rewrite Ea; by apply od_wf_set, od_wf_filter).
  split.
  - intros lookup closed s later Hl Hs Ht. apply (consume_accepts _ _ _ _ _ _ _ _ _ d); [done|done| | |].
    + by rewrite Ea, od_get_set_eq.
    + by rewrite Eg.
    + unfold accepts. rewrite Eg in *. cbn. auto 10.
  - intros. rewrite (consume_state _ _ _ _ _ _ _ _ _ _ Hd). apply (consume_absent _ _ _ _ _ _ _ _ _ d); [done|..].
    + by apply od_wf_pop, od_wf_filter.
    + cbn. apply od_get_pop_eq.
Qed.

(** ** Concrete histories *)

Definition demo_authority : AttachTokenAuthority := init 30000000 4 2 2 8.
Definition demo_issue (token : string) (now : Z) : op :=
  Issue "session" "conn" "alice" ("app", "APP") "files" "binding" "nonce" token now.

Lemma user_rate_limited_witness :
  window_ok 2 (issue_times "alice" (snd (run_ops [demo_issue "t1" 0; Release "t1"; demo_issue "t2" 5;
     Release "t2"; demo_issue "t3" 59000000; demo_issue "t4" 60000000] (init 30000000 4 2 2 8)))) /\
  issue_times "alice" (snd (run_ops [demo_issue "t1" 0; Release "t1"; demo_issue "t2" 5;
     Release "t2"; demo_issue "t3" 59000000; demo_issue "t4" 60000000] (init 30000000 4 2 2 8))) = [0; 5; 60000000].
Proof.
  split; [apply user_rate_limited|vm_compute; reflexivity].
  cbn. repeat constructor; lia.
Defined.

Definition demo_session : ApplicationSession :=
  {| session_id := "session"; Sessions.token_hash := []; created_at := 0; last_seen := 0; expires_at := 100000000;
     authenticated_user := Some "alice";
     metadata := [("qapp_identity", VList [VStr "app"; VStr "APP"]); ("qapp_connection_id", VStr "conn")];
     subscriptions := ∅; last_application_sequence := 0; connection := Some 0%nat; pending_transport := [];
     provisional := false; dedup := []; dedup_limit := 4; last_persisted_at := 0; private_transport := None |}.

Lemma token_attaches_once_witness :
  exists a' g, issue "session" "conn" "alice" ("app", "APP") "files" "binding" "nonce" "t1" 0 demo_authority = (a', Ok ("t1", g)) /\
    snd (consume (fun _ => Some demo_session) (fun _ => false) "t1" "session" "files" "binding" "nonce" 10 a') = Ok (g, demo_session).
Proof.
  assert (exists a' g, issue "session" "conn" "alice" ("app", "APP") "files" "binding" "nonce" "t1" 0 demo_authority =
    (a', Ok ("t1", g)) /\ session_accepts (fun _ => false) demo_session g 10 = Ok true) as (a' & g & H & Hs)
    by (do 2 eexists; split; vm_compute; reflexivity).
  exists a', g. split; [exact H|].
  apply (proj1 (token_attaches_once _ _ _ _ _ _ _ _ _ demo_authority _ _ od_wf_nil H) (fun _ => Some demo_session) (fun _ => false));
    [reflexivity|exact Hs|cbn; lia].
Defined.

End AttachThm.
