(* ===== verification/Protocol.v ===== *)
(** * Message envelopes ([reticulum/protocol.py])

    The JSON documents inside Reticulum frames: control messages, DATA
    envelopes and RPC requests, with their decoders' error handling. *)

From stdpp Require Import prelude strings list gmap.
From Stdlib Require Import ZArith Lia.
From S2P Require Import Prelude PyDict PyBytes Base64 PyValue Json JsonFacts.

Module Protocol.

Definition MAX_LOGICAL_CONNECTION_ID_LENGTH : Z := 128.

Inductive ControlType := PING | PONG | CLOSE.
#[export] Instance ControlType_eq_dec : EqDecision ControlType.
Proof. solve_decision. Defined.

Definition ControlType_str (k : ControlType) : string :=
  match k with PING => "PING" | PONG => "PONG" | CLOSE => "CLOSE" end.

(** [ControlType(v)] *)
Definition ControlType_of (v : pyval) : res ControlType :=
  if eq_str v "PING" then Ok PING else if eq_str v "PONG" then Ok PONG
  else if eq_str v "CLOSE" then Ok CLOSE else Raise (ValueError "not a valid ControlType").

Record ControlMessage := { kind : ControlType; control_connection_id : option string }.
#[export] Instance ControlMessage_eq_dec : EqDecision ControlMessage.
Proof. solve_decision. Defined.

(** [1 <= len(s) <= MAX_LOGICAL_CONNECTION_ID_LENGTH] *)
Definition valid_connection_id (s : string) : bool :=
  (1 <=? py_len s) && (py_len s <=? MAX_LOGICAL_CONNECTION_ID_LENGTH).

(** [ControlMessage.encode] *)
Definition encode_control (m : ControlMessage) : res bytes :=
  let type := ("type", VStr (ControlType_str (kind m))) in
  let? value :=
    match kind m, control_connection_id m with
    | CLOSE, Some id => if valid_connection_id id then Ok (VDict [type; ("connectionId", VStr id)])
                        else Raise (ValueError "CLOSE requires a valid logical connection ID")
    | CLOSE, None => Raise (ValueError "CLOSE requires a valid logical connection ID")
    | _, Some _ => Raise (ValueError "connectionId is only valid for CLOSE")
    | _, None => Ok (VDict [type])
    end in
  let? text := dumps true value in
  encode_utf8 text.

(** [except (..) as exc: raise ProtocolError(msg)] around an expression *)
Definition or_protocol_error {A} (caught : exn -> bool) (msg : string) (c : res A) : res A :=
  match c with Ok a => Ok a | Raise e => if caught e then Raise (ProtocolError msg) else Raise e end.

Definition is_TypeError (e : exn) : bool := match e with TypeError _ => true | _ => false end.
Definition is_KeyError (e : exn) : bool := match e with KeyError _ => true | _ => false end.

(** [json.loads(payload.decode("utf-8"))] *)
Definition loads_utf8 (payload : bytes) : res pyval :=
  let? text := decode_utf8 payload in loads text.

(** [ControlMessage.decode] *)
Definition decode_control (payload : bytes) : res ControlMessage :=
  or_protocol_error (fun e => is_ValueError e || is_TypeError e) "malformed or unsupported control message" (
    let? value := loads_utf8 payload in
    match value with
    | VDict d =>
      match od_get "type" d with
      | None => Raise (ValueError "")
      | Some t =>
        let? k := ControlType_of t in
        match k with
        | CLOSE =>
          match keys_are ["type"; "connectionId"] d, dget "connectionId" d with
          | true, VStr id => if valid_connection_id id
                             then Ok {| kind := CLOSE; control_connection_id := Some id |}
                             else Raise (ValueError "")
          | _, _ => Raise (ValueError "")
          end
        | _ => if keys_are ["type"] d then Ok {| kind := k; control_connection_id := None |}
               else Raise (ValueError "")
        end
      end
    | _ => Raise (ValueError "")
    end).

(** ** DATA envelopes *)

Record DataEnvelope := { connection_id : string; encoding : string; data_payload : bytes }.

Definition is_decode_error (e : exn) : bool := match e with UnicodeError | JSONDecodeError => true | _ => false end.

(** [DataEnvelope.decode_payload] *)
Definition decode_payload (env : DataEnvelope) : res pyval :=
  if bool_decide (encoding env = "base64") then Ok (VBytes (data_payload env))
  else or_protocol_error is_decode_error "DATA JSON payload is invalid" (loads_utf8 (data_payload env)).

(** [encode_data_envelope] *)
Definition encode_data_envelope (cid : string) (payload : pyval) (enc : option string) : res bytes :=
  if bool_decide (cid = "") then Raise (ValueError "connection_id is required") else
  let enc := match enc with
             | Some e => e
             | None => match payload with VBytes _ => "base64" | _ => "json" end
             end in
  let? raw :=
    if bool_decide (enc = "base64") then
      match payload with VBytes l => Ok l | _ => Raise (TypeError "base64 payload must be bytes-like") end
    else if bool_decide (enc = "json") then let? text := dumps false payload in encode_utf8 text
    else Raise (ValueError "unsupported payload encoding") in
  let? text := dumps false (VDict [("connectionId", VStr cid); ("payloadBase64", VStr (bytes_str (b64encode raw)));
                                   ("encoding", VStr enc)]) in
  encode_utf8 text.

(** [value[key]] of a dict *)
Definition getitem (d : odict string pyval) (key : string) : res pyval :=
  match od_get key d with Some v => Ok v | None => Raise (KeyError key) end.

(** [v in ("json", "base64")] *)
Definition known_encoding (v : pyval) : option string :=
  match v with VStr e => if bool_decide (e = "json" \/ e = "base64") then Some e else None | _ => None end.

(** [decode_data_envelope] *)
Definition decode_data_envelope (payload : bytes) : res DataEnvelope :=
  or_protocol_error (fun e => is_ValueError e || is_KeyError e || is_TypeError e) "malformed DATA envelope" (
    let? value := loads_utf8 payload in
    match value with
    | VDict d =>
      let? cid := getitem d "connectionId" in
      let? enc := getitem d "encoding" in
      let? encoded := getitem d "payloadBase64" in
      match cid with
      | VStr id =>
        if negb (valid_connection_id id) then Raise (ValueError "") else
        match known_encoding enc, encoded with
        | Some e, VStr b64 => let? raw := b64decode_validate b64 in
                              Ok {| connection_id := id; encoding := e; data_payload := raw |}
        | _, _ => Raise (ValueError "")
        end
      | _ => Raise (ValueError "")
      end
    | _ => Raise (ValueError "")
    end).

(** ** RPC requests *)

Record RpcRequestEnvelope := { version : Z; request_id : string; rpc_encoding : string; rpc_payload : bytes }.

(** [RpcRequestEnvelope.decode_payload] *)
Definition decode_rpc_payload (env : RpcRequestEnvelope) : res pyval :=
  if bool_decide (rpc_encoding env = "base64") then Ok (VBytes (rpc_payload env))
  else or_protocol_error is_decode_error "RPC JSON payload is invalid" (loads_utf8 (rpc_payload env)).

(** [decode_rpc_request] *)
Definition decode_rpc_request (value : pyval) : res RpcRequestEnvelope :=
  or_protocol_error (fun e => is_ValueError e || is_TypeError e) "malformed RPC request envelope" (
    match value with
    | VDict d =>
      if negb (eq_int (dget "version" d) 1) then Raise (ValueError "") else
      match dget "requestId" d, known_encoding (dget "encoding" d), dget "payloadBase64" d with
      | VStr rid, Some enc, VStr encoded =>
        let? payload := b64decode_validate encoded in
        Ok {| version := 1; request_id := rid; rpc_encoding := enc; rpc_payload := payload |}
      | _, _, _ => Raise (ValueError "")
      end
    | _ => Raise (ValueError "")
    end).

(** ** Round trips *)

(** Discharge [json_ok] of a literal document. *)
Ltac json_ok :=
  cbn [json_ok od_keys map fst snd];
  repeat match goal with
         | |- _ /\ _ => split
         | |- Forall _ [] => apply Forall_nil_2
         | |- Forall _ (_ :: _) => apply Forall_cons_2
         | |- Datatypes.id _ => unfold Datatypes.id
         | |- NoDup [] => apply NoDup_nil_2
         | |- NoDup (_ :: _) => apply NoDup_cons_2; [set_solver|]
         | |- str_ok _ _ => intros ?
         | |- (_ <= _)%nat => apply Nat.leb_le; vm_compute; reflexivity
         end; try done.

Lemma or_protocol_error_ok {A} p msg (c : res A) a : c = Ok a -> or_protocol_error p msg c = Ok a.
Proof. by intros ->. Qed.

Lemma or_protocol_error_inv {A} p msg (c : res A) a : or_protocol_error p msg c = Ok a -> c = Ok a.
Proof. destruct c as [|e]; cbn; [done|]. by destruct (p e). Qed.

(** What was dumped and encoded is read back. *)
Lemma loads_encoded ea v text l :
  json_ok ea v -> dumps ea v = Ok text -> encode_utf8 text = Ok l -> loads_utf8 l = Ok v.
Proof.
  intros Hok Hd He. unfold loads_utf8. apply decode_encode_utf8 in He as [_ ->]. cbn [rbind].
  destruct (loads_dumps ea v Hok) as (s & Hs & Hl). congruence.
Qed.

Lemma b64encode_str_ok ea l : str_ok ea (bytes_str (b64encode l)).
Proof. intros _. unfold ascii_string. rewrite str_bytes_str. apply b64encode_ascii. Qed.

(** The document of a control message. *)
Definition control_value (m : ControlMessage) : pyval :=
  VDict (("type", VStr (ControlType_str (kind m))) ::
         match control_connection_id m with Some id => [("connectionId", VStr id)] | None => [] end).

(** The messages that can be sent: a valid connection id exactly for [CLOSE]. *)
Definition sendable (m : ControlMessage) : Prop :=
  match control_connection_id m with
  | Some id => kind m = CLOSE /\ valid_connection_id id = true
  | None => kind m ≠ CLOSE
  end.

Lemma encode_control_eq m :
  sendable m -> encode_control m = (let? text := dumps true (control_value m) in encode_utf8 text).
Proof.
  destruct m as [k [id|]]; unfold sendable, encode_control, control_value; cbn [kind control_connection_id].
  - intros [-> ->]. done.
  - by destruct k.
Qed.

Lemma encode_control_sendable m l : encode_control m = Ok l -> sendable m.
Proof.
  destruct m as [k [id|]]; unfold sendable, encode_control; cbn [kind control_connection_id]; destruct k; try done.
  destruct (valid_connection_id id); [done|]. by intros [=].
Qed.

Lemma control_value_ok m :
  (forall id, control_connection_id m = Some id -> ascii_string id) -> json_ok true (control_value m).
Proof.
  intros H. assert (str_ok true (ControlType_str (kind m))) as Hk by by intros _; destruct (kind m).
  unfold control_value. destruct (control_connection_id m) as [id|]; cbn [json_ok map od_keys fst snd].
  - specialize (H id eq_refl). json_ok; by apply Hk.
  - json_ok; by apply Hk.
Qed.

(** Control messages round-trip: what [encode] yields, with an ASCII
    connection id, decodes to the same message. *)
Theorem control_roundtrip m l
    (Hascii : forall id, control_connection_id m = Some id -> ascii_string id)
    (Henc : encode_control m = Ok l) : decode_control l = Ok m.
Proof.
  pose proof (encode_control_sendable m l Henc) as Hs. rewrite encode_control_eq in Henc by done.
  destruct (dumps true (control_value m)) as [text|] eqn:Ed; [|done]. cbn [rbind] in Henc.
  unfold decode_control. apply or_protocol_error_ok.
  rewrite (loads_encoded true _ _ _ (control_value_ok m Hascii) Ed Henc). cbn [rbind control_value].
  destruct m as [k [id|]]; unfold sendable in Hs; cbn [kind control_connection_id] in *.
  - destruct Hs as [-> Hv].
    transitivity (if valid_connection_id id then Ok {| kind := CLOSE; control_connection_id := Some id |}
                  else Raise (ValueError "")); [reflexivity|by rewrite Hv].
  - by destruct k.
Qed.

Lemma control_roundtrip_witness :
  exists l, encode_control {| kind := CLOSE; control_connection_id := Some "conn-1" |} = Ok l /\
    decode_control l = Ok {| kind := CLOSE; control_connection_id := Some "conn-1" |}.
Proof.
  eexists. split; [vm_compute; reflexivity|]. apply control_roundtrip; [|vm_compute; reflexivity].
  intros id [= <-]. reflexivity.
Defined.

(** DATA envelopes round-trip: an envelope built by [encode_data_envelope]
    for a connection id of at most 128 characters and any JSON value or byte
    string decodes to that connection id, and its payload to that value. *)
Theorem data_envelope_roundtrip cid payload l
    (Hlen : py_len cid <= MAX_LOGICAL_CONNECTION_ID_LENGTH) (Hchar : 1 <= py_len cid)
    (Hpayload : match payload with VBytes _ => True | _ => json_ok false payload end)
    (Henc : encode_data_envelope cid payload None = Ok l) :
  exists env, decode_data_envelope l = Ok env /\ connection_id env = cid /\ decode_payload env = Ok payload.
Proof.
  unfold encode_data_envelope in Henc. destruct (bool_decide (cid = "")); [done|].
  set (enc := match payload with VBytes _ => "base64" | _ => "json" end) in *. cbv zeta beta iota in Henc.
  match type of Henc with rbind ?c _ = _ => destruct c as [raw|] eqn:Er end; [|done]. cbn [rbind] in Henc.
  match type of Henc with rbind ?c _ = _ => destruct c as [text|] eqn:Et end; [|done]. cbn [rbind] in Henc.
  assert (enc = "json" \/ enc = "base64") as Henc2 by (unfold enc; destruct payload; auto).
  exists {| connection_id := cid; encoding := enc; data_payload := raw |}. split; [|split; [done|]].
  - unfold decode_data_envelope. apply or_protocol_error_ok. erewrite (loads_encoded false); [|..|exact Henc]; [| |exact Et]; [|json_ok].
    transitivity (if negb (valid_connection_id cid) then Raise (ValueError "") else
                    match known_encoding (VStr enc) with
                    | Some e => let? raw := b64decode_validate (bytes_str (b64encode raw)) in
                                Ok {| connection_id := cid; encoding := e; data_payload := raw |}
                    | None => Raise (ValueError "")
                    end); [reflexivity|].
    unfold valid_connection_id. rewrite (proj2 (Z.leb_le _ _) Hchar), (proj2 (Z.leb_le _ _) Hlen).
    cbn [andb negb known_encoding]. rewrite bool_decide_true by done. by rewrite b64decode_encode.
  - unfold decode_payload. cbn [encoding data_payload]. destruct (decide (enc = "base64")) as [E|E].
    + rewrite E, bool_decide_true in Er |- * by done. destruct payload; try done. by injection Er as <-.
    + rewrite bool_decide_false in Er |- * by done. destruct Henc2 as [E'|E']; [|done]. rewrite E' in Er.
      change (bool_decide ("json" = "json")) with true in Er. apply or_protocol_error_ok.
      destruct payload; try done.
      all: match type of Er with rbind ?c _ = _ => destruct c eqn:Ed end; [|done]; cbn [rbind] in Er;
        by rewrite (loads_encoded _ _ _ _ Hpayload Ed Er).
Qed.

Lemma data_envelope_roundtrip_witness :
  exists l env, encode_data_envelope "conn-1" (VDict [("type", VStr "echo"); ("n", VInt 7)]) None = Ok l /\
    decode_data_envelope l = Ok env /\ decode_payload env = Ok (VDict [("type", VStr "echo"); ("n", VInt 7)]).
Proof.
  assert (exists l, encode_data_envelope "conn-1" (VDict [("type", VStr "echo"); ("n", VInt 7)]) None = Ok l) as [l Hl]
    by (eexists; vm_compute; reflexivity).
  destruct (data_envelope_roundtrip "conn-1" (VDict [("type", VStr "echo"); ("n", VInt 7)]) l) as (env & H1 & _ & H3).
  - vm_compute. discriminate.
  - vm_compute. discriminate.
  - clear. json_ok.
  - exact Hl.
  - exists l, env. auto.
Defined.

End Protocol.
