(* ===== verification/Rpc.v ===== *)
(** * The RPC router ([reticulum/rpc.py])

    Handlers are procedures over the state of the application, which the
    router only threads through; the fields of [RpcContext] a handler gets
    besides the request id are a parameter.  [dispatch] is the trust boundary:
    it never raises. *)

From stdpp Require Import prelude strings list gmap.
From Stdlib Require Import ZArith Lia.
From S2P Require Import Prelude PyDict PyBytes Base64 PyValue Json JsonFacts Protocol.

Module Rpc.
Import Protocol.

Section rpc.
Context {S C : Type}.

Record RpcContext := { ctx_path : string; ctx_request_id : option string; ctx_rest : C }.
Definition handler : Type := RpcContext -> pyval -> M S pyval.

Record RpcRouter := { max_payload : Z; max_response : Z; handlers : gmap string handler }.

Definition set_handlers (h : gmap string handler) (r : RpcRouter) : RpcRouter :=
  {| max_payload := max_payload r; max_response := max_response r; handlers := h |}.

(** [path.startswith("/")] *)
Definition starts_with_slash (path : string) : bool :=
  match str_bytes path with b :: _ => bool_decide (b = Byte.x2f) | [] => false end.

(** [RpcRouter.register] *)
Definition register (path : string) (h : handler) (is_coroutine : bool) : M RpcRouter unit :=
  let! r := get in
  if negb (starts_with_slash path) || bool_decide (is_Some (handlers r !! path))
  then raise (ValueError "RPC path must be unique and start with '/'")
  else if is_coroutine then raise (TypeError "Reticulum RPC handlers must be synchronous")
  else modify (set_handlers (<[path := h]> (handlers r))).

(** [RpcRouter._error] *)
Definition _error (code message : string) (request_id : option string) : pyval :=
  VDict [("error", VDict [("code", VStr code); ("message", VStr message)]);
         ("requestId", match request_id with Some s => VStr s | None => VNone end)].

(** The bytes [_validate_response_size] measures. *)
Definition encoded_response (response : pyval) : res bytes :=
  match response with
  | VBytes l => Ok l
  | _ => let? text := dumps false response in encode_utf8 text
  end.

(** [RpcRouter._validate_response_size] *)
Definition _validate_response_size (r : RpcRouter) (response : pyval) : res unit :=
  let? encoded := encoded_response response in
  if max_response r <? Z.of_nat (length encoded) then Raise ResponseTooLarge else Ok tt.

(** [dataclasses.replace(context, request_id=..)] *)
Definition with_request_id (ctx : RpcContext) (rid : string) : RpcContext :=
  {| ctx_path := ctx_path ctx; ctx_request_id := Some rid; ctx_rest := ctx_rest ctx |}.

(** The three [except] clauses of [dispatch], by the request id of the current
    context. *)
Definition error_reply (request_id : option string) (e : exn) : pyval :=
  match e with
  | ProtocolError _ => _error "protocol_error" "Invalid RPC request envelope" None
  | ResponseTooLarge => _error "response_too_large" "RPC response exceeds size limit" request_id
  | _ => _error "internal_error" "RPC handler failed" request_id
  end.

(** [RpcRouter.dispatch] *)
Definition dispatch (r : RpcRouter) (path : string) (wire_value : pyval) (ctx : RpcContext) : M S pyval :=
  match decode_rpc_request wire_value with
  | Raise e => ret (error_reply (ctx_request_id ctx) e)
  | Ok envelope =>
    let rid := Some (request_id envelope) in
    if max_payload r <? Z.of_nat (length (rpc_payload envelope))
    then ret (_error "payload_too_large" "RPC request exceeds size limit" rid)
    else
      let ctx := with_request_id ctx (request_id envelope) in
      match handlers r !! path with
      | None => ret (_error "not_found" "Unknown RPC endpoint" rid)
      | Some h =>
        try_catch
          (let! payload := lift (decode_rpc_payload envelope) in
           let! result := h ctx payload in
           lift (_validate_response_size r result) ;!
           ret result)
          (fun _ => true) (fun e => ret (error_reply (ctx_request_id ctx) e))
      end
  end.

(** ** What a caller can rely on *)

Definition is_error_reply (v : pyval) : Prop :=
  exists code message rid, v = _error code message rid.

Lemma error_reply_is rid e : is_error_reply (error_reply rid e).
Proof. destruct e; repeat eexists. Qed.

Lemma dispatch_value r path v ctx s :
  exists reply, snd (dispatch r path v ctx s) = Ok reply /\
    (is_error_reply reply \/
     exists l, encoded_response reply = Ok l /\ Z.of_nat (length l) <= max_response r).
Proof.
  assert (forall a, is_error_reply a -> exists reply, Ok a = Ok reply /\
    (is_error_reply reply \/ exists l, encoded_response reply = Ok l /\ Z.of_nat (length l) <= max_response r)) as Herr
    by (intros a Ha; exists a; auto).
  unfold dispatch. destruct (decode_rpc_request v) as [env|e]; [|apply Herr, error_reply_is].
  destruct (max_payload r <? _); [apply Herr; repeat eexists|].
  destruct (handlers r !! path) as [h|]; [|apply Herr; repeat eexists].
  munfold. destruct (decode_rpc_payload env) as [p|e]; [|apply Herr, error_reply_is].
  destruct (h _ p s) as [s' [result|e]]; [|apply Herr, error_reply_is].
  unfold _validate_response_size. munfold.
  destruct (encoded_response result) as [l|e] eqn:El; [|apply Herr, error_reply_is].
  destruct (max_response r <? Z.of_nat (length l)) eqn:Es; [apply Herr, error_reply_is|].
  exists result. split; [done|]. right. exists l. split; [done|]. lia.
Qed.

Lemma dispatch_state r path v ctx s :
  fst (dispatch r path v ctx s) = s \/
  exists env h p, decode_rpc_request v = Ok env /\ Z.of_nat (length (rpc_payload env)) <= max_payload r /\
    handlers r !! path = Some h /\ decode_rpc_payload env = Ok p /\
    fst (dispatch r path v ctx s) = fst (h (with_request_id ctx (request_id env)) p s).
Proof.
  unfold dispatch. destruct (decode_rpc_request v) as [env|e]; [|by left].
  destruct (max_payload r <? _) eqn:Ep; [by left|].
  destruct (handlers r !! path) as [h|] eqn:Eh; [|by left].
  munfold. destruct (decode_rpc_payload env) as [p|e] eqn:Ed; [|by left]. right. exists env, h, p.
  repeat split; auto; [lia|]. destruct (h _ p s) as [s' [result|e]]; [|done].
  by destruct (_validate_response_size r result).
Qed.

(** The router is a firewall: whatever the request value and however the
    handler fails, [dispatch] returns a value; that value is an error reply or
    its encoding is within [max_response]; and the application state changes
    only through the registered handler of the path, run on the decoded payload
    of a well-formed envelope that is within [max_payload]. *)
Theorem dispatch_contained r path v ctx s :
  (exists reply, snd (dispatch r path v ctx s) = Ok reply /\
     (is_error_reply reply \/
      exists l, encoded_response reply = Ok l /\ Z.of_nat (length l) <= max_response r)) /\
  (fst (dispatch r path v ctx s) = s \/
   exists env h p, decode_rpc_request v = Ok env /\ Z.of_nat (length (rpc_payload env)) <= max_payload r /\
     handlers r !! path = Some h /\ decode_rpc_payload env = Ok p /\
     fst (dispatch r path v ctx s) = fst (h (with_request_id ctx (request_id env)) p s)).
Proof. split; [apply dispatch_value|apply dispatch_state]. Qed.
End rpc.

Arguments RpcContext : clear implicits.
Arguments RpcRouter : clear implicits.

(** A router with an echo handler, on a request that carries a JSON payload. *)
Definition demo_router : RpcRouter nat unit :=
  {| max_payload := 100; max_response := 100; handlers := {["/echo" := (fun _ p n => (S n, Ok p))]} |}.

Definition demo_request : pyval :=
  VDict [("version", VInt 1); ("requestId", VStr "r1"); ("encoding", VStr "json");
         ("payloadBase64", VStr (bytes_str (b64encode (str_bytes "[1,2]"))))].

Example dispatch_echo :
  dispatch demo_router "/echo" demo_request {| ctx_path := "/echo"; ctx_request_id := None; ctx_rest := tt |} 0%nat
  = (1%nat, Ok (VList [VInt 1; VInt 2])).
Proof. vm_compute. reflexivity. Qed.

Example dispatch_unknown :
  snd (dispatch demo_router "/nope" demo_request {| ctx_path := "/nope"; ctx_request_id := None; ctx_rest := tt |} 0%nat)
  = Ok (_error "not_found" "Unknown RPC endpoint" (Some "r1")).
Proof. vm_compute. reflexivity. Qed.

End Rpc.
