(* ===== verification/Connection.v ===== *)
(** * Physical connections ([reticulum/connection.py])

    One [PhysicalConnection] per Reticulum link: it parses frames, hands DATA
    to the application, acknowledges, and keeps the frames it sent until they
    are acknowledged or time out.

    Connections live in a larger state [W] (the server), reached through
    [ConnStore]; the three callbacks of the constructor are procedures on [W].
    The writer is outside the code: a script of outcomes says for each write
    which acknowledgements, timeouts or closings other threads perform while it
    blocks and whether it raises.  Logging and [link.teardown] are left out. *)

From stdpp Require Import prelude strings list gmap.
From Stdlib Require Import ZArith Lia.
From S2P Require Import Prelude PyDict PyBytes PyValue Protocol ReticulumFraming.

Module Connection.
Import Protocol Reticulum.

Record PendingMessage := {
  pm_connection_id : string;
  frame : bytes;
  created_at : Z;
  timer : option Z    (** when the armed [threading.Timer] fires *)
}.

(** What other threads do to the connection while a write blocks. *)
Inductive action := ActAck (message_id : Z) | ActTimeout (message_id : Z) | ActClose (reason : string).

Record write_outcome := { during : list action; raises : option exn }.

Record PhysicalConnection := {
  parser : FrameParser;
  max_unacked_messages : Z;
  max_queue_bytes : Z;
  ack_timeout : Z;
  logical_connection_ids : gset string;
  closed_logical_connection_ids : gset string;
  new_logical_session_times : list Z;
  pending : odict Z PendingMessage;
  pending_bytes : Z;
  last_activity : Z;
  closed : bool;
  close_reason : option string;
  _next_message_id : Z;
  script : list write_outcome;
  written : list bytes
}.

Definition set_parser (x : FrameParser) (s : PhysicalConnection) : PhysicalConnection :=
  {| parser := x; max_unacked_messages := max_unacked_messages s; max_queue_bytes :=
     max_queue_bytes s; ack_timeout := ack_timeout s; logical_connection_ids :=
     logical_connection_ids s; closed_logical_connection_ids := closed_logical_connection_ids s;
     new_logical_session_times := new_logical_session_times s; pending := pending s; pending_bytes
     := pending_bytes s; last_activity := last_activity s; closed := closed s; close_reason :=
     close_reason s; _next_message_id := _next_message_id s; script := script s; written :=
     written s |}.
Definition set_logical_connection_ids (x : gset string) (s : PhysicalConnection) : PhysicalConnection :=
  {| parser := parser s; max_unacked_messages := max_unacked_messages s; max_queue_bytes :=
     max_queue_bytes s; ack_timeout := ack_timeout s; logical_connection_ids := x;
     closed_logical_connection_ids := closed_logical_connection_ids s; new_logical_session_times
     := new_logical_session_times s; pending := pending s; pending_bytes := pending_bytes s;
     last_activity := last_activity s; closed := closed s; close_reason := close_reason s;
     _next_message_id := _next_message_id s; script := script s; written := written s |}.
Definition set_closed_logical_connection_ids (x : gset string) (s : PhysicalConnection) : PhysicalConnection :=
  {| parser := parser s; max_unacked_messages := max_unacked_messages s; max_queue_bytes :=
     max_queue_bytes s; ack_timeout := ack_timeout s; logical_connection_ids :=
     logical_connection_ids s; closed_logical_connection_ids := x; new_logical_session_times :=
     new_logical_session_times s; pending := pending s; pending_bytes := pending_bytes s;
     last_activity := last_activity s; closed := closed s; close_reason := close_reason s;
     _next_message_id := _next_message_id s; script := script s; written := written s |}.
Definition set_new_logical_session_times (x : list Z) (s : PhysicalConnection) : PhysicalConnection :=
  {| parser := parser s; max_unacked_messages := max_unacked_messages s; max_queue_bytes :=
     max_queue_bytes s; ack_timeout := ack_timeout s; logical_connection_ids :=
     logical_connection_ids s; closed_logical_connection_ids := closed_logical_connection_ids s;
     new_logical_session_times := x; pending := pending s; pending_bytes := pending_bytes s;
     last_activity := last_activity s; closed := closed s; close_reason := close_reason s;
     _next_message_id := _next_message_id s; script := script s; written := written s |}.
Definition set_pending (x : odict Z PendingMessage) (s : PhysicalConnection) : PhysicalConnection :=
  {| parser := parser s; max_unacked_messages := max_unacked_messages s; max_queue_bytes :=
     max_queue_bytes s; ack_timeout := ack_timeout s; logical_connection_ids :=
     logical_connection_ids s; closed_logical_connection_ids := closed_logical_connection_ids s;
     new_logical_session_times := new_logical_session_times s; pending := x; pending_bytes :=
     pending_bytes s; last_activity := last_activity s; closed := closed s; close_reason :=
     close_reason s; _next_message_id := _next_message_id s; script := script s; written :=
     written s |}.
Definition set_pending_bytes (x : Z) (s : PhysicalConnection) : PhysicalConnection :=
  {| parser := parser s; max_unacked_messages := max_unacked_messages s; max_queue_bytes :=
     max_queue_bytes s; ack_timeout := ack_timeout s; logical_connection_ids :=
     logical_connection_ids s; closed_logical_connection_ids := closed_logical_connection_ids s;
     new_logical_session_times := new_logical_session_times s; pending := pending s; pending_bytes
     := x; last_activity := last_activity s; closed := closed s; close_reason := close_reason s;
     _next_message_id := _next_message_id s; script := script s; written := written s |}.
Definition set_last_activity (x : Z) (s : PhysicalConnection) : PhysicalConnection :=
  {| parser := parser s; max_unacked_messages := max_unacked_messages s; max_queue_bytes :=
     max_queue_bytes s; ack_timeout := ack_timeout s; logical_connection_ids :=
     logical_connection_ids s; closed_logical_connection_ids := closed_logical_connection_ids s;
     new_logical_session_times := new_logical_session_times s; pending := pending s; pending_bytes
     := pending_bytes s; last_activity := x; closed := closed s; close_reason := close_reason s;
     _next_message_id := _next_message_id s; script := script s; written := written s |}.
Definition set_closed (x : bool) (s : PhysicalConnection) : PhysicalConnection :=
  {| parser := parser s; max_unacked_messages := max_unacked_messages s; max_queue_bytes :=
     max_queue_bytes s; ack_timeout := ack_timeout s; logical_connection_ids :=
     logical_connection_ids s; closed_logical_connection_ids := closed_logical_connection_ids s;
     new_logical_session_times := new_logical_session_times s; pending := pending s; pending_bytes
     := pending_bytes s; last_activity := last_activity s; closed := x; close_reason :=
     close_reason s; _next_message_id := _next_message_id s; script := script s; written :=
     written s |}.
Definition set_close_reason (x : option string) (s : PhysicalConnection) : PhysicalConnection :=
  {| parser := parser s; max_unacked_messages := max_unacked_messages s; max_queue_bytes :=
     max_queue_bytes s; ack_timeout := ack_timeout s; logical_connection_ids :=
     logical_connection_ids s; closed_logical_connection_ids := closed_logical_connection_ids s;
     new_logical_session_times := new_logical_session_times s; pending := pending s; pending_bytes
     := pending_bytes s; last_activity := last_activity s; closed := closed s; close_reason := x;
     _next_message_id := _next_message_id s; script := script s; written := written s |}.
Definition set_next_message_id (x : Z) (s : PhysicalConnection) : PhysicalConnection :=
  {| parser := parser s; max_unacked_messages := max_unacked_messages s; max_queue_bytes :=
     max_queue_bytes s; ack_timeout := ack_timeout s; logical_connection_ids :=
     logical_connection_ids s; closed_logical_connection_ids := closed_logical_connection_ids s;
     new_logical_session_times := new_logical_session_times s; pending := pending s; pending_bytes
     := pending_bytes s; last_activity := last_activity s; closed := closed s; close_reason :=
     close_reason s; _next_message_id := x; script := script s; written := written s |}.
Definition set_script (x : list write_outcome) (s : PhysicalConnection) : PhysicalConnection :=
  {| parser := parser s; max_unacked_messages := max_unacked_messages s; max_queue_bytes :=
     max_queue_bytes s; ack_timeout := ack_timeout s; logical_connection_ids :=
     logical_connection_ids s; closed_logical_connection_ids := closed_logical_connection_ids s;
     new_logical_session_times := new_logical_session_times s; pending := pending s; pending_bytes
     := pending_bytes s; last_activity := last_activity s; closed := closed s; close_reason :=
     close_reason s; _next_message_id := _next_message_id s; script := x; written := written s |}.
Definition set_written (x : list bytes) (s : PhysicalConnection) : PhysicalConnection :=
  {| parser := parser s; max_unacked_messages := max_unacked_messages s; max_queue_bytes :=
     max_queue_bytes s; ack_timeout := ack_timeout s; logical_connection_ids :=
     logical_connection_ids s; closed_logical_connection_ids := closed_logical_connection_ids s;
     new_logical_session_times := new_logical_session_times s; pending := pending s; pending_bytes
     := pending_bytes s; last_activity := last_activity s; closed := closed s; close_reason :=
     close_reason s; _next_message_id := _next_message_id s; script := script s; written := x |}.

(** [PhysicalConnection.__init__]; [random] is the value of
    [secrets.randbits(63)]. *)
Definition init (max_frame_size unacked queue timeout random now : Z) (outcomes : list write_outcome) :
    res PhysicalConnection :=
  let? p := FrameParser_init max_frame_size (Some (max_frame_size * 2)) in
  Ok {| parser := p; max_unacked_messages := unacked; max_queue_bytes := queue; ack_timeout := timeout;
        logical_connection_ids := ∅; closed_logical_connection_ids := ∅; new_logical_session_times := [];
        pending := []; pending_bytes := 0; last_activity := now; closed := false; close_reason := None;
        _next_message_id := if random =? 0 then 1 else random; script := outcomes; written := [] |}.

(** ** Access to the connections of a larger state *)

Class ConnStore (W : Type) := {
  conn : nat -> W -> PhysicalConnection;
  put_conn : nat -> PhysicalConnection -> W -> W;
  monotonic : W -> Z
}.

Record Callbacks (W : Type) := {
  on_application_message : nat -> DataEnvelope -> Z -> M W unit;
  on_close : nat -> M W unit;
  on_logical_close : nat -> string -> M W unit
}.
Arguments on_application_message {W}.
Arguments on_close {W}.
Arguments on_logical_close {W}.

Section operations.
Context {W : Type} `{ConnStore W} (cb : Callbacks W).

Definition upd (c : nat) (f : PhysicalConnection -> PhysicalConnection) : M W unit :=
  modify (fun w => put_conn c (f (conn c w)) w).
Definition here {A} (c : nat) (f : PhysicalConnection -> A) : M W A := gets (fun w => f (conn c w)).

(** [PhysicalConnection.acknowledge] *)
Definition acknowledge (c : nat) (mid : Z) : M W bool :=
  let! p := here c (fun s => od_get mid (pending s)) in
  match p with
  | None => ret false
  | Some p =>
    upd c (fun s => set_pending_bytes (pending_bytes s - Z.of_nat (length (frame p)))
                      (set_pending (od_pop mid (pending s)) s)) ;!
    ret true
  end.

(** [PhysicalConnection._ack_timeout] *)
Definition _ack_timeout (c : nat) (mid : Z) : M W unit :=
  let! p := here c (fun s => od_get mid (pending s)) in
  match p with
  | None => ret tt
  | Some p => upd c (fun s => set_pending_bytes (pending_bytes s - Z.of_nat (length (frame p)))
                                (set_pending (od_pop mid (pending s)) s))
  end.

(** [pending.timer.cancel()] *)
Definition cancelled (p : PendingMessage) : PendingMessage :=
  {| pm_connection_id := pm_connection_id p; frame := frame p; created_at := created_at p; timer := None |}.

(** [PhysicalConnection.close] *)
Definition close (c : nat) (reason : string) : M W unit :=
  let! is_closed := here c closed in
  if is_closed : bool then ret tt else
  upd c (fun s => set_pending (map (fun kv => (fst kv, cancelled (snd kv))) (pending s))
                    (set_parser (reset (parser s)) (set_close_reason (Some reason) (set_closed true s)))) ;!
  on_close cb c.

(** An exception of another thread stays in that thread. *)
Definition perform (c : nat) (a : action) : M W unit :=
  match a with
  | ActAck mid => acknowledge c mid ;! ret tt
  | ActTimeout mid => _ack_timeout c mid
  | ActClose reason => try_catch (close c reason) (fun _ => true) (fun _ => ret tt)
  end.

(** [self.writer(data)]: the next outcome of the script, a plain success when
    it is exhausted. *)
Definition next_outcome (c : nat) : M W write_outcome :=
  let! s := here c script in
  match s with
  | [] => ret {| during := []; raises := None |}
  | o :: s' => upd c (set_script s') ;! ret o
  end.

Definition write_through (c : nat) (data : bytes) : M W unit :=
  let! o := next_outcome c in
  iterM (perform c) (during o) ;!
  match raises o with
  | Some e => raise e
  | None => upd c (fun s => set_written (written s ++ [data]) s)
  end.

Definition closed_error : exn := ConnectionClosedError "physical connection is closed".

(** [PhysicalConnection._write] *)
Definition _write (c : nat) (data : bytes) : M W unit :=
  let! is_closed := here c closed in
  if is_closed : bool then raise closed_error else
  try_catch (write_through c data) (fun _ => true)
    (fun e => close c "buffer_write_failed" ;! raise e) ;!
  let! is_closed := here c closed in
  if is_closed : bool then raise (ConnectionClosedError "physical connection closed during write") else
  let! now := gets monotonic in
  upd c (set_last_activity now).

(** [PhysicalConnection._arm_timeout] for a message that is still pending *)
Definition _arm_timeout (c : nat) (mid : Z) (delay : Z) : M W unit :=
  let! now := gets monotonic in
  upd c (fun s => match od_get mid (pending s) with
                  | Some p => set_pending (od_set mid {| pm_connection_id := pm_connection_id p; frame := frame p;
                                created_at := created_at p; timer := Some (now + delay) |} (pending s)) s
                  | None => s
                  end).

(** The common tail of [send_data] and [adopt_pending]: register, write, undo
    when the write fails, arm the timer when the message is still pending. *)
Definition enqueue (c : nat) (mid : Z) (cid : string) (encoded : bytes) (created : Z) (delay : Z -> Z) : M W unit :=
  upd c (fun s => set_pending_bytes (pending_bytes s + Z.of_nat (length encoded))
                    (set_pending (od_set mid {| pm_connection_id := cid; frame := encoded; created_at := created;
                                                timer := None |} (pending s)) s)) ;!
  try_catch (_write c encoded) (fun _ => true)
    (fun e => upd c (fun s => if od_mem mid (pending s)
                              then set_pending_bytes (pending_bytes s - Z.of_nat (length encoded))
                                     (set_pending (od_pop mid (pending s)) s)
                              else s) ;! raise e) ;!
  let! s := here c id in
  let! now := gets monotonic in
  if negb (closed s) && od_mem mid (pending s) then _arm_timeout c mid (delay now) else ret tt.

(** [PhysicalConnection.send_data] *)
Definition send_data (c : nat) (cid : string) (envelope : bytes) : M W Z :=
  let! s := here c id in
  if closed s then raise closed_error
  else if max_unacked_messages s <=? Z.of_nat (length (pending s))
  then raise (BackpressureError "maximum unacknowledged message count reached")
  else
    let mid := _next_message_id s in
    upd c (set_next_message_id (Z.land (mid + 1) 0xFFFFFFFFFFFFFFFF)) ;!
    let! encoded := lift (encode (mkFrame DATA mid envelope) (max_frame_size (parser s))) in
    if max_queue_bytes s <? pending_bytes s + Z.of_nat (length encoded)
    then raise (BackpressureError "maximum queued traffic bytes reached")
    else
      let! now := gets monotonic in
      enqueue c mid cid encoded now (fun _ => ack_timeout s) ;!
      ret mid.

(** [PhysicalConnection.send_application] *)
Definition send_application (c : nat) (cid : string) (payload : pyval) : M W Z :=
  let! envelope := lift (encode_data_envelope cid payload None) in
  send_data c cid envelope.

(** [PhysicalConnection.send_control] *)
Definition send_control (c : nat) (k : ControlType) (mid : Z) : M W unit :=
  let! payload := lift (encode_control {| kind := k; control_connection_id := None |}) in
  let! mfs := here c (fun s => max_frame_size (parser s)) in
  let! encoded := lift (encode (mkFrame CONTROL mid payload) mfs) in
  _write c encoded.

(** [PhysicalConnection.close_logical] *)
Definition close_logical (c : nat) (cid : string) : M W bool :=
  let! ids := here c logical_connection_ids in
  if negb (bool_decide (cid ∈ ids)) then ret false else
  upd c (fun s => set_closed_logical_connection_ids ({[cid]} ∪ closed_logical_connection_ids s)
                    (set_logical_connection_ids (logical_connection_ids s ∖ {[cid]}) s)) ;!
  on_logical_close cb c cid ;!
  ret true.

Definition send_ack (c : nat) (mid : Z) : M W unit :=
  let! mfs := here c (fun s => max_frame_size (parser s)) in
  let! encoded := lift (encode (mkFrame ACK mid []) mfs) in
  _write c encoded.

(** [PhysicalConnection._dispatch] *)
Definition _dispatch (c : nat) (f : Frame) : M W unit :=
  match frame_type f with
  | ACK => acknowledge c (message_id f) ;! ret tt
  | CONTROL =>
    let! control := lift (decode_control (payload f)) in
    match kind control with
    | PING => send_control c PONG (message_id f)
    | CLOSE => close_logical c (default "" (control_connection_id control)) ;! ret tt
    | PONG => ret tt
    end
  | DATA =>
    let! envelope := lift (decode_data_envelope (payload f)) in
    let! gone := here c closed_logical_connection_ids in
    (if bool_decide (connection_id envelope ∈ gone) then ret tt
     else on_application_message cb c envelope (message_id f)) ;!
    send_ack c (message_id f)
  end.

Definition is_ProtocolError (e : exn) : bool := match e with ProtocolError _ => true | _ => false end.

(** [self.parser.feed(data)] *)
Definition feed_parser (c : nat) (data : bytes) : M W (list Frame) :=
  let! p := here c parser in
  let '(p', r) := feed data p in
  upd c (set_parser p') ;!
  lift r.

(** [PhysicalConnection.receive] *)
Definition receive (c : nat) (data : bytes) : M W unit :=
  let! is_closed := here c closed in
  if is_closed : bool then ret tt else
  let! now := gets monotonic in
  upd c (set_last_activity now) ;!
  try_catch (let! frames := feed_parser c data in iterM (_dispatch c) frames)
    is_ProtocolError (fun _ => close c "protocol_error").

(** [PhysicalConnection.adopt_pending] *)
Fixpoint adopt_pending (c : nat) (messages : list (Z * string * bytes * Z)) : M W unit :=
  match messages with
  | [] => ret tt
  | (mid, cid, encoded, created) :: rest =>
    let! s := here c id in
    let! now := gets monotonic in
    if closed s then raise closed_error
    else if ack_timeout s - (now - created) <=? 0 then adopt_pending c rest
    else if max_unacked_messages s <=? Z.of_nat (length (pending s)) then ret tt
    else if max_queue_bytes s <? pending_bytes s + Z.of_nat (length encoded) then ret tt
    else
      enqueue c mid cid encoded created (fun now => Z.max 0 (ack_timeout s - (now - created))) ;!
      adopt_pending c rest
  end.
End operations.

End Connection.
