(* ===== verification/ConnectionFacts.v ===== *)
(** * What a physical connection guarantees

    The accounting invariant of the unacknowledged frames and its
    preservation by every operation, for any callbacks that respect the
    connections; the outcome of sending, acknowledging and closing. *)

From stdpp Require Import prelude strings list gmap.
From Stdlib Require Import ZArith Lia.
From S2P Require Import Prelude PyDict PyBytes PyValue Protocol ReticulumFraming Connection.

Module ConnThm.
Import Protocol Reticulum Connection.

(** ** The invariant *)

Definition total (d : odict Z PendingMessage) : Z :=
  foldr (fun kv n => Z.of_nat (length (frame (snd kv))) + n) 0 d.

Arguments total : simpl never.

Record conn_inv (s : PhysicalConnection) : Prop := {
  ci_wf : od_wf (pending s);
  ci_bytes : total (pending s) <= pending_bytes s;
  ci_count : Z.of_nat (length (pending s)) <= Z.max 0 (max_unacked_messages s);
  ci_queue : pending_bytes s <= Z.max 0 (max_queue_bytes s);
  ci_parser : parser_ok (parser s);
  ci_id : 0 <= _next_message_id s < 2 ^ 64;
  ci_closed : closed s = true -> buffer (parser s) = [] /\ Forall (fun kv => timer (snd kv) = None) (pending s)
}.

(** The frames still pending were pending before. *)
Definition shrunk (s s' : PhysicalConnection) : Prop :=
  forall mid p', od_get mid (pending s') = Some p' ->
    exists p, od_get mid (pending s) = Some p /\ frame p = frame p'.

Lemma shrunk_refl s : shrunk s s.
Proof. intros mid p. eauto. Qed.

Lemma shrunk_trans s1 s2 s3 : shrunk s1 s2 -> shrunk s2 s3 -> shrunk s1 s3.
Proof.
  intros H1 H2 mid p3 Hp3. destruct (H2 mid p3 Hp3) as (p2 & Hp2 & E2).
  destruct (H1 mid p2 Hp2) as (p1 & Hp1 & E1). exists p1. split; [done|congruence].
Qed.

Lemma total_cons k p d : total ((k, p) :: d) = Z.of_nat (length (frame p)) + total d.
Proof. reflexivity. Qed.

Lemma total_pop mid d p :
  od_wf d -> od_get mid d = Some p -> total (od_pop mid d) + Z.of_nat (length (frame p)) = total d.
Proof.
  unfold od_wf. induction d as [|[k q] d IH]; intros Hnd Hg; [done|]. cbn [od_keys map fst] in Hnd.
  apply NoDup_cons in Hnd as [Hni Hnd]. cbn [od_get od_pop] in *. rewrite total_cons. case_decide.
  - simplify_eq. rewrite od_pop_not_mem by by apply od_get_None. lia.
  - rewrite total_cons. specialize (IH Hnd Hg). lia.
Qed.

Lemma total_set_le mid p d : total (od_set mid p d) <= total d + Z.of_nat (length (frame p)).
Proof.
  induction d as [|[k q] d IH]; cbn [od_set]; [rewrite total_cons; lia|]. case_decide; rewrite !total_cons; lia.
Qed.

(** Removing one pending frame. *)
Definition without (mid : Z) (n : Z) (s : PhysicalConnection) : PhysicalConnection :=
  set_pending_bytes (pending_bytes s - n) (set_pending (od_pop mid (pending s)) s).

Lemma without_inv mid p s :
  od_get mid (pending s) = Some p -> conn_inv s -> conn_inv (without mid (Z.of_nat (length (frame p))) s).
Proof.
  intros Hp [H1 H2 H3 H4 H5 H6 H7]. split; cbn; try done.
  - by apply od_wf_pop.
  - pose proof (total_pop mid _ p H1 Hp). lia.
  - pose proof (od_length_pop_le mid (pending s)). lia.
  - lia.
  - intros Hc. destruct (H7 Hc) as [Hb Ht]. split; [done|]. apply Forall_forall. intros [k q] [Hin _]%od_elem_pop.
    rewrite Forall_forall in Ht. by apply (Ht (k, q)).
Qed.

Lemma without_shrunk mid n s : shrunk s (without mid n s).
Proof. intros k p. cbn. rewrite od_get_pop. case_decide; [done|]. eauto. Qed.

Lemma od_get_cancelled mid (d : odict Z PendingMessage) :
  od_get mid (map (fun kv => (fst kv, cancelled (snd kv))) d) = cancelled <$> od_get mid d.
Proof. induction d as [|[k p] d IH]; [done|]. cbn. by case_decide. Qed.

Lemma total_cancelled (d : odict Z PendingMessage) :
  total (map (fun kv => (fst kv, cancelled (snd kv))) d) = total d.
Proof. induction d as [|[k p] d IH]; [done|]. cbn [map fst snd]. by rewrite !total_cons, IH. Qed.

(** The state [close] leaves before its callback. *)
Definition shut (reason : string) (s : PhysicalConnection) : PhysicalConnection :=
  set_pending (map (fun kv => (fst kv, cancelled (snd kv))) (pending s))
    (set_parser (reset (parser s)) (set_close_reason (Some reason) (set_closed true s))).

Lemma reset_ok p : parser_ok p -> parser_ok (reset p).
Proof. intros (H1 & H2 & H3). repeat split; cbn; try tauto. unfold buffered_bytes. cbn. unfold HEADER_SIZE in H2. lia. Qed.

Lemma shut_inv reason s : conn_inv s -> conn_inv (shut reason s).
Proof.
  intros [H1 H2 H3 H4 H5 H6 H7]. split; cbn -[cancelled]; try done.
  - unfold od_wf, od_keys in *. by rewrite map_map.
  - by rewrite total_cancelled.
  - by rewrite length_map.
  - by apply reset_ok.
  - intros _. split; [done|]. apply Forall_forall. intros kv (x & -> & _)%list_elem_of_fmap. done.
Qed.

Lemma shut_shrunk reason s : shrunk s (shut reason s).
Proof.
  intros mid p. cbn -[cancelled]. rewrite od_get_cancelled. destruct (od_get mid (pending s)) as [q|]; [|done].
  intros [= <-]. eauto.
Qed.

(** A new connection satisfies the invariant. *)
Lemma conn_init_inv mfs unacked queue timeout random now sc s :
  0 <= random < 2 ^ 63 -> Connection.init mfs unacked queue timeout random now sc = Ok s -> conn_inv s.
Proof.
  intros Hr. unfold Connection.init. destruct (FrameParser_init mfs (Some (mfs * 2))) as [p|e] eqn:Ep; [|done].
  intros [= <-]. split; cbn; try done.
  - constructor.
  - lia.
  - lia.
  - revert Ep. unfold FrameParser_init, parser_ok, PROTOCOL_MAX_FRAME_SIZE.
    destruct (negb _) eqn:E1; [done|]. destruct (mfs * 2 =? 0); cbv zeta;
      (destruct (mfs * 2 <? _) eqn:E2; [done|]); intros [= <-]; apply negb_false_iff, andb_true_iff in E1 as [E1 E1'];
      cbn; unfold buffered_bytes; cbn; lia.
  - destruct (random =? 0); lia.
Qed.

(** ** Steps of the larger state *)

Class ConnStoreLaws (W : Type) `{ConnStore W} := {
  conn_put_eq c s w : conn c (put_conn c s w) = s;
  conn_put_ne c c' s w : c ≠ c' -> conn c' (put_conn c s w) = conn c' w
}.

Section facts.
Context {W : Type} {store : ConnStore W} {laws : ConnStoreLaws W} (cb : Callbacks W).

(** What a step may do to the connections: keep the invariant of each, never
    reopen one, never queue anything on a closed one. *)
Definition evolves (w w' : W) : Prop := forall c,
  (conn_inv (conn c w) -> conn_inv (conn c w')) /\
  (closed (conn c w) = true -> closed (conn c w') = true /\ shrunk (conn c w) (conn c w')).

(** The interface a server has to meet. *)
Class CallbacksOk := {
  on_close_ok c w : closed (conn c w) = true -> evolves w (fst (on_close cb c w));
  on_message_ok c env mid w : evolves w (fst (on_application_message cb c env mid w));
  on_logical_close_ok c cid w : evolves w (fst (on_logical_close cb c cid w))
}.
Context {cb_ok : CallbacksOk}.

Lemma evolves_refl w : evolves w w.
Proof. intros c. split; [done|]. eauto using shrunk_refl. Qed.

Lemma evolves_trans w1 w2 w3 : evolves w1 w2 -> evolves w2 w3 -> evolves w1 w3.
Proof.
  intros H1 H2 c. destruct (H1 c) as [I1 C1], (H2 c) as [I2 C2]. split; [auto|].
  intros Hc. destruct (C1 Hc) as [Hc2 S1]. destruct (C2 Hc2) as [Hc3 S2]. split; [done|].
  by eapply shrunk_trans.
Qed.

Lemma evolves_put c s w :
  (conn_inv (conn c w) -> conn_inv s) ->
  (closed (conn c w) = true -> closed s = true /\ shrunk (conn c w) s) ->
  evolves w (put_conn c s w).
Proof.
  intros Hi Hc c'. destruct (decide (c = c')) as [<-|Hne].
  - by rewrite conn_put_eq.
  - rewrite conn_put_ne by done. split; [done|]. eauto using shrunk_refl.
Qed.

Lemma evolves_bind {A B} (m : M W A) (k : A -> M W B) w :
  evolves w (fst (m w)) -> (forall a, snd (m w) = Ok a -> evolves (fst (m w)) (fst (k a (fst (m w))))) ->
  evolves w (fst (bind m k w)).
Proof.
  intros Hm Hk. unfold bind. destruct (m w) as [w' [a|e]]; cbn [fst snd] in *; [|done].
  eapply evolves_trans; [exact Hm|by apply Hk].
Qed.

Lemma evolves_iterM {A} (f : A -> M W unit) l w :
  (forall a w, evolves w (fst (f a w))) -> evolves w (fst (iterM f l w)).
Proof.
  intros Hf. revert w. induction l as [|a l IH]; intros w; cbn [iterM]; [apply evolves_refl|].
  apply evolves_bind; [apply Hf|]. intros ? _. apply IH.
Qed.

Lemma acknowledge_eq c mid w :
  acknowledge c mid w = match od_get mid (pending (conn c w)) with
                        | None => (w, Ok false)
                        | Some p => (put_conn c (without mid (Z.of_nat (length (frame p))) (conn c w)) w, Ok true)
                        end.
Proof. unfold acknowledge, here, upd. munfold. by destruct (od_get mid _). Qed.

Lemma ack_timeout_eq c mid w : fst (_ack_timeout c mid w) = fst (acknowledge c mid w).
Proof. rewrite acknowledge_eq. unfold _ack_timeout, here, upd. munfold. by destruct (od_get mid _). Qed.

Lemma acknowledge_evolves c mid w : evolves w (fst (acknowledge c mid w)).
Proof.
  rewrite acknowledge_eq. destruct (od_get mid _) as [p|] eqn:Ep; [|apply evolves_refl].
  apply evolves_put; [by apply without_inv|]. intros Hc. split; [done|apply without_shrunk].
Qed.

Lemma close_eq c reason w :
  close cb c reason w = if closed (conn c w) then (w, Ok tt)
                        else on_close cb c (put_conn c (shut reason (conn c w)) w).
Proof. unfold close, here, upd. munfold. by destruct (closed (conn c w)). Qed.

Lemma close_evolves c reason w :
  evolves w (fst (close cb c reason w)) /\ closed (conn c (fst (close cb c reason w))) = true /\
  shrunk (conn c w) (conn c (fst (close cb c reason w))).
Proof.
  rewrite close_eq. destruct (closed (conn c w)) eqn:Ec; [eauto using evolves_refl, shrunk_refl|].
  set (w1 := put_conn c (shut reason (conn c w)) w).
  assert (conn c w1 = shut reason (conn c w)) as E1 by apply conn_put_eq.
  assert (evolves w w1) as H1. { apply evolves_put; [apply shut_inv|congruence]. }
  pose proof (on_close_ok c w1 ltac:(by rewrite E1)) as H2. split; [by eapply evolves_trans|].
  destruct (H2 c) as [_ Hc]. destruct Hc as [Hc Hs]; [by rewrite E1|]. split; [done|].
  rewrite E1 in Hs. eapply shrunk_trans; [apply shut_shrunk|exact Hs].
Qed.

(** Steps that also never queue anything on [c]. *)
Definition quiet (c : nat) (w w' : W) : Prop := evolves w w' /\ shrunk (conn c w) (conn c w').

Lemma quiet_refl c w : quiet c w w.
Proof. split; [apply evolves_refl|apply shrunk_refl]. Qed.

Lemma quiet_trans c w1 w2 w3 : quiet c w1 w2 -> quiet c w2 w3 -> quiet c w1 w3.
Proof. intros [E1 S1] [E2 S2]. split; [by eapply evolves_trans|by eapply shrunk_trans]. Qed.

Lemma perform_quiet c a w : quiet c w (fst (perform cb c a w)).
Proof.
  assert (forall mid, quiet c w (fst (acknowledge c mid w))) as Hack.
  { intros mid. split; [apply acknowledge_evolves|]. rewrite acknowledge_eq.
    destruct (od_get mid _); cbn [fst]; [rewrite conn_put_eq; apply without_shrunk|apply shrunk_refl]. }
  destruct a as [mid|mid|reason]; cbn [perform].
  - specialize (Hack mid). munfold. by destruct (acknowledge c mid w) as [w' []].
  - rewrite ack_timeout_eq. apply Hack.
  - unfold try_catch. pose proof (close_evolves c reason w) as (He & _ & Hs).
    destruct (close cb c reason w) as [w' [[]|e]]; by split.
Qed.

Lemma quiet_put c s w :
  (conn_inv (conn c w) -> conn_inv s) -> closed s = closed (conn c w) -> shrunk (conn c w) s -> quiet c w (put_conn c s w).
Proof.
  intros Hi Hc Hs. split; [apply evolves_put; [done|]; intros; split; [congruence|done]|by rewrite conn_put_eq].
Qed.

Lemma quiet_bind {A B} c (m : M W A) (k : A -> M W B) w :
  quiet c w (fst (m w)) -> (forall a w', quiet c w' (fst (k a w'))) -> quiet c w (fst (bind m k w)).
Proof.
  intros Hm Hk. unfold bind. destruct (m w) as [w' [a|e]]; cbn [fst] in *; [|done].
  eapply quiet_trans; [exact Hm|apply Hk].
Qed.

Lemma quiet_try {A} c (m : M W A) p h w :
  quiet c w (fst (m w)) -> (forall e w', quiet c w' (fst (h e w'))) -> quiet c w (fst (try_catch m p h w)).
Proof.
  intros Hm Hh. unfold try_catch. destruct (m w) as [w' [a|e]]; cbn [fst] in *; [done|].
  destruct (p e); [|done]. eapply quiet_trans; [exact Hm|apply Hh].
Qed.

Lemma quiet_iterM {A} c (f : A -> M W unit) l w :
  (forall a w, quiet c w (fst (f a w))) -> quiet c w (fst (iterM f l w)).
Proof.
  intros Hf. revert w. induction l as [|a l IH]; intros w; cbn [iterM]; [apply quiet_refl|].
  apply quiet_bind; [apply Hf|]. intros _. exact IH.
Qed.

(** Fields the invariant does not mention. *)
Lemma quiet_upd c f w :
  (forall s, conn_inv s -> conn_inv (f s)) -> (forall s, closed (f s) = closed s) -> (forall s, pending (f s) = pending s) ->
  quiet c w (fst (upd c f w)).
Proof.
  intros Hi Hc Hp. unfold upd. cbn [fst modify]. apply quiet_put; [apply Hi|apply Hc|].
  intros mid p. rewrite Hp. eauto.
Qed.

Ltac same_inv := intros s []; split; done.

Lemma write_through_quiet c data w : quiet c w (fst (write_through cb c data w)).
Proof.
  unfold write_through. apply quiet_bind.
  - unfold next_outcome. apply quiet_bind; [apply quiet_refl|]. intros [|o sc] w'; [apply quiet_refl|].
    apply quiet_bind; [|intros; apply quiet_refl]. apply quiet_upd; [same_inv|done..].
  - intros o w'. apply quiet_bind; [apply quiet_iterM; apply perform_quiet|]. intros _ w2.
    destruct (raises o); [apply quiet_refl|]. apply quiet_upd; [same_inv|done..].
Qed.

Lemma write_quiet c data w : quiet c w (fst (_write cb c data w)).
Proof.
  unfold _write. apply quiet_bind; [apply quiet_refl|]. intros [] w1; [apply quiet_refl|].
  apply quiet_bind.
  - apply quiet_try; [apply write_through_quiet|]. intros e w2. apply quiet_bind; [|intros; apply quiet_refl].
    split; apply close_evolves.
  - intros _ w2. apply quiet_bind; [apply quiet_refl|]. intros [] w3; [apply quiet_refl|].
    apply quiet_bind; [apply quiet_refl|]. intros now w4. apply quiet_upd; [same_inv|done..].
Qed.

(** ** Sending *)

Definition queued (mid : Z) (cid : string) (encoded : bytes) (created : Z) (s : PhysicalConnection) : PhysicalConnection :=
  set_pending_bytes (pending_bytes s + Z.of_nat (length encoded))
    (set_pending (od_set mid {| pm_connection_id := cid; frame := encoded; created_at := created; timer := None |}
                    (pending s)) s).

Lemma queued_inv mid cid encoded created s :
  closed s = false -> Z.of_nat (length (pending s)) < max_unacked_messages s ->
  pending_bytes s + Z.of_nat (length encoded) <= max_queue_bytes s ->
  conn_inv s -> conn_inv (queued mid cid encoded created s).
Proof.
  intros Hc Hn Hq [H1 H2 H3 H4 H5 H6 H7]. split; cbn; try done.
  - by apply od_wf_set.
  - match goal with |- total (od_set _ ?p _) <= _ => pose proof (total_set_le mid p (pending s)) end. cbn in *. lia.
  - match goal with |- context [od_set _ ?p _] => pose proof (od_length_set_le mid p (pending s)) end. lia.
  - lia.
  - congruence.
Qed.

Definition armed (mid : Z) (due : Z) (s : PhysicalConnection) : PhysicalConnection :=
  match od_get mid (pending s) with
  | Some p => set_pending (od_set mid {| pm_connection_id := pm_connection_id p; frame := frame p;
                created_at := created_at p; timer := Some due |} (pending s)) s
  | None => s
  end.

Lemma total_set_same mid p q d : od_wf d -> od_get mid d = Some p -> frame q = frame p -> total (od_set mid q d) = total d.
Proof.
  unfold od_wf. induction d as [|[k r] d IH]; intros Hnd Hg E; [done|]. cbn [od_keys map fst] in Hnd.
  apply NoDup_cons in Hnd as [_ Hnd]. cbn [od_get od_set] in *. case_decide; simplify_eq; rewrite !total_cons.
  - by rewrite E.
  - by rewrite IH.
Qed.

Lemma armed_inv mid due s : closed s = false -> conn_inv s -> conn_inv (armed mid due s).
Proof.
  intros Hc Hi. unfold armed. destruct (od_get mid (pending s)) as [p|] eqn:Ep; [|done].
  destruct Hi as [H1 H2 H3 H4 H5 H6 H7]. split; cbn; try done.
  - by apply od_wf_set.
  - by rewrite (total_set_same mid p).
  - rewrite od_length_set_mem by by eexists. done.
  - congruence.
Qed.

(** Undoing the registration of a frame that could not be written. *)
Definition dropped (mid : Z) (encoded : bytes) (s : PhysicalConnection) : PhysicalConnection :=
  if od_mem mid (pending s) then without mid (Z.of_nat (length encoded)) s else s.

Lemma dropped_inv mid encoded s :
  (forall p, od_get mid (pending s) = Some p -> frame p = encoded) -> conn_inv s -> conn_inv (dropped mid encoded s).
Proof.
  intros Hf Hi. unfold dropped, od_mem. destruct (od_get mid (pending s)) as [p|] eqn:Ep; [|done].
  rewrite <- (Hf p eq_refl). by apply without_inv.
Qed.

Lemma dropped_shrunk mid encoded s : shrunk s (dropped mid encoded s).
Proof. unfold dropped. destruct (od_mem mid _); [apply without_shrunk|apply shrunk_refl]. Qed.

(** The run of [enqueue]. *)
Lemma enqueue_eq c mid cid encoded created delay w :
  let w1 := put_conn c (queued mid cid encoded created (conn c w)) w in
  let w2 := fst (_write cb c encoded w1) in
  enqueue cb c mid cid encoded created delay w =
    match snd (_write cb c encoded w1) with
    | Raise e => (put_conn c (dropped mid encoded (conn c w2)) w2, Raise e)
    | Ok _ => if negb (closed (conn c w2)) && od_mem mid (pending (conn c w2))
              then (put_conn c (armed mid (monotonic w2 + delay (monotonic w2)) (conn c w2)) w2, Ok tt)
              else (w2, Ok tt)
    end.
Proof.
  cbv zeta. unfold enqueue, upd, here. munfold. fold (queued mid cid encoded created (conn c w)).
  destruct (_write cb c encoded _) as [w2 [[]|e]]; cbn [fst snd id]; [|done].
  destruct (negb _ && _); done.
Qed.

Lemma enqueue_evolves c mid cid encoded created delay w :
  closed (conn c w) = false -> Z.of_nat (length (pending (conn c w))) < max_unacked_messages (conn c w) ->
  pending_bytes (conn c w) + Z.of_nat (length encoded) <= max_queue_bytes (conn c w) ->
  evolves w (fst (enqueue cb c mid cid encoded created delay w)).
Proof.
  intros Hc Hn Hq. rewrite enqueue_eq. cbv zeta.
  set (w1 := put_conn c _ w). pose proof (write_quiet c encoded w1) as [He Hs].
  assert (conn c w1 = queued mid cid encoded created (conn c w)) as E1 by apply conn_put_eq.
  assert (evolves w w1) as H1 by (apply evolves_put; [by apply queued_inv|congruence]).
  eapply evolves_trans; [exact H1|]. eapply evolves_trans; [exact He|].
  set (w2 := fst (_write cb c encoded w1)) in *. destruct (snd (_write cb c encoded w1)) as [[]|e]; cbn [fst].
  - destruct (closed (conn c w2)) eqn:Ec; cbn [negb andb]; [apply evolves_refl|].
    destruct (od_mem mid _); [|apply evolves_refl]. apply evolves_put; [by apply armed_inv|congruence].
  - apply evolves_put.
    + apply dropped_inv. intros p Hp. destruct (Hs mid p Hp) as (q & Hq' & <-). rewrite E1 in Hq'. cbn in Hq'.
      rewrite od_get_set_eq in Hq'. by injection Hq' as <-.
    + intros Hc2. split; [by unfold dropped; destruct (od_mem mid _)|apply dropped_shrunk].
Qed.

Lemma next_id_range n : 0 <= Z.land (n + 1) 0xFFFFFFFFFFFFFFFF < 2 ^ 64.
Proof.
  change 0xFFFFFFFFFFFFFFFF with (Z.ones 64). rewrite Z.land_ones by lia. apply Z.mod_pos_bound. lia.
Qed.

(** [send_data] after its guards: the id is taken even when nothing is sent. *)
Definition took_id (s : PhysicalConnection) : PhysicalConnection :=
  set_next_message_id (Z.land (_next_message_id s + 1) 0xFFFFFFFFFFFFFFFF) s.

Lemma send_data_eq c cid envelope w :
  let s := conn c w in
  let w1 := put_conn c (took_id s) w in
  send_data cb c cid envelope w =
    if closed s then (w, Raise closed_error)
    else if max_unacked_messages s <=? Z.of_nat (length (pending s))
    then (w, Raise (BackpressureError "maximum unacknowledged message count reached"))
    else match encode (mkFrame DATA (_next_message_id s) envelope) (max_frame_size (parser s)) with
         | Raise e => (w1, Raise e)
         | Ok l => if max_queue_bytes s <? pending_bytes s + Z.of_nat (length l)
                   then (w1, Raise (BackpressureError "maximum queued traffic bytes reached"))
                   else let '(w2, r) := enqueue cb c (_next_message_id s) cid l (monotonic w1) (fun _ => ack_timeout s) w1 in
                        (w2, match r with Ok _ => Ok (_next_message_id s) | Raise e => Raise e end)
         end.
Proof.
  cbv zeta. unfold send_data, here, upd. munfold. unfold id. destruct (closed (conn c w)); [done|].
  destruct (_ <=? _); [done|]. destruct (encode _ _) as [l|e]; [|done]. destruct (_ <? _); [done|].
  fold (took_id (conn c w)). by destruct (enqueue _ _ _ _ _ _ _) as [w2 [[]|e]].
Qed.

Lemma send_data_evolves c cid envelope w : evolves w (fst (send_data cb c cid envelope w)).
Proof.
  rewrite send_data_eq. cbv zeta. destruct (closed (conn c w)) eqn:Ec; [apply evolves_refl|].
  destruct (_ <=? _) eqn:En; [apply evolves_refl|]. apply Z.leb_gt in En.
  set (w1 := put_conn c (took_id (conn c w)) w).
  assert (evolves w w1) as H1.
  { apply evolves_put; [|congruence]. intros []. split; try done. apply next_id_range. }
  assert (conn c w1 = took_id (conn c w)) as E1 by apply conn_put_eq.
  destruct (encode _ _) as [l|e]; [|done]. destruct (_ <? _) eqn:Eq; [done|]. apply Z.ltb_ge in Eq.
  eapply evolves_trans; [exact H1|].
  match goal with |- context [enqueue cb c ?m cid l ?n ?d w1] =>
    pose proof (enqueue_evolves c m cid l n d w1) as He; destruct (enqueue cb c m cid l n d w1) as [w2 r] end.
  apply He; by rewrite E1.
Qed.

Lemma adopt_pending_evolves c ms w : evolves w (fst (adopt_pending cb c ms w)).
Proof.
  revert w. induction ms as [|[[[mid cid] encoded] created] ms IH]; intros w; cbn [adopt_pending]; [apply evolves_refl|].
  unfold here. unfold bind at 1, gets, id. unfold bind at 1.
  destruct (closed (conn c w)) eqn:Ec; [apply evolves_refl|].
  destruct (_ <=? 0); [apply IH|]. destruct (_ <=? _) eqn:En; [apply evolves_refl|]. apply Z.leb_gt in En.
  destruct (_ <? _) eqn:Eq; [apply evolves_refl|]. apply Z.ltb_ge in Eq.
  apply evolves_bind; [by apply enqueue_evolves|]. intros _ _. apply IH.
Qed.

Lemma send_application_evolves c cid payload w : evolves w (fst (send_application cb c cid payload w)).
Proof.
  unfold send_application. apply evolves_bind; [apply evolves_refl|]. intros env _. apply send_data_evolves.
Qed.

(** ** Receiving *)

Lemma close_logical_evolves c cid w : evolves w (fst (close_logical cb c cid w)).
Proof.
  unfold close_logical. apply evolves_bind; [apply evolves_refl|]. intros ids _. destruct (negb _); [apply evolves_refl|].
  apply evolves_bind; [apply quiet_upd; [same_inv|done..]|]. intros _ _.
  apply evolves_bind; [apply on_logical_close_ok|]. intros _ _. apply evolves_refl.
Qed.

Lemma dispatch_evolves c f w : evolves w (fst (_dispatch cb c f w)).
Proof.
  unfold _dispatch. destruct (frame_type f).
  - apply evolves_bind; [apply evolves_refl|]. intros env _. apply evolves_bind; [apply evolves_refl|]. intros gone _.
    apply evolves_bind; [destruct (bool_decide _); [apply evolves_refl|apply on_message_ok]|]. intros _ _.
    unfold send_ack. apply evolves_bind; [apply evolves_refl|]. intros mfs _. apply evolves_bind; [apply evolves_refl|].
    intros encoded _. apply write_quiet.
  - apply evolves_bind; [apply acknowledge_evolves|]. intros; apply evolves_refl.
  - apply evolves_bind; [apply evolves_refl|]. intros control _. destruct (kind control).
    + unfold send_control. apply evolves_bind; [apply evolves_refl|]. intros p _. apply evolves_bind; [apply evolves_refl|].
      intros mfs _. apply evolves_bind; [apply evolves_refl|]. intros encoded _. apply write_quiet.
    + apply evolves_refl.
    + apply evolves_bind; [apply close_logical_evolves|]. intros; apply evolves_refl.
Qed.

Lemma feed_parser_evolves c data w : closed (conn c w) = false -> evolves w (fst (feed_parser c data w)).
Proof.
  intros Hc. unfold feed_parser, here, upd. munfold. destruct (feed data (parser (conn c w))) as [p' r] eqn:Ef. cbn [fst].
  apply evolves_put; [|congruence]. intros [H1 H2 H3 H4 H5 H6 H7]. split; cbn; try done; [|congruence].
  pose proof (feed_keeps (parser (conn c w)) data H5) as Hk. by rewrite Ef in Hk.
Qed.

Lemma receive_evolves c data w : evolves w (fst (receive cb c data w)).
Proof.
  unfold receive, here, upd. unfold bind at 1, gets. destruct (closed (conn c w)) eqn:Ec; [apply evolves_refl|].
  unfold bind at 1. unfold bind at 1, modify. set (w1 := put_conn c _ w).
  assert (evolves w w1) as H1 by (apply evolves_put; [by intros []; split|congruence]).
  assert (closed (conn c w1) = false) as Ec1 by (unfold w1; by rewrite conn_put_eq).
  eapply evolves_trans; [exact H1|]. unfold try_catch.
  assert (evolves w1 (fst ((let! frames := feed_parser c data in iterM (_dispatch cb c) frames) w1))) as H2.
  { apply evolves_bind; [by apply feed_parser_evolves|]. intros frames _. apply evolves_iterM, dispatch_evolves. }
  destruct ((let! frames := feed_parser c data in iterM (_dispatch cb c) frames) w1) as [w2 [[]|e]]; cbn [fst] in *; [done|].
  destruct (is_ProtocolError e); [|done]. eapply evolves_trans; [exact H2|apply close_evolves].
Qed.

(** ** A successful write *)

Lemma perform_open c a w :
  closed (conn c (fst (perform cb c a w))) = false ->
  closed (conn c w) = false /\ written (conn c (fst (perform cb c a w))) = written (conn c w) /\
  snd (perform cb c a w) = Ok tt.
Proof.
  assert (forall mid, closed (conn c (fst (acknowledge c mid w))) = false ->
    closed (conn c w) = false /\ written (conn c (fst (acknowledge c mid w))) = written (conn c w)) as Hack.
  { intros mid. rewrite acknowledge_eq. destruct (od_get mid _); cbn [fst]; [rewrite conn_put_eq|]; done. }
  destruct a as [mid|mid|reason]; cbn [perform].
  - specialize (Hack mid). pose proof (acknowledge_eq c mid w) as E. munfold.
    destruct (acknowledge c mid w) as [w' [b|e]]; cbn [fst snd] in *; [naive_solver|].
    destruct (od_get mid _); simplify_eq.
  - rewrite ack_timeout_eq. intros Hc. destruct (Hack mid Hc). repeat split; try done.
    unfold _ack_timeout, here, upd. munfold. by destruct (od_get mid _).
  - unfold try_catch. pose proof (close_evolves c reason w) as (_ & Hc & _).
    destruct (close cb c reason w) as [w' [[]|e]]; cbn [fst ret] in *; intros; congruence.
Qed.

Lemma performs_open c acts w :
  closed (conn c (fst (iterM (perform cb c) acts w))) = false ->
  closed (conn c w) = false /\ written (conn c (fst (iterM (perform cb c) acts w))) = written (conn c w) /\
  snd (iterM (perform cb c) acts w) = Ok tt.
Proof.
  revert w. induction acts as [|a acts IH]; intros w; cbn [iterM]; [done|]. unfold bind.
  pose proof (perform_open c a w) as Ha. destruct (perform cb c a w) as [w1 [[]|e]]; cbn [fst snd] in *.
  - intros Hc. destruct (IH w1 Hc) as (H1 & H2 & H3). destruct (Ha H1) as (H4 & H5 & _).
    split; [done|]. split; [by rewrite H2|done].
  - intros Hc. destruct (Ha Hc) as (_ & _ & [=]).
Qed.

Lemma write_eq c data w :
  _write cb c data w =
    if closed (conn c w) then (w, Raise closed_error)
    else let '(w1, r) := write_through cb c data w in
         match r with
         | Raise e => let '(w2, r2) := close cb c "buffer_write_failed" w1 in
                      (w2, match r2 with Ok _ => Raise e | Raise e2 => Raise e2 end)
         | Ok _ => if closed (conn c w1) then (w1, Raise (ConnectionClosedError "physical connection closed during write"))
                   else (put_conn c (set_last_activity (monotonic w1) (conn c w1)) w1, Ok tt)
         end.
Proof.
  unfold _write, here, upd. munfold. destruct (closed (conn c w)); [done|].
  destruct (write_through cb c data w) as [w1 [[]|e]].
  - by destruct (closed (conn c w1)).
  - by destruct (close cb c _ w1) as [w2 [[]|e2]].
Qed.

Lemma write_through_ok c data w w' :
  write_through cb c data w = (w', Ok tt) -> closed (conn c w') = false ->
  written (conn c w') = written (conn c w) ++ [data].
Proof.
  assert (exists o w0, written (conn c w0) = written (conn c w) /\ write_through cb c data w =
    bind (iterM (perform cb c) (during o)) (fun _ => match raises o with
      | Some e => raise e | None => upd c (fun s => set_written (written s ++ [data]) s) end) w0) as (o & w0 & Hw & ->).
  { unfold write_through, next_outcome, here, upd. unfold bind at 1 2, gets. destruct (script (conn c w)) as [|o sc].
    - by exists {| during := []; raises := None |}, w.
    - exists o, (put_conn c (set_script sc (conn c w)) w). split; [by rewrite conn_put_eq|done]. }
  unfold bind. pose proof (performs_open c (during o) w0) as Hp.
  destruct (iterM (perform cb c) (during o) w0) as [w3 [[]|e]]; [|done]. cbn [fst snd] in Hp.
  destruct (raises o); [done|]. unfold upd. intros [= <-]. rewrite conn_put_eq. cbn. intros Hc.
  destruct (Hp Hc) as (_ & -> & _). by rewrite Hw.
Qed.

Lemma write_ok c data w : snd (_write cb c data w) = Ok tt ->
  closed (conn c (fst (_write cb c data w))) = false /\
  written (conn c (fst (_write cb c data w))) = written (conn c w) ++ [data].
Proof.
  rewrite write_eq. destruct (closed (conn c w)) eqn:Ec; [done|].
  pose proof (write_through_ok c data w) as Hw. destruct (write_through cb c data w) as [w1 [[]|e]].
  - destruct (closed (conn c w1)) eqn:Ec1; [done|]. cbn [fst snd]. intros _. rewrite conn_put_eq. cbn. auto.
  - by destruct (close cb c _ w1) as [w2 [[]|e2]].
Qed.

Lemma enqueue_ok c mid cid encoded created delay w :
  let w' := fst (enqueue cb c mid cid encoded created delay w) in
  snd (enqueue cb c mid cid encoded created delay w) = Ok tt ->
  closed (conn c w') = false /\ written (conn c w') = written (conn c w) ++ [encoded] /\
  forall p, od_get mid (pending (conn c w')) = Some p -> frame p = encoded /\ is_Some (timer p).
Proof.
  cbv zeta. rewrite enqueue_eq. cbv zeta. set (w1 := put_conn c _ w).
  assert (conn c w1 = queued mid cid encoded created (conn c w)) as E1 by apply conn_put_eq.
  pose proof (write_ok c encoded w1) as Hw. pose proof (write_quiet c encoded w1) as [_ Hs].
  set (w2 := fst (_write cb c encoded w1)) in *. destruct (snd (_write cb c encoded w1)) as [[]|e]; [|done].
  destruct (Hw eq_refl) as [Hc Hwr]. rewrite E1 in Hwr, Hs. rewrite Hc. cbn [negb andb].
  unfold od_mem. destruct (od_get mid (pending (conn c w2))) as [q|] eqn:Eq; cbn [fst snd]; intros _.
  - rewrite conn_put_eq. unfold armed. rewrite Eq. cbn [closed written pending set_pending].
    split; [done|]. split; [exact Hwr|]. intros p. rewrite od_get_set_eq. intros [= <-]. cbn [frame timer].
    split; [|by eexists]. destruct (Hs mid q Eq) as (q' & Hq' & <-). cbn in Hq'. rewrite od_get_set_eq in Hq'.
    by injection Hq' as <-.
  - split; [done|]. split; [exact Hwr|]. congruence.
Qed.

Lemma enqueue_raises c mid cid encoded created delay w e :
  snd (enqueue cb c mid cid encoded created delay w) = Raise e -> od_get mid (pending (conn c w)) = None ->
  shrunk (conn c w) (conn c (fst (enqueue cb c mid cid encoded created delay w))).
Proof.
  rewrite enqueue_eq. cbv zeta. set (w1 := put_conn c _ w).
  assert (conn c w1 = queued mid cid encoded created (conn c w)) as E1 by apply conn_put_eq.
  pose proof (write_quiet c encoded w1) as [_ Hs]. set (w2 := fst (_write cb c encoded w1)) in *.
  destruct (snd (_write cb c encoded w1)) as [[]|e']; [by destruct (negb _ && _)|]. cbn [fst snd]. intros _ Hnew.
  rewrite conn_put_eq. intros k p Hp. assert (k ≠ mid) as Hk.
  { intros ->. revert Hp. unfold dropped, od_mem. destruct (od_get mid (pending (conn c w2))) eqn:E; cbn; [|congruence].
    by rewrite od_get_pop_eq. }
  destruct (dropped_shrunk mid encoded (conn c w2) k p Hp) as (q & Hq & <-).
  destruct (Hs k q Hq) as (q' & Hq' & <-). rewrite E1 in Hq'. cbn in Hq'. rewrite od_get_set_ne in Hq' by done. eauto.
Qed.

(** ** Operations in any order *)

Inductive conn_op :=
| Receive (data : bytes)
| SendApplication (cid : string) (payload : pyval)
| AckTimeout (message_id : Z)
| Close (reason : string)
| CloseLogical (cid : string)
| AdoptPending (messages : list (Z * string * bytes * Z)).

Definition run_conn_op (c : nat) (o : conn_op) (w : W) : W :=
  match o with
  | Receive data => fst (receive cb c data w)
  | SendApplication cid payload => fst (send_application cb c cid payload w)
  | AckTimeout mid => fst (_ack_timeout c mid w)
  | Close reason => fst (close cb c reason w)
  | CloseLogical cid => fst (close_logical cb c cid w)
  | AdoptPending ms => fst (adopt_pending cb c ms w)
  end.

Lemma run_conn_op_evolves c o w : evolves w (run_conn_op c o w).
Proof.
  destruct o; cbn [run_conn_op].
  - apply receive_evolves.
  - apply send_application_evolves.
  - rewrite ack_timeout_eq. apply acknowledge_evolves.
  - apply close_evolves.
  - apply close_logical_evolves.
  - apply adopt_pending_evolves.
Qed.

Lemma run_conn_ops_evolve (ops : list (nat * conn_op)) w :
  evolves w (fold_left (fun w co => run_conn_op (fst co) (snd co) w) ops w).
Proof.
  revert w. induction ops as [|[c o] ops IH]; intros w; [apply evolves_refl|]. cbn [fold_left fst snd].
  eapply evolves_trans; [apply run_conn_op_evolves|apply IH].
Qed.

(** The send queue of every connection stays within its limits and its
    accounting stays sound, whatever operations run on whatever connections in
    whatever order, with writes that fail, time out or are overtaken by
    acknowledgements and closings, for any server callbacks that respect the
    connections: at most [max_unacked_messages] frames wait, together at most
    [max_queue_bytes]; the parser stays within its buffer; a closed connection
    never reopens, gets nothing queued, holds no input and no armed timer. *)
Theorem connection_queue_bounded (ops : list (nat * conn_op)) w c (Hinit : forall c, conn_inv (conn c w)) :
  let w' := fold_left (fun w co => run_conn_op (fst co) (snd co) w) ops w in
  conn_inv (conn c w') /\
  total (pending (conn c w')) <= Z.max 0 (max_queue_bytes (conn c w')) /\
  (closed (conn c w) = true -> closed (conn c w') = true /\ shrunk (conn c w) (conn c w')).
Proof.
  cbv zeta. pose proof (run_conn_ops_evolve ops w) as He.
  destruct (He c) as [Hi Hc]. specialize (Hi (Hinit c)). split; [done|]. split; [|done].
  pose proof (ci_bytes _ Hi). pose proof (ci_queue _ Hi). lia.
Qed.

(** Sending is all or nothing for the queue: [send_data] with a fresh id
    either returns that id, the connection is open, exactly the encoded DATA
    frame went to the writer, and if it is not acknowledged yet it is pending
    with a running timer; or it raises, and no frame is pending that was not
    pending before. *)
Theorem send_data_outcome c cid envelope w
    (Hfresh : od_get (_next_message_id (conn c w)) (pending (conn c w)) = None) :
  let '(w', r) := send_data cb c cid envelope w in
  match r with
  | Ok mid => mid = _next_message_id (conn c w) /\ closed (conn c w') = false /\
      exists l, encode (mkFrame DATA mid envelope) (max_frame_size (parser (conn c w))) = Ok l /\
        written (conn c w') = written (conn c w) ++ [l] /\
        forall p, od_get mid (pending (conn c w')) = Some p -> frame p = l /\ is_Some (timer p)
  | Raise _ => shrunk (conn c w) (conn c w')
  end.
Proof.
  rewrite send_data_eq. cbv zeta. destruct (closed (conn c w)); [apply shrunk_refl|].
  destruct (_ <=? _); [apply shrunk_refl|]. set (w1 := put_conn c (took_id (conn c w)) w).
  assert (conn c w1 = took_id (conn c w)) as E1 by apply conn_put_eq.
  destruct (encode _ _) as [l|e] eqn:El; [|rewrite E1; intros k p; eauto].
  destruct (_ <? _); [rewrite E1; intros k p; eauto|].
  match goal with |- context [enqueue cb c ?m cid l ?n ?d w1] =>
    pose proof (enqueue_ok c m cid l n d w1) as Hok; pose proof (enqueue_raises c m cid l n d w1) as Hr;
    destruct (enqueue cb c m cid l n d w1) as [w2 [[]|e]] end; cbn [fst snd] in *.
  - destruct (Hok eq_refl) as (Hc & Hw & Hp). rewrite E1 in Hw. split; [done|]. split; [done|]. eauto.
  - specialize (Hr e eq_refl). rewrite E1 in Hr. apply Hr. exact Hfresh.
Qed.

End facts.

(** ** A concrete server

    Two connections of a server that answers every message on the connection
    it came from; the third write of connection 0 fails. *)

Module Demo.
Record world := { conns : gmap nat PhysicalConnection; clock : Z }.

Definition fresh (sc : list write_outcome) : PhysicalConnection :=
  {| parser := mkParser 256 512 []; max_unacked_messages := 2; max_queue_bytes := 1000; ack_timeout := 120;
     logical_connection_ids := ∅; closed_logical_connection_ids := ∅; new_logical_session_times := [];
     pending := []; pending_bytes := 0; last_activity := 0; closed := false; close_reason := None;
     _next_message_id := 7; script := sc; written := [] |}.

#[export] Instance world_store : ConnStore world := {
  conn c w := default (fresh []) (conns w !! c);
  put_conn c s w := {| conns := <[c := s]> (conns w); clock := clock w |};
  monotonic := clock
}.

#[export] Instance world_laws : ConnStoreLaws world.
Proof.
  split; intros; cbn.
  - by rewrite lookup_insert_eq.
  - by rewrite lookup_insert_ne.
Qed.

Definition silent : Callbacks world :=
  {| on_application_message _ _ _ := ret tt; on_close _ := ret tt; on_logical_close _ _ := ret tt |}.

Lemma silent_ok : CallbacksOk silent.
Proof. split; intros; apply evolves_refl. Qed.

Definition echo : Callbacks world :=
  {| on_application_message c env _ := send_application silent c (connection_id env) (VStr "ok") ;! ret tt;
     on_close _ := ret tt; on_logical_close _ _ := ret tt |}.

Lemma echo_ok : CallbacksOk echo.
Proof.
  split; intros; try apply evolves_refl. cbn. apply evolves_bind; [|intros; apply evolves_refl].
  apply (send_application_evolves silent (cb_ok := silent_ok)).
Qed.

Definition start : world :=
  {| conns := {[0%nat := fresh [{| during := []; raises := None |}; {| during := [ActAck 7]; raises := None |};
                                {| during := []; raises := Some OSError |}]]}; clock := 50 |}.

Lemma fresh_inv sc : conn_inv (fresh sc).
Proof.
  apply (conn_init_inv 256 2 1000 120 7 0 sc); [lia|]. unfold Connection.init. vm_compute. reflexivity.
Qed.

Lemma start_inv c : conn_inv (conn c start).
Proof. cbn. destruct (decide (c = 0%nat)) as [->|]; [|rewrite lookup_singleton_ne by done]; apply fresh_inv. Qed.
End Demo.
#[local] Existing Instances Demo.world_store Demo.world_laws.

(** Two sends fill the queue, the first one is acknowledged while the second
    is written, the third write fails and closes the connection. *)
Lemma connection_queue_bounded_witness :
  let ops := [(0%nat, SendApplication "conn" (VStr "a")); (0%nat, SendApplication "conn" (VStr "b"));
              (0%nat, SendApplication "conn" (VStr "c")); (0%nat, SendApplication "conn" (VStr "d"))] in
  let w' := fold_left (fun w co => run_conn_op Demo.echo (fst co) (snd co) w) ops Demo.start in
  conn_inv (conn 0%nat w') /\ od_keys (pending (conn 0%nat w')) = [8] /\ closed (conn 0%nat w') = true.
Proof.
  cbv zeta. split; [|vm_compute; split; reflexivity].
  apply (connection_queue_bounded Demo.echo (cb_ok := Demo.echo_ok)). apply Demo.start_inv.
Defined.

Lemma send_data_outcome_witness :
  let '(w', r) := send_data Demo.echo 0 "conn" (str_bytes "hello") Demo.start in
  r = Ok 7 /\ closed (conn 0%nat w') = false.
Proof.
  pose proof (send_data_outcome Demo.echo (cb_ok := Demo.echo_ok) 0 "conn" (str_bytes "hello") Demo.start eq_refl) as H.
  assert (snd (send_data Demo.echo 0 "conn" (str_bytes "hello") Demo.start) = Ok 7) as Hr by (vm_compute; reflexivity).
  destruct (send_data Demo.echo 0 "conn" (str_bytes "hello") Demo.start) as [w' r]. cbn [snd] in Hr. subst r.
  split; [reflexivity|apply H].
Defined.

End ConnThm.
