(* ===== verification/Server.v ===== *)
(** * The Q-App server ([reticulum/server.py])

    The server ties the parts together: physical connections, application
    sessions, the logical connection ids that route messages to sessions, and
    the private transport's credentials.  Message, disconnect and maintenance
    handlers are what applications register: parameters here, procedures on
    the server state, which carries the applications' own state [app].

    The clocks, the random strings of new sessions and the outcomes of the
    media files' I/O are components of the state.  Start-up, the timers and the
    whole of [shutdown] are in [Lifecycle]. *)

From stdpp Require Import prelude strings list gmap.
From Stdlib Require Import ZArith Lia.
From S2P Require Import Prelude PyDict PyBytes Sha256 PyValue Json Database Sessions Protocol ReticulumFraming Connection Authorization.

Module Server.
Import Protocol Connection.

Record Server (A : Type) := {
  max_unauthenticated_sessions : Z;
  max_logical_sessions_per_link : Z;
  max_new_sessions_per_link_per_minute : Z;
  idle_connection_timeout : Z;
  srv_ack_timeout : Z;
  sessions : SessionManager;
  logical_sessions : gmap string nat;
  connections : list nat;
  conns : gmap nat PhysicalConnection;
  tokens : Attach.AttachTokenAuthority;
  _media_grant_files : gmap string (list string);
  media_files : gmap string pyval;
  revocations : list string;
  closed_transports : list nat;
  io_failures : list bool;
  wall : Z;
  mono : Z;
  entropy : nat -> string * string;
  drawn : nat;
  shutting_down : bool;
  app : A
}.
Arguments max_unauthenticated_sessions {A}.
Arguments max_logical_sessions_per_link {A}.
Arguments max_new_sessions_per_link_per_minute {A}.
Arguments idle_connection_timeout {A}.
Arguments srv_ack_timeout {A}.
Arguments sessions {A}.
Arguments logical_sessions {A}.
Arguments connections {A}.
Arguments conns {A}.
Arguments tokens {A}.
Arguments _media_grant_files {A}.
Arguments media_files {A}.
Arguments revocations {A}.
Arguments closed_transports {A}.
Arguments io_failures {A}.
Arguments wall {A}.
Arguments mono {A}.
Arguments entropy {A}.
Arguments drawn {A}.
Arguments shutting_down {A}.
Arguments app {A}.

Section setters.
Context {A : Type}.
Definition set_sessions (x : SessionManager) (s : Server A) : Server A :=
  {| max_unauthenticated_sessions := max_unauthenticated_sessions s; max_logical_sessions_per_link
     := max_logical_sessions_per_link s; max_new_sessions_per_link_per_minute :=
     max_new_sessions_per_link_per_minute s; idle_connection_timeout := idle_connection_timeout s;
     srv_ack_timeout := srv_ack_timeout s; sessions := x; logical_sessions := logical_sessions s;
     connections := connections s; conns := conns s; tokens := tokens s; _media_grant_files :=
     _media_grant_files s; media_files := media_files s; revocations := revocations s;
     closed_transports := closed_transports s; io_failures := io_failures s; wall := wall s; mono
     := mono s; entropy := entropy s; drawn := drawn s; shutting_down := shutting_down s; app :=
     app s |}.
Definition set_logical_sessions (x : gmap string nat) (s : Server A) : Server A :=
  {| max_unauthenticated_sessions := max_unauthenticated_sessions s; max_logical_sessions_per_link
     := max_logical_sessions_per_link s; max_new_sessions_per_link_per_minute :=
     max_new_sessions_per_link_per_minute s; idle_connection_timeout := idle_connection_timeout s;
     srv_ack_timeout := srv_ack_timeout s; sessions := sessions s; logical_sessions := x;
     connections := connections s; conns := conns s; tokens := tokens s; _media_grant_files :=
     _media_grant_files s; media_files := media_files s; revocations := revocations s;
     closed_transports := closed_transports s; io_failures := io_failures s; wall := wall s; mono
     := mono s; entropy := entropy s; drawn := drawn s; shutting_down := shutting_down s; app :=
     app s |}.
Definition set_connections (x : list nat) (s : Server A) : Server A :=
  {| max_unauthenticated_sessions := max_unauthenticated_sessions s; max_logical_sessions_per_link
     := max_logical_sessions_per_link s; max_new_sessions_per_link_per_minute :=
     max_new_sessions_per_link_per_minute s; idle_connection_timeout := idle_connection_timeout s;
     srv_ack_timeout := srv_ack_timeout s; sessions := sessions s; logical_sessions :=
     logical_sessions s; connections := x; conns := conns s; tokens := tokens s;
     _media_grant_files := _media_grant_files s; media_files := media_files s; revocations :=
     revocations s; closed_transports := closed_transports s; io_failures := io_failures s; wall
     := wall s; mono := mono s; entropy := entropy s; drawn := drawn s; shutting_down :=
     shutting_down s; app := app s |}.
Definition set_conns (x : gmap nat PhysicalConnection) (s : Server A) : Server A :=
  {| max_unauthenticated_sessions := max_unauthenticated_sessions s; max_logical_sessions_per_link
     := max_logical_sessions_per_link s; max_new_sessions_per_link_per_minute :=
     max_new_sessions_per_link_per_minute s; idle_connection_timeout := idle_connection_timeout s;
     srv_ack_timeout := srv_ack_timeout s; sessions := sessions s; logical_sessions :=
     logical_sessions s; connections := connections s; conns := x; tokens := tokens s;
     _media_grant_files := _media_grant_files s; media_files := media_files s; revocations :=
     revocations s; closed_transports := closed_transports s; io_failures := io_failures s; wall
     := wall s; mono := mono s; entropy := entropy s; drawn := drawn s; shutting_down :=
     shutting_down s; app := app s |}.
Definition set_tokens (x : Attach.AttachTokenAuthority) (s : Server A) : Server A :=
  {| max_unauthenticated_sessions := max_unauthenticated_sessions s; max_logical_sessions_per_link
     := max_logical_sessions_per_link s; max_new_sessions_per_link_per_minute :=
     max_new_sessions_per_link_per_minute s; idle_connection_timeout := idle_connection_timeout s;
     srv_ack_timeout := srv_ack_timeout s; sessions := sessions s; logical_sessions :=
     logical_sessions s; connections := connections s; conns := conns s; tokens := x;
     _media_grant_files := _media_grant_files s; media_files := media_files s; revocations :=
     revocations s; closed_transports := closed_transports s; io_failures := io_failures s; wall
     := wall s; mono := mono s; entropy := entropy s; drawn := drawn s; shutting_down :=
     shutting_down s; app := app s |}.
Definition set_media_grant_files (x : gmap string (list string)) (s : Server A) : Server A :=
  {| max_unauthenticated_sessions := max_unauthenticated_sessions s; max_logical_sessions_per_link
     := max_logical_sessions_per_link s; max_new_sessions_per_link_per_minute :=
     max_new_sessions_per_link_per_minute s; idle_connection_timeout := idle_connection_timeout s;
     srv_ack_timeout := srv_ack_timeout s; sessions := sessions s; logical_sessions :=
     logical_sessions s; connections := connections s; conns := conns s; tokens := tokens s;
     _media_grant_files := x; media_files := media_files s; revocations := revocations s;
     closed_transports := closed_transports s; io_failures := io_failures s; wall := wall s; mono
     := mono s; entropy := entropy s; drawn := drawn s; shutting_down := shutting_down s; app :=
     app s |}.
Definition set_media_files (x : gmap string pyval) (s : Server A) : Server A :=
  {| max_unauthenticated_sessions := max_unauthenticated_sessions s; max_logical_sessions_per_link
     := max_logical_sessions_per_link s; max_new_sessions_per_link_per_minute :=
     max_new_sessions_per_link_per_minute s; idle_connection_timeout := idle_connection_timeout s;
     srv_ack_timeout := srv_ack_timeout s; sessions := sessions s; logical_sessions :=
     logical_sessions s; connections := connections s; conns := conns s; tokens := tokens s;
     _media_grant_files := _media_grant_files s; media_files := x; revocations := revocations s;
     closed_transports := closed_transports s; io_failures := io_failures s; wall := wall s; mono
     := mono s; entropy := entropy s; drawn := drawn s; shutting_down := shutting_down s; app :=
     app s |}.
Definition set_revocations (x : list string) (s : Server A) : Server A :=
  {| max_unauthenticated_sessions := max_unauthenticated_sessions s; max_logical_sessions_per_link
     := max_logical_sessions_per_link s; max_new_sessions_per_link_per_minute :=
     max_new_sessions_per_link_per_minute s; idle_connection_timeout := idle_connection_timeout s;
     srv_ack_timeout := srv_ack_timeout s; sessions := sessions s; logical_sessions :=
     logical_sessions s; connections := connections s; conns := conns s; tokens := tokens s;
     _media_grant_files := _media_grant_files s; media_files := media_files s; revocations := x;
     closed_transports := closed_transports s; io_failures := io_failures s; wall := wall s; mono
     := mono s; entropy := entropy s; drawn := drawn s; shutting_down := shutting_down s; app :=
     app s |}.
Definition set_closed_transports (x : list nat) (s : Server A) : Server A :=
  {| max_unauthenticated_sessions := max_unauthenticated_sessions s; max_logical_sessions_per_link
     := max_logical_sessions_per_link s; max_new_sessions_per_link_per_minute :=
     max_new_sessions_per_link_per_minute s; idle_connection_timeout := idle_connection_timeout s;
     srv_ack_timeout := srv_ack_timeout s; sessions := sessions s; logical_sessions :=
     logical_sessions s; connections := connections s; conns := conns s; tokens := tokens s;
     _media_grant_files := _media_grant_files s; media_files := media_files s; revocations :=
     revocations s; closed_transports := x; io_failures := io_failures s; wall := wall s; mono :=
     mono s; entropy := entropy s; drawn := drawn s; shutting_down := shutting_down s; app := app
     s |}.
Definition set_io_failures (x : list bool) (s : Server A) : Server A :=
  {| max_unauthenticated_sessions := max_unauthenticated_sessions s; max_logical_sessions_per_link
     := max_logical_sessions_per_link s; max_new_sessions_per_link_per_minute :=
     max_new_sessions_per_link_per_minute s; idle_connection_timeout := idle_connection_timeout s;
     srv_ack_timeout := srv_ack_timeout s; sessions := sessions s; logical_sessions :=
     logical_sessions s; connections := connections s; conns := conns s; tokens := tokens s;
     _media_grant_files := _media_grant_files s; media_files := media_files s; revocations :=
     revocations s; closed_transports := closed_transports s; io_failures := x; wall := wall s;
     mono := mono s; entropy := entropy s; drawn := drawn s; shutting_down := shutting_down s; app
     := app s |}.
Definition set_wall (x : Z) (s : Server A) : Server A :=
  {| max_unauthenticated_sessions := max_unauthenticated_sessions s; max_logical_sessions_per_link
     := max_logical_sessions_per_link s; max_new_sessions_per_link_per_minute :=
     max_new_sessions_per_link_per_minute s; idle_connection_timeout := idle_connection_timeout s;
     srv_ack_timeout := srv_ack_timeout s; sessions := sessions s; logical_sessions :=
     logical_sessions s; connections := connections s; conns := conns s; tokens := tokens s;
     _media_grant_files := _media_grant_files s; media_files := media_files s; revocations :=
     revocations s; closed_transports := closed_transports s; io_failures := io_failures s; wall
     := x; mono := mono s; entropy := entropy s; drawn := drawn s; shutting_down := shutting_down
     s; app := app s |}.
Definition set_mono (x : Z) (s : Server A) : Server A :=
  {| max_unauthenticated_sessions := max_unauthenticated_sessions s; max_logical_sessions_per_link
     := max_logical_sessions_per_link s; max_new_sessions_per_link_per_minute :=
     max_new_sessions_per_link_per_minute s; idle_connection_timeout := idle_connection_timeout s;
     srv_ack_timeout := srv_ack_timeout s; sessions := sessions s; logical_sessions :=
     logical_sessions s; connections := connections s; conns := conns s; tokens := tokens s;
     _media_grant_files := _media_grant_files s; media_files := media_files s; revocations :=
     revocations s; closed_transports := closed_transports s; io_failures := io_failures s; wall
     := wall s; mono := x; entropy := entropy s; drawn := drawn s; shutting_down := shutting_down
     s; app := app s |}.
Definition set_drawn (x : nat) (s : Server A) : Server A :=
  {| max_unauthenticated_sessions := max_unauthenticated_sessions s; max_logical_sessions_per_link
     := max_logical_sessions_per_link s; max_new_sessions_per_link_per_minute :=
     max_new_sessions_per_link_per_minute s; idle_connection_timeout := idle_connection_timeout s;
     srv_ack_timeout := srv_ack_timeout s; sessions := sessions s; logical_sessions :=
     logical_sessions s; connections := connections s; conns := conns s; tokens := tokens s;
     _media_grant_files := _media_grant_files s; media_files := media_files s; revocations :=
     revocations s; closed_transports := closed_transports s; io_failures := io_failures s; wall
     := wall s; mono := mono s; entropy := entropy s; drawn := x; shutting_down := shutting_down
     s; app := app s |}.
Definition set_shutting_down (x : bool) (s : Server A) : Server A :=
  {| max_unauthenticated_sessions := max_unauthenticated_sessions s; max_logical_sessions_per_link
     := max_logical_sessions_per_link s; max_new_sessions_per_link_per_minute :=
     max_new_sessions_per_link_per_minute s; idle_connection_timeout := idle_connection_timeout s;
     srv_ack_timeout := srv_ack_timeout s; sessions := sessions s; logical_sessions :=
     logical_sessions s; connections := connections s; conns := conns s; tokens := tokens s;
     _media_grant_files := _media_grant_files s; media_files := media_files s; revocations :=
     revocations s; closed_transports := closed_transports s; io_failures := io_failures s; wall
     := wall s; mono := mono s; entropy := entropy s; drawn := drawn s; shutting_down := x; app :=
     app s |}.
Definition set_app (x : A) (s : Server A) : Server A :=
  {| max_unauthenticated_sessions := max_unauthenticated_sessions s; max_logical_sessions_per_link
     := max_logical_sessions_per_link s; max_new_sessions_per_link_per_minute :=
     max_new_sessions_per_link_per_minute s; idle_connection_timeout := idle_connection_timeout s;
     srv_ack_timeout := srv_ack_timeout s; sessions := sessions s; logical_sessions :=
     logical_sessions s; connections := connections s; conns := conns s; tokens := tokens s;
     _media_grant_files := _media_grant_files s; media_files := media_files s; revocations :=
     revocations s; closed_transports := closed_transports s; io_failures := io_failures s; wall
     := wall s; mono := mono s; entropy := entropy s; drawn := drawn s; shutting_down :=
     shutting_down s; app := x |}.
End setters.

(** A connection that is not there is closed. *)
Definition no_connection : PhysicalConnection :=
  {| parser := Reticulum.mkParser 14 28 []; max_unacked_messages := 0; max_queue_bytes := 0; ack_timeout := 0;
     logical_connection_ids := ∅; closed_logical_connection_ids := ∅; new_logical_session_times := [];
     pending := []; pending_bytes := 0; last_activity := 0; closed := true; close_reason := None;
     _next_message_id := 1; script := []; written := [] |}.

#[export] Instance server_store {A} : ConnStore (Server A) := {
  conn c s := default no_connection (conns s !! c);
  put_conn c x s := set_conns (<[c := x]> (conns s)) s;
  monotonic := mono
}.

Section server.
Context {A : Type}.
Abbreviation SrvM := (M (Server A)).

(** [context.connection], [context.session], the message id, the logical id *)
Record MessageContext := { ctx_connection : nat; ctx_session : nat; ctx_message_id : Z; ctx_logical_id : string }.

Context (message_handlers : gmap string (MessageContext -> pyval -> SrvM unit)).
Context (disconnect_handlers : list (nat -> SrvM unit)).
Context (maintenance_handlers shutdown_handlers : list (SrvM unit)).

Definition in_sessions {B} (m : SM B) : SrvM B := zoom sessions set_sessions m.
Definition in_tokens {B} (m : Attach.AM B) : SrvM B := zoom tokens set_tokens m.
Definition session_obj (r : nat) (s : Server A) : ApplicationSession := obj r (sessions s).
Definition set_session (r : nat) (f : ApplicationSession -> ApplicationSession) : SrvM unit :=
  in_sessions (modify (on_obj r f)).

(** A method of the session object. *)
Definition on_session {B} (r : nat) (m : M ApplicationSession B) : SrvM B := fun s =>
  let '(o, b) := m (session_obj r s) in
  (set_sessions (on_obj r (fun _ => o) (sessions s)) s, b).

(** [for handler in handlers: try: handler(..) except Exception: log] *)
Definition run_handlers (hs : list (SrvM unit)) : SrvM unit :=
  iterM (fun h => try_catch h (fun _ => true) (fun _ => ret tt)) hs.

(** ** The private transport's credentials *)

Definition io : SrvM unit :=
  let! fs := gets io_failures in
  match fs with
  | [] => ret tt
  | f :: fs' => modify (set_io_failures fs') ;! if (f : bool) then raise OSError else ret tt
  end.

(** [_write_media_revocation] of a nonempty session id: the directory, then the
    marker, whose failure is only logged after removing the temporary file *)
Definition _write_media_revocation (sid : string) : SrvM unit :=
  io ;!
  try_catch (io ;! modify (fun s => set_revocations (sid :: revocations s) s)) (fun e => bool_decide (e = OSError)) (fun _ => io).

(** [PrivateTransportService.invalidate_session(session, close_attached=True)] *)
Definition invalidate_session (r : nat) : SrvM unit :=
  let! o := gets (session_obj r) in
  let sid := session_id o in
  in_tokens (Attach.invalidate_session sid) ;!
  set_session r (set_private_transport None) ;!
  let! files := gets (fun s => default [] (_media_grant_files s !! sid)) in
  modify (fun s => set_media_grant_files (delete sid (_media_grant_files s)) s) ;!
  let revoke_media := negb (bool_decide (files = []))
                      || match dget "call_room_id" (metadata o) with VStr _ => true | _ => false end in
  iterM (fun path => io ;! modify (fun s => set_media_files (delete path (media_files s)) s)) files ;!
  (if revoke_media && negb (bool_decide (sid = "")) then _write_media_revocation sid else ret tt) ;!
  match private_transport o with
  | Some t => modify (fun s => set_closed_transports (t :: closed_transports s) s)
  | None => ret tt
  end.

(** ** Indexes *)

(** [_remove_session_indexes] *)
Definition _remove_session_indexes (r : nat) : SrvM unit :=
  let! o := gets (session_obj r) in
  match dget "qapp_connection_id" (metadata o) with
  | VStr lid =>
    modify (fun s => if bool_decide (logical_sessions s !! lid = Some r)
                     then set_logical_sessions (delete lid (logical_sessions s)) s else s) ;!
    match Sessions.connection o with
    | Some c => upd c (fun x => set_logical_connection_ids (logical_connection_ids x ∖ {[lid]}) x)
    | None => ret tt
    end
  | _ => ret tt
  end.

(** [session.connection = None; session.pending_transport.clear()] *)
Definition detach (r : nat) : SrvM unit :=
  set_session r (set_connection None) ;! set_session r (set_pending_transport []).

(** [_discard_session] and [discard_session] *)
Definition _discard_session (r : nat) : SrvM unit :=
  invalidate_session r ;!
  _remove_session_indexes r ;!
  detach r ;!
  let! o := gets (session_obj r) in
  in_sessions (discard (session_id o)).

(** [revoke_session] *)
Definition revoke_session (r : nat) : SrvM unit :=
  let! current := gets (fun s => is_current r (sessions s)) in
  if negb current then ret tt else
  run_handlers (map (fun h => h r) disconnect_handlers) ;!
  _discard_session r.

(** [_expire_sessions] *)
Definition _expire_sessions (now : Z) : SrvM Z :=
  let! expired := in_sessions (expire now) in
  iterM (fun r => invalidate_session r ;! _remove_session_indexes r ;! detach r) expired ;!
  ret (Z.of_nat (length expired)).

(** [_disconnect_logical_session] *)
Definition _disconnect_logical_session (c : nat) (lid : string) : SrvM unit :=
  let! s := get in
  match logical_sessions s !! lid with
  | None => ret tt
  | Some r =>
    if negb (bool_decide (Sessions.connection (session_obj r s) = Some c)) then ret tt
    else if provisional (session_obj r s) then _discard_session r
    else
      invalidate_session r ;!
      _remove_session_indexes r ;!
      set_session r (fun o => set_metadata (od_pop "qapp_connection_id" (metadata o)) o) ;!
      detach r ;!
      in_sessions (touch r (wall s)) ;!
      in_sessions (persist r) ;!
      run_handlers (map (fun h => h r) disconnect_handlers)
  end.

(** [_connection_closed]: the callback of [PhysicalConnection.close] *)
Definition _connection_closed (c : nat) : SrvM unit :=
  modify (fun s => set_connections (filter (fun c' => c' ≠ c) (connections s)) s) ;!
  let! ids := here c logical_connection_ids in
  iterM (_disconnect_logical_session c) (elements ids) ;!
  upd c (fun x => set_new_logical_session_times [] (set_logical_connection_ids ∅ x)).

(** [_logical_connection_closed] *)
Definition _logical_connection_closed (c : nat) (lid : string) : SrvM unit := _disconnect_logical_session c lid.

(** What a connection needs of the server when it closes: sending and
    adopting frames use nothing else. *)
Definition closing : Callbacks (Server A) :=
  {| on_application_message _ _ _ := ret tt; on_close := _connection_closed;
     on_logical_close := _logical_connection_closed |}.

#[export] Instance server_transport : Transport (Server A) := {
  conn_closed c s := closed (conn c s);
  Sessions.send_application c lid payload := Connection.send_application closing c lid payload
}.

(** ** Admission *)

Definition MINUTE : Z := 60 * 1000000.

(** [_admit_logical_id] *)
Definition _admit_logical_id (c : nat) (lid : string) (creating : bool) (now : Z) : SrvM unit :=
  let! s := get in
  let ids := logical_connection_ids (conn c s) in
  if bool_decide (lid ∈ ids) then ret tt
  else if max_logical_sessions_per_link s <=? Z.of_nat (size ids)
  then raise (ProtocolError "logical session limit reached")
  else
    upd c (fun x => set_new_logical_session_times
                      (Attach.popleft_while (now - MINUTE) (new_logical_session_times x)) x) ;!
    let! x := here c id in
    if creating && (max_new_sessions_per_link_per_minute s <=? Z.of_nat (length (new_logical_session_times x)))
    then raise (ProtocolError "logical session creation rate exceeded")
    else
      upd c (fun x => set_logical_connection_ids ({[lid]} ∪ logical_connection_ids x) x) ;!
      if creating then upd c (fun x => set_new_logical_session_times (new_logical_session_times x ++ [now]) x)
      else ret tt.

(** The session of a logical id that is still valid; an expired one is
    discarded. *)
Definition live_session (lid : string) (now : Z) : SrvM (option nat) :=
  let! s := get in
  match logical_sessions s !! lid with
  | Some r => if expires_at (session_obj r s) <=? now then _discard_session r ;! ret None else ret (Some r)
  | None => ret None
  end.

Definition draw : SrvM (string * string) :=
  let! s := get in
  modify (set_drawn (S (drawn s))) ;!
  ret (entropy s (drawn s)).

(** The new provisional session of a logical id. *)
Definition create_session (c : nat) (lid : string) (now : Z) : SrvM nat :=
  let! '(sid, token) := draw in
  let! '(r, _) := in_sessions (create sid token (Some c) now true) in
  set_session r (fun o => set_metadata (od_set "qapp_connection_id" (VStr lid) (metadata o)) o) ;!
  modify (fun s => set_logical_sessions (<[lid := r]> (logical_sessions s)) s) ;!
  ret r.

(** A session found under the logical id moves to this connection unless
    another open one holds it. *)
Definition claim_session (c : nat) (lid : string) (r : nat) : SrvM nat :=
  let! s := get in
  let active := match Sessions.connection (session_obj r s) with
                | Some old => negb (old =? c)%nat && negb (closed (conn old s))
                | None => false
                end in
  if active then
    upd c (fun x => set_logical_connection_ids (logical_connection_ids x ∖ {[lid]}) x) ;!
    raise (ProtocolError "logical connection is already active")
  else set_session r (set_connection (Some c)) ;! ret r.

(** The block of [_application_message] under the session lock. *)
Definition admit_session (c : nat) (lid : string) (now : Z) : SrvM nat :=
  let! found := live_session lid now in
  let creating := bool_decide (found = None) in
  (if creating then _expire_sessions now ;! ret tt else ret tt) ;!
  let! s := get in
  if creating && (max_unauthenticated_sessions s <=? provisional_count (sessions s))
  then raise (ProtocolError "unauthenticated session capacity reached")
  else
    _admit_logical_id c lid creating now ;!
    match found with
    | None => create_session c lid now
    | Some r => claim_session c lid r
    end.

(** [self.message_handlers.get(message_type, self.message_handlers.get("*"))] *)
Definition find_handler (message : pyval) : res (option (MessageContext -> pyval -> SrvM unit)) :=
  let fallback := message_handlers !! "*" in
  match message with
  | VDict d =>
    match dget "type" d with
    | VStr t => Ok (match message_handlers !! t with Some h => Some h | None => fallback end)
    | VList _ | VDict _ => Raise (TypeError "unhashable type")
    | _ => Ok fallback
    end
  | _ => Ok fallback
  end.

(** [_application_message]: the callback of [PhysicalConnection._dispatch] *)
Definition _application_message (c : nat) (env : DataEnvelope) (mid : Z) : SrvM unit :=
  let! message := lift (decode_payload env) in
  let! handler := lift (find_handler message) in
  match handler with
  | None => ret tt
  | Some h =>
    let lid := connection_id env in
    let! now := gets wall in
    let! r := admit_session c lid now in
    let! o := gets (session_obj r) in
    (if bool_decide (pending_transport o = []) then ret tt
     else adopt_pending closing c (pending_transport o) ;! set_session r (set_pending_transport [])) ;!
    let! seen := on_session r (seen_message mid) in
    if seen : bool then ret tt else
    in_sessions (touch r now) ;!
    try_catch (h {| ctx_connection := c; ctx_session := r; ctx_message_id := mid; ctx_logical_id := lid |} message)
      (fun _ => true) (fun _ => ret tt)
  end.

Definition server_callbacks : Callbacks (Server A) :=
  {| on_application_message := _application_message; on_close := _connection_closed;
     on_logical_close := _logical_connection_closed |}.

(** The [ready] callback of [_link_established]: the chunks the reader
    returns, up to an empty one; any exception that leaves [receive] closes the
    connection. *)
Fixpoint receive_all (c : nat) (chunks : list bytes) : SrvM unit :=
  match chunks with
  | [] => ret tt
  | chunk :: rest =>
    let! is_closed := here c closed in
    if is_closed || bool_decide (chunk = []) then ret tt
    else receive server_callbacks c chunk ;! receive_all c rest
  end.

Definition ready (c : nat) (chunks : list bytes) : SrvM unit :=
  try_catch (receive_all c chunks) (fun _ => true) (fun _ => close server_callbacks c "buffer_receive_failed").

(** ** Publishing and maintenance *)

(** [publish] *)
Definition publish (topic : string) (payload : pyval) : SrvM Z :=
  let! rs := gets (fun s => all (sessions s)) in
  (fix go (rs : list nat) (sent : Z) : SrvM Z :=
     match rs with
     | [] => ret sent
     | r :: rs' =>
       let! o := gets (session_obj r) in
       if bool_decide (topic ∈ subscriptions o) && bool_decide (is_Some (Sessions.connection o))
       then send o (VDict [("type", VStr "event"); ("topic", VStr topic); ("payload", payload)]) ;! go rs' (sent + 1)
       else go rs' sent
     end) rs 0.

(** The loop of [_maintain] over the sessions. *)
Definition maintain_session (pending_cutoff now : Z) (r : nat) : SrvM unit :=
  set_session r (fun o => set_pending_transport (filter (fun item => pending_cutoff < snd item) (pending_transport o)) o) ;!
  let! s := get in
  let o := session_obj r s in
  match Sessions.connection o with
  | Some c => if negb (provisional o) && negb (closed (conn c s)) then in_sessions (touch r now) else ret tt
  | None => ret tt
  end.

(** [_maintain], without the rescheduling of its timer *)
Definition _maintain : SrvM unit :=
  let! s := get in
  if shutting_down s then ret tt else
  let cutoff := mono s - idle_connection_timeout s in
  iterM (fun c => let! x := here c id in
                  if last_activity x <? cutoff then close closing c "idle_timeout" else ret tt) (connections s) ;!
  let! s := get in
  let pending_cutoff := mono s - srv_ack_timeout s in
  let now := wall s in
  iterM (maintain_session pending_cutoff now) (all (sessions s)) ;!
  _expire_sessions now ;!
  in_sessions (in_db (Db.delete_expired_sessions now)) ;!
  run_handlers maintenance_handlers.

(** [_link_established]: a connection object for a new link, under a fresh
    key; the limits come from the configuration, [random] from [secrets], the
    script stands for the link's writer. *)
Definition _link_established (max_frame_size unacked queue random : Z) (outcomes : list write_outcome) : SrvM unit :=
  let! s := get in
  if shutting_down s then ret tt else
  let! x := lift (Connection.init max_frame_size unacked queue (srv_ack_timeout s) random (mono s) outcomes) in
  let c := fresh (dom (conns s)) in
  modify (fun s => put_conn c x s) ;!
  modify (fun s => set_connections (connections s ++ [c]) s).

(** [shutdown] of the connections, sessions, handlers and database; [Lifecycle] has
    the marker file, the timers and the private transport around it. *)
Definition shutdown : SrvM unit :=
  let! s := get in
  if shutting_down s then ret tt else
  modify (set_shutting_down true) ;!
  iterM (fun c => close closing c "server_shutdown") (connections s) ;!
  let! s := get in
  iterM (fun r => in_sessions (persist r)) (all (sessions s)) ;!
  run_handlers shutdown_handlers ;!
  in_sessions (in_db Db.close).
End server.

End Server.
