(* ===== verification/ServerFacts.v ===== *)
(** * What the server guarantees

    The server's callbacks meet the interface the connections were verified
    against, so the queue bounds hold for the composed system; admission keeps
    the number of unauthenticated sessions and of logical ids per link within
    the limits; a retransmitted message is not delivered twice. *)

From stdpp Require Import prelude strings list gmap.
From Stdlib Require Import ZArith Lia.
From S2P Require Import Prelude PyDict PyBytes Sha256 PyValue Json Database Sessions SessionFacts Protocol ReticulumFraming Connection ConnectionFacts Authorization Server.

Module ServerThm.
Import Protocol Connection ConnThm Server.

#[export] Instance server_laws {A} : ConnStoreLaws (Server A).
Proof.
  split; intros; cbn.
  - by rewrite lookup_insert_eq.
  - by rewrite lookup_insert_ne.
Qed.

Section facts.
Context {A : Type}.
Context (message_handlers : gmap string (MessageContext -> pyval -> M (Server A) unit)).
Context (disconnect_handlers : list (nat -> M (Server A) unit)).
Context (maintenance_handlers shutdown_handlers : list (M (Server A) unit)).

(** ** The interface of the connections *)

(** What registered handlers may do to the connections. *)
Class HandlersRespect := {
  message_respects t h ctx v s : message_handlers !! t = Some h -> evolves s (fst (h ctx v s));
  disconnect_respects h r s : h ∈ disconnect_handlers -> evolves s (fst (h r s));
  maintenance_respects h s : h ∈ maintenance_handlers ++ shutdown_handlers -> evolves s (fst (h s))
}.
Context {respect : HandlersRespect}.

(** A step that leaves the connections alone. *)
Lemma evolves_same (s s' : Server A) : conns s' = conns s -> evolves s s'.
Proof.
  intros E c. assert (conn c s' = conn c s) as -> by (cbn; by rewrite E). apply evolves_refl.
Qed.

Lemma evolves_modify (f : Server A -> Server A) s : conns (f s) = conns s -> evolves s (fst (modify f s)).
Proof. apply evolves_same. Qed.

Lemma evolves_zoom {B} (m : SM B) (s : Server A) : evolves s (fst (in_sessions m s)).
Proof. unfold in_sessions, zoom. destruct (m (sessions s)). by apply evolves_same. Qed.

Lemma evolves_tokens {B} (m : Attach.AM B) (s : Server A) : evolves s (fst (in_tokens m s)).
Proof. unfold in_tokens, zoom. destruct (m (tokens s)). by apply evolves_same. Qed.

Lemma evolves_try {B} (m : M (Server A) B) p h s :
  evolves s (fst (m s)) -> (forall e s', evolves s' (fst (h e s'))) -> evolves s (fst (try_catch m p h s)).
Proof.
  intros Hm Hh. unfold try_catch. destruct (m s) as [s' [b|e]]; cbn [fst] in *; [done|].
  destruct (p e); [|done]. eapply evolves_trans; [exact Hm|apply Hh].
Qed.

(** An update of the fields the server owns. *)
Lemma evolves_upd c f (s : Server A) :
  (forall x, conn_inv x -> conn_inv (f x)) -> (forall x, closed (f x) = closed x) -> (forall x, pending (f x) = pending x) ->
  evolves s (fst (upd c f s)).
Proof. intros. by apply quiet_upd. Qed.

(** Decompose a procedure and discharge the steps that do not touch a queue. *)
Ltac step :=
  match goal with
  | |- evolves ?s (fst (bind _ _ ?s)) => apply evolves_bind; [|intros ? _]
  | |- evolves ?s (fst (ret _ ?s)) => apply evolves_refl
  | |- evolves ?s (fst (raise _ ?s)) => apply evolves_refl
  | |- evolves ?s (fst (gets _ ?s)) => apply evolves_refl
  | |- evolves ?s (fst (get ?s)) => apply evolves_refl
  | |- evolves ?s (fst (lift _ ?s)) => apply evolves_refl
  | |- evolves ?s (fst (here _ _ ?s)) => apply evolves_refl
  | |- evolves ?s (fst (modify _ ?s)) => apply evolves_modify; try done
  | |- evolves ?s (fst (in_sessions _ ?s)) => apply evolves_zoom
  | |- evolves ?s (fst (set_session _ _ ?s)) => apply evolves_zoom
  | |- evolves ?s (fst (in_tokens _ ?s)) => apply evolves_tokens
  | |- evolves ?s (fst (upd _ _ ?s)) => apply evolves_upd; [intros ? []; split; done|done|done]
  | |- evolves ?s (fst (iterM _ _ ?s)) => apply evolves_iterM; intros ? ?
  | |- evolves ?s (fst ((match ?x with _ => _ end) ?s)) => destruct x
  | |- evolves ?s (fst ((let _ := _ in _) ?s)) => cbv zeta
  end.

Lemma io_evolves s : evolves s (fst (io (A := A) s)).
Proof. unfold io. repeat step. Qed.

Lemma invalidate_evolves r s : evolves s (fst (invalidate_session (A := A) r s)).
Proof. unfold invalidate_session, _write_media_revocation. repeat (step || apply io_evolves || (apply evolves_try; [|intros])). Qed.

Lemma remove_indexes_evolves r s : evolves s (fst (_remove_session_indexes (A := A) r s)).
Proof. unfold _remove_session_indexes. repeat step. by destruct (bool_decide _). Qed.

Lemma discard_evolves r s : evolves s (fst (_discard_session (A := A) r s)).
Proof. unfold _discard_session, detach. repeat (step || apply invalidate_evolves || apply remove_indexes_evolves). Qed.

Lemma handlers_evolve hs s : (forall h s, h ∈ hs -> evolves s (fst (h s))) -> evolves s (fst (run_handlers (A := A) hs s)).
Proof.
  unfold run_handlers. revert s. induction hs as [|h hs IH]; intros s Hh; cbn [iterM]; [apply evolves_refl|].
  step; [apply evolves_try; [apply Hh; by left|intros; apply evolves_refl]|]. apply IH. intros h' s' ?. apply Hh. by right.
Qed.

Lemma disconnects_evolve r s : evolves s (fst (run_handlers (map (fun h => h r) disconnect_handlers) s)).
Proof.
  apply handlers_evolve. intros h s' (h' & -> & Hin)%list_elem_of_fmap. by apply disconnect_respects.
Qed.

Lemma disconnect_evolves c lid s : evolves s (fst (_disconnect_logical_session disconnect_handlers c lid s)).
Proof.
  unfold _disconnect_logical_session, detach.
  repeat (step || apply invalidate_evolves || apply remove_indexes_evolves || apply discard_evolves || apply disconnects_evolve).
Qed.

Lemma expire_evolves now s : evolves s (fst (_expire_sessions (A := A) now s)).
Proof. unfold _expire_sessions, detach. repeat (step || apply invalidate_evolves || apply remove_indexes_evolves). Qed.

Lemma connection_closed_evolves c s : evolves s (fst (_connection_closed disconnect_handlers c s)).
Proof. unfold _connection_closed. repeat (step || apply disconnect_evolves). Qed.

#[local] Instance closing_ok : CallbacksOk (closing disconnect_handlers).
Proof.
  split; intros; cbn.
  - apply connection_closed_evolves.
  - apply evolves_refl.
  - apply disconnect_evolves.
Qed.

Lemma admit_session_evolves c lid now s : evolves s (fst (admit_session (A := A) c lid now s)).
Proof.
  unfold admit_session, live_session, _admit_logical_id, create_session, claim_session, draw.
  repeat (step || apply discard_evolves || apply expire_evolves).
Qed.

Lemma application_message_evolves c env mid s :
  evolves s (fst (_application_message message_handlers disconnect_handlers c env mid s)).
Proof.
  unfold _application_message. step; [step|]. unfold bind at 1, lift.
  destruct (find_handler message_handlers _) as [[h|]|e] eqn:Eh; [|apply evolves_refl..].
  assert (exists t, message_handlers !! t = Some h) as [t Ht].
  { revert Eh. unfold find_handler. repeat case_match; naive_solver. }
  repeat (step || apply admit_session_evolves || apply (adopt_pending_evolves _ (cb_ok := closing_ok))).
  - unfold on_session. destruct (seen_message _ _). by apply evolves_same.
  - apply evolves_try; [by eapply message_respects|intros; apply evolves_refl].
Qed.

#[local] Instance server_callbacks_ok : CallbacksOk (server_callbacks message_handlers disconnect_handlers).
Proof.
  split; intros; cbn.
  - apply connection_closed_evolves.
  - apply application_message_evolves.
  - apply disconnect_evolves.
Qed.

(** ** The composed server *)

Inductive server_op :=
| NewLink (max_frame_size unacked queue random : Z) (outcomes : list write_outcome)
| Ready (c : nat) (chunks : list bytes)
| OnConnection (c : nat) (o : conn_op)
| Maintain
| Publish (topic : string) (payload : pyval)
| Revoke (r : nat)
| Shutdown
| Tick (dw dm : Z).

Definition run_server_op (o : server_op) (s : Server A) : Server A :=
  match o with
  | NewLink mfs unacked queue random sc => fst (_link_established mfs unacked queue random sc s)
  | Ready c chunks => fst (ready message_handlers disconnect_handlers c chunks s)
  | OnConnection c o => run_conn_op (server_callbacks message_handlers disconnect_handlers) c o s
  | Maintain => fst (_maintain disconnect_handlers maintenance_handlers s)
  | Publish topic payload => fst (publish disconnect_handlers topic payload s)
  | Revoke r => fst (revoke_session disconnect_handlers r s)
  | Shutdown => fst (shutdown disconnect_handlers shutdown_handlers s)
  | Tick dw dm => set_wall (wall s + dw) (set_mono (mono s + dm) s)
  end.

(** [secrets.randbits(63)] *)
Definition op_ok (o : server_op) : Prop :=
  match o with NewLink _ _ _ random _ => 0 <= random < 2 ^ 63 | _ => True end.

Lemma publish_evolves topic payload s : evolves s (fst (publish disconnect_handlers topic payload s)).
Proof.
  unfold publish. step; [step|]. change (fst (gets (fun s0 : Server A => all (sessions s0)) s)) with s.
  generalize 0 as sent. generalize s as s1. clear s. revert a. induction a as [|r rs IH]; intros s sent; [step|].
  step; [step|]. destruct (_ && _); [|apply IH]. step; [|apply IH]. unfold send. step; [step|].
  repeat step. apply (send_application_evolves _ (cb_ok := closing_ok)).
Qed.

Lemma maintain_evolves s : evolves s (fst (_maintain disconnect_handlers maintenance_handlers s)).
Proof.
  unfold _maintain. step; [step|]. step; [step|].
  repeat (step || apply expire_evolves || apply (close_evolves _ (cb_ok := closing_ok))).
  - unfold maintain_session. repeat step.
  - apply handlers_evolve. intros h s' Hh. apply maintenance_respects. set_solver.
Qed.

Lemma revoke_evolves r s : evolves s (fst (revoke_session disconnect_handlers r s)).
Proof. unfold revoke_session. repeat (step || apply disconnects_evolve || apply discard_evolves). Qed.

Lemma shutdown_evolves s : evolves s (fst (shutdown disconnect_handlers shutdown_handlers s)).
Proof.
  unfold shutdown. step; [step|]. step; [step|].
  repeat (step || apply (close_evolves _ (cb_ok := closing_ok))).
  apply handlers_evolve. intros h s' Hh. apply maintenance_respects. set_solver.
Qed.

Lemma ready_evolves c chunks s : evolves s (fst (ready message_handlers disconnect_handlers c chunks s)).
Proof.
  unfold ready. apply evolves_try; [|intros; apply (close_evolves _ (cb_ok := server_callbacks_ok))].
  revert s. induction chunks as [|chunk chunks IH]; intros s; cbn [receive_all]; [step|].
  step; [step|]. step; [step|]. step; [apply (receive_evolves _ (cb_ok := server_callbacks_ok))|apply IH].
Qed.

Lemma new_link_inv mfs unacked queue random sc (s : Server A) c : 0 <= random < 2 ^ 63 ->
  conn_inv (conn c s) -> conn_inv (conn c (fst (_link_established mfs unacked queue random sc s))).
Proof.
  intros Hr Hi. unfold _link_established. munfold. destruct (shutting_down s); [done|].
  destruct (Connection.init _ _ _ _ _ _ _) as [x|e] eqn:Ex; [|done]. cbn. destruct (decide (fresh (dom (conns s)) = c)) as [->|].
  - rewrite lookup_insert_eq. by eapply conn_init_inv.
  - by rewrite lookup_insert_ne.
Qed.

Lemma server_op_inv o s c : op_ok o -> (forall c, conn_inv (conn c s)) -> conn_inv (conn c (run_server_op o s)).
Proof.
  intros Ho Hi. destruct o; cbn [run_server_op].
  - by apply new_link_inv.
  - apply ready_evolves, Hi.
  - apply (run_conn_op_evolves _ (cb_ok := server_callbacks_ok)). apply Hi.
  - apply maintain_evolves, Hi.
  - apply publish_evolves, Hi.
  - apply revoke_evolves, Hi.
  - apply shutdown_evolves, Hi.
  - apply Hi.
Qed.

Lemma no_connection_inv : conn_inv no_connection.
Proof. split; cbn; repeat split; cbn; try done; try lia; by constructor. Qed.

(** The bounds hold for the whole system: a server that starts without
    connections, with any applications whose handlers use the connections
    through their operations, keeps every connection's queue, accounting and
    parser within the limits through any sequence of new links, received bytes,
    sends, failing writes, acknowledgement timeouts, closings, publications,
    revocations, maintenance runs and the shutdown.  The callbacks the server
    installs meet the interface the connections rely on. *)
Theorem server_connections_bounded (ops : list server_op) s c
    (Hstart : conns s = ∅) (Hops : Forall op_ok ops) :
  let s' := fold_left (fun s o => run_server_op o s) ops s in
  conn_inv (conn c s') /\
  Z.of_nat (length (pending (conn c s'))) <= Z.max 0 (max_unacked_messages (conn c s')) /\
  total (pending (conn c s')) <= Z.max 0 (max_queue_bytes (conn c s')).
Proof.
  cbv zeta. assert (forall c, conn_inv (conn c s)) as Hi.
  { intros c'. cbn. rewrite Hstart, lookup_empty. apply no_connection_inv. }
  clear Hstart. assert (conn_inv (conn c (fold_left (fun s o => run_server_op o s) ops s))) as H.
  { revert s Hi c. induction Hops as [|o ops Ho _ IH]; intros s Hi c; [apply Hi|]. cbn [fold_left]. apply IH.
    intros c'. by apply server_op_inv. }
  split; [done|]. split; [apply H|]. pose proof (ci_bytes _ H). pose proof (ci_queue _ H). lia.
Qed.

(** ** Delivery *)

(** The session after a message on its established logical connection was
    looked up in the duplicate filter. *)
Definition noted (r c : nat) (d : odict Z unit) (s : Server A) : Server A :=
  set_sessions (on_obj r (fun o => set_dedup d (set_connection (Some c) o)) (sessions s)) s.

Lemma app_noted r c d s : app (noted r c d s) = app s.
Proof. reflexivity. Qed.

(** A message of an established session: nothing to create, nothing to adopt. *)
Record established (c r : nat) (lid : string) (s : Server A) : Prop := {
  es_index : logical_sessions s !! lid = Some r;
  es_live : wall s < expires_at (session_obj r s);
  es_admitted : lid ∈ logical_connection_ids (conn c s);
  es_connection : Sessions.connection (session_obj r s) = Some c;
  es_pending : pending_transport (session_obj r s) = []
}.

Lemma admit_established c r lid s : established c r lid s ->
  admit_session c lid (wall s) s = (set_sessions (on_obj r (set_connection (Some c)) (sessions s)) s, Ok r).
Proof.
  intros [H1 H2 H3 H4 H5]. unfold admit_session, live_session. munfold. rewrite H1.
  rewrite (proj2 (Z.leb_gt _ _) H2). cbn [bool_decide]. rewrite bool_decide_false by done. cbn [andb].
  unfold _admit_logical_id. munfold. rewrite bool_decide_true by done.
  unfold claim_session. munfold. rewrite H4, Nat.eqb_refl. done.
Qed.

(** C13: Each message is handled at most once: for a message on the established
    logical connection of a session, a message id in the duplicate filter is
    only refreshed there and the handler does not run; any other id is recorded
    in the filter first, and then the handler runs, once, its exceptions
    contained.  So a retransmission finds the id recorded even when the handler
    failed. *)
Theorem message_handled_at_most_once c env mid s r message h
    (Hest : established c r (connection_id env) s)
    (Hpayload : decode_payload env = Ok message) (Hhandler : find_handler message_handlers message = Ok (Some h))
    (Hlimit : (0 < dedup_limit (session_obj r s))%nat) :
  let d := dedup (session_obj r s) in
  let ctx := {| ctx_connection := c; ctx_session := r; ctx_message_id := mid; ctx_logical_id := connection_id env |} in
  _application_message message_handlers disconnect_handlers c env mid s =
    (if od_mem mid d then (noted r c (od_move_to_end mid d) s, Ok tt)
     else (in_sessions (touch r (wall s)) ;! try_catch (h ctx message) (fun _ => true) (fun _ => ret tt))
            (noted r c (od_trim (dedup_limit (session_obj r s)) (od_set mid tt d)) s)) /\
  (od_mem mid d = false -> od_mem mid (od_trim (dedup_limit (session_obj r s)) (od_set mid tt d)) = true).
Proof.
  cbv zeta. split.
  - unfold _application_message. unfold bind at 1, lift. rewrite Hpayload. unfold bind at 1. rewrite Hhandler.
    unfold bind at 1, gets. unfold bind at 1. rewrite (admit_established c r _ s Hest). unfold bind at 1.
    set (s1 := set_sessions _ s).
    assert (session_obj r s1 = set_connection (Some c) (session_obj r s)) as E1.
    { unfold session_obj, s1. cbn [sessions set_sessions]. rewrite obj_on_obj. by rewrite decide_True. }
    rewrite E1. cbn [pending_transport set_connection]. rewrite (es_pending _ _ _ _ Hest), bool_decide_true by done.
    unfold bind at 1, ret at 1. unfold bind at 1, on_session. rewrite E1.
    unfold seen_message, gets. unfold bind at 1. cbn [dedup set_connection].
    assert (forall d, set_sessions (on_obj r (fun _ => set_dedup d (set_connection (Some c) (session_obj r s))) (sessions s1)) s1
                      = noted r c d s) as En.
    { intros d. unfold s1, noted. cbn [sessions set_sessions]. rewrite on_obj_twice. reflexivity. }
    destruct (od_mem mid (dedup (session_obj r s))); unfold bind at 1, modify, ret; cbn [dedup_limit set_connection];
      rewrite En; [done|reflexivity].
  - unfold od_mem. destruct (od_get mid _) eqn:Ed; [done|]. intros _.
    rewrite od_keys_set_new by done. rewrite od_trim_drop, length_app. cbn [length].
    rewrite drop_app_le by lia. rewrite od_get_app. destruct (od_get mid (drop _ _)); [done|]. cbn.
    by rewrite decide_True.
Qed.

End facts.

(** ** A concrete server

    One application that counts its messages and answers them; two links, the
    first with a failing third write. *)

Module Demo.
Definition counter : MessageContext -> pyval -> M (Server nat) unit := fun ctx _ =>
  modify (fun s => set_app (S (app s)) s) ;!
  let! o := gets (session_obj (ctx_session ctx)) in
  @send _ (server_transport []) o (VStr "ok") ;! ret tt.
Definition handlers : gmap string (MessageContext -> pyval -> M (Server nat) unit) := {["*" := counter]}.

Lemma handlers_respect : HandlersRespect handlers [] [] [].
Proof.
  assert (HandlersRespect ∅ [] [] ([] : list (M (Server nat) unit))) as Hempty.
  { split; intros; [by rewrite lookup_empty in *|set_solver..]. }
  split; [|set_solver..]. intros t h ctx v s Hh.
  assert (h = counter) as -> by (unfold handlers in Hh; destruct (decide (t = "*")) as [->|];
    [rewrite lookup_singleton_eq in Hh|rewrite lookup_singleton_ne in Hh by done]; congruence).
  unfold counter. apply evolves_bind; [by apply evolves_same|]. intros _ _.
  apply evolves_bind; [apply evolves_refl|]. intros o _. apply evolves_bind; [|intros; apply evolves_refl].
  unfold send. apply evolves_bind; [apply evolves_refl|]. intros s' _.
  destruct (Sessions.connection o); [|apply evolves_refl]. destruct (conn_closed _ _); [apply evolves_refl|].
  destruct (dget _ _); try apply evolves_refl. destruct (bool_decide _); [apply evolves_refl|].
  apply (send_application_evolves _ (cb_ok := closing_ok ∅ [] [] [] (respect := Hempty))).
Qed.

Definition manager : SessionManager := empty_manager open_db 1000000000 100000000 60000000 4.
Definition start : Server nat :=
  {| max_unauthenticated_sessions := 8; max_logical_sessions_per_link := 4; max_new_sessions_per_link_per_minute := 4;
     idle_connection_timeout := 300; srv_ack_timeout := 120; sessions := manager; logical_sessions := ∅; connections := [];
     conns := ∅; tokens := Attach.init 30 4 4 4 16; _media_grant_files := ∅; media_files := ∅; revocations := [];
     closed_transports := []; io_failures := []; wall := 1000; mono := 1; entropy := fun _ => ("session-1", "token-1");
     drawn := 0; shutting_down := false; app := 0%nat |}.

Definition envelope : DataEnvelope :=
  {| connection_id := "conn-1"; encoding := "json"; data_payload := str_bytes "[]" |}.

(** A client frame that carries the envelope. *)
Definition data_frame (mid : Z) : bytes :=
  match encode_data_envelope "conn-1" (VList []) None with
  | Ok l => Reticulum.wire (Reticulum.mkFrame Reticulum.DATA mid l)
  | Raise _ => []
  end.

Definition link : server_op := NewLink 4096 2 10000 99
  [{| during := []; raises := None |}; {| during := []; raises := None |}; {| during := []; raises := Some OSError |}].
Definition linked : Server nat := run_server_op handlers [] [] [] link start.
Definition greeted : Server nat := run_server_op handlers [] [] [] (Ready 0 [data_frame 5]) linked.
End Demo.

(** The first message creates the session, runs the handler and queues its
    answer; the second finds the link's writer broken. *)
Lemma server_connections_bounded_witness :
  let ops := [Demo.link; Ready 0 [Demo.data_frame 5]; Ready 0 [Demo.data_frame 6]] in
  let s' := fold_left (fun s o => run_server_op Demo.handlers [] [] [] o s) ops Demo.start in
  conn_inv (conn 0%nat s') /\ app Demo.greeted = 1%nat /\ length (pending (conn 0%nat Demo.greeted)) = 1%nat /\
  app s' = 2%nat /\ closed (conn 0%nat s') = true.
Proof.
  cbv zeta. split; [|vm_compute; repeat split; reflexivity].
  apply (server_connections_bounded Demo.handlers [] [] [] (respect := Demo.handlers_respect)); [reflexivity|].
  repeat apply Forall_cons_2; [split; [discriminate|reflexivity]|exact I|exact I|apply Forall_nil_2].
Defined.

(** A retransmission of message 5 does not reach the handler. *)
Lemma message_handled_at_most_once_witness :
  exists s', _application_message Demo.handlers [] 0 Demo.envelope 5 Demo.greeted = (s', Ok tt) /\ app s' = app Demo.greeted.
Proof.
  destruct (message_handled_at_most_once Demo.handlers [] 0 Demo.envelope 5 Demo.greeted 0 (VList []) Demo.counter)
    as [H _].
  - split; [vm_compute; reflexivity|vm_compute; reflexivity| |vm_compute; reflexivity|vm_compute; reflexivity].
    apply (bool_decide_unpack _). vm_compute. exact I.
  - vm_compute. reflexivity.
  - reflexivity.
  - apply Nat.ltb_lt. vm_compute. reflexivity.
  - cbv zeta in H. assert (od_mem 5 (dedup (session_obj 0 Demo.greeted)) = true) as E by (vm_compute; reflexivity).
    rewrite E in H. cbv iota in H. eexists. split; [exact H|apply app_noted].
Defined.

End ServerThm.
