(* ===== verification/Admission.v ===== *)
(** * Admission limits of the server

    The number of unauthenticated sessions and the number of logical ids of a
    link stay within the configured limits, whatever messages, closings,
    expiries and promotions happen. *)

From stdpp Require Import prelude strings list gmap.
From Stdlib Require Import ZArith Lia.
From S2P Require Import Prelude PyDict PyBytes Sha256 PyValue Json Database Sessions SessionFacts Protocol ReticulumFraming Connection ConnectionFacts Authorization Server ServerFacts.

Module Admission.
Import Protocol Connection ConnThm Server ServerThm.

(** ** Sessions only disappear or authenticate *)

Definition refs_ok (m : SessionManager) : Prop := Forall (fun r => (r < next_ref m)%nat) (od_values (index m)).

Record sm_less (m m' : SessionManager) : Prop := {
  sl_index : index m' `sublist_of` index m;
  sl_provisional : forall r, provisional (obj r m') = true -> provisional (obj r m) = true;
  sl_ref : next_ref m' = next_ref m
}.

#[export] Instance sm_less_preorder : PreOrder sm_less.
Proof.
  split.
  - intros m. by split.
  - intros m1 m2 m3 [A1 A2 A3] [B1 B2 B3]. split; [by etransitivity|auto|congruence].
Qed.

Lemma count_sublist {B} (p q : B -> bool) (l1 l2 : list B) :
  l1 `sublist_of` l2 -> (forall x, p x = true -> q x = true) ->
  (length (List.filter p l1) <= length (List.filter q l2))%nat.
Proof.
  intros Hs Hpq. induction Hs as [|x l1 l2 _ IH|x l1 l2 _ IH]; cbn [List.filter]; [done|..].
  - destruct (p x) eqn:E; [rewrite (Hpq x E); cbn; lia|]. destruct (q x); cbn; lia.
  - destruct (q x); cbn; lia.
Qed.

Lemma provisional_count_eq m :
  provisional_count m = Z.of_nat (length (List.filter (fun r => provisional (obj r m)) (od_values (index m)))).
Proof.
  unfold provisional_count. f_equal. induction (od_values (index m)) as [|r l IH]; [done|]. cbn [List.filter].
  rewrite filter_cons. destruct (provisional (obj r m)); case_decide; cbn; congruence.
Qed.

Lemma less_count m m' : sm_less m m' -> provisional_count m' <= provisional_count m.
Proof.
  intros [H1 H2 _]. rewrite !provisional_count_eq. apply Nat2Z.inj_le, count_sublist; [|done].
  by apply od_values_sublist.
Qed.

Lemma less_refs m m' : sm_less m m' -> refs_ok m -> refs_ok m'.
Proof.
  intros [H1 _ H3] Hr. unfold refs_ok in *. rewrite H3. rewrite Forall_forall in *. intros r Hin. apply Hr.
  eapply elem_of_sublist; [exact Hin|]. by apply od_values_sublist.
Qed.

Lemma less_on_obj r f m : (forall s, provisional (f s) = true -> provisional s = true) -> sm_less m (on_obj r f m).
Proof.
  intros Hf. split; [done| |done]. intros r'. rewrite obj_on_obj. case_decide; [subst; apply Hf|done].
Qed.

Lemma less_db m d : sm_less m (set_database d m).
Proof. by split. Qed.

Lemma less_in_db {B} (c : M Database B) : moves sm_less (in_db c).
Proof. intros m. unfold in_db, zoom. destruct (c (database m)). apply less_db. Qed.

Lemma less_store r : moves sm_less (store r).
Proof. unfold store. repeat moves_step. apply less_in_db. Qed.

Lemma less_touch r now : moves sm_less (touch r now).
Proof. unfold touch. repeat (moves_step || apply less_store || (apply less_on_obj; done)). Qed.

Lemma less_persist r : moves sm_less (persist r).
Proof. unfold persist. repeat (moves_step || apply less_store || (apply less_on_obj; done)). Qed.

Lemma less_index m ix : ix `sublist_of` index m -> sm_less m (set_index ix m).
Proof. intros H. by split. Qed.

Lemma less_discard sid : moves sm_less (discard sid).
Proof. unfold discard. repeat (moves_step || apply less_in_db || apply less_index, od_pop_sublist). Qed.

Lemma pops_sublist {B} (key : B -> string) (l : list B) (d : odict string nat) :
  fold_left (fun ix r => od_pop (key r) ix) l d `sublist_of` d.
Proof.
  revert d. induction l as [|a l IH]; intros d; cbn [fold_left]; [done|].
  etransitivity; [apply IH|apply od_pop_sublist].
Qed.

Lemma less_expire now : moves sm_less (expire now).
Proof. unfold expire. repeat (moves_step || apply less_in_db || apply less_index, pops_sublist). Qed.

Lemma less_promote r user now : moves sm_less (promote r user now).
Proof.
  unfold promote, guard_or. repeat (moves_step || apply less_store || (apply less_on_obj; done)).
Qed.

(** ** Steps of the server *)

Section facts.
Context {A : Type}.

Record less (s s' : Server A) : Prop := {
  le_sessions : sm_less (sessions s) (sessions s');
  le_ids c : logical_connection_ids (conn c s') ⊆ logical_connection_ids (conn c s);
  le_unauthenticated : max_unauthenticated_sessions s' = max_unauthenticated_sessions s;
  le_limit : max_logical_sessions_per_link s' = max_logical_sessions_per_link s
}.

#[local] Instance less_preorder : PreOrder less.
Proof.
  split.
  - intros s. split; reflexivity.
  - intros s1 s2 s3 [A1 A2 A3 A4] [B1 B2 B3 B4]. split; [by etransitivity| |congruence..].
    intros c. etransitivity; [apply B2|apply A2].
Qed.

Lemma less_same s s' : sessions s' = sessions s -> conns s' = conns s ->
  max_unauthenticated_sessions s' = max_unauthenticated_sessions s ->
  max_logical_sessions_per_link s' = max_logical_sessions_per_link s -> less s s'.
Proof. intros E1 E2 E3 E4. split; [rewrite E1; reflexivity| |done..]. intros c. cbn. by rewrite E2. Qed.

Lemma less_in_sessions {B} (m : SM B) : moves sm_less m -> moves less (in_sessions (A := A) m).
Proof.
  intros Hm s. unfold in_sessions, zoom. specialize (Hm (sessions s)). destruct (m (sessions s)) as [m' r].
  cbn [fst] in *. by split.
Qed.

Lemma less_in_tokens {B} (m : Attach.AM B) : moves less (in_tokens (A := A) m).
Proof. intros s. unfold in_tokens, zoom. destruct (m (tokens s)). by apply less_same. Qed.

Lemma less_set_session r f : (forall o, provisional (f o) = true -> provisional o = true) ->
  moves less (set_session (A := A) r f).
Proof. intros Hf. apply less_in_sessions. intros m. by apply less_on_obj. Qed.

Lemma less_upd c f : (forall x, logical_connection_ids (f x) ⊆ logical_connection_ids x) -> moves less (upd (W := Server A) c f).
Proof.
  intros Hf s. unfold upd. cbn [modify fst]. split; [reflexivity| |done..]. intros c'. destruct (decide (c = c')) as [<-|].
  - by rewrite conn_put_eq.
  - by rewrite conn_put_ne.
Qed.

Ltac less_step :=
  match goal with
  | |- moves less (in_tokens _) => apply less_in_tokens
  | |- moves less (set_session _ _) => apply less_set_session; done
  | |- moves less (upd _ _) => apply less_upd; try done; try (intros ?; cbn; set_solver)
  | |- moves less (here _ _) => apply moves_still; [apply _|done]
  | |- less ?s (set_sessions _ ?s) => idtac
  | |- less ?s _ => apply less_same; done
  | _ => moves_step
  end.

Lemma less_io : moves less (io (A := A)).
Proof. unfold io. repeat less_step. Qed.

Lemma less_invalidate r : moves less (invalidate_session (A := A) r).
Proof. unfold invalidate_session, _write_media_revocation. repeat (less_step || apply less_io || (apply moves_try; [apply _| |intros ?])). Qed.

Lemma less_remove_indexes r : moves less (_remove_session_indexes (A := A) r).
Proof. unfold _remove_session_indexes. repeat less_step. case_bool_decide; by apply less_same. Qed.

Lemma less_discard_session r : moves less (_discard_session (A := A) r).
Proof.
  unfold _discard_session, detach.
  repeat (less_step || apply less_invalidate || apply less_remove_indexes || apply less_in_sessions, less_discard).
Qed.

Lemma less_expire_sessions now : moves less (_expire_sessions (A := A) now).
Proof.
  unfold _expire_sessions, detach.
  repeat (less_step || apply less_invalidate || apply less_remove_indexes || apply less_in_sessions, less_expire).
Qed.

(** ** The limits *)

Record admission (s : Server A) : Prop := {
  ad_refs : refs_ok (sessions s);
  ad_provisional : provisional_count (sessions s) <= Z.max 0 (max_unauthenticated_sessions s);
  ad_ids c : Z.of_nat (size (logical_connection_ids (conn c s))) <= Z.max 0 (max_logical_sessions_per_link s)
}.

Lemma admission_less s s' : less s s' -> admission s -> admission s'.
Proof.
  intros [L1 L2 L3 L4] [H1 H2 H3]. split.
  - by eapply less_refs.
  - rewrite L3. pose proof (less_count _ _ L1). lia.
  - intros c. rewrite L4. specialize (H3 c). pose proof (subseteq_size _ _ (L2 c)). lia.
Qed.

(** A new id is admitted only below the limit. *)
Lemma admit_id_admission c lid creating now s :
  admission s -> let s' := fst (_admit_logical_id c lid creating now s) in
  admission s' /\ sessions s' = sessions s /\ max_unauthenticated_sessions s' = max_unauthenticated_sessions s.
Proof.
  intros Had. cbv zeta. unfold _admit_logical_id. munfold. destruct (bool_decide _); [done|].
  destruct (_ <=? Z.of_nat (size _)) eqn:El; [done|]. apply Z.leb_gt in El.
  unfold upd, here. munfold. set (s1 := put_conn c _ s).
  assert (admission s1) as H1.
  { eapply admission_less; [|exact Had]. apply (less_upd c (fun x => set_new_logical_session_times _ x)). done. }
  assert (logical_connection_ids (conn c s1) = logical_connection_ids (conn c s)) as E1
    by (unfold s1; by rewrite conn_put_eq).
  destruct (creating && _); [done|].
  set (s2 := put_conn c (set_logical_connection_ids ({[lid]} ∪ logical_connection_ids (conn c s1)) (conn c s1)) s1).
  assert (admission s2) as H2.
  { destruct H1 as [A1 A2 A3]. split; [done|done|]. intros c'. destruct (decide (c = c')) as [<-|].
    - unfold s2. rewrite conn_put_eq. cbn [logical_connection_ids set_logical_connection_ids].
      pose proof (size_union_alt ({[lid]} : gset string) (logical_connection_ids (conn c s1))) as Hs.
      rewrite size_singleton in Hs. rewrite E1 in Hs |- *.
      pose proof (subseteq_size (logical_connection_ids (conn c s) ∖ {[lid]}) (logical_connection_ids (conn c s)) ltac:(set_solver)).
      change (max_logical_sessions_per_link _) with (max_logical_sessions_per_link s). lia.
    - unfold s2. rewrite conn_put_ne by done. apply A3. }
  destruct creating; cbn [fst]; [|done]. split; [|done].
  eapply admission_less; [|exact H2]. apply (less_upd c (fun x => set_new_logical_session_times _ x)). done.
Qed.

Lemma with_new_count o m : refs_ok m ->
  refs_ok (with_new o m) /\ provisional_count (with_new o m) <= provisional_count m + 1.
Proof.
  intros Hr. assert (forall r, r ∈ od_values (index m) -> obj r (with_new o m) = obj r m) as Ho.
  { intros r Hin. rewrite obj_with_new, decide_False; [done|]. unfold refs_ok in Hr. rewrite Forall_forall in Hr. specialize (Hr r Hin). cbn in Hr. lia. }
  split.
  - unfold refs_ok, with_new in *. cbn [index next_ref]. rewrite Forall_forall in *.
    intros r (sid & Hin)%od_values_elem. cbn [next_ref].
    assert (r = next_ref m \/ r ∈ od_values (index m)) as [->|Hin'].
    { clear Ho Hr. induction (index m) as [|[k v] ix IH]; cbn [od_set] in Hin.
      - apply list_elem_of_singleton in Hin. left. congruence.
      - unfold od_values in *. cbn [map snd]. revert Hin. case_decide; rewrite elem_of_cons; intros [[=]|Hin]; subst; auto.
        + right. apply elem_of_cons. right. apply list_elem_of_fmap. by exists (sid, r).
        + right. by left.
        + destruct (IH Hin); [by left|]. right. by right. }
    + lia.
    + specialize (Hr r Hin'). lia.
  - unfold provisional_count. cbn [index with_new].
    pose proof (od_values_set_length (fun r => provisional (obj r (with_new o m)) = true)
      (session_id o) (next_ref m) (index m)) as Hl.
    rewrite (filter_ext_in _ (fun r => provisional (obj r m) = true) (od_values (index m))) in Hl
      by (intros x Hx; by rewrite Ho).
    destruct (decide _) in Hl; lia.
Qed.

Lemma create_admission c lid now s :
  admission s -> provisional_count (sessions s) < max_unauthenticated_sessions s ->
  admission (fst (create_session c lid now s)).
Proof.
  intros Had Hlt. unfold create_session, draw. unfold bind at 1 2 3, get, modify, ret.
  destruct (entropy s (drawn s)) as [sid token]. set (s1 := set_drawn _ s).
  assert (admission s1) as H1 by (apply (admission_less s); [by apply less_same|exact Had]).
  unfold bind at 1, in_sessions, zoom. destruct (_token_hash token) as [h|e] eqn:Eh.
  2: { assert (create sid token (Some c) now true (sessions s1) = (sessions s1, Raise e)) as ->; [|done].
       unfold create. munfold. by rewrite Eh. }
  rewrite (create_unfold _ _ _ _ _ _ h Eh). cbn [fst bind ret].
  set (m2 := with_new _ (sessions s1)). set (s2 := set_sessions m2 s1).
  destruct (with_new_count (new_session sid h (Some c) now true (sessions s1)) (sessions s1) (ad_refs _ H1)) as [Hr Hc].
  assert (admission s2) as H2.
  { split; [exact Hr| |apply H1]. cbn. change (sessions s1) with (sessions s) in *. fold m2 in Hc.
    unfold m2 in *. lia. }
  match goal with |- admission (fst (?c s2)) => assert (moves less c) as Hm; [|exact (admission_less _ _ (Hm s2) H2)] end.
  repeat less_step.
  - intros s'. by apply less_same.
  - by apply moves_still; [apply _|].
Qed.

Lemma claim_less c lid r : moves less (claim_session (A := A) c lid r).
Proof. unfold claim_session. repeat less_step. Qed.

Lemma live_less lid now : moves less (live_session (A := A) lid now).
Proof. unfold live_session. repeat (less_step || apply less_discard_session). Qed.

Lemma admit_admission c lid now s : admission s -> admission (fst (admit_session c lid now s)).
Proof.
  intros Had. unfold admit_session. unfold bind at 1. pose proof (live_less lid now s) as Hl.
  destruct (live_session lid now s) as [s1 [found|e]]; cbn [fst] in Hl; [|by eapply admission_less].
  assert (admission s1) as H1 by by eapply admission_less. clear Hl Had.
  set (creating := bool_decide (found = None)). unfold bind at 1.
  assert (moves less (if creating then _expire_sessions (A := A) now ;! ret tt else ret tt)) as Hm
    by (repeat (less_step || apply less_expire_sessions)). specialize (Hm s1).
  destruct ((if creating then _expire_sessions (A := A) now ;! ret tt else ret tt) s1) as [s2 [[]|e]]; cbn [fst] in Hm; [|by eapply admission_less].
  assert (admission s2) as H2 by by eapply admission_less. clear Hm H1.
  unfold bind at 1, get. destruct (creating && _) eqn:Ec; [done|].
  unfold bind at 1. pose proof (admit_id_admission c lid creating now s2 H2) as (H3 & E1 & E2).
  destruct (_admit_logical_id c lid creating now s2) as [s3 [[]|e]]; cbn [fst] in *; [|done].
  destruct found as [r|]; [eapply admission_less; [apply claim_less|exact H3]|].
  apply create_admission; [done|]. rewrite E1, E2. apply andb_false_iff in Ec as [Ec|Ec]; [done|]. lia.
Qed.

(** ** Through the connections *)

Lemma preserves_less {B} (c : M (Server A) B) : moves less c -> preserves admission c.
Proof. intros Hc s Hs. by eapply admission_less; [apply Hc|]. Qed.

Ltac keep :=
  match goal with
  | |- preserves _ (bind _ _) => apply preserves_bind; [|intros ?]
  | |- preserves _ (ret _) => apply preserves_ret
  | |- preserves _ (raise _) => apply preserves_raise
  | |- preserves _ (gets _) => apply preserves_gets
  | |- preserves _ (here _ _) => apply preserves_gets
  | |- preserves _ get => by intros ?
  | |- preserves _ (lift _) => apply preserves_lift
  | |- preserves _ (iterM _ _) => apply preserves_iterM; intros ?
  | |- preserves _ (try_catch _ _ _) => apply preserves_try; [|intros ?]
  | |- preserves _ (upd _ _) => apply preserves_less, less_upd; intros ?; cbn; try done;
                                repeat case_match; cbn; set_solver
  | |- preserves _ (in_sessions _) => apply preserves_less, less_in_sessions
  | |- preserves _ (set_session _ _) => apply preserves_less, less_set_session; done
  | |- preserves _ (match ?x with _ => _ end) => destruct x
  end.

Section callbacks.
Context (cb : Callbacks (Server A)).
Context (close_keeps : forall c, preserves admission (on_close cb c)).
Context (message_keeps : forall c env mid, preserves admission (on_application_message cb c env mid)).
Context (logical_close_keeps : forall c lid, preserves admission (on_logical_close cb c lid)).

Lemma acknowledge_keeps c mid : preserves admission (acknowledge (W := Server A) c mid).
Proof. unfold acknowledge. repeat keep. Qed.

Lemma ack_timeout_keeps c mid : preserves admission (_ack_timeout (W := Server A) c mid).
Proof. unfold _ack_timeout. repeat keep. Qed.

Lemma conn_close_keeps c reason : preserves admission (close cb c reason).
Proof. unfold close. repeat (keep || apply close_keeps). Qed.

Lemma write_keeps c data : preserves admission (_write cb c data).
Proof.
  unfold _write, write_through, next_outcome, perform.
  repeat (keep || apply acknowledge_keeps || apply ack_timeout_keeps || apply conn_close_keeps).
Qed.

Lemma enqueue_keeps c mid cid encoded created delay : preserves admission (enqueue cb c mid cid encoded created delay).
Proof. unfold enqueue, _arm_timeout. repeat (keep || apply write_keeps). Qed.

Lemma send_data_keeps c cid envelope : preserves admission (send_data cb c cid envelope).
Proof. unfold send_data. repeat (keep || apply enqueue_keeps). Qed.

Lemma send_application_keeps c cid payload : preserves admission (Connection.send_application cb c cid payload).
Proof. unfold Connection.send_application. repeat (keep || apply send_data_keeps). Qed.

Lemma close_logical_keeps c lid : preserves admission (close_logical cb c lid).
Proof. unfold close_logical. repeat (keep || apply logical_close_keeps). Qed.

Lemma dispatch_keeps c f : preserves admission (_dispatch cb c f).
Proof.
  unfold _dispatch, send_control, send_ack.
  repeat (keep || apply acknowledge_keeps || apply write_keeps || apply close_logical_keeps || apply message_keeps).
Qed.

Lemma receive_keeps c data : preserves admission (receive cb c data).
Proof.
  unfold receive, feed_parser. repeat (keep || apply dispatch_keeps || apply conn_close_keeps).
Qed.

Lemma adopt_keeps c ms : preserves admission (adopt_pending cb c ms).
Proof.
  induction ms as [|[[[mid cid] encoded] created] ms IH]; cbn [adopt_pending]; repeat (keep || apply enqueue_keeps || apply IH).
Qed.

Lemma conn_op_keeps c o s : admission s -> admission (run_conn_op cb c o s).
Proof.
  intros Hs. destruct o; cbn [run_conn_op].
  - by apply receive_keeps.
  - by apply send_application_keeps.
  - by apply ack_timeout_keeps.
  - by apply conn_close_keeps.
  - by apply close_logical_keeps.
  - by apply adopt_keeps.
Qed.
End callbacks.

(** ** The server with its applications *)

Section server.
Context (message_handlers : gmap string (MessageContext -> pyval -> M (Server A) unit)).
Context (disconnect_handlers : list (nat -> M (Server A) unit)).
Context (maintenance_handlers shutdown_handlers : list (M (Server A) unit)).

(** Applications create no sessions and admit no logical ids of their own. *)
Class HandlersAdmit := {
  message_admits t h ctx v : message_handlers !! t = Some h -> preserves admission (h ctx v);
  disconnect_admits h r : h ∈ disconnect_handlers -> preserves admission (h r);
  maintenance_admits h : h ∈ maintenance_handlers ++ shutdown_handlers -> preserves admission h
}.
Context {admits : HandlersAdmit}.

Lemma handlers_keep hs : (forall h, h ∈ hs -> preserves admission h) -> preserves admission (run_handlers hs).
Proof.
  intros Hh. unfold run_handlers. induction hs as [|h hs IH]; cbn [iterM]; [keep|].
  keep; [keep; [apply Hh; by left|keep]|]. apply IH. intros h' ?. apply Hh. by right.
Qed.

Lemma disconnects_keep r : preserves admission (run_handlers (map (fun h => h r) disconnect_handlers)).
Proof. apply handlers_keep. intros h (h' & -> & Hin)%list_elem_of_fmap. by apply disconnect_admits. Qed.

Lemma discard_keeps r : preserves admission (_discard_session (A := A) r).
Proof. apply preserves_less, less_discard_session. Qed.

Lemma disconnect_keeps c lid : preserves admission (_disconnect_logical_session disconnect_handlers c lid).
Proof.
  unfold _disconnect_logical_session, detach.
  repeat (apply discard_keeps || apply disconnects_keep || apply preserves_less, less_invalidate
          || apply preserves_less, less_remove_indexes || keep || apply less_touch || apply less_persist).
Qed.

Lemma connection_closed_keeps c : preserves admission (_connection_closed disconnect_handlers c).
Proof.
  unfold _connection_closed. keep; [apply preserves_less; intros s; by apply less_same|].
  repeat (keep || apply disconnect_keeps).
Qed.

Lemma application_message_keeps c env mid :
  preserves admission (_application_message message_handlers disconnect_handlers c env mid).
Proof.
  unfold _application_message. keep; [keep|]. intros s Hs. unfold bind at 1, lift.
  destruct (find_handler message_handlers _) as [[h|]|e] eqn:Eh; [|done..].
  assert (exists t, message_handlers !! t = Some h) as [t Ht].
  { revert Eh. unfold find_handler. repeat case_match; naive_solver. }
  match goal with |- admission (fst (?c s)) => assert (preserves admission c) as Hc; [|by apply Hc] end.
  repeat (keep || apply less_touch).
  - intros s' Hs'. by apply admit_admission.
  - apply adopt_keeps. apply connection_closed_keeps.
  - intros s' Hs'. unfold on_session, seen_message. munfold.
    assert (forall o, (provisional o = true -> provisional (session_obj a1 s') = true) ->
      admission (set_sessions (on_obj a1 (fun _ => o) (sessions s')) s')) as Ho.
    { intros o Ho. eapply admission_less; [|exact Hs']. split; [|done..]. split; [done| |done]. intros r.
      cbn [sessions set_sessions]. rewrite obj_on_obj. case_decide; [subst; apply Ho|done]. }
    destruct (od_mem mid _); by apply Ho.
  - by eapply message_admits.
Qed.

Lemma publish_keeps topic payload : preserves admission (publish disconnect_handlers topic payload).
Proof.
  unfold publish. keep; [keep|]. generalize 0 as sent. induction a as [|r rs IH]; intros sent; [keep|].
  keep; [keep|]. keep; [|apply IH]. keep; [|apply IH]. unfold send. repeat keep.
  apply send_application_keeps. apply connection_closed_keeps.
Qed.

Lemma maintain_keeps : preserves admission (_maintain disconnect_handlers maintenance_handlers).
Proof.
  unfold _maintain, maintain_session.
  repeat (keep || apply less_touch || apply less_in_db).
  - apply conn_close_keeps, connection_closed_keeps.
  - apply preserves_less, less_expire_sessions.
  - apply handlers_keep. intros h Hh. apply maintenance_admits. set_solver.
Qed.

Lemma revoke_keeps r : preserves admission (revoke_session disconnect_handlers r).
Proof. unfold revoke_session. repeat (keep || apply disconnects_keep || apply discard_keeps). Qed.

Lemma shutdown_keeps : preserves admission (shutdown disconnect_handlers shutdown_handlers).
Proof.
  unfold shutdown. repeat (keep || apply less_persist || apply less_in_db).
  - apply preserves_less. intros s. by apply less_same.
  - apply conn_close_keeps, connection_closed_keeps.
  - apply handlers_keep. intros h Hh. apply maintenance_admits. set_solver.
Qed.

Lemma link_keeps mfs unacked queue random sc : preserves admission (_link_established (A := A) mfs unacked queue random sc).
Proof.
  intros s [H1 H2 H3]. unfold _link_established. munfold. destruct (shutting_down s); [done|].
  destruct (Connection.init _ _ _ _ _ _ _) as [x|e] eqn:Ex; [|done]. cbn [fst]. split; [done|done|].
  intros c. specialize (H3 c). revert H3. cbn. destruct (decide (fresh (dom (conns s)) = c)) as [->|Hne].
  - rewrite lookup_insert_eq. intros _. revert Ex. unfold Connection.init. destruct (Reticulum.FrameParser_init _ _); [|done].
    intros [= <-]. cbn. rewrite size_empty. lia.
  - by rewrite lookup_insert_ne.
Qed.

Lemma ready_keeps c chunks : preserves admission (ready message_handlers disconnect_handlers c chunks).
Proof.
  unfold ready. keep; [|apply conn_close_keeps, connection_closed_keeps].
  induction chunks as [|chunk chunks IH]; cbn [receive_all]; repeat (keep || apply IH).
  apply receive_keeps; [apply connection_closed_keeps|apply application_message_keeps|apply disconnect_keeps].
Qed.

Lemma server_op_keeps o s : admission s ->
  admission (run_server_op message_handlers disconnect_handlers maintenance_handlers shutdown_handlers o s).
Proof.
  intros Hs. destruct o; cbn [run_server_op].
  - by apply link_keeps.
  - by apply ready_keeps.
  - apply conn_op_keeps; [apply connection_closed_keeps|apply application_message_keeps|apply disconnect_keeps|done].
  - by apply maintain_keeps.
  - by apply publish_keeps.
  - by apply revoke_keeps.
  - by apply shutdown_keeps.
  - destruct Hs as [H1 H2 H3]. split; [done|done|]. intros c. apply H3.
Qed.

(** C14: Strangers cannot exhaust the server: from a start without connections
    and sessions, through any sequence of links, received bytes, closings,
    maintenance runs, publications, revocations and the shutdown, the number of
    unauthenticated sessions never exceeds [max_unauthenticated_sessions] and
    no link carries more than [max_logical_sessions_per_link] logical ids;
    the applications' handlers are only asked not to create sessions or ids
    themselves. *)
Theorem admission_within_limits (ops : list server_op) s
    (Hindex : index (sessions s) = []) (Hconns : conns s = ∅) :
  let s' := fold_left (fun s o => run_server_op message_handlers disconnect_handlers
                                    maintenance_handlers shutdown_handlers o s) ops s in
  provisional_count (sessions s') <= Z.max 0 (max_unauthenticated_sessions s') /\
  (forall c, Z.of_nat (size (logical_connection_ids (conn c s'))) <= Z.max 0 (max_logical_sessions_per_link s')).
Proof.
  cbv zeta. assert (admission s) as Hs.
  { split.
    - unfold refs_ok. rewrite Hindex. constructor.
    - unfold provisional_count. rewrite Hindex. cbn. lia.
    - intros c. cbn. rewrite Hconns, lookup_empty. cbn. rewrite size_empty. lia. }
  clear Hindex Hconns. assert (admission (fold_left (fun s o => run_server_op message_handlers disconnect_handlers
                                    maintenance_handlers shutdown_handlers o s) ops s)) as [_ H1 H2]; [|done].
  revert s Hs. induction ops as [|o ops IH]; intros s Hs; [done|]. cbn [fold_left]. by apply IH, server_op_keeps.
Qed.
End server.

End facts.

(** The counting application creates no sessions. *)
Lemma demo_admits : HandlersAdmit Demo.handlers [] [] [].
Proof.
  assert (HandlersAdmit ∅ [] [] ([] : list (M (Server nat) unit))) as Hempty.
  { split; intros; [by rewrite lookup_empty in *|set_solver..]. }
  split; [|set_solver..]. intros t h ctx v Hh.
  assert (h = Demo.counter) as -> by (unfold Demo.handlers in Hh; destruct (decide (t = "*")) as [->|];
    [rewrite lookup_singleton_eq in Hh|rewrite lookup_singleton_ne in Hh by done]; congruence).
  unfold Demo.counter. apply preserves_bind; [apply preserves_less; intros s; by apply less_same|]. intros _.
  apply preserves_bind; [apply preserves_gets|]. intros o. apply preserves_bind; [|intros; apply preserves_ret].
  unfold send. apply preserves_bind; [by intros s|]. intros s. destruct (Sessions.connection o); [|apply preserves_raise].
  destruct (conn_closed _ _); [apply preserves_raise|]. destruct (dget _ _); try apply preserves_raise.
  destruct (bool_decide _); [apply preserves_raise|]. apply send_application_keeps.
  apply (connection_closed_keeps ∅ [] [] [] (admits := Hempty)).
Qed.

(** A link that opens one session. *)
Lemma admission_within_limits_witness :
  let ops := [Demo.link; Ready 0 [Demo.data_frame 5]] in
  let s' := fold_left (fun s o => run_server_op Demo.handlers [] [] [] o s) ops Demo.start in
  provisional_count (sessions s') <= Z.max 0 (max_unauthenticated_sessions s') /\ provisional_count (sessions s') = 1.
Proof.
  cbv zeta. split; [|vm_compute; reflexivity].
  exact (proj1 (admission_within_limits Demo.handlers [] [] [] (admits := demo_admits)
    [Demo.link; Ready 0 [Demo.data_frame 5]] Demo.start eq_refl eq_refl)).
Defined.

End Admission.
