(* ===== verification/QortalIdentity.v ===== *)
(** * Qortal identity proofs ([auth/qortal_identity.py])

    Base58, Qortal addresses, and [QortalIdentityVerifier]: one-time challenges
    and the verification of a signed proof.

    Outside the code and therefore parameters: the Unicode tables behind
    [strip], [lower] and [upper], OpenSSL's RIPEMD-160, and the Ed25519
    verification of the [cryptography] package.  Times are in microseconds. *)

From stdpp Require Import prelude strings list gmap sorting.
From Stdlib Require Import ZArith Lia.
From S2P Require Import Prelude PyDict PyBytes Sha256 PyValue Json JsonFacts.

Module Qortal.

Definition AUTH_PROTOCOL : string := "qortal-qapp-auth-v1".
Definition ADDRESS_VERSION : Z := 58.
Definition CHALLENGE_TTL_SECONDS : Z := 60.
Definition _BASE58_ALPHABET : bytes := str_bytes "123456789ABCDEFGHJKLMNPQRSTUVWXYZabcdefghijkmnopqrstuvwxyz".
Definition _DESTINATION_RE : string -> bool := fullmatch is_hex 32 32.
Definition _SERVICE_RE : string -> bool := fullmatch (fun b => is_upper b || is_digit b || is_char "_" b) 1 32.

(** ** What the code takes from outside *)

Class Unicode := { strip : string -> string; lower : string -> string; upper : string -> string }.
Class Crypto := {
  ripemd160 : bytes -> bytes;
  (** [Ed25519PublicKey.from_public_bytes(key).verify(signature, message)]:
      [false] is [InvalidSignature] *)
  ed25519_verify : bytes -> bytes -> bytes -> bool
}.

(** ** Base58 *)

(** The digits of a number, most significant first; [while number: divmod]. *)
Fixpoint digits58 (fuel : nat) (n : Z) : list Z :=
  match fuel with
  | O => []
  | S f => if n =? 0 then [] else digits58 f (n / 58) ++ [n mod 58]
  end.

Definition alphabet (d : Z) : byte := nth (Z.to_nat d) _BASE58_ALPHABET Byte.x31.

(** [len(l) - len(l.lstrip(b))] *)
Fixpoint leading (b : byte) (l : bytes) : nat :=
  match l with
  | [] => O
  | c :: l' => if bool_decide (c = b) then S (leading b l') else O
  end.

Definition base58_encode (value : bytes) : string :=
  let number := be_decode value in
  bytes_str (replicate (leading Byte.x00 value) (alphabet 0) ++
             map alphabet (digits58 (S (Z.to_nat (Z.log2 number))) number)).

(** [_BASE58_ALPHABET.find(bytes((c,)))] *)
Fixpoint find_from (i : Z) (c : byte) (l : bytes) : Z :=
  match l with
  | [] => -1
  | b :: l' => if bool_decide (b = c) then i else find_from (i + 1) c l'
  end.

Definition invalid_base58 : exn := ValueError "invalid Base58 value".

Fixpoint number58 (number : Z) (l : bytes) : res Z :=
  match l with
  | [] => Ok number
  | c :: l' => let index := find_from 0 c _BASE58_ALPHABET in
               if index <? 0 then Raise invalid_base58 else number58 (number * 58 + index) l'
  end.

(** [n.bit_length()] *)
Definition bit_length (n : Z) : Z := if n =? 0 then 0 else Z.log2 n + 1.

Definition base58_decode (value : pyval) : res bytes :=
  match value with
  | VStr s =>
    if bool_decide (s = "") then Raise invalid_base58 else
    let? l := encode_ascii s in
    let? number := number58 0 l in
    Ok (replicate (leading Byte.x31 l) Byte.x00 ++ be_encode (Z.to_nat ((bit_length number + 7) / 8)) number)
  | _ => Raise invalid_base58
  end.

Section identity.
Context `{Unicode} `{Crypto}.

(** ** Addresses and names *)

Definition normalize_qapp_identity (name service : pyval) : res (string * string) :=
  match name, service with
  | VStr n, VStr s =>
    let normalized_name := lower (strip n) in
    let normalized_service := upper (strip s) in
    if bool_decide (normalized_name = "") || (128 <? py_len normalized_name)
    then Raise (ValueError "Q-App name is invalid")
    else if negb (_SERVICE_RE normalized_service) then Raise (ValueError "Q-App service is invalid")
    else Ok (normalized_name, normalized_service)
  | _, _ => Raise (ValueError "Q-App identity fields must be strings")
  end.

Definition checksum (l : bytes) : bytes := take 4 (sha256 (sha256 l)).

Definition qortal_address (public_key : bytes) : res string :=
  if negb (length public_key =? 32)%nat then Raise (ValueError "Qortal public key must be 32 bytes") else
  let versioned := byte_of ADDRESS_VERSION :: ripemd160 (sha256 public_key) in
  Ok (base58_encode (versioned ++ checksum versioned)).

Definition is_qortal_address (value : pyval) : bool :=
  match base58_decode value with
  | Ok decoded =>
    (length decoded =? 25)%nat && bool_decide (hd_error decoded = Some (byte_of ADDRESS_VERSION))
    && bool_decide (drop 21 decoded = checksum (take 21 decoded))
  | Raise _ => false
  end.

(** [json.dumps(fields, .., ensure_ascii=False, sort_keys=True).encode("utf-8")] *)
Definition sorted_fields (d : odict string pyval) : odict string pyval :=
  omap (fun k => (fun v => (k, v)) <$> od_get k d) (merge_sort String.le (od_keys d)).

Definition canonical_proof (fields : odict string pyval) : res bytes :=
  let? text := dumps false (VDict (sorted_fields fields)) in encode_utf8 text.

(** ** Challenges *)

Record Challenge := { challenge_id : string; nonce : string; backend_destination : string; expires_at : Z }.

Definition public (c : Challenge) : odict string pyval :=
  [("protocol", VStr AUTH_PROTOCOL); ("challengeId", VStr (challenge_id c)); ("nonce", VStr (nonce c));
   ("backendDestination", VStr (backend_destination c)); ("expiresAt", VInt (expires_at c))].

Record QortalIdentityVerifier := {
  _challenges : odict string Challenge;
  _max_outstanding_challenges : nat;
  _enforce_qapp_allowlist : bool;
  _allowed_qapps : list (string * string)
}.

Definition set_challenges (x : odict string Challenge) (v : QortalIdentityVerifier) : QortalIdentityVerifier :=
  {| _challenges := x; _max_outstanding_challenges := _max_outstanding_challenges v;
     _enforce_qapp_allowlist := _enforce_qapp_allowlist v; _allowed_qapps := _allowed_qapps v |}.

(** [normalize_qapp_identity(name, service) for name, service in ..] *)
Fixpoint normalize_all (l : list (pyval * pyval)) : res (list (string * string)) :=
  match l with
  | [] => Ok []
  | (name, service) :: l' =>
    let? q := normalize_qapp_identity name service in let? qs := normalize_all l' in Ok (q :: qs)
  end.

(** [QortalIdentityVerifier.__init__] *)
Definition init (allowed_qapps : list (pyval * pyval)) (max_outstanding_challenges : Z) (enforce_qapp_allowlist : bool)
    : res QortalIdentityVerifier :=
  if max_outstanding_challenges <=? 0 then Raise (ValueError "max_outstanding_challenges must be positive") else
  let? allowed := normalize_all allowed_qapps in
  Ok {| _challenges := []; _max_outstanding_challenges := Z.to_nat max_outstanding_challenges;
        _enforce_qapp_allowlist := enforce_qapp_allowlist; _allowed_qapps := allowed |}.

(** [int(t * 1000)] of a time in microseconds *)
Definition to_ms (t : Z) : Z := Z.quot t 1000.

(** [while len(d) >= limit: d.popitem(last=False)] *)
Definition make_room (limit : nat) (d : odict string Challenge) : odict string Challenge := od_trim (limit - 1) d.

(** [QortalIdentityVerifier.issue]; the two strings are the values of
    [secrets.token_urlsafe]. *)
Definition issue (destination new_id new_nonce : string) (timestamp : Z) : M QortalIdentityVerifier (odict string pyval) :=
  if negb (_DESTINATION_RE destination) then raise (ValueError "backend destination is unavailable") else
  let challenge := {| challenge_id := new_id; nonce := new_nonce; backend_destination := destination;
                      expires_at := to_ms (timestamp + CHALLENGE_TTL_SECONDS * 1000000) |} in
  modify (fun v => set_challenges (filter (fun kv => to_ms timestamp <= expires_at (snd kv)) (_challenges v)) v) ;!
  modify (fun v => set_challenges (make_room (_max_outstanding_challenges v) (_challenges v)) v) ;!
  modify (fun v => set_challenges (od_set (challenge_id challenge) challenge (_challenges v)) v) ;!
  ret (public challenge).

(** [proof.get(key) != value] for the values of a challenge *)
Definition matches (proof : odict string pyval) (kv : string * pyval) : bool :=
  match snd kv with
  | VStr s => eq_str (dget (fst kv) proof) s
  | VInt n => eq_int (dget (fst kv) proof) n
  | _ => false
  end.

Definition bad_challenge : exn := ValueError "identity challenge is invalid or expired".

(** The checks of [verify] after the challenge was taken. *)
Definition check_proof (v : QortalIdentityVerifier) (challenge : Challenge) (proof : odict string pyval)
    : res (string * string * (string * string)) :=
  if negb (forallb (matches proof) (public challenge))
  then Raise (ValueError "identity proof does not match its challenge") else
  match dget "address" proof, dget "publicKey" proof, dget "signature" proof with
  | VStr address, VStr public_key_text, VStr signature_text =>
    let? qapp := normalize_qapp_identity (dget "qappName" proof) (dget "qappService" proof) in
    if negb (eq_str (dget "qappName" proof) (fst qapp) && eq_str (dget "qappService" proof) (snd qapp))
       || (_enforce_qapp_allowlist v && negb (bool_decide (qapp ∈ _allowed_qapps v)))
    then Raise (ValueError "Q-App is not authorized for this backend") else
    let? public_key := base58_decode (VStr public_key_text) in
    let? expected_address := qortal_address public_key in
    if negb (bool_decide (expected_address = address))
    then Raise (ValueError "public key does not match Qortal address") else
    let signed_fields := public challenge ++
      [("address", VStr address); ("publicKey", VStr public_key_text);
       ("qappName", VStr (fst qapp)); ("qappService", VStr (snd qapp))] in
    let invalid := Raise (ValueError "invalid Qortal identity signature") in
    match (let? signature := base58_decode (VStr signature_text) in
           let? message := canonical_proof signed_fields in
           Ok (ed25519_verify public_key signature message)) with
    | Ok true => Ok (address, public_key_text, qapp)
    | Ok false => invalid
    | Raise e => if is_ValueError e then invalid else Raise e
    end
  | _, _, _ => Raise (ValueError "identity proof is incomplete")
  end.

(** [QortalIdentityVerifier.verify] *)
Definition verify (proof : pyval) (timestamp : Z) : M QortalIdentityVerifier (string * string * (string * string)) :=
  match proof with
  | VDict d =>
    match dget "challengeId" d with
    | VStr cid =>
      let! challenge := gets (fun v => od_get cid (_challenges v)) in
      modify (fun v => set_challenges (od_pop cid (_challenges v)) v) ;!
      match challenge with
      | None => raise bad_challenge
      | Some c =>
        if expires_at c <? to_ms timestamp then raise bad_challenge else
        let! v := get in
        lift (check_proof v c d)
      end
    | _ => raise (ValueError "identity proof is missing its challenge")
    end
  | _ => raise (ValueError "identity proof must be an object")
  end.

(** [QortalIdentityVerifier.is_qapp_allowed] of a two-element value *)
Definition is_qapp_allowed (v : QortalIdentityVerifier) (name service : pyval) : bool :=
  match normalize_qapp_identity name service with
  | Ok qapp => eq_str name (fst qapp) && eq_str service (snd qapp)
               && (negb (_enforce_qapp_allowlist v) || bool_decide (qapp ∈ _allowed_qapps v))
  | Raise _ => false
  end.
End identity.

End Qortal.
