(* ===== verification/QortalFacts.v ===== *)
(** * What an accepted identity proof means

    Base58 round trip, validity of derived addresses, and the guarantees of
    [verify]: a challenge is good for one attempt, and an accepted proof is
    signed by the key of its address over the challenge it answers. *)

From stdpp Require Import prelude strings list gmap sorting.
From Stdlib Require Import ZArith Lia.
From S2P Require Import Prelude PyDict PyBytes Sha256 PyValue Json JsonFacts QortalIdentity.

Module QortalThm.
Import Qortal.

(** ** Digits *)

Definition value58 (ds : list Z) : Z := fold_left (fun acc d => acc * 58 + d) ds 0.

Lemma value58_snoc ds d : value58 (ds ++ [d]) = value58 ds * 58 + d.
Proof. unfold value58. by rewrite fold_left_app. Qed.

Lemma digits58_spec f n : 0 <= n < 2 ^ Z.of_nat f ->
  value58 (digits58 f n) = n /\ Forall (fun d => 0 <= d < 58) (digits58 f n) /\
  (n = 0 -> digits58 f n = []) /\ (0 < n -> exists d ds, digits58 f n = d :: ds /\ d ≠ 0).
Proof.
  revert n. induction f as [|f IH]; intros n Hn.
  { cbn in Hn. assert (n = 0) as -> by lia. cbn. repeat split; [constructor|lia]. }
  cbn [digits58]. destruct (n =? 0) eqn:E.
  { assert (n = 0) as -> by lia. cbn. repeat split; [constructor|lia]. }
  assert (0 <= n / 58 < 2 ^ Z.of_nat f) as Hdiv.
  { split; [apply Z.div_pos; lia|]. apply Z.div_lt_upper_bound; [lia|].
    rewrite Nat2Z.inj_succ, Z.pow_succ_r in Hn by lia. lia. }
  destruct (IH (n / 58) Hdiv) as (Hv & Hf & H0 & H1).
  pose proof (Z.mod_pos_bound n 58 ltac:(lia)). repeat split.
  - rewrite value58_snoc, Hv. pose proof (Z.div_mod n 58 ltac:(lia)). lia.
  - apply Forall_app. split; [done|]. apply Forall_singleton. lia.
  - lia.
  - intros _. destruct (decide (n / 58 = 0)) as [Ez|Ez].
    + rewrite (H0 Ez). cbn. exists (n mod 58), []. split; [done|]. pose proof (Z.div_mod n 58 ltac:(lia)). lia.
    + destruct H1 as (d & ds & -> & Hd); [lia|]. exists d, (ds ++ [n mod 58]). done.
Qed.

Lemma alphabet_facts d : 0 <= d < 58 ->
  find_from 0 (alphabet d) _BASE58_ALPHABET = d /\ (alphabet d = Byte.x31 <-> d = 0) /\ byte_val (alphabet d) < 128.
Proof.
  intros Hd. assert (forallb (fun k => (find_from 0 (alphabet (Z.of_nat k)) _BASE58_ALPHABET =? Z.of_nat k)
    && Bool.eqb (bool_decide (alphabet (Z.of_nat k) = Byte.x31)) (Z.of_nat k =? 0)
    && (byte_val (alphabet (Z.of_nat k)) <? 128)) (seq 0 58) = true) as Hall by (vm_compute; reflexivity).
  rewrite forallb_forall in Hall. specialize (Hall (Z.to_nat d)). rewrite Z2Nat.id in Hall by lia.
  specialize (Hall ltac:(apply in_seq; lia)). rewrite !andb_true_iff in Hall. destruct Hall as [[H1 H2] H3].
  split; [lia|]. split; [|lia]. apply Bool.eqb_prop in H2. case_bool_decide; split; intros; (done || lia).
Qed.

Lemma number58_alphabet ds acc : Forall (fun d => 0 <= d < 58) ds ->
  number58 acc (map alphabet ds) = Ok (fold_left (fun acc d => acc * 58 + d) ds acc).
Proof.
  intros Hf. revert acc. induction Hf as [|d ds Hd _ IH]; intros acc; [done|]. cbn [map number58 fold_left].
  destruct (alphabet_facts d Hd) as (-> & _). rewrite (proj2 (Z.ltb_ge d 0)) by lia. apply IH.
Qed.

Lemma value58_zeros k ds : value58 (replicate k 0 ++ ds) = value58 ds.
Proof.
  unfold value58. rewrite fold_left_app. f_equal. induction k; [done|exact IHk].
Qed.

(** ** Leading zeros *)

Lemma leading_app b k l : (match l with c :: _ => c ≠ b | [] => True end) -> leading b (replicate k b ++ l) = k.
Proof.
  intros Hl. induction k; cbn [replicate app leading].
  - destruct l as [|c l]; [done|]. cbn [leading]. by rewrite bool_decide_false.
  - by rewrite bool_decide_true, IHk.
Qed.

Lemma leading_split b l : exists rest, l = replicate (leading b l) b ++ rest /\
  match rest with c :: _ => c ≠ b | [] => True end.
Proof.
  induction l as [|c l (rest & E & Hr)]; [by exists []|]. cbn [leading]. case_bool_decide.
  - subst c. exists rest. cbn [replicate app]. by rewrite <- E.
  - by exists (c :: l).
Qed.

Lemma be_decode_zeros k l : be_decode (replicate k Byte.x00 ++ l) = be_decode l.
Proof. unfold be_decode. rewrite fold_left_app. f_equal. induction k; [done|]. cbn [replicate fold_left]. exact IHk. Qed.

(** The width [to_bytes] uses is the length of a byte string without leading
    zeros. *)
Lemma width_of l : (match l with c :: _ => c ≠ Byte.x00 | [] => True end) ->
  Z.to_nat ((bit_length (be_decode l) + 7) / 8) = length l.
Proof.
  destruct l as [|c l]; [done|]. intros Hc.
  assert (0 < byte_val c) as Hpos.
  { pose proof (byte_val_range c). destruct (decide (byte_val c = 0)) as [E|]; [|lia].
    exfalso. apply Hc. apply byte_val_inj. by rewrite E. }
  assert (256 ^ Z.of_nat (length l) <= be_decode (c :: l)) as Hlo.
  { change (c :: l) with ([c] ++ l). rewrite be_decode_app, be_decode_single. pose proof (be_decode_bound l).
    pose proof (Z.pow_pos_nonneg 256 (Z.of_nat (length l)) ltac:(lia) ltac:(lia)). nia. }
  pose proof (be_decode_bound (c :: l)) as [_ Hhi].
  pose proof (Z.pow_pos_nonneg 256 (Z.of_nat (length l)) ltac:(lia) ltac:(lia)).
  unfold bit_length. rewrite (proj2 (Z.eqb_neq _ 0)) by lia.
  assert (8 * Z.of_nat (length l) <= Z.log2 (be_decode (c :: l)) < 8 * Z.of_nat (length (c :: l))) as Hlog.
  { replace 256 with (2 ^ 8) in Hlo, Hhi by done. rewrite <- !Z.pow_mul_r in Hlo, Hhi by lia. split.
    - apply Z.log2_le_pow2; lia.
    - apply Z.log2_lt_pow2; lia. }
  cbn [length] in *. apply Nat2Z.inj. rewrite Z2Nat.id by (apply Z.div_pos; lia).
  symmetry. apply (Z.div_unique _ 8 _ (Z.log2 (be_decode (c :: l)) - 8 * Z.of_nat (length l))); lia.
Qed.

(** Base58 loses nothing: every nonempty byte string, with its leading zero
    bytes, is what its encoding decodes to. *)
Theorem base58_roundtrip l (Hne : l ≠ []) : base58_decode (VStr (base58_encode l)) = Ok l.
Proof.
  destruct (leading_split Byte.x00 l) as (rest & El & Hrest). set (k := leading Byte.x00 l) in *.
  set (n := be_decode l). assert (0 <= n) as Hn by apply be_decode_bound.
  set (ds := digits58 (S (Z.to_nat (Z.log2 n))) n).
  assert (0 <= n < 2 ^ Z.of_nat (S (Z.to_nat (Z.log2 n)))) as Hfuel.
  { split; [done|]. rewrite Nat2Z.inj_succ, Z2Nat.id by apply Z.log2_nonneg. destruct (decide (n = 0)) as [->|]; [done|].
    apply Z.log2_spec. lia. }
  destruct (digits58_spec _ n Hfuel) as (Hv & Hf & H0 & H1). fold ds in Hv, Hf, H0, H1.
  assert (n = be_decode rest) as Hnr by (unfold n; rewrite El; apply be_decode_zeros).
  assert (str_bytes (base58_encode l) = map alphabet (replicate k 0 ++ ds)) as Es.
  { unfold base58_encode. rewrite str_bytes_str, map_app. f_equal. fold k. clear. induction k; [done|]. cbn. by f_equal. }
  assert (Forall (fun d => 0 <= d < 58) (replicate k 0 ++ ds)) as Hall.
  { apply Forall_app. split; [|done]. apply Forall_replicate. lia. }
  unfold base58_decode. rewrite bool_decide_false.
  2: { intros E. rewrite E in Es. change (str_bytes "") with (@nil byte) in Es. clearbody ds k. destruct (decide (rest = [])) as [->|Hr].
       - destruct k; [by rewrite El in Hne|done].
       - destruct H1 as (d & ds' & Eds & _); [|rewrite Eds in Es; destruct k; done].
         destruct rest as [|c rest']; [done|]. rewrite Hnr. pose proof (width_of (c :: rest') Hrest) as Hw.
         destruct (decide (be_decode (c :: rest') = 0)) as [E0|]; [rewrite E0 in Hw; done|].
         pose proof (be_decode_bound (c :: rest')). lia. }
  unfold encode_ascii. rewrite Es. rewrite (proj2 (forallb_forall _ _)).
  2: { intros b (d & <- & Hd)%in_map_iff. rewrite Forall_forall in Hall.
       destruct (alphabet_facts d (Hall d ltac:(by apply list_elem_of_In))) as (_ & _ & Hb). lia. }
  cbn [rbind]. rewrite number58_alphabet by done. cbn [rbind]. fold (value58 (replicate k 0 ++ ds)).
  rewrite value58_zeros, Hv. f_equal. rewrite El at 1. f_equal.
  - f_equal. assert (map alphabet (replicate k 0 ++ ds) = replicate k Byte.x31 ++ map alphabet ds) as ->.
    { rewrite map_app. f_equal. clear. induction k; [done|]. cbn. by f_equal. }
    apply leading_app. destruct (decide (n = 0)) as [E|E]; [by rewrite (H0 E)|].
    destruct H1 as (d & ds' & Eds & Hd); [lia|]. rewrite Eds in *. cbn [map]. inversion_clear Hf.
    intros Ha. by apply (alphabet_facts d) in Ha.
  - rewrite Hnr, (width_of rest Hrest). apply be_encode_decode.
Qed.

Lemma base58_roundtrip_witness : base58_decode (VStr (base58_encode [Byte.x00; Byte.x00; Byte.xff; Byte.x01])) =
  Ok [Byte.x00; Byte.x00; Byte.xff; Byte.x01].
Proof. apply base58_roundtrip. discriminate. Defined.

(** ** Addresses *)

Section address.
Context `{Unicode} `{Crypto}.

(** The address derived from a public key is always accepted as a Qortal
    address: 25 bytes with the version byte and a correct checksum. *)
Theorem derived_address_valid key a
    (Hdigest : forall l, length (ripemd160 l) = 20%nat)
    (Ha : qortal_address key = Ok a) : is_qortal_address (VStr a) = true.
Proof.
  revert Ha. unfold qortal_address. destruct (negb _); [done|]. cbv zeta.
  set (versioned := byte_of ADDRESS_VERSION :: ripemd160 (sha256 key)).
  intros Ha. assert (a = base58_encode (versioned ++ checksum versioned)) as -> by congruence. assert (length versioned = 21%nat) as Hv.
  { unfold versioned. cbn [length]. by rewrite Hdigest. }
  unfold is_qortal_address. rewrite base58_roundtrip by done.
  assert (length (checksum versioned) = 4%nat) as Hc.
  { unfold checksum. rewrite length_take, length_sha256. lia. }
  rewrite length_app, Hv, Hc, drop_app_length', take_app_length' by done.
  by rewrite !andb_true_iff, !bool_decide_eq_true.
Qed.

(** ** Outcomes of [verify] *)

(** The fields the signature covers. *)
Definition signed_fields (c : Challenge) (address key : string) (qapp : string * string) : odict string pyval :=
  public c ++ [("address", VStr address); ("publicKey", VStr key);
               ("qappName", VStr (fst qapp)); ("qappService", VStr (snd qapp))].

(** Everything an accepted proof shows. *)
Definition proves (v : QortalIdentityVerifier) (c : Challenge) (d : odict string pyval)
    (address key : string) (qapp : string * string) : Prop :=
  (forall k x, (k, x) ∈ public c -> matches d (k, x) = true) /\
  (_enforce_qapp_allowlist v = true -> qapp ∈ _allowed_qapps v) /\
  exists key_bytes signature_text signature message,
    base58_decode (VStr key) = Ok key_bytes /\ qortal_address key_bytes = Ok address /\
    dget "signature" d = VStr signature_text /\ base58_decode (VStr signature_text) = Ok signature /\
    canonical_proof (signed_fields c address key qapp) = Ok message /\
    ed25519_verify key_bytes signature message = true.

Lemma check_proof_sound v c d address key qapp :
  check_proof v c d = Ok (address, key, qapp) -> proves v c d address key qapp.
Proof.
  unfold check_proof, proves. destruct (forallb _ _) eqn:Hm; [|done]. cbn [negb].
  destruct (dget "address" d) as [| | | |a| | |]; try done. destruct (dget "publicKey" d) as [| | | |k| | |]; try done.
  destruct (dget "signature" d) as [| | | |sg| | |] eqn:Esg; try done.
  destruct (normalize_qapp_identity _ _) as [q|] eqn:Eq; [|done]. cbn [rbind].
  destruct (negb (eq_str _ _ && _)) eqn:Hn; [done|]. cbn [orb].
  destruct (_enforce_qapp_allowlist v && _) eqn:Hal; [done|].
  destruct (base58_decode (VStr k)) as [kb|] eqn:Ek; [|done]. cbn [rbind].
  destruct (qortal_address kb) as [ea|] eqn:Ea; [|done]. cbn [rbind]. destruct (bool_decide (ea = a)) eqn:Haddr; [|done].
  apply bool_decide_eq_true_1 in Haddr. cbn [negb]. subst ea.
  destruct (base58_decode (VStr sg)) as [s|e] eqn:Es; [|by cbn [rbind]; destruct (is_ValueError e)]. cbn [rbind].
  match goal with |- context [rbind (canonical_proof ?f)] => destruct (canonical_proof f) as [m|e] eqn:Em end;
    [|by cbn [rbind]; destruct (is_ValueError e)]. cbn [rbind].
  destruct (ed25519_verify kb s m) eqn:Ev; [|done]. intros [= <- <- <-].
  split; [|split].
  - intros x y Hin. rewrite forallb_forall in Hm. apply Hm. by apply list_elem_of_In.
  - intros Henf. rewrite Henf in Hal. cbn [andb] in Hal. by apply negb_false_iff, bool_decide_eq_true_1 in Hal.
  - exists kb, sg, s, m. done.
Qed.

Definition without (cid : string) (v : QortalIdentityVerifier) : QortalIdentityVerifier :=
  set_challenges (od_pop cid (_challenges v)) v.

(** [verify] in closed form: the challenge is taken before anything is
    checked. *)
Lemma verify_eq d cid now v : dget "challengeId" d = VStr cid ->
  verify (VDict d) now v =
    (without cid v, match od_get cid (_challenges v) with
                    | Some c => if expires_at c <? to_ms now then Raise bad_challenge else check_proof v c d
                    | None => Raise bad_challenge
                    end).
Proof.
  intros E. unfold verify. rewrite E. munfold. destruct (od_get cid (_challenges v)) as [c|]; [|done].
  destruct (_ <? _); done.
Qed.

(** What an accepted proof means. *)
Lemma verify_accepts proof now v v' address key qapp
    :
  verify proof now v = (v', Ok (address, key, qapp)) ->
  exists d cid c, proof = VDict d /\ od_get cid (_challenges v) = Some c /\ dget "challengeId" d = VStr cid /\
    to_ms now <= expires_at c /\ proves v c d address key qapp /\ od_get cid (_challenges v') = None.
Proof.
  intros Hok.
  destruct proof as [| | | | | | |d]; try done. destruct (dget "challengeId" d) as [| | | |cid| | |] eqn:Eid;
    try (unfold verify in Hok; rewrite Eid in Hok; done).
  rewrite (verify_eq d cid now v Eid) in Hok. injection Hok as <- Hr.
  destruct (od_get cid (_challenges v)) as [c|] eqn:Ec; [|done].
  destruct (expires_at c <? to_ms now) eqn:Ex; [done|]. exists d, cid, c.
  do 3 (split; [done|]). split; [lia|]. split; [by apply check_proof_sound|]. apply od_get_pop_eq.
Qed.

(** C12: A proof is accepted only for a challenge that was outstanding and
    unexpired, with matching fields, for an allowed Q-App, and with an Ed25519
    signature over the canonical fields that verifies under the very key the
    returned address is derived from. *)
Theorem verify_sound proof now v v' address key qapp
    (Hok : verify proof now v = (v', Ok (address, key, qapp))) :
  exists d cid c, proof = VDict d /\ od_get cid (_challenges v) = Some c /\ dget "challengeId" d = VStr cid /\
    to_ms now <= expires_at c /\ proves v c d address key qapp /\ od_get cid (_challenges v') = None.
Proof. by apply verify_accepts in Hok. Qed.

(** ** Histories of challenges *)

Inductive op :=
| Issue (destination new_id new_nonce : string) (now : Z)
| Verify (proof : pyval) (now : Z).

(** The challenge id a verification is about. *)
Definition names (proof : pyval) (cid : string) : bool :=
  match proof with VDict d => eq_str (dget "challengeId" d) cid | _ => false end.

Definition run_op (o : op) (v : QortalIdentityVerifier) : QortalIdentityVerifier :=
  match o with
  | Issue dest i n now => fst (issue dest i n now v)
  | Verify proof now => fst (verify proof now v)
  end.

(** [o] hands out the challenge [cid]; [o] accepts a proof for it. *)
Definition hands_out (cid : string) (o : op) (v : QortalIdentityVerifier) : nat :=
  match o with
  | Issue dest i n now => if bool_decide (i = cid) && is_ok (snd (issue dest i n now v)) then 1 else 0
  | Verify _ _ => 0
  end.
Definition accepts (cid : string) (o : op) (v : QortalIdentityVerifier) : nat :=
  match o with
  | Issue _ _ _ _ => 0
  | Verify proof now => if names proof cid && is_ok (snd (verify proof now v)) then 1 else 0
  end.

Fixpoint total (f : op -> QortalIdentityVerifier -> nat) (os : list op) (v : QortalIdentityVerifier) : nat :=
  match os with [] => 0 | o :: os' => f o v + total f os' (run_op o v) end.
Definition run_ops (os : list op) (v : QortalIdentityVerifier) : QortalIdentityVerifier :=
  fold_left (fun v o => run_op o v) os v.

Definition is_open (cid : string) (v : QortalIdentityVerifier) : nat :=
  if od_get cid (_challenges v) then 1 else 0.

Lemma issue_state dest i n now v :
  exists c, issue dest i n now v =
    if _DESTINATION_RE dest
    then (set_challenges (od_set i c (make_room (_max_outstanding_challenges v)
            (filter (fun kv => to_ms now <= expires_at (snd kv)) (_challenges v)))) v, Ok (public c))
    else (v, Raise (ValueError "backend destination is unavailable")).
Proof. unfold issue. destruct (_DESTINATION_RE dest); munfold; [|by exists (Build_Challenge "" "" "" 0)]. by eexists. Qed.

Lemma verify_state proof now v :
  (exists cid, names proof cid = true /\ fst (verify proof now v) = without cid v /\
     (od_get cid (_challenges v) = None -> is_ok (snd (verify proof now v)) = false)) \/
  ((forall cid, names proof cid = false) /\ fst (verify proof now v) = v).
Proof.
  destruct proof as [| | | | | | |d]; try by right. cbn [names].
  destruct (dget "challengeId" d) as [| | | |cid| | |] eqn:E;
    try by (right; unfold verify; rewrite E). left. exists cid.
  split; [by apply bool_decide_eq_true_2|]. rewrite (verify_eq d cid now v E). split; [done|]. intros ->. done.
Qed.

Lemma names_inj proof c1 c2 : names proof c1 = true -> names proof c2 = true -> c1 = c2.
Proof.
  destruct proof as [| | | | | | |d]; try done. cbn [names]. destruct (dget "challengeId" d); cbn [eq_str]; try done.
  rewrite !bool_decide_eq_true. congruence.
Qed.

Definition verifier_wf (v : QortalIdentityVerifier) : Prop :=
  od_wf (_challenges v) /\ (0 < _max_outstanding_challenges v)%nat /\
  (length (_challenges v) <= _max_outstanding_challenges v)%nat.

Lemma verifier_init_wf allowed limit enforce v : init allowed limit enforce = Ok v -> verifier_wf v /\ _challenges v = [].
Proof.
  unfold init. destruct (limit <=? 0) eqn:E; [done|]. destruct (normalize_all allowed) as [l|]; [|done].
  cbn [rbind]. intros [= <-]. split; [|done]. split; [apply od_wf_nil|]. cbn [_max_outstanding_challenges _challenges length]. lia.
Qed.

Lemma run_op_wf o v : verifier_wf v -> verifier_wf (run_op o v).
Proof.
  intros (Hwf & Hpos & Hlen). destruct o as [dest i n now|proof now]; cbn [run_op].
  - destruct (issue_state dest i n now v) as (c & ->). destruct (_DESTINATION_RE dest); [|done].
    split; [by apply od_wf_set, od_wf_trim, od_wf_filter|]. split; [done|]. cbn [fst _challenges _max_outstanding_challenges set_challenges].
    etrans; [apply od_length_set_le|]. unfold make_room. rewrite od_trim_length. lia.
  - destruct (verify_state proof now v) as [(cid & _ & -> & _)|[_ ->]]; [|done].
    split; [by apply od_wf_pop|]. split; [done|]. etrans; [apply od_length_pop_le|done].
Qed.

Lemma run_ops_wf os v : verifier_wf v -> verifier_wf (run_ops os v).
Proof. revert v. induction os as [|o os IH]; intros v Hv; [done|]. by apply IH, run_op_wf. Qed.

Lemma open_mono cid v v' :
  (od_get cid (_challenges v) = None -> od_get cid (_challenges v') = None) -> (is_open cid v' <= is_open cid v)%nat.
Proof.
  intros H'. unfold is_open. destruct (od_get cid (_challenges v)); [by destruct (od_get cid (_challenges v')); lia|].
  by rewrite H'.
Qed.

Lemma op_balance cid o v : verifier_wf v ->
  (accepts cid o v + is_open cid (run_op o v) <= hands_out cid o v + is_open cid v)%nat.
Proof.
  intros (Hwf & _). destruct o as [dest i n now|proof now]; cbn [run_op accepts hands_out].
  - destruct (issue_state dest i n now v) as (c & ->). destruct (_DESTINATION_RE dest); [|rewrite andb_false_r; cbn [fst]; lia].
    cbn [fst snd is_ok]. rewrite andb_true_r. case_bool_decide as Ei.
    + unfold is_open. cbn [_challenges set_challenges]. rewrite <- Ei, od_get_set_eq. lia.
    + apply open_mono. cbn [_challenges set_challenges]. intros Hn. rewrite od_get_set_ne by done.
      apply od_get_None. intros Hin. apply od_get_None in Hn. apply Hn.
      revert Hin. apply sublist_subseteq, od_keys_sublist. unfold make_room. rewrite od_trim_drop.
      etrans; [apply sublist_drop|apply sublist_filter].
  - destruct (verify_state proof now v) as [(c & Hc & Es & Hnone)|[Hno ->]]; [rewrite Es|rewrite Hno; cbn [andb]; lia].
    destruct (names proof cid) eqn:En.
    + pose proof (names_inj _ _ _ En Hc) as <-. unfold is_open at 1, without. cbn [_challenges set_challenges].
      rewrite od_get_pop_eq. unfold is_open. destruct (od_get cid (_challenges v)); [destruct (is_ok _); cbn; lia|].
      rewrite Hnone by done. done.
    + cbn [andb]. apply open_mono. unfold without. cbn [_challenges set_challenges]. intros Hn.
      rewrite od_get_pop. by case_decide.
Qed.

(** A challenge is good for one proof: whatever is issued and verified, the
    number of accepted proofs for a challenge id never exceeds the number of
    times that id was handed out. *)
Theorem challenge_single_use allowed limit enforce v os cid
    (Hinit : init allowed limit enforce = Ok v) :
  (total (accepts cid) os v <= total (hands_out cid) os v)%nat.
Proof.
  destruct (verifier_init_wf _ _ _ _ Hinit) as [Hwf E0].
  enough (total (accepts cid) os v + is_open cid (run_ops os v) <= total (hands_out cid) os v + is_open cid v)%nat
    as Hgen by (unfold is_open at 2 in Hgen; rewrite E0 in Hgen; cbn [od_get] in Hgen; lia).
  clear Hinit E0. revert v Hwf. induction os as [|o os IH]; intros v Hwf; [done|].
  cbn [total run_ops fold_left]. specialize (IH (run_op o v) (run_op_wf o v Hwf)).
  pose proof (op_balance cid o v Hwf). fold (run_ops os (run_op o v)). lia.
Qed.

(** The table of outstanding challenges never exceeds its configured size,
    whatever unauthenticated clients ask for. *)
Theorem challenges_bounded allowed limit enforce v os
    (Hinit : init allowed limit enforce = Ok v) :
  (length (_challenges (run_ops os v)) <= _max_outstanding_challenges (run_ops os v))%nat /\
  _max_outstanding_challenges (run_ops os v) = Z.to_nat limit.
Proof.
  destruct (verifier_init_wf _ _ _ _ Hinit) as [Hwf _]. split; [by apply run_ops_wf|].
  transitivity (_max_outstanding_challenges v).
  - clear. revert v. induction os as [|o os IH]; intros v; [done|]. cbn [run_ops fold_left].
    etrans; [apply IH|]. destruct o as [dest i n now|proof now]; cbn [run_op].
    + destruct (issue_state dest i n now v) as (c & ->). by destruct (_DESTINATION_RE dest).
    + by destruct (verify_state proof now v) as [(c & _ & -> & _)|[_ ->]].
  - revert Hinit. unfold init. destruct (limit <=? 0); [done|]. destruct (normalize_all allowed); [|done].
    by intros [= <-].
Qed.
End address.

(** ** A concrete signer *)

Module Demo.
#[local] Instance ascii_unicode : Unicode := {| strip := id; lower := id; upper := id |}.
(** A stand-in signature scheme: the signature is the hash of the message. *)
#[local] Instance toy_crypto : Crypto :=
  {| ripemd160 := fun l => take 20 (sha256 l); ed25519_verify := fun _ sg m => bool_decide (sg = sha256 m) |}.

Definition key : bytes := replicate 32 Byte.x07.
Definition address : string := match qortal_address key with Ok a => a | Raise _ => "" end.
Definition dest : string := "00112233445566778899aabbccddeeff".
Definition verifier : QortalIdentityVerifier :=
  {| _challenges := []; _max_outstanding_challenges := 2; _enforce_qapp_allowlist := true;
     _allowed_qapps := [("q-call", "APP")] |}.
Definition challenge : Challenge :=
  {| challenge_id := "c1"; nonce := "n1"; backend_destination := dest; expires_at := 60000 |}.
Definition signature : string :=
  match canonical_proof (signed_fields challenge address (base58_encode key) ("q-call", "APP")) with
  | Ok m => base58_encode (sha256 m) | Raise _ => ""
  end.
Definition proof : pyval :=
  VDict (signed_fields challenge address (base58_encode key) ("q-call", "APP") ++ [("signature", VStr signature)]).
Definition issued : QortalIdentityVerifier := fst (issue dest "c1" "n1" 0 verifier).

Lemma demo_init : init [(VStr "q-call", VStr "APP")] 2 true = Ok verifier.
Proof. vm_compute. reflexivity. Qed.
Lemma demo_address : qortal_address key = Ok address.
Proof. vm_compute. reflexivity. Qed.
Lemma demo_verify : verify proof 1000 issued = (fst (verify proof 1000 issued), Ok (address, base58_encode key, ("q-call", "APP"))).
Proof. vm_compute. reflexivity. Qed.
Lemma demo_digest l : length (ripemd160 l) = 20%nat.
Proof. cbn [ripemd160 toy_crypto]. rewrite length_take, length_sha256. reflexivity. Qed.

Lemma derived_address_valid_witness : is_qortal_address (VStr address) = true.
Proof. exact (derived_address_valid key address demo_digest demo_address). Defined.

Lemma verify_sound_witness : exists d cid c, proof = VDict d /\ od_get cid (_challenges issued) = Some c /\
  dget "challengeId" d = VStr cid /\ to_ms 1000 <= expires_at c /\
  proves issued c d address (base58_encode key) ("q-call", "APP") /\
  od_get cid (_challenges (fst (verify proof 1000 issued))) = None.
Proof. exact (verify_sound proof 1000 issued _ address (base58_encode key) ("q-call", "APP") demo_verify). Defined.

Lemma challenge_single_use_witness :
  total (accepts "c1") [Issue dest "c1" "n1" 0; Verify proof 1000; Verify proof 1000] verifier = 1%nat /\
  (total (accepts "c1") [Issue dest "c1" "n1" 0; Verify proof 1000; Verify proof 1000] verifier <=
   total (hands_out "c1") [Issue dest "c1" "n1" 0; Verify proof 1000; Verify proof 1000] verifier)%nat.
Proof.
  split; [vm_compute; reflexivity|].
  exact (challenge_single_use _ _ _ verifier _ "c1" demo_init).
Defined.

Lemma challenges_bounded_witness :
  length (_challenges (run_ops [Issue dest "c1" "n" 0; Issue dest "c2" "n" 0; Issue dest "c3" "n" 0] verifier)) = 2%nat /\
  (length (_challenges (run_ops [Issue dest "c1" "n" 0; Issue dest "c2" "n" 0; Issue dest "c3" "n" 0] verifier)) <=
   _max_outstanding_challenges (run_ops [Issue dest "c1" "n" 0; Issue dest "c2" "n" 0; Issue dest "c3" "n" 0] verifier))%nat.
Proof.
  split; [vm_compute; reflexivity|].
  exact (proj1 (challenges_bounded _ _ _ verifier _ demo_init)).
Defined.
End Demo.

End QortalThm.
