(* ===== verification/GroupAccess.v ===== *)
(** * Group access ([auth/group_access.py])

    Membership of a Qortal address in one of the configured groups, asked from
    the configured Cores, with a cache, a cool-down for Cores that failed and
    at most one check per address at a time.

    Parameters: the HTTP client ([urllib]) and what only a running process
    knows, indexed by the number of external calls made so far: the monotonic
    clock, whether a request slot was free in time, and the order in which the
    worker threads finish.  Times are in microseconds. *)

From stdpp Require Import prelude strings list gmap sorting.
From Stdlib Require Import ZArith Lia.
From S2P Require Import Prelude PyDict PyBytes Sha256 PyValue Json JsonFacts JsonBytes.

Module GroupAccess.

Definition SECOND : Z := 1000000.
Definition MAX_CORE_RESPONSE_BYTES : Z := 16 * 1024.
Definition CORE_REQUEST_TIMEOUT_SECONDS : Z := 2 * SECOND.
Definition CORE_CHECK_DEADLINE_SECONDS : Z := 6 * SECOND.
Definition CORE_FAILURE_COOLDOWN_SECONDS : Z := 30 * SECOND.
Definition MEMBERSHIP_CACHE_SECONDS : Z := 30 * SECOND.

Record MembershipResult := { allowed : bool; checked_at : Z }.

(** ** One request *)

(** [base.rstrip("/")] *)
Fixpoint drop_slashes (l : bytes) : bytes :=
  match l with b :: l' => if is_char "/" b then drop_slashes l' else l | [] => [] end.
Definition rstrip_slash (s : string) : string := bytes_str (rev (drop_slashes (rev (str_bytes s)))).

(** The HTTP exchange: the status and body of a response, or the exception of
    the client. *)
Definition http_client := string -> bytes -> Z -> res (Z * bytes).

(** [except (OSError, URLError, HTTPError)] *)
Definition is_OSError (e : exn) : bool := match e with OSError | TimeoutError _ | ConnectionError _ => true | _ => false end.

Definition unavailable {A} : res A := Raise GroupAccessUnavailable.

(** The checks on the parsed response. *)
Definition read_membership (address : string) (value : pyval) : res bool :=
  match value with
  | VList [VDict result] =>
    if negb (eq_str (dget "address" result) address) then unavailable else
    match dget "isMember" result with
    | VBool member =>
      match od_get "isAdmin" result with
      | Some (VBool _) | None => Ok member
      | Some _ => unavailable
      end
    | _ => unavailable
    end
  | _ => unavailable
  end.

(** [_request_membership] *)
Definition _request_membership (http : http_client) (base : string) (group_id : Z) (address : string) (timeout : Z) : res bool :=
  let? text := dumps true (VList [VStr address]) in
  let? body := encode_utf8 text in
  let url := (rstrip_slash base ++ "/groups/members/" ++ bytes_str (dec group_id) ++ "/validate")%string in
  match http url body timeout with
  | Raise e => if is_OSError e then unavailable else Raise e
  | Ok (status, response) =>
    if negb (status =? 200) then unavailable else
    let raw := take (Z.to_nat (MAX_CORE_RESPONSE_BYTES + 1)) response in
    if MAX_CORE_RESPONSE_BYTES <? Z.of_nat (length raw) then unavailable else
    match loads_raw raw with
    | Raise e => match e with UnicodeError | JSONDecodeError => unavailable | _ => Raise e end
    | Ok value => read_membership address value
    end
  end.

(** ** The policy *)

Record GroupAccessPolicy := {
  mode : string;
  group_ids : list Z;
  core_url_bases : list string;
  revision : string;
  _cache : gmap string MembershipResult;
  _pending : gset string;
  _core_failed_until : gmap string Z;
  calls : nat
}.

Definition set_cache (x : gmap string MembershipResult) (p : GroupAccessPolicy) : GroupAccessPolicy :=
  {| mode := mode p; group_ids := group_ids p; core_url_bases := core_url_bases p; revision := revision p;
     _cache := x; _pending := _pending p; _core_failed_until := _core_failed_until p; calls := calls p |}.
Definition set_pending (x : gset string) (p : GroupAccessPolicy) : GroupAccessPolicy :=
  {| mode := mode p; group_ids := group_ids p; core_url_bases := core_url_bases p; revision := revision p;
     _cache := _cache p; _pending := x; _core_failed_until := _core_failed_until p; calls := calls p |}.
Definition set_core_failed_until (x : gmap string Z) (p : GroupAccessPolicy) : GroupAccessPolicy :=
  {| mode := mode p; group_ids := group_ids p; core_url_bases := core_url_bases p; revision := revision p;
     _cache := _cache p; _pending := _pending p; _core_failed_until := x; calls := calls p |}.
Definition set_calls (x : nat) (p : GroupAccessPolicy) : GroupAccessPolicy :=
  {| mode := mode p; group_ids := group_ids p; core_url_bases := core_url_bases p; revision := revision p;
     _cache := _cache p; _pending := _pending p; _core_failed_until := _core_failed_until p; calls := x |}.

(** [GroupAccessPolicy.__init__] *)
Definition init (m : string) (groups : list Z) (bases : list string) : res GroupAccessPolicy :=
  let? text := dumps true (VDict [("groups", VList (map VInt (merge_sort Z.le groups))); ("mode", VStr m)]) in
  let? revision_input := encode_utf8 text in
  Ok {| mode := m; group_ids := groups; core_url_bases := map rstrip_slash bases;
        revision := sha256_hex revision_input; _cache := ∅; _pending := ∅; _core_failed_until := ∅; calls := 0 |}.

(** ** The world around the policy *)

Class World := {
  monotonic : nat -> Z;
  slot_free : nat -> bool;
  requester : nat -> string -> Z -> string -> Z -> res bool;
  completion : nat -> list Z -> list Z;
  still_running : nat -> Z -> bool
}.

Section policy.
Context `{World}.
Abbreviation PM := (M GroupAccessPolicy).

(** The number of the next external call. *)
Definition call_number : PM nat :=
  let! n := gets calls in modify (set_calls (S n)) ;! ret n.
Definition clock : PM Z := let! n := call_number in ret (monotonic n).

(** The Cores that are not cooling down; the clock is read once per base. *)
Fixpoint usable (bases : list string) : PM (list string) :=
  match bases with
  | [] => ret []
  | base :: rest =>
    let! now := clock in
    let! until := gets (fun p => default 0 (_core_failed_until p !! base)) in
    let! others := usable rest in
    ret (if until <=? now then base :: others else others)
  end.

(** One request, recording whether the Core answered. *)
Definition ask (base : string) (group_id : Z) (address : string) (timeout : Z) : PM (option bool) :=
  let! n := call_number in
  match requester n base group_id address timeout with
  | Ok result =>
    modify (fun p => set_core_failed_until (delete base (_core_failed_until p)) p) ;! ret (Some result)
  | Raise _ =>
    let! now := clock in
    modify (fun p => set_core_failed_until (<[base := now + CORE_FAILURE_COOLDOWN_SECONDS]> (_core_failed_until p)) p) ;!
    ret None
  end.

Fixpoint try_bases (address : string) (group_id deadline : Z) (bases : list string) : PM bool :=
  match bases with
  | [] => raise GroupAccessUnavailable
  | base :: rest =>
    let! now := clock in
    let remaining := deadline - now in
    if remaining <=? 0 then raise GroupAccessUnavailable else
    let! n := call_number in
    if negb (slot_free n) then try_bases address group_id deadline rest else
    let! answer := ask base group_id address (Z.min CORE_REQUEST_TIMEOUT_SECONDS remaining) in
    match answer with
    | Some result => ret result
    | None => try_bases address group_id deadline rest
    end
  end.

(** [_check_one_group] *)
Definition _check_one_group (address : string) (group_id : Z) : PM bool :=
  let! now := clock in
  let deadline := now + CORE_CHECK_DEADLINE_SECONDS in
  let! all_bases := gets core_url_bases in
  let! bases := usable all_bases in
  try_bases address group_id deadline (if bool_decide (bases = []) then all_bases else bases).

(** [except GroupAccessUnavailable] around one result *)
Definition is_unavailable (e : exn) : bool := match e with GroupAccessUnavailable => true | _ => false end.
Definition result_of (address : string) (group_id : Z) : PM (option bool) :=
  try_catch (let! b := _check_one_group address group_id in ret (Some b)) is_unavailable (fun _ => ret None).

(** The results in the order the workers finish.  After a positive answer the
    workers that have not started are cancelled, the running ones are waited
    for. *)
Fixpoint collect (address : string) (order : list Z) (unavail : bool) : PM bool :=
  match order with
  | [] => if unavail then raise GroupAccessUnavailable else ret false
  | g :: rest =>
    let! answer := result_of address g in
    match answer with
    | Some true =>
      let! n := call_number in
      iterM (fun g' => result_of address g' ;! ret tt) (List.filter (still_running n) rest) ;!
      ret true
    | Some false => collect address rest unavail
    | None => collect address rest true
    end
  end.

(** [_check_groups] *)
Definition _check_groups (address : string) : PM bool :=
  let! groups := gets group_ids in
  if bool_decide (groups = []) then raise (ValueError "max_workers must be greater than 0") else
  let! n := call_number in
  collect address (completion n groups) false.

(** ** [authorize] *)

Inductive entry := Cached (r : MembershipResult) | Busy | Leader.

(** The block under the lock at the head of [authorize]. *)
Definition enter (address : string) (now : Z) : PM entry :=
  let! p := get in
  let fresh := match _cache p !! address with
               | Some r => if now - checked_at r <? MEMBERSHIP_CACHE_SECONDS then Some r else None
               | None => None
               end in
  match fresh with
  | Some r => ret (Cached r)
  | None =>
    if bool_decide (address ∈ _pending p) then ret Busy
    else modify (fun p => set_pending ({[address]} ∪ _pending p) p) ;! ret Leader
  end.

Definition answer_of (r : MembershipResult) : res Z :=
  if allowed r then Ok (checked_at r) else Raise GroupAccessDenied.

(** The [try] block of the thread that checks. *)
Definition check (address : string) (now : Z) : PM MembershipResult :=
  let! ok := _check_groups address in
  let result := {| allowed := ok; checked_at := now |} in
  modify (fun p => set_cache (<[address := result]> (_cache p)) p) ;! ret result.

(** Its [finally] block. *)
Definition release (address : string) : PM unit :=
  modify (fun p => set_pending (_pending p ∖ {[address]}) p).

Definition lead (address : string) (now : Z) : PM Z :=
  let! r := finally (check address now) (release address) in lift (answer_of r).

(** [authorize].  While the thread waits for another one, others change the
    policy: each element of [others] is what happened until it woke up, and
    the wait times out when there are no more. *)
Fixpoint authorize (others : list (GroupAccessPolicy -> GroupAccessPolicy)) (address : string) (now : Z) : PM Z :=
  let! p := get in
  if bool_decide (mode p = "public") then ret now else
  let! e := enter address now in
  match e with
  | Cached r => lift (answer_of r)
  | Leader => lead address now
  | Busy =>
    match others with
    | [] => raise GroupAccessUnavailable
    | f :: others' => modify f ;! authorize others' address now
    end
  end.
End policy.

End GroupAccess.
