(* ===== verification/GroupFacts.v ===== *)
(** * Group access fails closed

    An address is let in only on the word of a configured Core, turned away
    only when the Cores answered for every group, and an outage is never
    remembered as an answer.  With several threads asking, at most one check
    per address runs at a time. *)

From stdpp Require Import prelude strings list gmap sorting.
From Stdlib Require Import ZArith Lia.
From S2P Require Import Prelude PyDict PyBytes Sha256 PyValue Json JsonFacts JsonBytes GroupAccess.

Module GroupThm.
Import GroupAccess.

Section facts.
Context `{World}.

(** What a Core said about an address in one group. *)
Definition said (p : GroupAccessPolicy) (a : string) (g : Z) (b : bool) : Prop :=
  exists n base t, base ∈ core_url_bases p /\ requester n base g a t = Ok b.

Definition member (p : GroupAccessPolicy) (a : string) : Prop := exists g, g ∈ group_ids p /\ said p a g true.
Definition nonmember (p : GroupAccessPolicy) (a : string) : Prop := forall g, g ∈ group_ids p -> said p a g false.

(** The configuration, and what a check leaves alone. *)
Definition same_config (p p' : GroupAccessPolicy) : Prop :=
  mode p' = mode p /\ group_ids p' = group_ids p /\ core_url_bases p' = core_url_bases p /\ revision p' = revision p.
Definition same_memory (p p' : GroupAccessPolicy) : Prop :=
  same_config p p' /\ _cache p' = _cache p /\ _pending p' = _pending p.

#[export] Instance same_config_preorder : PreOrder same_config.
Proof. split; [by repeat split|]. intros x y z (? & ? & ? & ?) (? & ? & ? & ?). repeat split; congruence. Qed.
Lemma same_config_refl p : same_config p p.
Proof. reflexivity. Qed.
#[export] Instance same_memory_preorder : PreOrder same_memory.
Proof. split; [by repeat split|]. intros x y z (? & ? & ?) (? & ? & ?). split; [by etrans|split; congruence]. Qed.

Lemma said_config p p' a g b : same_config p p' -> said p' a g b <-> said p a g b.
Proof. intros (_ & _ & E & _). unfold said. by rewrite E. Qed.
Lemma said_back p p' a g b : same_config p p' -> said p' a g b -> said p a g b.
Proof. intros Hc. apply (proj1 (said_config p p' a g b Hc)). Qed.
Lemma member_config p p' a : same_config p p' -> member p' a <-> member p a.
Proof.
  intros (_ & Eg & Eb & _). unfold member, said. by rewrite Eg, Eb.
Qed.
Lemma nonmember_config p p' a : same_config p p' -> nonmember p' a <-> nonmember p a.
Proof.
  intros (_ & Eg & Eb & _). unfold nonmember, said. by rewrite Eg, Eb.
Qed.

(** ** Requests *)

Lemma call_number_spec p : call_number p = (set_calls (S (calls p)) p, Ok (calls p)).
Proof. done. Qed.
Lemma clock_spec p : clock p = (set_calls (S (calls p)) p, Ok (monotonic (calls p))).
Proof. done. Qed.

Lemma usable_spec bases p : exists p' l, usable bases p = (p', Ok l) /\ same_memory p p' /\ l ⊆ bases.
Proof.
  revert p. induction bases as [|base rest IH]; intros p; cbn [usable]; [by exists p, []|].
  unfold bind. rewrite clock_spec. cbn [gets]. unfold gets.
  destruct (IH (set_calls (S (calls p)) p)) as (p' & l & -> & Hm & Hl). unfold ret.
  eexists p', _. split; [done|]. split; [exact Hm|]. case_match; set_solver.
Qed.

Lemma ask_spec base g a t p : exists p' o, ask base g a t p = (p', Ok o) /\ same_memory p p' /\
  (forall b, o = Some b -> exists n, requester n base g a t = Ok b).
Proof.
  unfold ask, bind. rewrite call_number_spec. destruct (requester (calls p) base g a t) as [b|e] eqn:Er.
  - eexists _, (Some b). split; [reflexivity|]. split; [by repeat split|]. intros ? [= <-]. eauto.
  - rewrite clock_spec. eexists _, None. split; [reflexivity|]. split; [by repeat split|done].
Qed.

(** A procedure that keeps the memory and whose result satisfies [Q]. *)
Definition quiet {A} (c : M GroupAccessPolicy A) (p : GroupAccessPolicy) (Q : res A -> Prop) : Prop :=
  same_memory p (fst (c p)) /\ Q (snd (c p)).

Lemma try_bases_spec a g deadline bases p (Hsub : bases ⊆ core_url_bases p) :
  quiet (try_bases a g deadline bases) p
    (fun r => match r with Ok b => said p a g b | Raise e => e = GroupAccessUnavailable end).
Proof.
  revert p Hsub. induction bases as [|base rest IH]; intros p Hsub; cbn [try_bases]; [by repeat split|].
  unfold quiet, bind. rewrite clock_spec. destruct (_ <=? 0); [by repeat split|].
  rewrite call_number_spec. set (p1 := set_calls _ (set_calls _ p)). cbn [calls set_calls].
  assert (same_memory p p1) as Hm1 by by repeat split.
  assert (quiet (try_bases a g deadline rest) p1
    (fun r => match r with Ok b => said p1 a g b | Raise e => e = GroupAccessUnavailable end)) as Hrest.
  { apply IH. cbn. set_solver. }
  destruct (negb _).
  { destruct Hrest as [Hr1 Hr2]. split; [by etrans|]. exact Hr2. }
  destruct (ask_spec base g a (Z.min CORE_REQUEST_TIMEOUT_SECONDS (deadline - monotonic (calls p))) p1)
    as (p2 & o & -> & Hm2 & Ho).
  destruct o as [b|].
  - cbn [ret fst snd]. split; [by etrans|]. destruct (Ho b eq_refl) as (n & Hn). exists n, base. eexists. split; [set_solver|done].
  - destruct (IH p2) as [Hr1 Hr2]; [destruct Hm2 as ((_ & _ & -> & _) & _); cbn; set_solver|].
    split; [etrans; [exact Hm1|]; by etrans|]. destruct (snd _); [|done].
    eapply said_back; [|exact Hr2]. destruct Hm1, Hm2. by transitivity p1.
Qed.

Lemma check_one_group_spec a g p :
  quiet (_check_one_group a g) p (fun r => match r with Ok b => said p a g b | Raise e => e = GroupAccessUnavailable end).
Proof.
  unfold quiet, _check_one_group, bind. rewrite clock_spec. unfold gets.
  destruct (usable_spec (core_url_bases (set_calls (S (calls p)) p)) (set_calls (S (calls p)) p)) as (p' & l & -> & Hm & Hl).
  set (bases := if bool_decide _ then _ else _).
  assert (bases ⊆ core_url_bases p') as Hsub.
  { destruct Hm as ((_ & _ & E & _) & _). unfold bases. rewrite E. by case_bool_decide. }
  destruct (try_bases_spec a g (monotonic (calls p) + CORE_CHECK_DEADLINE_SECONDS) bases p' Hsub) as [Hr1 Hr2].
  split; [etrans; [|exact Hr1]; etrans; [|exact Hm]; by repeat split|].
  destruct (snd _); [|done]. eapply said_back; [|exact Hr2]. by destruct Hm.
Qed.

Lemma result_of_spec a g p : exists p' o, result_of a g p = (p', Ok o) /\ same_memory p p' /\
  (forall b, o = Some b -> said p a g b).
Proof.
  destruct (check_one_group_spec a g p) as [Hm Hr]. unfold result_of, try_catch, bind.
  destruct (_check_one_group a g p) as [p' [b|e]]; cbn [fst snd] in *.
  - eexists p', (Some b). split; [reflexivity|]. split; [done|]. by intros ? [= <-].
  - rewrite Hr. cbn [is_unavailable]. by eexists p', None.
Qed.

Lemma drain_spec a gs p : exists p', iterM (fun g => bind (result_of a g) (fun _ => ret tt)) gs p = (p', Ok tt) /\ same_memory p p'.
Proof.
  revert p. induction gs as [|g gs IH]; intros p; cbn [iterM]; [by exists p|].
  destruct (result_of_spec a g p) as (p1 & o & E & Hm & _). destruct (IH p1) as (p2 & E2 & Hm2). exists p2.
  split; [|by etrans]. rewrite <- E2. unfold bind at 1 2. by rewrite E.
Qed.

Lemma collect_spec a order un p :
  quiet (collect a order un) p (fun r => match r with
    | Ok true => exists g, g ∈ order /\ said p a g true
    | Ok false => un = false /\ forall g, g ∈ order -> said p a g false
    | Raise e => e = GroupAccessUnavailable
    end).
Proof.
  revert un p. induction order as [|g rest IH]; intros un p; cbn [collect].
  { destruct un; [by repeat split|]. split; [done|]. split; [done|]. intros g Hg. set_solver. }
  unfold quiet. destruct (result_of_spec a g p) as (p1 & o & E & Hm & Ho). rewrite (bind_ok _ _ _ _ _ E). destruct o as [[]|].
  - rewrite (bind_ok _ _ _ _ _ (call_number_spec p1)).
    destruct (drain_spec a (List.filter (still_running (calls p1)) rest) (set_calls (S (calls p1)) p1)) as (p2 & E2 & Hm2).
    rewrite (bind_ok _ _ _ _ _ E2). cbn [ret fst snd]. split; [etrans; [exact Hm|]; etrans; [|exact Hm2]; by repeat split|].
    exists g. split; [by left|by apply Ho].
  - destruct (IH un p1) as [Hr1 Hr2]. split; [by etrans|]. destruct (snd _) as [[]|]; [| |done].
    + destruct Hr2 as (g' & Hg' & Hs). exists g'. split; [by right|]. eapply said_back; [|exact Hs]. apply Hm.
    + destruct Hr2 as [Hu Hs]. split; [done|]. intros g' [->|Hg']%elem_of_cons; [by apply Ho|].
      eapply said_back; [apply Hm|by apply Hs].
  - destruct (IH true p1) as [Hr1 Hr2]. split; [by etrans|]. destruct (snd _) as [[]|]; [| |done].
    + destruct Hr2 as (g' & Hg' & Hs). exists g'. split; [by right|]. eapply said_back; [|exact Hs]. apply Hm.
    + by destruct Hr2.
Qed.

(** ** One call of [authorize] *)

(** [as_completed] yields every future once. *)
Class WorldOk : Prop := { completion_perm : forall n l, completion n l ≡ₚ l }.
Context `{!WorldOk}.

(** A cached answer is an answer some Core gave. *)
Definition cache_ok (p : GroupAccessPolicy) : Prop :=
  forall a r, _cache p !! a = Some r -> if allowed r then member p a else nonmember p a.

Lemma cache_ok_insert p a r : cache_ok p -> (if allowed r then member p a else nonmember p a) ->
  cache_ok (set_cache (<[a := r]> (_cache p)) p).
Proof.
  intros Hok Hr a' r'. cbn [_cache set_cache]. intros [[<- <-]|[_ Hl]]%lookup_insert_Some; [exact Hr|].
  exact (Hok a' r' Hl).
Qed.

Lemma cache_ok_same p p' : same_config p p' -> _cache p' = _cache p -> cache_ok p -> cache_ok p'.
Proof.
  intros Hc E Hok a r. rewrite E. intros Hl. specialize (Hok a r Hl).
  destruct (allowed r); [by apply (member_config p p')|by apply (nonmember_config p p')].
Qed.

Lemma check_groups_spec a p : quiet (_check_groups a) p (fun r => match r with
    | Ok true => member p a
    | Ok false => nonmember p a
    | Raise e => e = GroupAccessUnavailable \/ (group_ids p = [] /\ e ≠ GroupAccessDenied)
    end).
Proof.
  unfold quiet, _check_groups, bind, gets. case_bool_decide as Hg; [split; [done|by right]|].
  rewrite call_number_spec. set (p1 := set_calls _ p).
  destruct (collect_spec a (completion (calls p) (group_ids p)) false p1) as [Hm Hr].
  split; [etrans; [|exact Hm]; by repeat split|].
  destruct (snd _) as [[]|e]; [| |by left].
  - destruct Hr as (g & Hin & Hs). exists g. split; [by rewrite completion_perm in Hin|]. exact Hs.
  - destruct Hr as [_ Hs]. intros g Hin. apply Hs. by rewrite completion_perm.
Qed.

Definition outcome_ok (p : GroupAccessPolicy) (a : string) (now : Z) (r : res Z) : Prop :=
  match r with
  | Ok t => member p a /\ now - t < MEMBERSHIP_CACHE_SECONDS
  | Raise GroupAccessDenied => nonmember p a
  | Raise GroupAccessUnavailable => True
  | Raise _ => group_ids p = []
  end.

Lemma outcome_ok_config p p' a now r : same_config p p' -> outcome_ok p' a now r -> outcome_ok p a now r.
Proof.
  intros Hc. unfold outcome_ok. destruct r as [t|e]; [by rewrite (member_config p p' a Hc)|].
  destruct Hc as (E1 & E2 & E3 & E4). assert (same_config p p') as Hc by by repeat split.
  destruct e; rewrite ?E2; try done. by rewrite (nonmember_config p p' a Hc).
Qed.

(** The check of one thread: what it stores is what the Cores said, and a
    failure stores nothing. *)
Lemma check_spec a now p : cache_ok p ->
  let p' := fst (check a now p) in
  same_config p p' /\ _pending p' = _pending p /\ cache_ok p' /\
  match snd (check a now p) with
  | Ok r => checked_at r = now /\ (if allowed r then member p a else nonmember p a)
  | Raise e => _cache p' = _cache p /\ (e = GroupAccessUnavailable \/ (group_ids p = [] /\ e ≠ GroupAccessDenied))
  end.
Proof.
  intros Hok. cbv zeta. destruct (check_groups_spec a p) as [(Hc & Ecache & Epend) Hr]. unfold check, bind.
  destruct (_check_groups a p) as [p1 [b|e]]; cbn [fst snd] in *.
  - unfold modify, ret. cbn [fst snd]. split; [exact Hc|]. split; [exact Epend|].
    split; [|split; [done|by destruct b]]. apply cache_ok_insert; [by apply (cache_ok_same p)|]. cbn [allowed].
    destruct b; [by apply (member_config p p1)|by apply (nonmember_config p p1)].
  - split; [done|]. split; [done|]. split; [by apply (cache_ok_same p)|]. done.
Qed.

Lemma lead_eq a now p : lead a now p =
  (fst (release a (fst (check a now p))), match snd (check a now p) with Ok r => answer_of r | Raise e => Raise e end).
Proof. unfold lead, finally, release, bind, modify, lift. by destruct (check a now p) as [p1 [r|e]]. Qed.

Lemma enter_cases a now p :
  (exists r, _cache p !! a = Some r /\ now - checked_at r < MEMBERSHIP_CACHE_SECONDS /\ enter a now p = (p, Ok (Cached r))) \/
  (a ∈ _pending p /\ enter a now p = (p, Ok Busy)) \/
  (a ∉ _pending p /\ enter a now p = (set_pending ({[a]} ∪ _pending p) p, Ok Leader)).
Proof.
  unfold enter, bind, get. destruct (_cache p !! a) as [r|].
  - destruct (now - checked_at r <? MEMBERSHIP_CACHE_SECONDS) eqn:Et; [left; exists r; split; [done|split; [lia|done]]|].
    right. case_bool_decide; [by left|by right].
  - right. case_bool_decide; [by left|by right].
Qed.

Lemma answer_ok p a now r :
  (if allowed r then member p a else nonmember p a) -> now - checked_at r < MEMBERSHIP_CACHE_SECONDS ->
  outcome_ok p a now (answer_of r).
Proof. unfold answer_of. by destruct (allowed r). Qed.

Lemma lead_ok a now p : cache_ok p ->
  cache_ok (fst (lead a now p)) /\ same_config p (fst (lead a now p)) /\ outcome_ok p a now (snd (lead a now p)).
Proof.
  intros Hok. destruct (check_spec a now p Hok) as (Hc & _ & Hok' & Hres). rewrite lead_eq. cbn [fst snd].
  split; [exact (cache_ok_same _ _ ltac:(by repeat split) eq_refl Hok')|]. split; [exact Hc|].
  destruct (snd (check a now p)) as [r|e].
  - destruct Hres as [Et Hr]. apply answer_ok; [exact Hr|]. unfold MEMBERSHIP_CACHE_SECONDS, SECOND. lia.
  - destruct Hres as [_ [->|[Hg Hd]]]; [done|]. by destruct e.
Qed.

Lemma authorize_unfold others a now p : mode p ≠ "public" -> authorize others a now p =
  match enter a now p with
  | (p', Ok (Cached r)) => (p', answer_of r)
  | (p', Ok Leader) => lead a now p'
  | (p', Ok Busy) => match others with
                     | [] => (p', Raise GroupAccessUnavailable)
                     | f :: others' => authorize others' a now (f p')
                     end
  | (p', Raise e) => (p', Raise e)
  end.
Proof.
  intros Hm. destruct others; cbn [authorize]; unfold bind, get; rewrite bool_decide_false by done;
    destruct (enter a now p) as [p' [[]|]]; done.
Qed.

(** What [authorize] answers in group mode. *)
Lemma authorize_closed others a now p : mode p ≠ "public" -> cache_ok p ->
  Forall (fun f => forall q, cache_ok q -> cache_ok (f q) /\ same_config q (f q)) others ->
  cache_ok (fst (authorize others a now p)) /\ same_config p (fst (authorize others a now p)) /\
  outcome_ok p a now (snd (authorize others a now p)).
Proof.
  intros Hmode Hcache Hothers.
  revert p Hmode Hcache. induction others as [|f others IH]; intros p Hmode Hcache; rewrite authorize_unfold by done;
    destruct (enter_cases a now p) as [(r & El & Et & E)|[(_ & E)|(_ & E)]]; rewrite E.
  1, 4: exact (conj Hcache (conj (same_config_refl p) (answer_ok p a now r (Hcache a r El) Et))).
  1: exact (conj Hcache (conj (same_config_refl p) I)).
  1, 3: destruct (lead_ok a now (set_pending ({[a]} ∪ _pending p) p)) as (H1 & H2 & H3);
    [by apply (cache_ok_same p)|exact (conj H1 (conj H2 H3))].
  apply Forall_cons_1 in Hothers as [Hf Hothers]. destruct (Hf p Hcache) as [Hok Hc].
  destruct (IH Hothers (f p)) as (H1 & H2 & H3); [by destruct Hc as [-> _]|done|].
  split; [done|]. split; [by etrans|]. by eapply outcome_ok_config.
Qed.


(** ** Several threads *)

(** A thread inside [authorize]: before its first block, waiting for another
    thread's event, checking, done checking but not yet out of its [finally],
    finished. *)
Inductive phase :=
| Entering
| Waiting
| Checking
| Checked (r : res MembershipResult)
| Finished (r : res Z).

Record thread := { t_address : string; t_now : Z; t_phase : phase }.
Definition at_phase (t : thread) (ph : phase) : thread := {| t_address := t_address t; t_now := t_now t; t_phase := ph |}.

Record system := { policy : GroupAccessPolicy; threads : gmap nat thread }.

(** One scheduled block of one thread. *)
Inductive sys_step : system -> system -> Prop :=
| StepStart s i a now : threads s !! i = None -> mode (policy s) ≠ "public" ->
    sys_step s {| policy := policy s; threads := <[i := {| t_address := a; t_now := now; t_phase := Entering |}]> (threads s) |}
| StepEnter s i t p' e : threads s !! i = Some t -> t_phase t = Entering ->
    enter (t_address t) (t_now t) (policy s) = (p', Ok e) ->
    sys_step s {| policy := p'; threads := <[i := at_phase t (match e with
      | Cached r => Finished (answer_of r) | Busy => Waiting | Leader => Checking end)]> (threads s) |}
| StepWake s i t : threads s !! i = Some t -> t_phase t = Waiting -> t_address t ∉ _pending (policy s) ->
    sys_step s {| policy := policy s; threads := <[i := at_phase t Entering]> (threads s) |}
| StepTimeout s i t : threads s !! i = Some t -> t_phase t = Waiting ->
    sys_step s {| policy := policy s; threads := <[i := at_phase t (Finished (Raise GroupAccessUnavailable))]> (threads s) |}
| StepCheck s i t p' r : threads s !! i = Some t -> t_phase t = Checking ->
    check (t_address t) (t_now t) (policy s) = (p', r) ->
    sys_step s {| policy := p'; threads := <[i := at_phase t (Checked r)]> (threads s) |}
| StepRelease s i t r : threads s !! i = Some t -> t_phase t = Checked r ->
    sys_step s {| policy := fst (release (t_address t) (policy s));
                  threads := <[i := at_phase t (Finished (match r with Ok m => answer_of m | Raise e => Raise e end))]> (threads s) |}.

Definition working (ph : phase) : bool := match ph with Checking | Checked _ => true | _ => false end.

Definition phase_ok (p : GroupAccessPolicy) (t : thread) : Prop :=
  match t_phase t with
  | Checked (Ok r) => if allowed r then member p (t_address t) else nonmember p (t_address t)
  | Checked (Raise e) => e = GroupAccessUnavailable \/ (group_ids p = [] /\ e ≠ GroupAccessDenied)
  | Finished (Ok _) => member p (t_address t)
  | Finished (Raise GroupAccessDenied) => nonmember p (t_address t)
  | _ => True
  end.

Record sys_inv (s : system) : Prop := {
  inv_cache : cache_ok (policy s);
  inv_phase : forall i t, threads s !! i = Some t -> phase_ok (policy s) t;
  inv_unique : forall i j t u, threads s !! i = Some t -> threads s !! j = Some u ->
    working (t_phase t) = true -> working (t_phase u) = true -> t_address t = t_address u -> i = j;
  inv_pending : forall a, a ∈ _pending (policy s) <->
    exists i t, threads s !! i = Some t /\ t_address t = a /\ working (t_phase t) = true
}.

Lemma phase_ok_config p p' t : same_config p p' -> phase_ok p t -> phase_ok p' t.
Proof.
  intros Hc. unfold phase_ok. pose proof (member_config p p' (t_address t) Hc). pose proof (nonmember_config p p' (t_address t) Hc).
  destruct Hc as (_ & -> & _). destruct (t_phase t) as [| | |[r|e]|[r|e]]; try done.
  - destruct (allowed r); tauto.
  - tauto.
  - destruct e; tauto.
Qed.

(** A step of thread [i] that keeps the set of working threads in line with
    the set of pending addresses. *)
Lemma sys_inv_update s i t ph p' :
  sys_inv s -> threads s !! i = Some t -> same_config (policy s) p' -> cache_ok p' -> phase_ok p' (at_phase t ph) ->
  (forall a, a ∈ _pending p' <-> (a ∈ _pending (policy s) /\ a ≠ t_address t) \/ (a = t_address t /\ (working ph = true \/
     (working (t_phase t) = false /\ a ∈ _pending (policy s))))) ->
  (working ph = true -> working (t_phase t) = true \/ t_address t ∉ _pending (policy s)) ->
  sys_inv {| policy := p'; threads := <[i := at_phase t ph]> (threads s) |}.
Proof.
  intros [Hcache Hphase Huniq Hpend] Hi Hc Hok Hph Hp Hw. split; cbn [policy threads].
  - done.
  - intros j u [[<- <-]|[_ Hj]]%lookup_insert_Some; [done|]. by eapply phase_ok_config; [|eapply Hphase].
  - assert (forall j u, threads s !! j = Some u -> i ≠ j -> working (t_phase u) = true -> working ph = true ->
      t_address u = t_address t -> False) as Hone.
    { intros j u Hj Hne Hwu Hwp Ha. destruct (Hw Hwp) as [Hwt|Hnot].
      - apply Hne. by eapply Huniq.
      - apply Hnot, Hpend. by exists j, u. }
    intros j k u v [[<- <-]|[Hnj Hj]]%lookup_insert_Some [[<- <-]|[Hnk Hk]]%lookup_insert_Some; cbn [at_phase t_phase t_address].
    + done.
    + intros Hwp Hwv Ha. exfalso. by eapply (Hone k v).
    + intros Hwu Hwp Ha. exfalso. by eapply (Hone j u).
    + by eapply Huniq.
  - intros a. rewrite Hp. split.
    + intros [[Hin Hne]|[-> [Hwp|[Hwt Hin]]]].
      * apply Hpend in Hin as (j & u & Hj & Ha & Hwu). exists j, u. split; [|done].
        rewrite lookup_insert_ne; [done|]. intros <-. congruence.
      * exists i, (at_phase t ph). by rewrite lookup_insert_eq.
      * apply Hpend in Hin as (j & u & Hj & Ha & Hwu). exists j, u. split; [|done].
        rewrite lookup_insert_ne; [done|]. intros <-. congruence.
    + intros (j & u & [[<- <-]|[Hnj Hj]]%lookup_insert_Some & Ha & Hwu); cbn [at_phase t_phase t_address] in *; [by right; auto|].
      assert (a ∈ _pending (policy s)) as Hin by (apply Hpend; eauto).
      destruct (decide (a = t_address t)) as [->|]; [|by left]. right. split; [done|].
      destruct (working (t_phase t)) eqn:Hwt; [|by right]. exfalso. apply Hnj. by eapply Huniq.
Qed.

Lemma sys_inv_start s i a now : sys_inv s -> threads s !! i = None ->
  sys_inv {| policy := policy s; threads := <[i := {| t_address := a; t_now := now; t_phase := Entering |}]> (threads s) |}.
Proof.
  intros [Hcache Hphase Huniq Hpend] Hi. split; cbn [policy threads].
  - done.
  - intros j u [[<- <-]|[_ Hj]]%lookup_insert_Some; [done|by eapply Hphase].
  - intros j k u v [[<- <-]|[_ Hj]]%lookup_insert_Some [[<- <-]|[_ Hk]]%lookup_insert_Some; try done. by apply Huniq.
  - intros b. rewrite Hpend. split.
    + intros (j & u & Hj & Ha & Hw). exists j, u. split; [|done]. rewrite lookup_insert_ne; [done|congruence].
    + intros (j & u & [[<- <-]|[_ Hj]]%lookup_insert_Some & Ha & Hw); [done|eauto].
Qed.

(** Blocks that neither start nor end a check. *)
Lemma sys_inv_quiet s i t ph : sys_inv s -> threads s !! i = Some t -> working (t_phase t) = false -> working ph = false ->
  phase_ok (policy s) (at_phase t ph) -> sys_inv {| policy := policy s; threads := <[i := at_phase t ph]> (threads s) |}.
Proof.
  intros Hinv Hi Hwt Hwp Hph. apply (sys_inv_update s i t ph (policy s)); [done..|apply Hinv|done| |by rewrite Hwp].
  intros a. destruct (decide (a = t_address t)) as [->|]; rewrite ?Hwt, ?Hwp; naive_solver.
Qed.

Lemma sys_step_inv s s' : sys_step s s' -> sys_inv s -> sys_inv s'.
Proof.
  intros [s0 i a now Hi Hm|s0 i t p' e Hi Hp He|s0 i t Hi Hp Hn|s0 i t Hi Hp|s0 i t p' r Hi Hp Hc|s0 i t r Hi Hp] Hinv.
  - by apply sys_inv_start.
  - destruct (enter_cases (t_address t) (t_now t) (policy s0)) as [(r & El & Et & E)|[(Hin & E)|(Hin & E)]];
      rewrite E in He; injection He as <- <-.
    + apply sys_inv_quiet; [done..|by rewrite Hp|done|]. pose proof (inv_cache _ Hinv _ _ El) as Hr.
      unfold phase_ok, answer_of. cbn [at_phase t_phase t_address]. by destruct (allowed r).
    + apply sys_inv_quiet; [done..|by rewrite Hp|done|done].
    + eapply (sys_inv_update s0 i t); [done..| |done| |by right].
      * by apply (cache_ok_same (policy s0)); [| |apply Hinv].
      * intros a. cbn [_pending set_pending]. destruct (decide (a = t_address t)) as [->|]; set_solver.
  - apply sys_inv_quiet; [done..|by rewrite Hp|done|done].
  - apply sys_inv_quiet; [done..|by rewrite Hp|done|done].
  - destruct (check_spec (t_address t) (t_now t) (policy s0) (inv_cache _ Hinv)) as (Hconf & Hpend & Hok & Hres).
    rewrite Hc in Hconf, Hpend, Hok, Hres. cbn [fst snd] in *.
    apply (sys_inv_update s0 i t); [done..| | |by left; rewrite Hp].
    + apply (phase_ok_config (policy s0)); [done|]. unfold phase_ok. cbn [at_phase t_phase t_address].
      destruct r; [by destruct Hres|by destruct Hres].
    + intros a. rewrite Hpend. destruct (decide (a = t_address t)) as [->|]; [|naive_solver].
      split; [by right; auto|]. intros _. apply (inv_pending _ Hinv). exists i, t. by rewrite Hp.
  - apply (sys_inv_update s0 i t); [done|done|by repeat split| | | |].
    + by apply (cache_ok_same (policy s0)); [| |apply Hinv].
    + pose proof (inv_phase _ Hinv i t Hi) as Ht. unfold phase_ok in Ht |- *. rewrite Hp in Ht. cbn [at_phase t_phase t_address].
      destruct r as [m|e]; [unfold answer_of; by destruct (allowed m)|]. destruct Ht as [->|[_ Hd]]; [done|by destruct e].
    + intros a. unfold release, modify. cbn [fst _pending set_pending]. rewrite Hp. cbn [working]. set_solver.
    + done.
Qed.

Definition sys_reachable (s : system) : Prop :=
  exists p, cache_ok p /\ _pending p = ∅ /\ rtc sys_step {| policy := p; threads := ∅ |} s.

Lemma sys_reachable_inv s : sys_reachable s -> sys_inv s.
Proof.
  intros (p & Hp & Hpend & Hs). assert (sys_inv {| policy := p; threads := ∅ |}) as Hinit.
  { split; cbn [policy threads]; [done|by intros ??..|]. intros a. rewrite Hpend. split; [set_solver|]. by intros (? & ? & ? & ?). }
  clear Hpend. revert Hinit. induction Hs as [|x y z Hxy _ IH]; [done|]. intros Hx. apply IH. by eapply sys_step_inv.
Qed.

End facts.

(** ** A concrete world *)

Module Demo.
(** One Core that knows one member of group 7. *)
#[local] Instance world : World := {|
  monotonic := fun n => Z.of_nat n; slot_free := fun _ => true;
  requester := fun _ _ g a _ => Ok (bool_decide (a = "Qalice") && (g =? 7));
  completion := fun _ l => rev l; still_running := fun _ _ => false |}.
#[local] Instance world_ok : WorldOk.
Proof. split. intros n l. cbn [completion world]. symmetry. apply Permutation_rev. Qed.

Definition start : GroupAccessPolicy :=
  {| mode := "groups"; group_ids := [5; 7]; core_url_bases := ["http://core"]; revision := "r";
     _cache := ∅; _pending := ∅; _core_failed_until := ∅; calls := 0 |}.

Lemma start_cache : cache_ok start.
Proof. intros a r Hl. change ((∅ : gmap string MembershipResult) !! a = Some r) in Hl. by rewrite lookup_empty in Hl. Qed.


(** Two threads ask for the same address: the second one waits. *)
Definition alice (ph : phase) : thread := {| t_address := "Qalice"; t_now := 1000; t_phase := ph |}.
Definition two : system :=
  {| policy := set_pending {["Qalice"]} start; threads := <[1%nat := alice Waiting]> (<[0%nat := alice Checking]> ∅) |}.

Lemma rtc_eq s s' : s = s' -> rtc sys_step s s'.
Proof. by intros ->. Qed.

Lemma two_reachable : sys_reachable two.
Proof.
  exists start. split; [apply start_cache|]. split; [done|].
  eapply rtc_l; [by apply (StepStart _ 0%nat "Qalice" 1000)|].
  eapply rtc_l; [by apply (StepStart _ 1%nat "Qalice" 1000)|].
  eapply rtc_l; [by eapply (StepEnter _ 0%nat (alice Entering)); vm_compute|].
  eapply rtc_l; [by eapply (StepEnter _ 1%nat (alice Entering)); vm_compute|].
  apply rtc_eq. vm_compute. reflexivity.
Qed.

End Demo.

End GroupThm.
