(* ===== verification/AuthService.v ===== *)
(** * Authentication of application sessions ([auth/service.py])

    [QAppAuthenticationService] on the server's state: challenges, the
    AUTHENTICATE message, and the periodic revalidation of the group access of
    authenticated sessions by worker threads.

    The service's own state lives in the applications' part of the server
    state and is reached through a lens.  The worker pool is a queue: [maintain]
    submits, [work] is one worker running the oldest task with its completion
    callback.  A time in the session metadata, a float of seconds in Python, is
    an integer of microseconds here. *)

From stdpp Require Import prelude strings list gmap.
From Stdlib Require Import ZArith Lia.
From S2P Require Import Prelude PyDict PyBytes Sha256 PyValue Json Database Sessions Protocol Connection Server QortalIdentity GroupAccess.

Module Auth.
Import Server.

Definition ACCESS_CHECKED_AT : string := "group_access_checked_at".
Definition ACCESS_POLICY_REVISION : string := "group_access_policy_revision".

Record QAppAuthenticationService := {
  verifier : Qortal.QortalIdentityVerifier;
  access : GroupAccess.GroupAccessPolicy;
  access_revalidate_interval : Z;
  access_outage_grace : Z;
  destination_hash : option string;
  _pending : gset string;
  queue : list nat
}.

Definition set_verifier (x : Qortal.QortalIdentityVerifier) (a : QAppAuthenticationService) : QAppAuthenticationService :=
  {| verifier := x; access := access a; access_revalidate_interval := access_revalidate_interval a;
     access_outage_grace := access_outage_grace a; destination_hash := destination_hash a;
     _pending := _pending a; queue := queue a |}.
Definition set_access (x : GroupAccess.GroupAccessPolicy) (a : QAppAuthenticationService) : QAppAuthenticationService :=
  {| verifier := verifier a; access := x; access_revalidate_interval := access_revalidate_interval a;
     access_outage_grace := access_outage_grace a; destination_hash := destination_hash a;
     _pending := _pending a; queue := queue a |}.
Definition set_tasks (x : gset string) (q : list nat) (a : QAppAuthenticationService) : QAppAuthenticationService :=
  {| verifier := verifier a; access := access a; access_revalidate_interval := access_revalidate_interval a;
     access_outage_grace := access_outage_grace a; destination_hash := destination_hash a;
     _pending := x; queue := q |}.

(** Where the service's state is in the applications' state. *)
Class HasAuth (A : Type) := {
  auth_of : A -> QAppAuthenticationService;
  put_auth : QAppAuthenticationService -> A -> A
}.
Class HasAuthLaws (A : Type) `{HasAuth A} : Prop := { auth_of_put : forall x a, auth_of (put_auth x a) = x }.

Section service.
Context {A : Type} `{HasAuth A} `{Qortal.Unicode} `{Qortal.Crypto} `{GroupAccess.World}.
Context (disconnect_handlers : list (nat -> M (Server A) unit)).
(** What other threads do to the access policy while this one waits. *)
Context (others : list (GroupAccess.GroupAccessPolicy -> GroupAccess.GroupAccessPolicy)).

Abbreviation SrvM := (M (Server A)).
#[local] Instance transport : Transport (Server A) := server_transport disconnect_handlers.

Definition auth (s : Server A) : QAppAuthenticationService := auth_of (app s).
Definition in_auth {B} (m : M QAppAuthenticationService B) : SrvM B :=
  zoom auth (fun x s => set_app (put_auth x (app s)) s) m.
Definition in_verifier {B} (m : M Qortal.QortalIdentityVerifier B) : SrvM B := in_auth (zoom verifier set_verifier m).
Definition in_access {B} (m : M GroupAccess.GroupAccessPolicy B) : SrvM B := in_auth (zoom access set_access m).

Definition session_send (r : nat) (payload : pyval) : SrvM unit :=
  let! o := gets (session_obj r) in send o payload ;! ret tt.
Definition is_RuntimeError (e : exn) : bool := match e with RuntimeError _ | ReachabilityUnavailable => true | _ => false end.

(** [challenge] *)
Definition challenge : SrvM (odict string pyval) :=
  let! a := gets auth in
  match destination_hash a with
  | None => ret [("error", VDict [("code", VStr "BACKEND_UNAVAILABLE")])]
  | Some destination =>
    let! '(new_id, new_nonce) := draw in
    let! now := gets wall in
    in_verifier (Qortal.issue destination new_id new_nonce now)
  end.

(** [session_info] *)
Definition session_info (session : option ApplicationSession) : odict string pyval :=
  let user := match session with Some o => authenticated_user o | None => None end in
  [("authenticated", VBool (match session with
     | Some o => negb (provisional o) && match user with Some u => negb (bool_decide (u = "")) | None => false end
     | None => false end));
   ("address", match user with Some u => VStr u | None => VNone end)].

(** The message checks of [authenticate] up to the proof. *)
Definition proof_of (message : pyval) : res pyval :=
  match message with
  | VDict m =>
    if negb (forallb (fun k => bool_decide (k ∈ ["type"; "requestId"; "payload"])) (od_keys m))
    then Raise (ValueError "authentication message is invalid") else
    match dget "payload" m with
    | VDict payload =>
      if keys_are ["proof"] payload then Ok (dget "proof" payload)
      else Raise (ValueError "authentication payload is invalid")
    | _ => Raise (ValueError "authentication payload is invalid")
    end
  | _ => Raise (ValueError "authentication message is invalid")
  end.

Definition request_id (message : pyval) : pyval :=
  match message with VDict m => dget "requestId" m | _ => VNone end.

Definition set_meta (r : nat) (k : string) (v : pyval) : SrvM unit :=
  set_session r (fun o => set_metadata (od_set k v (metadata o)) o).

(** The body of [authenticate] before its answer. *)
Definition establish (r : nat) (message : pyval) : SrvM (string * (string * string)) :=
  let! proof := lift (proof_of message) in
  let! now := gets wall in
  let! '(address, _, qapp) := in_verifier (Qortal.verify proof now) in
  let! checked_at := in_access (GroupAccess.authorize others address now) in
  set_meta r "qapp_identity" (VList [VStr (fst qapp); VStr (snd qapp)]) ;!
  set_meta r ACCESS_CHECKED_AT (VInt checked_at) ;!
  let! a := gets auth in
  set_meta r ACCESS_POLICY_REVISION (VStr (GroupAccess.revision (access a))) ;!
  in_sessions (promote r address now) ;!
  in_sessions (persist r) ;!
  ret (address, qapp).

(** [_send_error] *)
Definition _send_error (r : nat) (req : pyval) (code : string) : SrvM unit :=
  try_catch (session_send r (VDict [("type", VStr "AUTHENTICATION_ERROR"); ("requestId", req);
                                    ("payload", VDict [("code", VStr code)])]))
    is_RuntimeError (fun _ => ret tt).

Definition error_code (e : exn) : option string :=
  match e with
  | GroupAccessDenied => Some "BACKEND_ACCESS_DENIED"
  | GroupAccessUnavailable => Some "BACKEND_ACCESS_UNAVAILABLE"
  | TypeError _ => Some "IDENTITY_PROOF_INVALID"
  | _ => if is_ValueError e then Some "IDENTITY_PROOF_INVALID" else None
  end.

(** [authenticate] *)
Definition authenticate (ctx : MessageContext) (message : pyval) : SrvM unit :=
  let r := ctx_session ctx in
  let req := request_id message in
  try_catch
    (let! '(address, qapp) := establish r message in
     session_send r (VDict [("type", VStr "AUTHENTICATED"); ("requestId", req);
       ("payload", VDict [("address", VStr address); ("qappName", VStr (fst qapp)); ("qappService", VStr (snd qapp))])]))
    (fun e => bool_decide (is_Some (error_code e)))
    (fun e => match error_code e with Some code => _send_error r req code | None => raise e end).

(** ** Revalidation *)

(** [isinstance(v, (int, float))] for a time *)
Definition time_of (v : pyval) : option Z :=
  match v with VInt t => Some t | VBool b => Some (if b then GroupAccess.SECOND else 0) | _ => None end.

(** [revision == self.access.revision and isinstance(checked_at, ..) and
    timestamp - checked_at .. limit] *)
Definition checked_within (o : ApplicationSession) (a : QAppAuthenticationService) (within : Z -> bool) (now : Z) : bool :=
  eq_str (dget ACCESS_POLICY_REVISION (metadata o)) (GroupAccess.revision (access a)) &&
  match time_of (dget ACCESS_CHECKED_AT (metadata o)) with Some t => within (now - t) | None => false end.

Definition fresh (o : ApplicationSession) (a : QAppAuthenticationService) (now : Z) : bool :=
  checked_within o a (fun age => age <? access_revalidate_interval a) now.
Definition in_grace (o : ApplicationSession) (a : QAppAuthenticationService) (now : Z) : bool :=
  checked_within o a (fun age => age <=? access_outage_grace a) now.

(** [require_authorized]; its callers pass sessions that have a user. *)
Definition require_authorized (r : nat) (timestamp : Z) : SrvM unit :=
  let! s := get in
  let a := auth s in
  let o := session_obj r s in
  if bool_decide (GroupAccess.mode (access a) = "public") then ret tt
  else if fresh o a timestamp then ret tt
  else
    let! refreshed := try_catch
      (let! t := in_access (GroupAccess.authorize others (default "" (authenticated_user o)) timestamp) in ret (Some t))
      GroupAccess.is_unavailable
      (fun e => let! a' := gets auth in if in_grace o a' timestamp then ret None else raise e) in
    match refreshed with
    | None => ret tt
    | Some t =>
      set_meta r ACCESS_CHECKED_AT (VInt t) ;!
      let! a' := gets auth in
      set_meta r ACCESS_POLICY_REVISION (VStr (GroupAccess.revision (access a'))) ;!
      in_sessions (persist r)
    end.

(** A session that [maintain] submits. *)
Definition due (s : Server A) (now : Z) (r : nat) : bool :=
  let o := session_obj r s in
  negb (provisional o)
  && match authenticated_user o with Some u => negb (bool_decide (u = "")) | None => false end
  && negb (fresh o (auth s) now).

Definition submit (now : Z) (r : nat) : SrvM unit :=
  let! s := get in
  if negb (due s now r) then ret tt else
  let sid := session_id (session_obj r s) in
  if bool_decide (sid ∈ _pending (auth s)) then ret tt
  else in_auth (modify (fun a => set_tasks ({[sid]} ∪ _pending a) (queue a ++ [r]) a)).

(** [maintain] *)
Definition maintain : SrvM unit :=
  let! s := get in
  if bool_decide (GroupAccess.mode (access (auth s)) = "public") then ret tt
  else iterM (submit (wall s)) (all (sessions s)).

(** [revoke] *)
Definition revoke (r : nat) (code : string) : SrvM unit :=
  try_catch (session_send r (VDict [("type", VStr "BACKEND_ACCESS_REVOKED"); ("payload", VDict [("code", VStr code)])]))
    is_RuntimeError (fun _ => ret tt) ;!
  revoke_session disconnect_handlers r.

(** [_revalidate] *)
Definition _revalidate (r : nat) : SrvM unit :=
  let! s := get in
  if negb (is_current r (sessions s)) then ret tt else
  let! code := try_catch (require_authorized r (wall s) ;! ret None)
    (fun e => match e with GroupAccessDenied | GroupAccessUnavailable => true | _ => false end)
    (fun e => ret (error_code e)) in
  match code with None => ret tt | Some c => revoke r c end.

(** [_finished] *)
Definition _finished (sid : string) : SrvM unit :=
  in_auth (modify (fun a => set_tasks (_pending a ∖ {[sid]}) (queue a) a)).

(** A worker takes the oldest task; what it raises stays in its future.  The
    completion callback carries the session id the task was submitted with,
    which never changes. *)
Definition work : SrvM unit :=
  let! s := get in
  match queue (auth s) with
  | [] => ret tt
  | r :: rest =>
    in_auth (modify (fun a => set_tasks (_pending a) rest a)) ;!
    let sid := session_id (session_obj r s) in
    try_catch (_revalidate r) (fun _ => true) (fun _ => ret tt) ;!
    _finished sid
  end.
End service.

End Auth.
