(* ===== verification/AuthFacts.v ===== *)
(** * Who gets a session, and who keeps it

    A session acquires a user only through an identity proof signed with that
    account's key and, in group mode, with a Core vouching for its membership.
    Revalidation lets a session pass only within its interval or grace under the
    current policy, or on a new answer of the Cores; a completed revocation
    ends the session.  Tasks are submitted once. *)

From stdpp Require Import prelude strings list gmap.
From Stdlib Require Import ZArith Lia.
From S2P Require Import Prelude PyDict PyBytes Sha256 PyValue Json Database Sessions SessionFacts Protocol Connection Authorization Server QortalIdentity QortalFacts GroupAccess GroupFacts AuthService.

Module AuthThm.
Import Server Auth.

Section facts.
Context {A : Type} `{HasAuth A} `{!HasAuthLaws A} `{Qortal.Unicode} `{Qortal.Crypto} `{GroupAccess.World} `{!GroupThm.WorldOk}.
Context (disconnect_handlers : list (nat -> M (Server A) unit)).
Context (others : list (GroupAccess.GroupAccessPolicy -> GroupAccess.GroupAccessPolicy)).

(** ** The parts of the state *)

Lemma sessions_put_auth x (s : Server A) : sessions (set_app (put_auth x (app s)) s) = sessions s.
Proof. done. Qed.

Lemma in_verifier_eq {B} (m : M Qortal.QortalIdentityVerifier B) (s : Server A) :
  in_verifier m s = (set_app (put_auth (set_verifier (fst (m (verifier (auth s)))) (auth s)) (app s)) s, snd (m (verifier (auth s)))).
Proof. unfold in_verifier, in_auth, zoom. by destruct (m (verifier (auth s))). Qed.

Lemma in_access_eq {B} (m : M GroupAccess.GroupAccessPolicy B) (s : Server A) :
  in_access m s = (set_app (put_auth (set_access (fst (m (access (auth s)))) (auth s)) (app s)) s, snd (m (access (auth s)))).
Proof. unfold in_access, in_auth, zoom. by destruct (m (access (auth s))). Qed.

Lemma srv_in_sessions_eq {B} (m : SM B) (s : Server A) : in_sessions m s = (set_sessions (fst (m (sessions s))) s, snd (m (sessions s))).
Proof. unfold in_sessions, zoom. by destruct (m (sessions s)). Qed.

(** ** Users of sessions *)

Definition user (r : nat) (m : SessionManager) : option string := authenticated_user (obj r m).

(** [store] and [persist] change no user. *)
Lemma store_heap r m : heap (fst (store r m)) = heap m.
Proof.
  unfold store, bind, gets, lift. destruct (to_stored (obj r m)) as [st|e]; [|done].
  unfold in_db, zoom. by destruct (Db.upsert_session st (database m)).
Qed.

Lemma user_heap m m' r : heap m' = heap m -> user r m' = user r m.
Proof. intros E. unfold user, obj. by rewrite E. Qed.

Lemma persist_user r r' m : user r' (fst (persist r m)) = user r' m.
Proof.
  unfold persist, bind, get. destruct (provisional _ || _); [done|]. pose proof (store_heap r m) as Hh.
  destruct (store r m) as [m1 [[]|e]]; cbn [fst] in *; [|by apply user_heap].
  unfold modify. cbn [fst]. unfold user. rewrite obj_on_obj. unfold obj. rewrite Hh. by case_decide; subst.
Qed.

Lemma promote_user r u now m r' : user r' (fst (promote r u now m)) ≠ user r' m ->
  r' = r /\ user r (fst (promote r u now m)) = Some u.
Proof.
  unfold promote, bind, gets, guard_or. destruct (is_current r m); [|done]. unfold ret, modify.
  set (m1 := on_obj r _ m). pose proof (store_heap r m1) as Hh.
  assert (forall x, user x m1 = if decide (x = r) then Some u else user x m) as Hu.
  { intros x. unfold user, m1. rewrite obj_on_obj. destruct (decide (r = x)) as [->|]; [by rewrite decide_True|by rewrite decide_False]. }
  destruct (store r m1) as [m2 [[]|e]]; cbn [fst] in *.
  - assert (forall x, user x (on_obj r (set_last_persisted_at now) m2) = user x m1) as Hk.
    { intros x. unfold user. rewrite obj_on_obj. unfold obj. rewrite Hh. by case_decide; subst. }
    rewrite !Hk, !Hu. case_decide; [|done]. by rewrite decide_True.
  - rewrite !(user_heap m1 m2), !Hu by done. case_decide; [|done]. by rewrite decide_True.
Qed.

Lemma promote_done r u now m m' : promote r u now m = (m', Ok tt) ->
  is_current r m = true /\ user r m' = Some u /\ provisional (obj r m') = false /\ expires_at (obj r m') = now + ttl m.
Proof.
  unfold promote, bind, gets, guard_or. destruct (is_current r m); [|done]. unfold ret, modify.
  set (m1 := on_obj r _ m). pose proof (store_heap r m1) as Hh.
  destruct (store r m1) as [m2 [[]|e]]; cbn [fst] in *; [|done]. intros [= <-]. split; [done|].
  unfold user. rewrite !obj_on_obj, !decide_True by done. unfold obj at 1 2 3. rewrite Hh. fold (obj r m1).
  unfold m1. rewrite !obj_on_obj, !decide_True by done. done.
Qed.

(** ** Authentication *)

Lemma set_meta_eq r k v (s : Server A) :
  set_meta r k v s = (set_sessions (on_obj r (fun o => set_metadata (od_set k v (metadata o)) o) (sessions s)) s, Ok tt).
Proof. done. Qed.

(** The session with its three entries of metadata. *)
Definition labelled (qapp : string * string) (t : Z) (rev : string) (o : ApplicationSession) : ApplicationSession :=
  set_metadata (od_set ACCESS_POLICY_REVISION (VStr rev) (od_set ACCESS_CHECKED_AT (VInt t)
    (od_set "qapp_identity" (VList [VStr (fst qapp); VStr (snd qapp)]) (metadata o)))) o.

(** What the proof and the policy answer for a message. *)
Definition verified (message : pyval) (s : Server A) (address : string) (qapp : string * string) : Prop :=
  exists proof key, proof_of message = Ok proof /\
    snd (Qortal.verify proof (wall s) (verifier (auth s))) = Ok (address, key, qapp).
Definition authorized (s : Server A) (address : string) (t : Z) : Prop :=
  snd (GroupAccess.authorize others address (wall s) (access (auth s))) = Ok t.

(** [establish] either stops before it touches the sessions, or runs [promote]
    and [persist] for a verified and authorized address. *)
Lemma establish_cases r message (s : Server A) :
  (exists e, snd (establish others r message s) = Raise e /\ sessions (fst (establish others r message s)) = sessions s) \/
  (exists address qapp t rev, verified message s address qapp /\ authorized s address t /\
     let m := on_obj r (labelled qapp t rev) (sessions s) in
     let '(m1, r1) := promote r address (wall s) m in
     match r1 with
     | Raise e => snd (establish others r message s) = Raise e /\ sessions (fst (establish others r message s)) = m1
     | Ok _ => sessions (fst (establish others r message s)) = fst (persist r m1) /\
               forall x, snd (establish others r message s) = Ok x -> x = (address, qapp)
     end).
Proof.
  destruct (establish others r message s) as [s' res] eqn:E. cbn [fst snd]. revert E. unfold establish.
  destruct (proof_of message) as [proof|e] eqn:Ep; [|intros [= <- <-]; by left; exists e].
  rewrite (bind_ok _ _ _ s proof eq_refl), (bind_ok _ _ _ s (wall s) eq_refl).
  unfold bind at 1. rewrite in_verifier_eq.
  destruct (snd (Qortal.verify proof (wall s) (verifier (auth s)))) as [[[address key] qapp]|e] eqn:Ev;
    [|intros [= <- <-]; by left; exists e].
  set (s1 := set_app _ s). unfold bind at 1. rewrite in_access_eq.
  assert (access (auth s1) = access (auth s)) as Eacc by (unfold auth, s1; cbn [app set_app]; by rewrite auth_of_put).
  rewrite Eacc. destruct (snd (GroupAccess.authorize others address (wall s) (access (auth s)))) as [t|e] eqn:Ea;
    [|intros [= <- <-]; by left; exists e].
  set (s2 := set_app _ s1). intros E. right. exists address, qapp, t, (GroupAccess.revision (access (auth s2))).
  split; [by exists proof, key|]. split; [done|]. revert E.
  rewrite !(bind_ok _ _ _ _ _ (set_meta_eq _ _ _ _)), (bind_ok (gets auth) _ _ _ _ eq_refl), (bind_ok _ _ _ _ _ (set_meta_eq _ _ _ _)).
  cbn [sessions set_sessions]. change (sessions s2) with (sessions s). rewrite !on_obj_twice.
  unfold bind at 1. rewrite srv_in_sessions_eq. cbn [sessions set_sessions]. cbv zeta. fold (labelled qapp t).
  destruct (promote r address (wall s) _) as [m1 [[]|e]]; cbn [fst snd]; [|by intros [= <- <-]].
  unfold bind at 1. rewrite srv_in_sessions_eq. cbn [sessions set_sessions].
  destruct (snd (persist r m1)); intros [= <- <-]; [|done]. split; [done|]. by intros x [= <-].
Qed.

Section soundness.
(** The other threads run the same code. *)
Hypothesis others_ok : Forall (fun f => forall q, GroupThm.cache_ok q ->
  GroupThm.cache_ok (f q) /\ GroupThm.same_config q (f q)) others.

(** The account behind an accepted AUTHENTICATE message: its proof answers an
    outstanding challenge with the account's key, and in group mode a Core
    vouches for its membership. *)
Definition vouched (message : pyval) (s : Server A) (address : string) : Prop :=
  (exists d cid c key qapp, proof_of message = Ok (VDict d) /\
     od_get cid (Qortal._challenges (verifier (auth s))) = Some c /\ Qortal.to_ms (wall s) <= Qortal.expires_at c /\
     QortalThm.proves (verifier (auth s)) c d address key qapp) /\
  (GroupAccess.mode (access (auth s)) = "public" \/ GroupThm.member (access (auth s)) address).

Lemma vouched_of message s address qapp t :
  GroupThm.cache_ok (access (auth s)) -> verified message s address qapp -> authorized s address t -> vouched message s address.
Proof.
  intros Hcache (proof & key & Ep & Ev) Ha. split.
  - destruct (Qortal.verify proof (wall s) (verifier (auth s))) as [v' res] eqn:E. cbn [snd] in Ev. subst res.
    destruct (QortalThm.verify_accepts _ _ _ _ _ _ _ E) as (d & cid & c & -> & Hc & _ & Hexp & Hpr & _).
    by exists d, cid, c, key, qapp.
  - destruct (decide (GroupAccess.mode (access (auth s)) = "public")) as [|Hm]; [by left|right].
    destruct (GroupThm.authorize_closed others address (wall s) (access (auth s)) Hm Hcache others_ok) as (_ & _ & Ho).
    unfold authorized in Ha. rewrite Ha in Ho. apply Ho.
Qed.

Lemma labelled_user r qapp t rev m x : user x (on_obj r (labelled qapp t rev) m) = user x m.
Proof. unfold user. rewrite obj_on_obj. by case_decide; subst. Qed.


(** ** Revalidation *)

(** Why a session may pass. *)
Definition may_pass (r : nat) (s : Server A) (now : Z) : Prop :=
  let a := auth s in let o := session_obj r s in
  GroupAccess.mode (access a) = "public" \/ fresh o a now = true \/
  GroupThm.member (access a) (default "" (authenticated_user o)) \/
  (in_grace o a now = true /\
   snd (GroupAccess.authorize others (default "" (authenticated_user o)) now (access a)) = Raise GroupAccessUnavailable).

Lemma require_authorized_passes r now (s : Server A)
    (Hcache : GroupThm.cache_ok (access (auth s)))
    (Hok : snd (require_authorized others r now s) = Ok tt) : may_pass r s now.
Proof.
  revert Hok. unfold require_authorized, may_pass. rewrite (bind_ok get _ s s s eq_refl). cbv zeta.
  case_bool_decide as Hm; [by left|]. destruct (fresh (session_obj r s) (auth s) now) eqn:Hf; [by right; left|].
  set (u := default "" (authenticated_user (session_obj r s))).
  destruct (GroupThm.authorize_closed others u now (access (auth s)) Hm Hcache others_ok) as (_ & Hconf & Ho).
  unfold bind at 1, try_catch, bind at 1. rewrite in_access_eq.
  destruct (snd (GroupAccess.authorize others u now (access (auth s)))) as [t|e].
  - intros _. right. right. left. apply Ho.
  - destruct e; try done. cbn [GroupAccess.is_unavailable]. rewrite (bind_ok (gets auth) _ _ _ _ eq_refl).
    set (a' := auth _). assert (in_grace (session_obj r s) a' now = in_grace (session_obj r s) (auth s) now) as ->.
    { unfold a', auth. cbn [app set_app]. rewrite auth_of_put. unfold in_grace, checked_within. cbn [access set_access access_outage_grace].
      destruct Hconf as (_ & _ & _ & Er). unfold auth in Er. by rewrite Er. }
    destruct (in_grace _ _ _) eqn:Hg; [|done]. intros _. by right; right; right.
Qed.

End soundness.

(** ** Revocation *)

Lemma discard_gone sid m : od_get sid (index (fst (discard sid m))) = None.
Proof.
  unfold discard, bind, get, modify. destruct (od_get sid (index m)) as [r|] eqn:E; [|by rewrite <- E].
  destruct (provisional (obj r m)); [apply od_get_pop_eq|]. unfold in_db, zoom.
  destruct (Db.delete_session _ _). apply od_get_pop_eq.
Qed.

Lemma discard_heap sid m : heap (fst (discard sid m)) = heap m.
Proof.
  unfold discard, bind, get, modify. destruct (od_get sid (index m)) as [r|]; [|done].
  destruct (provisional (obj r m)); [done|]. unfold in_db, zoom. by destruct (Db.delete_session _ _).
Qed.

Lemma discard_session_gone r (s s' : Server A) : _discard_session r s = (s', Ok tt) -> is_current r (sessions s') = false.
Proof.
  unfold _discard_session, bind. destruct (invalidate_session r s) as [s1 [[]|]]; [|done].
  destruct (_remove_session_indexes r s1) as [s2 [[]|]]; [|done]. destruct (detach r s2) as [s3 [[]|]]; [|done].
  unfold gets. rewrite srv_in_sessions_eq. intros [= <- _]. cbn [sessions set_sessions].
  apply bool_decide_eq_false_2. unfold session_obj, obj. rewrite discard_heap. fold (obj r (sessions s3)).
  by rewrite discard_gone.
Qed.

(** A completed revocation ends the session: whatever the disconnect
    handlers did, the session is no longer in the index. *)
Theorem revocation_ends_session r code (s s' : Server A)
    (Hok : revoke disconnect_handlers r code s = (s', Ok tt)) : is_current r (sessions s') = false.
Proof.
  revert Hok. unfold revoke. unfold bind at 1. destruct (try_catch _ _ _ s) as [s1 [[]|]]; [|done].
  unfold revoke_session. rewrite (bind_ok (gets _) _ _ _ _ eq_refl).
  destruct (is_current r (sessions s1)) eqn:Hcur; cbn [negb]; [|by intros [= <-]].
  unfold bind at 1. destruct (run_handlers _ s1) as [s2 [[]|]]; [|done]. apply discard_session_gone.
Qed.

(** When sending the notice raises anything but [RuntimeError], [revoke] ends there. *)
Lemma revoke_raises r code (s s1 : Server A) e
    (Hsend : session_send disconnect_handlers r
       (VDict [("type", VStr "BACKEND_ACCESS_REVOKED"); ("payload", VDict [("code", VStr code)])]) s = (s1, Raise e))
    (Hother : is_RuntimeError e = false) :
  revoke disconnect_handlers r code s = (s1, Raise e).
Proof. unfold revoke. apply bind_raise. unfold try_catch. by rewrite Hsend, Hother. Qed.

(** ** The worker queue *)

(** Every queued task has its session id in [_pending], and no session is
    queued twice. *)
Definition tasks_wf (s : Server A) : Prop :=
  NoDup (map (fun r => session_id (session_obj r s)) (queue (auth s))) /\
  forall r, r ∈ queue (auth s) -> session_id (session_obj r s) ∈ _pending (auth s).

Lemma submit_wf now r (s : Server A) : tasks_wf s -> tasks_wf (fst (submit now r s)) /\
  sessions (fst (submit now r s)) = sessions s.
Proof.
  intros [Hnd Hin]. unfold submit. rewrite (bind_ok get _ s s s eq_refl).
  destruct (negb _); [done|]. case_bool_decide as Hp; [done|]. split; [|done].
  unfold in_auth, zoom, modify. cbn [fst]. unfold tasks_wf, auth, session_obj in *. cbn [app set_app sessions].
  rewrite auth_of_put. cbn [queue set_tasks _pending]. split.
  - rewrite map_app. apply NoDup_app. split; [done|]. split; [|apply NoDup_singleton].
    intros x Hx. apply list_elem_of_In, in_map_iff in Hx as (r' & <- & Hr'%list_elem_of_In).
    specialize (Hin r' Hr'). intros Hx%list_elem_of_singleton. by rewrite Hx in Hin.
  - intros x [Hx|Hx]%elem_of_app; set_solver.
Qed.

Lemma submit_due now r (s : Server A) : due s now r = true ->
  session_id (session_obj r s) ∈ _pending (auth (fst (submit now r s))).
Proof.
  intros Hd. unfold submit. rewrite (bind_ok get _ s s s eq_refl). rewrite Hd. cbn [negb].
  case_bool_decide as Hp; [done|]. unfold in_auth, zoom, modify, auth. cbn [fst app set_app].
  rewrite auth_of_put. cbn [_pending set_tasks]. set_solver.
Qed.

(** A submission keeps what decides whether a session is due. *)
Lemma submit_keeps now r (s : Server A) : let s' := fst (submit now r s) in
  (forall x, due s' now x = due s now x) /\ _pending (auth s) ⊆ _pending (auth s').
Proof.
  cbv zeta. unfold submit. rewrite (bind_ok get _ s s s eq_refl).
  destruct (negb _); [done|]. case_bool_decide; [done|]. unfold in_auth, zoom, modify. cbn [fst].
  unfold due, fresh, checked_within, session_obj, auth. cbn [app set_app sessions]. rewrite auth_of_put.
  cbn [access set_tasks access_revalidate_interval _pending]. split; [done|set_solver].
Qed.

Lemma submit_ok now r (s : Server A) : snd (submit now r s) = Ok tt.
Proof. unfold submit. rewrite (bind_ok get _ s s s eq_refl). destruct (negb _); [done|]. by case_bool_decide. Qed.

Lemma submit_all now rs (s : Server A) : tasks_wf s -> let s' := fst (iterM (submit now) rs s) in
  tasks_wf s' /\ sessions s' = sessions s /\ _pending (auth s) ⊆ _pending (auth s') /\
  forall r, r ∈ rs -> due s now r = true -> session_id (session_obj r s) ∈ _pending (auth s').
Proof.
  cbv zeta. revert s. induction rs as [|r rs IH]; intros s Hwf; cbn [iterM].
  { split; [done|]. split; [done|]. split; [done|]. intros r Hr. by apply not_elem_of_nil in Hr. }
  destruct (submit_wf now r s Hwf) as [Hwf1 Hs1]. destruct (submit_keeps now r s) as [Hd1 Hp1].
  pose proof (submit_due now r s) as Hdue. pose proof (submit_ok now r s) as Hres.
  destruct (submit now r s) as [s1 res] eqn:Es. cbn [fst snd] in *. subst res. rewrite (bind_ok _ _ _ _ _ Es).
  destruct (IH s1 Hwf1) as (Hwf2 & Hs2 & Hp2 & Hdue2). split; [done|]. split; [by rewrite Hs2|].
  split; [by etrans|]. intros x [->|Hx]%elem_of_cons Hd; [by apply Hp2, Hdue|].
  specialize (Hdue2 x Hx). rewrite Hd1 in Hdue2. unfold session_obj in *. rewrite Hs1 in Hdue2. by apply Hdue2.
Qed.

(** Maintenance in group mode submits every session that is due for
    revalidation, never queues a session twice, and touches no session. *)
Theorem maintain_submits_due (s : Server A)
    (Hmode : GroupAccess.mode (access (auth s)) ≠ "public") (Hwf : tasks_wf s) :
  let s' := fst (maintain s) in
  tasks_wf s' /\ sessions s' = sessions s /\
  forall r, r ∈ all (sessions s) -> due s (wall s) r = true -> session_id (session_obj r s) ∈ _pending (auth s').
Proof.
  cbv zeta. unfold maintain. rewrite (bind_ok get _ s s s eq_refl), bool_decide_false by done.
  destruct (submit_all (wall s) (all (sessions s)) s Hwf) as (Hwf' & Hs' & _ & Hdue). done.
Qed.
End facts.

(** ** A server with one session *)

Module Demo.
#[local] Existing Instances QortalThm.Demo.ascii_unicode QortalThm.Demo.toy_crypto.
(** Every address is in group 7. *)
#[local] Instance world : GroupAccess.World := {|
  GroupAccess.monotonic := fun n => Z.of_nat n; GroupAccess.slot_free := fun _ => true;
  GroupAccess.requester := fun _ _ g _ _ => Ok (g =? 7);
  GroupAccess.completion := fun _ l => l; GroupAccess.still_running := fun _ _ => false |}.
#[local] Instance world_ok : GroupThm.WorldOk.
Proof. by split. Qed.
#[local] Instance lens : HasAuth QAppAuthenticationService := {| auth_of := id; put_auth := fun x _ => x |}.
#[local] Instance lens_laws : HasAuthLaws QAppAuthenticationService.
Proof. by split. Qed.

Definition service : QAppAuthenticationService :=
  {| verifier := QortalThm.Demo.issued; access := GroupThm.Demo.start; access_revalidate_interval := 60000000;
     access_outage_grace := 600000000; destination_hash := Some QortalThm.Demo.dest; _pending := ∅; queue := [] |}.
Definition empty : Server QAppAuthenticationService :=
  {| max_unauthenticated_sessions := 8; max_logical_sessions_per_link := 4; max_new_sessions_per_link_per_minute := 4;
     idle_connection_timeout := 300; srv_ack_timeout := 120; sessions := empty_manager open_db 1000000000 100000000 60000000 4;
     logical_sessions := ∅; connections := [];
     conns := ∅; tokens := Attach.init 30 4 4 4 16; _media_grant_files := ∅; media_files := ∅; revocations := [];
     closed_transports := []; io_failures := []; wall := 1000; mono := 1; entropy := fun _ => ("session-1", "token-1");
     drawn := 0; shutting_down := false; app := service |}.
Definition start : Server QAppAuthenticationService :=
  fst (in_sessions (create "session-1" "token-1" None 1000 true) empty).
Definition message : pyval :=
  VDict [("type", VStr "AUTHENTICATE"); ("requestId", VInt 1); ("payload", VDict [("proof", QortalThm.Demo.proof)])].
Definition authenticated : Server QAppAuthenticationService := fst (establish [] 0 message start).

Lemma demo_cache : GroupThm.cache_ok (access (auth start)).
Proof.
  intros a r Hl. change ((∅ : gmap string GroupAccess.MembershipResult) !! a = Some r) in Hl. by rewrite lookup_empty in Hl.
Qed.
Lemma demo_user : user 0 (sessions authenticated) = Some QortalThm.Demo.address /\ user 0 (sessions start) = None.
Proof. split; vm_compute; reflexivity. Qed.
Lemma demo_changed : user 0 (sessions (fst (establish [] 0 message start))) ≠ user 0 (sessions start).
Proof. fold authenticated. rewrite (proj1 demo_user), (proj2 demo_user). discriminate. Qed.



Lemma revocation_ends_session_witness :
  is_current 0 (sessions authenticated) = true /\
  is_current 0 (sessions (fst (revoke [] 0 "BACKEND_ACCESS_DENIED" authenticated))) = false.
Proof.
  split; [vm_compute; reflexivity|]. apply (revocation_ends_session [] 0 "BACKEND_ACCESS_DENIED" authenticated).
  vm_compute. reflexivity.
Defined.

(** A day later the check is stale. *)
Definition later : Server QAppAuthenticationService := set_wall 86400000000 authenticated.
Lemma later_mode : GroupAccess.mode (access (auth later)) ≠ "public".
Proof. vm_compute. discriminate. Qed.
Lemma later_tasks : tasks_wf later.
Proof.
  unfold tasks_wf. assert (queue (auth later) = []) as -> by (vm_compute; reflexivity).
  split; [apply NoDup_nil_2|]. intros r Hr. exfalso. exact (not_elem_of_nil r Hr).
Qed.
Lemma maintain_submits_due_witness : _pending (auth (fst (maintain later))) = {["session-1"]} /\ tasks_wf (fst (maintain later)).
Proof. split; [vm_compute; reflexivity|]. exact (proj1 (maintain_submits_due later later_mode later_tasks)). Defined.

(** The session's link has no room for another unacknowledged message. *)
Definition full_link : Connection.PhysicalConnection :=
  match Connection.init 4096 0 1000 120 99 1 [] with Ok x => x | Raise _ => no_connection end.
Definition blocked : Server QAppAuthenticationService :=
  set_sessions (on_obj 0 (fun o => set_connection (Some 0%nat) (set_metadata (od_set "qapp_connection_id" (VStr "conn-1") (metadata o)) o))
                 (sessions authenticated)) (set_conns {[0%nat := full_link]} authenticated).
Definition notice : pyval :=
  VDict [("type", VStr "BACKEND_ACCESS_REVOKED"); ("payload", VDict [("code", VStr "BACKEND_ACCESS_DENIED")])].
Definition after_notice : Server QAppAuthenticationService := fst (session_send [] 0 notice blocked).

Lemma blocked_send : exists msg, session_send [] 0 notice blocked = (after_notice, Raise (BackpressureError msg)).
Proof. eexists. vm_compute. reflexivity. Qed.

(** a revocation can be held off by its own notice: to a client whose link
    has no room for another unacknowledged message, [revoke] raises the back
    pressure of the notice and the session stays in the index, not revoked. *)
Theorem revocation_lost_on_backpressure :
  exists msg, revoke [] 0 "BACKEND_ACCESS_DENIED" blocked = (after_notice, Raise (BackpressureError msg)) /\
    is_current 0 (sessions after_notice) = true.
Proof.
  destruct blocked_send as [msg Hsend]. exists msg. split; [|vm_compute; reflexivity].
  exact (revoke_raises [] 0 "BACKEND_ACCESS_DENIED" blocked after_notice _ Hsend eq_refl).
Qed.
End Demo.

End AuthThm.
