(* ===== verification/PrivateService.v ===== *)
(** * The private-transport service ([private_transport/service.py],
    [private_transport/reachability.py])

    A client that is authenticated over Reticulum asks for a bootstrap: a
    one-time token for its session, with the address of the private
    transport.  The transport presents the token to [attach]; from then on it
    carries application messages of that session, until it is detached or the
    session ends.  For calls the token is written to a file for the media
    relay instead.

    The service's own state is reached in the applications' state through a
    lens, as that of the authentication service; the tokens and the grant
    files, which ending a session invalidates, are fields of the server.
    Transports are numbers.  The [ipaddress] module is a parameter; the
    certificate and the listener, which belong to [cryptography] and to the
    native process, are arguments of [start]. *)

From stdpp Require Import prelude strings list gmap.
From Stdlib Require Import ZArith Lia.
From S2P Require Import Prelude PyDict PyBytes Sha256 PyValue Json JsonBytes Database Sessions Protocol Connection Authorization Server QortalIdentity GroupAccess AuthService.

Module PrivateTransport.
Import Protocol Connection Server Auth.

Definition BOOTSTRAP_VERSION : Z := 1.
Definition TRANSPORT : string := "quic-masque-inner-v1".
Definition PURPOSES : list string := ["game"; "file-transfer"; "realtime"].
Definition DEVELOPMENT_MESSAGE_TYPES : list string := ["private_transport_echo"; "file_request"].
Definition _NONCE : string -> bool := fullmatch (fun b => is_alnum b || is_char "_-" b) 32 128.
Definition ATTACH_PROTOCOL_VERSION : Z := 1.
Definition SECOND : Z := 1000000.

(** ** The binding of a token to its owner *)

Definition NUL : bytes := [Byte.x00].

(** The text [owner_binding_hash] digests. *)
Definition binding_text (name service lid destination sid nonce purpose : string) : bytes :=
  str_bytes "qortal-private-owner-v2" ++ NUL ++ str_bytes name ++ NUL ++ str_bytes service ++ NUL ++ str_bytes lid ++ NUL ++
  str_bytes destination ++ NUL ++ str_bytes sid ++ NUL ++ str_bytes nonce ++ NUL ++ str_bytes purpose.

Definition owner_binding_hash (qapp : string * string) (lid destination sid nonce purpose : string) : res string :=
  let? raw := encode_utf8 (bytes_str (binding_text (fst qapp) (snd qapp) lid destination sid nonce purpose)) in
  Ok (sha256_hex raw).

(** ** Application payloads *)

Definition decode_application_payload (payload : bytes) : res pyval :=
  match payload with
  | [] => Raise (ValueError "application payload is empty")
  | tag :: rest =>
    if byte_val tag =? 0 then
      if 64 * 1024 <? Z.of_nat (length payload) then Raise (ValueError "JSON application payload exceeds limit") else
      match loads_utf8 rest with
      | Ok v => Ok v
      | Raise e => if is_decode_error e then Raise (ValueError "invalid JSON application payload") else Raise e
      end
    else if byte_val tag =? 1 then Ok (VBytes rest)
    else Raise (ValueError "unsupported application payload encoding")
  end.

Definition encode_application_payload (value : pyval) : res bytes :=
  match value with
  | VBytes b => Ok (Byte.x01 :: b)
  | _ => let? text := dumps false value in let? raw := encode_utf8 text in Ok (Byte.x00 :: raw)
  end.

(** ** Reachability *)

(** [ipaddress.ip_address(text)]: the compressed form and [is_global] of a
    valid address. *)
Class IpAddress := { ip_address : string -> option (string * bool) }.

Definition STATE_VERSION : Z := 1.
Definition STATE_MAX_AGE_SECONDS : Z := 3 * 60 * 60 * SECOND.

Definition is_int (v : pyval) : bool := match v with VInt _ => true | _ => false end.

(** The conditions on the document of the automatic network state. *)
Definition state_valid (document : odict string pyval) (port : Z) : bool :=
  eq_int (dget "version" document) STATE_VERSION
  && match dget "publicHost" document with VStr _ => true | _ => false end
  && match dget "mode" document with VStr mode => bool_decide (mode ∈ ["configured"; "direct"; "upnp"]) | _ => false end
  && match dget "ports" document with VList ports => forallb is_int ports && existsb (fun item => eq_int item port) ports | _ => false end
  && is_int (dget "updatedAt" document).

(** [resolve_public_host]; [state] is what reading the state file gives. *)
Definition resolve_public_host `{IpAddress} `{Qortal.Unicode} (configured_host : string) (port : Z) (state : option bytes) (now : Z)
    : res string :=
  let unavailable := Raise ReachabilityUnavailable in
  let value := Qortal.strip configured_host in
  if negb (bool_decide (Qortal.lower value = "auto")) then
    match ip_address value with
    | Some (compressed, _) => Ok compressed
    | None => Raise (ValueError "does not appear to be an IPv4 or IPv6 address")
    end
  else
    match state with
    | None => unavailable
    | Some raw =>
      if 4096 <? Z.of_nat (length raw) then unavailable else
      match loads_raw raw with
      | Raise e => if is_decode_error e then unavailable else Raise e
      | Ok (VDict document) =>
        if negb (keys_are ["version"; "publicHost"; "ports"; "mode"; "updatedAt"] document)
           || negb (state_valid document port) then unavailable else
        match dget "updatedAt" document, dget "publicHost" document with
        | VInt updated_at, VStr host =>
          let updated := updated_at * 1000 in
          if (now + 60 * SECOND <? updated) || (STATE_MAX_AGE_SECONDS <? now - updated) then unavailable else
          match ip_address host with
          | Some (compressed, true) => Ok compressed
          | _ => unavailable
          end
        | _, _ => unavailable
        end
      | Ok _ => unavailable
      end
    end.

(** [str(port)] in an f-string *)
Definition _endpoint (host : string) (port : Z) : string :=
  let p := bytes_str (dec port) in
  if existsb (fun b => bool_decide (b = COLON)) (str_bytes host)
  then String.append "[" (String.append host (String.append "]:" p))
  else String.append host (String.append ":" p).

(** ** The service *)

Record PrivateTransportService := {
  (* the configuration it reads *)
  private_transport_public_host : string;
  call_media_public_host : string;
  call_media_port : Z;
  private_transport_server_name : string;
  (* the network state file *)
  network_state : option bytes;
  quic_server : bool;
  _listener_port : option Z;
  endpoint : option string;
  certificate_sha256 : option string;
  latest_peer_address : option nat;
  media_endpoint : option string
}.

Definition set_endpoints (e m : option string) (p : PrivateTransportService) : PrivateTransportService :=
  {| private_transport_public_host := private_transport_public_host p; call_media_public_host := call_media_public_host p;
     call_media_port := call_media_port p; private_transport_server_name := private_transport_server_name p;
     network_state := network_state p; quic_server := quic_server p; _listener_port := _listener_port p;
     endpoint := e; certificate_sha256 := certificate_sha256 p; latest_peer_address := latest_peer_address p; media_endpoint := m |}.
Definition set_listener (running : bool) (port : option Z) (p : PrivateTransportService) : PrivateTransportService :=
  {| private_transport_public_host := private_transport_public_host p; call_media_public_host := call_media_public_host p;
     call_media_port := call_media_port p; private_transport_server_name := private_transport_server_name p;
     network_state := network_state p; quic_server := running; _listener_port := port;
     endpoint := endpoint p; certificate_sha256 := certificate_sha256 p; latest_peer_address := latest_peer_address p; media_endpoint := media_endpoint p |}.
Definition set_certificate (c : option string) (p : PrivateTransportService) : PrivateTransportService :=
  {| private_transport_public_host := private_transport_public_host p; call_media_public_host := call_media_public_host p;
     call_media_port := call_media_port p; private_transport_server_name := private_transport_server_name p;
     network_state := network_state p; quic_server := quic_server p; _listener_port := _listener_port p;
     endpoint := endpoint p; certificate_sha256 := c; latest_peer_address := latest_peer_address p; media_endpoint := media_endpoint p |}.
Definition set_latest_peer (t : nat) (p : PrivateTransportService) : PrivateTransportService :=
  {| private_transport_public_host := private_transport_public_host p; call_media_public_host := call_media_public_host p;
     call_media_port := call_media_port p; private_transport_server_name := private_transport_server_name p;
     network_state := network_state p; quic_server := quic_server p; _listener_port := _listener_port p;
     endpoint := endpoint p; certificate_sha256 := certificate_sha256 p; latest_peer_address := Some t; media_endpoint := media_endpoint p |}.

(** Where the service's state is in the applications' state. *)
Class HasPrivate (A : Type) := {
  private_of : A -> PrivateTransportService;
  put_private : PrivateTransportService -> A -> A
}.
Class HasPrivateLaws (A : Type) `{HasPrivate A, HasAuth A} : Prop := {
  private_of_put : forall x a, private_of (put_private x a) = x;
  auth_of_put_private : forall x a, auth_of (put_private x a) = auth_of a;
  private_of_put_auth : forall x a, private_of (put_auth x a) = private_of a
}.

(** What [_make_rpc_callback] puts into the context of a request. *)
Record BootstrapContext := { rpc_connection : option nat; rpc_session : option nat; rpc_logical_id : option string }.

(** [PrivateMessageContext] *)
Record PrivateMessageContext := { pm_session : nat; pm_message_id : string; pm_logical_id : string; pm_lane : string; pm_transport : nat }.

Section service.
Context {A : Type} `{HasAuth A} `{HasPrivate A} `{Qortal.Unicode} `{Qortal.Crypto} `{GroupAccess.World} `{IpAddress}.
Context (disconnect_handlers : list (nat -> M (Server A) unit)).
Context (others : list (GroupAccess.GroupAccessPolicy -> GroupAccess.GroupAccessPolicy)).
(** [server.message_handlers], called with the context of a private message. *)
Context (message_handlers : gmap string (PrivateMessageContext -> pyval -> M (Server A) unit)).

Abbreviation SrvM := (M (Server A)).

Definition priv (s : Server A) : PrivateTransportService := private_of (app s).
Definition in_priv {B} (m : M PrivateTransportService B) : SrvM B :=
  zoom priv (fun x s => set_app (put_private x (app s)) s) m.

(** [_refresh_endpoints] *)
Definition _refresh_endpoints : SrvM unit :=
  let! s := get in
  let p := priv s in
  match _listener_port p with
  | None => raise ReachabilityUnavailable
  | Some port =>
    let! public_host := lift (resolve_public_host (private_transport_public_host p) port (network_state p) (wall s)) in
    let! media_host := lift (resolve_public_host (call_media_public_host p) (call_media_port p) (network_state p) (wall s)) in
    in_priv (modify (set_endpoints (Some (_endpoint public_host port)) (Some (_endpoint media_host (call_media_port p)))))
  end.

(** [_uses_automatic_reachability] *)
Definition _uses_automatic_reachability (p : PrivateTransportService) : bool :=
  existsb (fun host => bool_decide (Qortal.lower (Qortal.strip host) = "auto"))
    [private_transport_public_host p; call_media_public_host p].

Definition is_ReachabilityUnavailable (e : exn) : bool := match e with ReachabilityUnavailable => true | _ => false end.

(** [start]: [certificate] is what [ensure_transport_certificate] gives,
    [bound] what starting the listener gives. *)
Definition start (certificate : res bytes) (bound : res Z) : SrvM unit :=
  let! p := gets priv in
  if quic_server p then ret tt else
  let! der := lift certificate in
  in_priv (modify (set_certificate (Some (sha256_hex der)))) ;!
  let! port := lift bound in
  in_priv (modify (set_listener false (Some port))) ;!
  try_catch _refresh_endpoints is_ReachabilityUnavailable
    (fun e => in_priv (modify (set_listener false None)) ;! raise e) ;!
  in_priv (modify (set_listener true (Some port))).

(** [stop] *)
Definition stop : SrvM unit :=
  let! rs := gets (fun s => all (sessions s)) in
  iterM invalidate_session rs ;!
  in_priv (modify (fun p => set_endpoints None None (set_listener false None p))).

(** *** Bootstrap *)

(** [tuple(session.metadata.get("qapp_identity") or ())] *)
Definition identity_tuple (o : ApplicationSession) : res (list pyval) := Attach.tuple_or_empty (dget "qapp_identity" (metadata o)).

(** [normalize_qapp_identity] with the elements of a tuple as arguments *)
Definition normalized_identity (vs : list pyval) : res (string * string) :=
  match vs with
  | [name; service] => Qortal.normalize_qapp_identity name service
  | _ => Raise (TypeError "normalize_qapp_identity() takes 2 positional arguments")
  end.

Definition has_user (o : ApplicationSession) : bool :=
  match authenticated_user o with Some u => negb (bool_decide (u = "")) | None => false end.

(** The shape of a bootstrap request; [None] when it is acceptable. *)
Definition request_error (payload : pyval) : res (option string) :=
  match payload with
  | VDict p =>
    if negb (keys_are ["version"; "transport"; "nonce"; "purpose"] p) then Ok (Some "invalid_request")
    else if negb (eq_int (dget "version" p) BOOTSTRAP_VERSION) then Ok (Some "unsupported_version")
    else if negb (eq_str (dget "transport" p) TRANSPORT) then Ok (Some "unsupported_transport")
    else
      let? known := in_strings (dget "purpose" p) PURPOSES in
      if negb known then Ok (Some "unsupported_purpose")
      else match str_matching _NONCE (dget "nonce" p) with Some _ => Ok None | None => Ok (Some "invalid_nonce") end
  | _ => Ok (Some "invalid_request")
  end.

(** The session a context speaks for. *)
Definition context_session (ctx : BootstrapContext) (s : Server A) : option nat :=
  match rpc_connection ctx, rpc_logical_id ctx with
  | Some c, Some lid =>
    if closed (conn c s) || negb (bool_decide (lid ∈ logical_connection_ids (conn c s))) then None else
    match logical_sessions s !! lid with
    | Some r =>
      let o := session_obj r s in
      if negb (bool_decide (rpc_session ctx = Some r)) || negb (bool_decide (Sessions.connection o = Some c)) || provisional o
         || negb (has_user o) || (expires_at o <=? wall s)
      then None else Some r
    | None => None
    end
  | _, _ => None
  end.

Definition is_TypeOrValueError (e : exn) : bool := is_TypeError e || is_ValueError e.

(** [_validate_bootstrap_context] *)
Definition _validate_bootstrap_context (ctx : BootstrapContext) (payload : pyval) : SrvM (option string) :=
  let! error := lift (request_error payload) in
  match error with
  | Some code => ret (Some code)
  | None =>
    let! s := get in
    match context_session ctx s with
    | None => ret (Some "unauthenticated")
    | Some r =>
      let o := session_obj r s in
      match (let? vs := identity_tuple o in let? q := normalized_identity vs in Ok (Attach.is_pair_of vs q)) with
      | Raise e => if is_TypeOrValueError e then ret (Some "unauthenticated") else raise e
      | Ok false => ret (Some "unauthenticated")
      | Ok true =>
        let! code := try_catch (require_authorized others r (wall s) ;! ret None)
          (fun e => match e with GroupAccessDenied | GroupAccessUnavailable => true | _ => false end)
          (fun e => ret (Some (match e with GroupAccessDenied => "backend_access_denied" | _ => "backend_access_unavailable" end))) in
        match code with
        | Some c => ret (Some c)
        | None =>
          let! o := gets (session_obj r) in
          ret (if bool_decide (is_Some (private_transport o)) then Some "transport_already_attached" else None)
        end
      end
    end
  end.

(** [_error] *)
Definition _error (code : string) : odict string pyval :=
  [("error", VDict [("code", VStr code); ("message", VStr "Private transport bootstrap rejected")])].

(** The document of a media grant. *)
Definition grant_document (digest : string) (g : Attach.AttachGrant) (room_id : pyval) : pyval :=
  VDict [("version", VInt 1); ("tokenSha256", VStr digest); ("logicalSessionId", VStr (Attach.logical_session_id g));
         ("authenticatedUser", VStr (Attach.grant_user g)); ("qappName", VStr (fst (Attach.qapp_identity g)));
         ("qappService", VStr (snd (Attach.qapp_identity g))); ("purpose", VStr (Attach.purpose g)); ("roomId", room_id);
         ("participantId", VStr (Attach.grant_user g)); ("expiresAt", VInt (Attach.grant_expires_at g / 1000))].

(** [_write_media_grant]; a failed write leaves no file under the final name. *)
Definition _write_media_grant (token : string) (g : Attach.AttachGrant) (r : nat) : SrvM unit :=
  let! o := gets (session_obj r) in
  let! room_id := lift (getitem (metadata o) "call_room_id") in
  let! digest := lift (let? b := encode_ascii token in Ok (sha256_hex b)) in
  let path := String.append digest ".json" in
  io ;!
  modify (fun s => set_media_files (<[path := grant_document digest g room_id]> (media_files s)) s) ;!
  modify (fun s =>
    let sid := Attach.logical_session_id g in
    let paths := default [] (_media_grant_files s !! sid) in
    set_media_grant_files (<[sid := if bool_decide (path ∈ paths) then paths else path :: paths]> (_media_grant_files s)) s).

(** The answer of an accepted bootstrap. *)
Definition bootstrap_answer (p : PrivateTransportService) (sid destination token nonce purpose binding : string) (expires : Z)
    : odict string pyval :=
  let realtime := bool_decide (purpose = "realtime") in
  let text o := match o with Some x => VStr x | None => VNone end in
  [("version", VInt BOOTSTRAP_VERSION); ("transport", VStr TRANSPORT); ("logicalSessionId", VStr sid);
   ("backendRnsDestination", VStr destination);
   ("backendTransportEndpoint", text (if realtime then media_endpoint p else endpoint p));
   ("backendTransportServerName", VStr (private_transport_server_name p));
   ("backendTransportCertSha256", text (certificate_sha256 p));
   ("attachToken", VStr token); ("expiresAt", VInt (expires / 1000)); ("nonce", VStr nonce);
   ("ownerBindingHash", VStr binding);
   ("applicationProtocol", VStr (if realtime then "moqt-18" else "qortal-private/1"));
   ("supportedFeatures", VDict [("reliable", VBool true); ("datagrams", VBool true); ("moqt", VBool realtime);
                                ("moqtReliableGroups", VBool realtime)])].

(** [bootstrap] after its checks, for the session [r] of the logical id. *)
Definition issue_bootstrap (r : nat) (lid nonce purpose : string) : SrvM (odict string pyval) :=
  let! s := get in
  let p := priv s in
  let o := session_obj r s in
  let realtime := bool_decide (purpose = "realtime") in
  let! qapp := lift (let? vs := identity_tuple o in normalized_identity vs) in
  match destination_hash (auth s), endpoint p, certificate_sha256 p with
  | Some destination, Some _, Some _ =>
    if realtime && bool_decide (media_endpoint p = None) then ret (_error "transport_unavailable")
    else if realtime && negb (match dget "call_room_id" (metadata o) with VStr _ => true | _ => false end)
    then ret (_error "call_room_required")
    else
      let! binding := lift (owner_binding_hash qapp lid destination (session_id o) nonce purpose) in
      let! '(_, token) := draw in
      let! issued := try_catch
        (let! g := in_tokens (Attach.issue (session_id o) lid (default "" (authenticated_user o)) qapp purpose binding nonce token (wall s)) in
         ret (Some g))
        (fun e => bool_decide (e = BootstrapRateLimited)) (fun _ => ret None) in
      match issued with
      | None => ret (_error "bootstrap_rate_limited")
      | Some (token, g) =>
        (if realtime then _write_media_grant token g r ;! in_tokens (Attach.release token) else ret tt) ;!
        ret (bootstrap_answer p (session_id o) destination token nonce purpose binding (Attach.grant_expires_at g))
      end
  | _, _, _ => ret (_error "transport_unavailable")
  end.

(** [error.upper()] of the two access errors *)
Definition revocation_code (error : string) : option string :=
  if bool_decide (error = "backend_access_denied") then Some "BACKEND_ACCESS_DENIED"
  else if bool_decide (error = "backend_access_unavailable") then Some "BACKEND_ACCESS_UNAVAILABLE" else None.

(** [bootstrap] *)
Definition bootstrap (ctx : BootstrapContext) (payload : pyval) : SrvM (odict string pyval) :=
  let! error := _validate_bootstrap_context ctx payload in
  match error with
  | Some code =>
    match revocation_code code, rpc_session ctx with
    | Some upper, Some r => revoke disconnect_handlers r upper
    | _, _ => ret tt
    end ;!
    ret (_error code)
  | None =>
    let! p := gets priv in
    (if _uses_automatic_reachability p
     then try_catch _refresh_endpoints is_ReachabilityUnavailable (fun _ => in_priv (modify (set_endpoints None None)))
     else ret tt) ;!
    let! s := get in
    match payload, rpc_logical_id ctx with
    | VDict d, Some lid =>
      match dget "nonce" d, dget "purpose" d, logical_sessions s !! lid with
      | VStr nonce, VStr purpose, Some r => issue_bootstrap r lid nonce purpose
      | _, _, _ => raise (KeyError lid)
      end
    | _, _ => raise (RuntimeError "assertion failed")
    end
  end.

(** The context [_make_rpc_callback] builds for a request on connection [c]
    that names a logical connection. *)
Definition rpc_context (c : option nat) (lid : option string) (s : Server A) : BootstrapContext :=
  {| rpc_connection := c;
     rpc_session := match lid with
                    | Some l => match logical_sessions s !! l with
                                | Some r => if bool_decide (Sessions.connection (session_obj r s) = c) then Some r else None
                                | None => None
                                end
                    | None => None
                    end;
     rpc_logical_id := lid |}.

(** *** Transports *)

(** The metadata [attach] accepts. *)
Definition attach_fields (metadata : pyval) : option (string * string * string * string * string) :=
  match metadata with
  | VDict m =>
    if negb (keys_are ["protocolVersion"; "logicalSessionId"; "attachToken"; "nonce"; "purpose"; "ownerBindingHash"] m)
       || negb (eq_int (dget "protocolVersion" m) ATTACH_PROTOCOL_VERSION) then None else
    match dget "attachToken" m, dget "logicalSessionId" m, dget "purpose" m, dget "ownerBindingHash" m, dget "nonce" m with
    | VStr token, VStr sid, VStr purpose, VStr binding, VStr nonce => Some (token, sid, purpose, binding, nonce)
    | _, _, _, _, _ => None
    end
  | _ => None
  end.

(** [attach] *)
Definition attach (t : nat) (metadata : pyval) : SrvM nat :=
  match attach_fields metadata with
  | None => raise AttachRejected
  | Some (token, sid, purpose, binding, nonce) =>
    let! s := get in
    let lookup x := (fun r => session_obj r s) <$> get_session x (sessions s) in
    let! '(g, _) := in_tokens (Attach.consume lookup (fun c => closed (conn c s)) token sid purpose binding nonce (wall s)) in
    match get_session (Attach.logical_session_id g) (sessions s) with
    | None => raise AttachRejected
    | Some r =>
      if bool_decide (is_Some (private_transport (session_obj r s))) then raise AttachRejected else
      set_session r (set_private_transport (Some t)) ;!
      in_priv (modify (set_latest_peer t)) ;!
      ret r
    end
  end.

(** [detach] *)
Definition detach (r t : nat) : SrvM unit :=
  let! o := gets (session_obj r) in
  if bool_decide (private_transport o = Some t) then set_session r (set_private_transport None) else ret tt.

(** [handle_application_message] *)
Definition handle_application_message (t r : nat) (lane message_id : string) (payload : bytes) : SrvM unit :=
  let! o := gets (session_obj r) in
  if negb (bool_decide (private_transport o = Some t)) then raise (ValueError "private transport is detached") else
  let! value := lift (decode_application_payload payload) in
  let! type := lift (match value with
    | VBytes _ => Ok (VStr "file_binary")
    | VDict d => Ok (dget "type" d)
    | _ => Raise (ValueError "private application payload must be an object")
    end) in
  match dget "qapp_connection_id" (metadata o) with
  | VStr lid =>
    let! known := lift (in_strings type (DEVELOPMENT_MESSAGE_TYPES ++ ["file_binary"])) in
    match type with
    | VStr name =>
      if negb known then raise (ValueError "private application message is unsupported") else
      match (match message_handlers !! name with Some h => Some h | None => message_handlers !! "*" end) with
      | None => raise (ValueError "private application message is unsupported")
      | Some h =>
        h {| pm_session := r; pm_message_id := message_id; pm_logical_id := lid; pm_lane := lane; pm_transport := t |} value
      end
    | _ => raise (ValueError "private application message is unsupported")
    end
  | _ => raise (ValueError "logical session is unavailable")
  end.
End service.

End PrivateTransport.
