(* ===== verification/PrivateFacts.v ===== *)
(** * Who may attach a private transport

    A bootstrap hands out a token only to an authenticated, authorized
    session over the link it speaks on; an attached transport has presented
    such a token; the two compose, once. *)

From stdpp Require Import prelude strings list gmap.
From Stdlib Require Import ZArith Lia.
From S2P Require Import Prelude PyDict PyBytes Sha256 PyValue Json JsonFacts Database Sessions SessionFacts Protocol Connection Authorization AttachFacts Server QortalIdentity QortalFacts GroupAccess GroupFacts AuthService AuthFacts PrivateService.

Module PrivateThm.
Import Protocol Connection Server Auth AuthThm PrivateTransport.

(** ** The binding *)

Definition nul_free (s : string) : Prop := Byte.x00 ∉ str_bytes s.

(** The last separator is found. *)
Lemma split_last (a a' b b' : bytes) : Byte.x00 ∉ b -> Byte.x00 ∉ b' -> a ++ NUL ++ b = a' ++ NUL ++ b' -> a = a' /\ b = b'.
Proof.
  intros Hb Hb'. revert a'. induction a as [|x a IH]; intros [|x' a']; cbn [app].
  - unfold NUL. cbn. by intros [= ->].
  - unfold NUL. cbn. intros [= <- ->]. exfalso. apply Hb. apply elem_of_app. right. by left.
  - unfold NUL. cbn. intros [= -> <-]. exfalso. apply Hb'. apply elem_of_app. right. by left.
  - intros [= -> E]. by destruct (IH a' E) as [-> ->].
Qed.

Lemma str_bytes_inj a b : str_bytes a = str_bytes b -> a = b.
Proof. intros E. rewrite <- (bytes_str_bytes a), <- (bytes_str_bytes b). by rewrite E. Qed.

(** the text a token is bound by determines its owner: two bindings whose
    fields contain no separator (the Q-App name may) are the same text only
    if every field is the same. *)
Theorem binding_unambiguous n1 v1 l1 d1 i1 c1 p1 n2 v2 l2 d2 i2 c2 p2 :
  Forall nul_free [v1; l1; d1; i1; c1; p1] -> Forall nul_free [v2; l2; d2; i2; c2; p2] ->
  binding_text n1 v1 l1 d1 i1 c1 p1 = binding_text n2 v2 l2 d2 i2 c2 p2 ->
  (n1, v1, l1, d1, i1, c1, p1) = (n2, v2, l2, d2, i2, c2, p2).
Proof.
  rewrite !Forall_cons. intros (V1 & L1 & D1 & I1 & C1 & P1 & _) (V2 & L2 & D2 & I2 & C2 & P2 & _). unfold binding_text.
  rewrite !app_assoc. rewrite <- !(app_assoc _ NUL). intros E.
  apply split_last in E as [E Ep]; [|done..]. apply split_last in E as [E Ec]; [|done..].
  apply split_last in E as [E Ei]; [|done..]. apply split_last in E as [E Ed]; [|done..].
  apply split_last in E as [E El]; [|done..]. apply split_last in E as [E Ev]; [|done..].
  apply app_inv_head, app_inv_head in E. by rewrite (str_bytes_inj _ _ Ep), (str_bytes_inj _ _ Ec), (str_bytes_inj _ _ Ei),
    (str_bytes_inj _ _ Ed), (str_bytes_inj _ _ El), (str_bytes_inj _ _ Ev), (str_bytes_inj _ _ E).
Qed.

(** ** Application payloads *)

(** application payloads round-trip: byte strings, and JSON values whose
    encoding fits the limit. *)
Theorem application_payload_roundtrip value payload
    (Hvalue : match value with VBytes _ => True | _ => json_ok false value /\ Z.of_nat (length payload) <= 64 * 1024 end)
    (Henc : encode_application_payload value = Ok payload) :
  decode_application_payload payload = Ok value.
Proof.
  unfold encode_application_payload in Henc. destruct value; try (by injection Henc as <-).
  all: destruct Hvalue as [Hjson Hlen];
    match type of Henc with rbind ?c _ = _ => destruct c as [text|] eqn:Ed end; [|done]; cbn [rbind] in Henc;
    destruct (encode_utf8 text) as [raw|] eqn:Er; [|done]; injection Henc as <-;
    unfold decode_application_payload; cbn [byte_val]; change (byte_val Byte.x00 =? 0) with true; cbv iota;
    rewrite (proj2 (Z.ltb_ge _ _)) by exact Hlen; by rewrite (loads_encoded _ _ _ _ Hjson Ed Er).
Qed.

Section facts.
Context {A : Type} `{HasAuth A} `{!HasAuthLaws A} `{HasPrivate A} `{!HasPrivateLaws A}.
Context `{Qortal.Unicode} `{Qortal.Crypto} `{GroupAccess.World} `{IpAddress}.
Context (disconnect_handlers : list (nat -> M (Server A) unit)).
Context (others : list (GroupAccess.GroupAccessPolicy -> GroupAccess.GroupAccessPolicy)).

(** ** What the checks leave alone *)

(** The parts of a session that decide about transports. *)
Record same_core (o o' : ApplicationSession) : Prop := {
  core_id : session_id o' = session_id o;
  core_provisional : provisional o' = provisional o;
  core_user : authenticated_user o' = authenticated_user o;
  core_expires : expires_at o' = expires_at o;
  core_transport : private_transport o' = private_transport o;
  core_connection : Sessions.connection o' = Sessions.connection o;
  core_metadata : forall k, k ∉ [ACCESS_CHECKED_AT; ACCESS_POLICY_REVISION] -> dget k (metadata o') = dget k (metadata o)
}.

#[export] Instance same_core_preorder : PreOrder same_core.
Proof.
  split; [by intros o; split|]. intros o1 o2 o3 A1 A2. split; [etrans; [apply A2|apply A1]..|].
  intros k Hk. etrans; [by apply (core_metadata _ _ A2)|by apply (core_metadata _ _ A1)].
Qed.

(** Revalidation and a refresh of the endpoints change nothing else. *)
Record keeps (s s' : Server A) : Prop := {
  keeps_tokens : tokens s' = tokens s;
  keeps_logical : logical_sessions s' = logical_sessions s;
  keeps_conns : conns s' = conns s;
  keeps_wall : wall s' = wall s;
  keeps_entropy : (entropy s', drawn s') = (entropy s, drawn s);
  keeps_media : (media_files s', _media_grant_files s') = (media_files s, _media_grant_files s);
  keeps_index : index (sessions s') = index (sessions s);
  keeps_objects : forall x, same_core (session_obj x s) (session_obj x s');
  keeps_destination : destination_hash (auth s') = destination_hash (auth s)
}.

#[export] Instance keeps_preorder : PreOrder keeps.
Proof.
  split; [by intros s; split|]. intros s1 s2 s3 A1 A2. split.
  8: intros x; etrans; [apply A1|apply A2]. all: etrans; [apply A2|apply A1].
Qed.

Lemma keeps_sessions_step (f : SessionManager -> SessionManager) s :
  index (f (sessions s)) = index (sessions s) -> (forall x, same_core (obj x (sessions s)) (obj x (f (sessions s)))) ->
  keeps s (set_sessions (f (sessions s)) s).
Proof. intros Hi Ho. by split. Qed.

Lemma keeps_set_meta r k v : k ∈ [ACCESS_CHECKED_AT; ACCESS_POLICY_REVISION] -> moves keeps (set_meta (A := A) r k v).
Proof.
  intros Hk s. unfold set_meta, set_session, in_sessions, zoom, modify. cbn [fst]. apply (keeps_sessions_step (on_obj r _)); [done|].
  intros x. rewrite obj_on_obj. destruct (decide (r = x)) as [<-|]; [|done]. split; try done. intros k' Hk'.
  unfold dget. cbn [metadata set_metadata]. rewrite od_get_set_ne; [done|]. intros ->. done.
Qed.

Lemma persist_core r m : index (fst (persist r m)) = index m /\ forall x, same_core (obj x m) (obj x (fst (persist r m))).
Proof.
  unfold persist, bind, get. destruct (provisional _ || _); [done|]. pose proof (store_heap r m) as Hh.
  assert (index (fst (store r m)) = index m) as Hi.
  { unfold store, bind, gets, lift. destruct (to_stored (obj r m)); [|done]. unfold in_db, zoom. by destruct (Db.upsert_session _ _). }
  destruct (store r m) as [m1 [[]|e]]; cbn [fst] in *.
  - unfold modify. cbn [fst]. split; [done|]. intros x. rewrite obj_on_obj. unfold obj. rewrite Hh. by destruct (decide (r = x)) as [<-|].
  - split; [done|]. intros x. unfold obj. by rewrite Hh.
Qed.

Lemma keeps_persist r : moves keeps (in_sessions (A := A) (persist r)).
Proof.
  intros s. rewrite srv_in_sessions_eq. cbn [fst]. destruct (persist_core r (sessions s)) as [Hi Ho].
  apply (keeps_sessions_step (fun m => fst (persist r m))); [done|exact Ho].
Qed.

Lemma keeps_in_access {B} (m : M GroupAccess.GroupAccessPolicy B) : moves keeps (in_access (A := A) m).
Proof. intros s. rewrite in_access_eq. cbn [fst]. split; try done. unfold auth. cbn [app set_app]. by rewrite auth_of_put. Qed.

Lemma keeps_in_priv {B} (m : M PrivateTransportService B) : moves keeps (in_priv (A := A) m).
Proof.
  intros s. unfold in_priv, zoom. destruct (m (priv s)) as [p b]. cbn [fst]. split; try done.
  unfold auth. cbn [app set_app]. by rewrite auth_of_put_private.
Qed.

Lemma keeps_require_authorized r now : moves keeps (require_authorized (A := A) others r now).
Proof.
  unfold require_authorized. repeat (moves_step || (apply moves_try; [apply _| |intros ?]) || apply keeps_in_access || apply keeps_persist).
  all: apply keeps_set_meta; set_solver.
Qed.

Lemma keeps_refresh : moves keeps (_refresh_endpoints (A := A)).
Proof. unfold _refresh_endpoints. repeat (moves_step || apply keeps_in_priv). Qed.

(** ** Bootstrap *)

(** A session that may be given a token over connection [c]. *)
Record entitled (ctx : BootstrapContext) (c r : nat) (lid : string) (s : Server A) : Prop := {
  ent_connection : rpc_connection ctx = Some c;
  ent_logical : rpc_logical_id ctx = Some lid;
  ent_session : rpc_session ctx = Some r;
  ent_open : closed (conn c s) = false;
  ent_member : lid ∈ logical_connection_ids (conn c s);
  ent_route : logical_sessions s !! lid = Some r;
  ent_link : Sessions.connection (session_obj r s) = Some c;
  ent_authenticated : provisional (session_obj r s) = false;
  ent_user : exists u, authenticated_user (session_obj r s) = Some u /\ u ≠ "";
  ent_alive : wall s < expires_at (session_obj r s)
}.

Lemma context_session_entitled ctx s r : context_session ctx s = Some r -> exists c lid, entitled ctx c r lid s.
Proof.
  unfold context_session. destruct (rpc_connection ctx) as [c|] eqn:Ec; [|done]. destruct (rpc_logical_id ctx) as [lid|] eqn:El; [|done].
  destruct (closed (conn c s)) eqn:Hcl; [done|]. cbn [orb]. case_bool_decide as Hm; [|done]. cbn [negb].
  destruct (logical_sessions s !! lid) as [r'|] eqn:Hr; [|done]. destruct (_ || _) eqn:E; [done|]. intros [= ->].
  rewrite !orb_false_iff, !negb_false_iff, !bool_decide_eq_true in E. destruct E as ((((E1 & E2) & E3) & E4) & E5).
  exists c, lid. split; try done; [|lia]. unfold has_user in E4. destruct (authenticated_user _) as [u|]; [|done].
  exists u. split; [done|]. by apply negb_true_iff, bool_decide_eq_false_1 in E4.
Qed.

(** The Q-App of a session, in normal form. *)
Definition session_qapp (o : ApplicationSession) (qapp : string * string) : Prop :=
  exists vs, identity_tuple o = Ok vs /\ normalized_identity vs = Ok qapp /\ Attach.is_pair_of vs qapp = true.

Lemma request_error_none payload : request_error payload = Ok None ->
  exists d nonce purpose, payload = VDict d /\ dget "nonce" d = VStr nonce /\ dget "purpose" d = VStr purpose /\ purpose ∈ PURPOSES.
Proof.
  destruct payload as [| | | | | | |d]; try done. cbn [request_error]. destruct (negb _); [done|]. destruct (negb _); [done|].
  destruct (negb _); [done|]. unfold in_strings. destruct (dget "purpose" d) as [| | | |p| | |] eqn:Ep; try done. cbn [rbind].
  case_bool_decide as Hp; [|done]. cbn [negb]. destruct (str_matching _NONCE (dget "nonce" d)) as [n|] eqn:En; [|done]. intros _.
  exists d, n, p. split; [done|]. split; [|by rewrite Ep]. destruct (dget "nonce" d); try done. cbn [str_matching] in En.
  destruct (_NONCE _); [|done]. by injection En as ->.
Qed.

(** The token of an answer. *)
Definition token_of (answer : odict string pyval) : option string :=
  match od_get "attachToken" answer with Some (VStr t) => Some t | _ => None end.

(** What [issue_bootstrap] has done when it answers a token: the token was
    issued for the session, and for a call it was handed on to the relay. *)
Record issued (r : nat) (lid nonce purpose : string) (s s' : Server A) (answer : odict string pyval) (token : string)
    (g : Attach.AttachGrant) : Prop := {
  is_drawn : exists sid destination qapp binding tk,
    sid = session_id (session_obj r s) /\ session_qapp (session_obj r s) qapp /\ destination_hash (auth s) = Some destination /\
    owner_binding_hash qapp lid destination sid nonce purpose = Ok binding /\
    Attach.issue sid lid (default "" (authenticated_user (session_obj r s))) qapp purpose binding nonce token (wall s) (tokens s) = (tk, Ok (token, g)) /\
    answer = bootstrap_answer (priv s) sid destination token nonce purpose binding (Attach.grant_expires_at g) /\
    (purpose ≠ "realtime" -> tokens s' = tk) /\
    (purpose = "realtime" -> forall d, Attach.token_hash token = Ok d -> od_get d (Attach._grants (tokens s')) = None /\
       exists path room, media_files s' !! path = Some (grant_document (hex_of d) g (VStr room)) /\
         dget "call_room_id" (metadata (session_obj r s)) = VStr room);
  is_sessions : sessions s' = sessions s;
  is_conns : conns s' = conns s
}.

Lemma io_eq s : exists fs, io (A := A) s = (set_io_failures fs s, Ok tt) \/ io (A := A) s = (set_io_failures fs s, Raise OSError).
Proof.
  unfold io. rewrite (bind_ok (gets io_failures) _ s s _ eq_refl). destruct (io_failures s) as [|f fs] eqn:E.
  - exists []. left. rewrite <- E. by destruct s.
  - exists fs. rewrite (bind_ok (modify _) _ s _ tt eq_refl). destruct f; [by right|by left].
Qed.

Lemma write_media_grant_ok token d g r (s s' : Server A) : _write_media_grant token g r s = (s', Ok tt) -> Attach.token_hash token = Ok d ->
  exists room, getitem (metadata (session_obj r s)) "call_room_id" = Ok room /\
    media_files s' !! String.append (hex_of d) ".json" = Some (grant_document (hex_of d) g room) /\
    sessions s' = sessions s /\ conns s' = conns s /\ tokens s' = tokens s.
Proof.
  intros E Hd. revert E. unfold _write_media_grant. rewrite (bind_ok (gets _) _ s s _ eq_refl).
  destruct (getitem _ _) as [room|] eqn:Eg; [|done]. rewrite (bind_ok (lift (Ok room)) _ s s _ eq_refl).
  unfold Attach.token_hash in Hd. destruct (encode_ascii token) as [b|]; [|done]. injection Hd as <-. cbn [rbind].
  rewrite (bind_ok (lift (Ok (sha256_hex b))) _ s s _ eq_refl). cbv zeta. destruct (io_eq s) as [fs [E|E]];
    [rewrite (bind_ok _ _ _ _ _ E)|by rewrite (bind_raise _ _ _ _ _ E)].
  rewrite (bind_ok (modify _) _ _ _ tt eq_refl). intros [= <-]. exists room. split; [done|]. split; [|done].
  cbn [media_files set_media_grant_files set_media_files]. unfold sha256_hex. by rewrite lookup_insert_eq.
Qed.

Lemma issue_bootstrap_issued r lid nonce purpose (s s' : Server A) answer token qapp : session_qapp (session_obj r s) qapp ->
  issue_bootstrap r lid nonce purpose s = (s', Ok answer) -> token_of answer = Some token ->
  exists g, issued r lid nonce purpose s s' answer token g.
Proof.
  intros (vs & Evs & Eq & Epair) E Htok. revert E. unfold issue_bootstrap. rewrite (bind_ok get _ s s s eq_refl). cbv zeta.
  rewrite Evs. cbn [rbind]. rewrite Eq. rewrite (bind_ok (lift (Ok qapp)) _ s s _ eq_refl).
  assert (forall code x, (x, Ok (_error code)) = (s', Ok answer) -> False) as Herr by (intros code x [= _ <-]; done).
  destruct (destination_hash (auth s)) as [dest|] eqn:Edest; [|by intros []%Herr].
  destruct (endpoint (priv s)); [|by intros []%Herr]. destruct (certificate_sha256 (priv s)); [|by intros []%Herr].
  destruct (_ && bool_decide (media_endpoint _ = None)); [by intros []%Herr|].
  destruct (bool_decide (purpose = "realtime") && _) eqn:Eroom; [by intros []%Herr|].
  destruct (owner_binding_hash _ _ _ _ _ _) as [binding|] eqn:Eb; [|done]. rewrite (bind_ok (lift (Ok binding)) _ s s _ eq_refl).
  unfold draw. rewrite (bind_ok _ _ s (set_drawn (S (drawn s)) s) (entropy s (drawn s)) eq_refl).
  destruct (entropy s (drawn s)) as [x tok]. set (sd := set_drawn _ s).
  assert (in_tokens (Attach.issue (session_id (session_obj r s)) lid (default "" (authenticated_user (session_obj r s))) qapp purpose binding nonce tok (wall s)) sd =
    let '(tk, res) := Attach.issue (session_id (session_obj r s)) lid (default "" (authenticated_user (session_obj r s))) qapp purpose binding nonce tok (wall s) (tokens s) in
    (set_tokens tk sd, res)) as Ein by done.
  destruct (Attach.issue _ _ _ _ _ _ _ _ _ _) as [tk [[tok' g]|e]] eqn:Eiss.
  2: { destruct (decide (e = BootstrapRateLimited)) as [->|Hne].
    - erewrite (bind_ok _ _ sd); [|unfold try_catch; rewrite (bind_raise _ _ _ _ _ Ein); reflexivity]. by intros []%Herr.
    - erewrite (bind_raise _ _ sd); [done|unfold try_catch; rewrite (bind_raise _ _ _ _ _ Ein), bool_decide_false by done; reflexivity]. }
  erewrite (bind_ok _ _ sd (set_tokens tk sd)); [|unfold try_catch; rewrite (bind_ok _ _ _ _ _ Ein); reflexivity]. cbv iota.
  assert (tok' = tok) as ->.
  { destruct (AttachThm.issue_cases (session_id (session_obj r s)) lid (default "" (authenticated_user (session_obj r s))) qapp purpose binding nonce tok (wall s) (tokens s))
      as [[? E]|(_ & d & _ & E)]; cbv zeta in E; rewrite E in Eiss; congruence. }
  case_bool_decide as Hrt.
  - destruct (_write_media_grant tok g r (set_tokens tk sd)) as [s2 [[]|e]] eqn:Ew; [|unfold bind at 1; by rewrite (bind_raise _ _ _ _ _ Ew)].
    destruct (Attach.token_hash tok) as [d|e] eqn:Ed.
    2: { exfalso. rewrite AttachThm.issue_unfold, Ed in Eiss. cbv zeta in Eiss. by destruct (AttachThm.limited _ _ _). }
    destruct (write_media_grant_ok tok d g r _ s2 Ew Ed) as (room & Eg & Hm & Hs & Hc & Ht).
    unfold bind at 1. rewrite (bind_ok _ _ _ _ _ Ew). unfold in_tokens, zoom, Attach.release. rewrite Ed. unfold modify.
    intros [= <- <-]. injection Htok as <-. exists g. split; [|exact Hs|exact Hc].
    exists (session_id (session_obj r s)), dest, qapp, binding, tk. do 2 (split; [done || by exists vs|]). do 4 (split; [done|]).
    split; [done|]. intros _ d' Hd'. assert (d' = d) as -> by congruence. split; [apply od_get_pop_eq|].
    exists (String.append (hex_of d) ".json"). cbn [andb] in Eroom. apply negb_false_iff in Eroom.
    change (session_obj r (set_tokens tk sd)) with (session_obj r s) in Eg. unfold getitem in Eg. unfold dget in Eroom |- *.
    destruct (od_get "call_room_id" (metadata (session_obj r s))) as [v|]; [|done]. injection Eg as ->. cbn [default] in *.
    destruct room as [| | | |text| | |]; try done. exists text. done.
  - rewrite (bind_ok (ret tt) _ _ _ tt eq_refl). intros [= <- <-]. injection Htok as <-. exists g. split; [|done|done].
    exists (session_id (session_obj r s)), dest, qapp, binding, tk. do 2 (split; [done || by exists vs|]). do 5 (split; [done|]). done.
Qed.

Hypothesis others_ok : Forall (fun f => forall q, GroupThm.cache_ok q -> GroupThm.cache_ok (f q) /\ GroupThm.same_config q (f q)) others.
Context `{!GroupThm.WorldOk}.

(** A context that passes the checks. *)
Lemma validate_passes ctx payload s s' : GroupThm.cache_ok (access (auth s)) ->
  _validate_bootstrap_context others ctx payload s = (s', Ok None) ->
  exists c r lid qapp, entitled ctx c r lid s /\ session_qapp (session_obj r s) qapp /\ may_pass others r s (wall s) /\
    private_transport (session_obj r s) = None /\ keeps s s' /\ request_error payload = Ok None.
Proof.
  intros Hcache. unfold _validate_bootstrap_context, lift. destruct (request_error payload) as [[code|]|e] eqn:Er;
    [rewrite (bind_ok _ _ s s _ eq_refl)|rewrite (bind_ok _ _ s s _ eq_refl)|]; try done.
  rewrite (bind_ok get _ s s s eq_refl). destruct (context_session ctx s) as [r|] eqn:Ecx; [|done].
  destruct (context_session_entitled ctx s r Ecx) as (c & lid & Hent).
  destruct (identity_tuple (session_obj r s)) as [vs|e] eqn:Ei; cbn [rbind]; [|by destruct (is_TypeOrValueError e)].
  destruct (normalized_identity vs) as [q|e] eqn:Eq; cbn [rbind]; [|by destruct (is_TypeOrValueError e)].
  destruct (Attach.is_pair_of vs q) eqn:Ep; [|done].
  pose proof (keeps_require_authorized r (wall s) s) as Hk. pose proof (require_authorized_passes others others_ok r (wall s) s Hcache) as Hmp.
  destruct (require_authorized others r (wall s) s) as [s1 [[]|e]] eqn:Ea; cbn [fst snd] in *.
  - erewrite (bind_ok _ _ s s1); [|unfold try_catch; rewrite (bind_ok _ _ _ _ _ Ea); reflexivity].
    cbv iota. rewrite (bind_ok (gets _) _ s1 s1 _ eq_refl). case_bool_decide as Hpt; [done|]. intros [= <-]. exists c, r, lid, q.
    split; [done|]. split; [by exists vs|]. split; [by apply Hmp|]. split; [|done].
    rewrite (core_transport _ _ (keeps_objects _ _ Hk r)) in Hpt. destruct (private_transport _); [|done]. by exfalso; eauto.
  - unfold bind at 1, try_catch. rewrite (bind_raise _ _ _ _ _ Ea). by destruct e.
Qed.


Lemma keeps_refresh_if p : moves keeps (if _uses_automatic_reachability p
  then try_catch (_refresh_endpoints (A := A)) is_ReachabilityUnavailable (fun _ => in_priv (modify (set_endpoints None None))) else ret tt).
Proof.
  destruct (_uses_automatic_reachability p); [|repeat moves_step].
  apply moves_try; [apply _|apply keeps_refresh|intros ?; apply keeps_in_priv].
Qed.

Lemma session_qapp_core (o o' : ApplicationSession) qapp : same_core o o' -> session_qapp o qapp -> session_qapp o' qapp.
Proof.
  intros Hc (vs & E & Hq). exists vs. split; [|done]. unfold identity_tuple in *. rewrite (core_metadata _ _ Hc); [done|set_solver].
Qed.

(** The token of an accepted bootstrap. *)
Lemma bootstrap_issues ctx payload s s' answer token : GroupThm.cache_ok (access (auth s)) ->
  bootstrap disconnect_handlers others ctx payload s = (s', Ok answer) -> token_of answer = Some token ->
  exists c r lid nonce purpose s1 g, entitled ctx c r lid s /\ may_pass others r s (wall s) /\ private_transport (session_obj r s) = None /\
    (exists d, payload = VDict d /\ dget "purpose" d = VStr purpose) /\ purpose ∈ PURPOSES /\ keeps s s1 /\
    session_qapp (session_obj r s) (Attach.qapp_identity g) /\ issued r lid nonce purpose s1 s' answer token g.
Proof.
  intros Hcache Hrun Htok. revert Hrun. unfold bootstrap.
  destruct (_validate_bootstrap_context others ctx payload s) as [s1 [[code|]|e]] eqn:Ev; [| |by rewrite (bind_raise _ _ _ _ _ Ev)];
    rewrite (bind_ok _ _ _ _ _ Ev).
  - intros E. exfalso. revert E. unfold bind. match goal with |- match ?m with _ => _ end = _ -> _ => destruct m as [s2 [[]|]] end; [|done].
    intros [= _ <-]. done.
  - destruct (validate_passes ctx payload s s1 Hcache Ev) as (c & r & lid & qapp & Hent & Hq & Hmp & Hpt & Hk & Hreq).
    rewrite (bind_ok (gets priv) _ s1 s1 _ eq_refl). pose proof (keeps_refresh_if (priv s1) s1) as Hk2.
    match type of Hk2 with keeps _ (fst ?m) => destruct m as [s2 [[]|e]] eqn:Er end; [|by rewrite (bind_raise _ _ _ _ _ Er)].
    rewrite (bind_ok _ _ _ _ _ Er), (bind_ok get _ s2 s2 s2 eq_refl). cbn [fst] in Hk2. assert (keeps s s2) as Hk3 by by etrans.
    destruct (request_error_none payload Hreq) as (d & nonce & purpose & -> & En & Ep & Hp). rewrite (ent_logical _ _ _ _ _ Hent), En, Ep.
    rewrite (keeps_logical _ _ Hk3), (ent_route _ _ _ _ _ Hent). intros E.
    pose proof (session_qapp_core _ _ _ (keeps_objects _ _ Hk3 r) Hq) as Hq2.
    destruct (issue_bootstrap_issued r lid nonce purpose s2 s' answer token qapp Hq2 E Htok) as (g & Hg).
    exists c, r, lid, nonce, purpose, s2, g. do 3 (split; [done|]). split; [by exists d|]. do 2 (split; [done|]). split; [|done].
    destruct (is_drawn _ _ _ _ _ _ _ _ _ Hg) as (sid & dest & q & binding & tk & -> & Hq3 & _ & _ & Hiss & _).
    assert (q = qapp) as ->.
    { destruct Hq2 as (vs & E1 & E2 & _), Hq3 as (vs' & E1' & E2' & _). congruence. }
    destruct (AttachThm.issue_cases (session_id (session_obj r s2)) lid (default "" (authenticated_user (session_obj r s2))) qapp purpose binding nonce token (wall s2) (tokens s2))
      as [[? E0]|(_ & d0 & _ & E0)]; cbv zeta in E0; rewrite E0 in Hiss; [done|]. injection Hiss as _ <-. exact Hq.
Qed.

(** C23: a bootstrap gives a token only to a session that is entitled to it -
    the one of the request's logical connection on the open link the request
    came over, authenticated, not expired, passing the access check, without a
    transport yet - and the token is a grant for exactly that session and user.
    A token for a call is not accepted by [attach] any more: it is the media
    relay's, with a grant document naming the session's user and room. *)
Theorem bootstrap_sound ctx payload s s' answer token
    (Hcache : GroupThm.cache_ok (access (auth s)))
    (Hrun : bootstrap disconnect_handlers others ctx payload s = (s', Ok answer)) (Htok : token_of answer = Some token) :
  exists c r lid purpose g d, entitled ctx c r lid s /\ may_pass others r s (wall s) /\ private_transport (session_obj r s) = None /\
    Attach.logical_session_id g = session_id (session_obj r s) /\ authenticated_user (session_obj r s) = Some (Attach.grant_user g) /\
    Attach.logical_connection_id g = lid /\ Attach.purpose g = purpose /\ purpose ∈ PURPOSES /\ Attach.token_hash token = Ok d /\
    if bool_decide (purpose = "realtime")
    then od_get d (Attach._grants (tokens s')) = None /\
         exists path room, media_files s' !! path = Some (grant_document (hex_of d) g (VStr room)) /\
           dget "call_room_id" (metadata (session_obj r s)) = VStr room
    else od_get d (Attach._grants (tokens s')) = Some g.
Proof.
  destruct (bootstrap_issues ctx payload s s' answer token Hcache Hrun Htok)
    as (c & r & lid & nonce & purpose & s1 & g & Hent & Hmp & Hpt & _ & Hp & Hk & _ & Hg).
  destruct (is_drawn _ _ _ _ _ _ _ _ _ Hg) as (sid & dest & q & binding & tk & -> & _ & _ & _ & Hiss & _ & Hother & Hrt).
  rewrite AttachThm.issue_unfold in Hiss. cbv zeta in Hiss. destruct (AttachThm.limited _ _ _); [done|].
  destruct (Attach.token_hash token) as [d|] eqn:Ed; [|done]. injection Hiss as Etk Eg.
  pose proof (keeps_objects _ _ Hk r) as Hc. destruct (ent_user _ _ _ _ _ Hent) as (u & Eu & _).
  exists c, r, lid, purpose, g, d. do 3 (split; [done|]). split; [rewrite <- Eg; apply Hc|].
  split; [rewrite <- Eg; cbn; by rewrite (core_user _ _ Hc), Eu|]. do 2 (split; [by rewrite <- Eg|]). do 2 (split; [done|]).
  case_bool_decide as Hr.
  - destruct (Hrt Hr d eq_refl) as (Q1 & path & room & Q2 & Q3). split; [done|]. exists path, room. split; [done|].
    rewrite <- Q3. symmetry. apply (core_metadata _ _ Hc). set_solver.
  - rewrite (Hother Hr), <- Etk, <- Eg. apply od_get_set_eq.
Qed.
End facts.

(** ** Transports *)

Section transports.
Context {A : Type} `{HasAuth A} `{HasPrivate A} `{!HasPrivateLaws A}.

(** The authority's view of the sessions. *)
Definition lookup_in (s : Server A) (x : string) : option ApplicationSession := (fun r => session_obj r s) <$> get_session x (sessions s).
Definition closed_in (s : Server A) (c : nat) : bool := closed (conn c s).

Lemma attach_unfold t m s token sid purpose binding nonce : attach_fields m = Some (token, sid, purpose, binding, nonce) ->
  attach (A := A) t m s =
  let '(tk, res) := Attach.consume (lookup_in s) (closed_in s) token sid purpose binding nonce (wall s) (tokens s) in
  match res with
  | Raise e => (set_tokens tk s, Raise e)
  | Ok (g, _) =>
    match get_session (Attach.logical_session_id g) (sessions s) with
    | None => (set_tokens tk s, Raise AttachRejected)
    | Some r =>
      if bool_decide (is_Some (private_transport (session_obj r s))) then (set_tokens tk s, Raise AttachRejected)
      else
        let s1 := set_sessions (on_obj r (set_private_transport (Some t)) (sessions s)) (set_tokens tk s) in
        (set_app (put_private (set_latest_peer t (priv s1)) (app s1)) s1, Ok r)
    end
  end.
Proof.
  intros E. unfold attach. rewrite E, (bind_ok get _ s s s eq_refl). cbv zeta. unfold bind at 1, in_tokens, zoom.
  change (Attach.consume _ _ token) with (Attach.consume (lookup_in s) (closed_in s) token).
  destruct (Attach.consume _ _ _ _ _ _ _ _ _) as [tk [[g o]|e]]; [|done].
  destruct (get_session _ _) as [r|]; [|done]. by destruct (bool_decide _).
Qed.

(** What is known of an attachment of transport [t] to session [r]: it was
    made with a live grant for this session, purpose, owner and nonce; the
    session is current, authenticated as the user of the grant, not expired, on
    an open link, and had no transport; the grant is gone, and no other session
    has changed. *)
Definition attachment (t : nat) (m : pyval) (s s' : Server A) (r : nat) : Prop :=
  exists token sid purpose binding nonce d g,
    attach_fields m = Some (token, sid, purpose, binding, nonce) /\ Attach.token_hash token = Ok d /\
    od_get d (Attach._grants (tokens s)) = Some g /\ wall s < Attach.grant_expires_at g /\
    (Attach.logical_session_id g, Attach.purpose g, Attach.owner_binding_hash g, Attach.nonce g) = (sid, purpose, binding, nonce) /\
    get_session sid (sessions s) = Some r /\ provisional (session_obj r s) = false /\ wall s < expires_at (session_obj r s) /\
    authenticated_user (session_obj r s) = Some (Attach.grant_user g) /\
    (exists c, Sessions.connection (session_obj r s) = Some c /\ closed (conn c s) = false) /\
    private_transport (session_obj r s) = None /\
    private_transport (session_obj r s') = Some t /\ (forall x, x ≠ r -> session_obj x s' = session_obj x s) /\
    od_get d (Attach._grants (tokens s')) = None.

Lemma attach_ok t m (s s' : Server A) r : od_wf (Attach._grants (tokens s)) -> attach t m s = (s', Ok r) -> attachment t m s s' r.
Proof.
  intros Hwf Hrun. unfold attachment.
  destruct (attach_fields m) as [[[[[token sid] purpose] binding] nonce]|] eqn:Ef; [|by unfold attach in Hrun; rewrite Ef in Hrun].
  rewrite (attach_unfold t m s _ _ _ _ _ Ef) in Hrun. exists token, sid, purpose, binding, nonce.
  destruct (Attach.token_hash token) as [d|e] eqn:Ed; [|by rewrite (AttachThm.consume_bad_token _ _ _ _ _ _ _ _ _ _ Ed) in Hrun].
  pose proof (AttachThm.consume_state (lookup_in s) (closed_in s) token sid purpose binding nonce (wall s) (tokens s) d Ed) as Hst.
  destruct (AttachThm.consume_cases (lookup_in s) (closed_in s) token sid purpose binding nonce (wall s) (tokens s) d Ed)
    as [(g & o & Hg & _ & (Q1 & Q2 & Q3 & Q4 & Q5 & Q6 & Q7) & Hres)|[e Hres]];
    destruct (Attach.consume _ _ _ _ _ _ _ _ _) as [tk res]; cbn [fst snd] in *; subst res; [|done].
  rewrite Q2 in Hrun. unfold lookup_in in Q6. destruct (get_session sid (sessions s)) as [r'|] eqn:Hr'; [|done]. cbn [fmap option_fmap option_map] in Q6.
  injection Q6 as <-. revert Hrun. case_bool_decide as Hpt; [done|]. cbv zeta. intros [= <- ->].
  rewrite od_get_filter_eq in Hg by done. destruct (od_get d (Attach._grants (tokens s))) as [g'|] eqn:Hg'; [|done]. cbn in Hg.
  revert Hg. case_decide as Hlive; [|done]. intros [= ->].
  unfold Attach.session_accepts in Q7. destruct (provisional (session_obj r s)); [done|]. destruct (_ <=? _) eqn:Hexp in Q7; [done|].
  revert Q7. case_bool_decide as Hu; [|done]. cbn [orb negb]. intros Q7. destruct (Attach.tuple_or_empty _) as [vs|]; [|done]. cbn [rbind] in Q7.
  injection Q7 as Q7. apply andb_true_iff in Q7 as [_ Q7]. destruct (Sessions.connection (session_obj r s)) as [c|]; [|done].
  exists d, g. do 4 (split; [done|]). split; [by rewrite Q2, Q3, Q4, Q5|]. do 2 (split; [done|]). split; [lia|]. split; [done|].
  split; [exists c; split; [done|by apply negb_true_iff]|]. split; [destruct (private_transport _); [|done]; by exfalso; eauto|].
  unfold session_obj. cbn [sessions set_app set_sessions]. split; [by rewrite obj_on_obj, decide_True|]. split.
  - intros x Hx. rewrite obj_on_obj, decide_False by done. done.
  - cbn [tokens set_app set_sessions set_tokens]. rewrite Hst. cbn. apply od_get_pop_eq.
Qed.

(** C24: an attached transport has presented a live grant: the token's, for
    this session, purpose, owner and nonce; the session is current,
    authenticated as the user the token was issued to, not expired, on an open
    link, and had no transport.  The grant is gone, and no other session has
    changed. *)
Theorem attach_sound t m (s s' : Server A) r (Hwf : od_wf (Attach._grants (tokens s))) (Hrun : attach t m s = (s', Ok r)) : attachment t m s s' r.
Proof. by apply attach_ok. Qed.

(** *** The end of a session *)

(** Everything [invalidate_session] does after its first steps leaves the
    sessions and the tokens alone. *)
Definition same_access (s s' : Server A) : Prop := sessions s' = sessions s /\ tokens s' = tokens s.
#[export] Instance same_access_preorder : PreOrder same_access.
Proof. split; [by intros s|]. intros s1 s2 s3 [] []. split; congruence. Qed.

Lemma same_access_io : moves same_access (io (A := A)).
Proof. unfold io. by repeat moves_step. Qed.

Lemma moves_same_access_modify (f : Server A -> Server A) : (forall s, same_access s (f s)) -> moves same_access (modify f).
Proof. intros Hf s. apply Hf. Qed.

Lemma invalidate_shape r (s : Server A) :
  sessions (fst (invalidate_session r s)) = on_obj r (set_private_transport None) (sessions s) /\
  tokens (fst (invalidate_session r s)) = fst (Attach.invalidate_session (session_id (session_obj r s)) (tokens s)).
Proof.
  unfold invalidate_session. rewrite (bind_ok (gets _) _ s s _ eq_refl). cbv zeta.
  set (tk := fst (Attach.invalidate_session (session_id (session_obj r s)) (tokens s))).
  rewrite (bind_ok (in_tokens (Attach.invalidate_session (session_id (session_obj r s)))) _ s (set_tokens tk s) tt eq_refl).
  set (s1 := set_sessions (on_obj r (set_private_transport None) (sessions s)) (set_tokens tk s)).
  rewrite (bind_ok (set_session r (set_private_transport None)) _ _ s1 tt eq_refl).
  match goal with |- sessions (fst (?m s1)) = _ /\ _ => assert (moves same_access m) as Hm end.
  { repeat (moves_step || apply same_access_io); try done; unfold _write_media_revocation;
      repeat (moves_step || apply same_access_io || (apply moves_try; [apply _| |intros ?])); done. }
  destruct (Hm s1) as [-> ->]. done.
Qed.


(** The loop of [stop]: each of its sessions is without transport and grant. *)
Lemma invalidate_all rs (s s' : Server A) : od_wf (Attach._grants (tokens s)) -> iterM invalidate_session rs s = (s', Ok tt) ->
  index (sessions s') = index (sessions s) /\
  forall r, (r ∈ rs -> private_transport (session_obj r s') = None /\
    forall d g, od_get d (Attach._grants (tokens s')) = Some g -> Attach.logical_session_id g ≠ session_id (session_obj r s)).
Proof.
  enough (od_wf (Attach._grants (tokens s)) -> iterM invalidate_session rs s = (s', Ok tt) ->
    index (sessions s') = index (sessions s) /\ (forall x, session_id (session_obj x s') = session_id (session_obj x s)) /\
    (forall x, private_transport (session_obj x s) = None -> private_transport (session_obj x s') = None) /\
    (forall d g, od_get d (Attach._grants (tokens s')) = Some g -> od_get d (Attach._grants (tokens s)) = Some g) /\
    forall r, (r ∈ rs -> private_transport (session_obj r s') = None /\
      forall d g, od_get d (Attach._grants (tokens s')) = Some g -> Attach.logical_session_id g ≠ session_id (session_obj r s)))
    as Hgen by (intros Hwf E; destruct (Hgen Hwf E) as (H1' & _ & _ & _ & H2'); done).
  revert s. induction rs as [|r rs IH]; intros s Hwf; cbn [iterM].
  { intros [= ->]. do 4 (split; [done|]). intros r []%not_elem_of_nil. }
  destruct (invalidate_shape r s) as [Es Et]. destruct (invalidate_session r s) as [s1 [[]|e]] eqn:E1; cbn [fst] in *;
    [rewrite (bind_ok _ _ _ _ _ E1)|by rewrite (bind_raise _ _ _ _ _ E1)]. intros Hit.
  assert (forall d g, od_get d (Attach._grants (tokens s1)) = Some g ->
    od_get d (Attach._grants (tokens s)) = Some g /\ Attach.logical_session_id g ≠ session_id (session_obj r s)) as Hg1.
  { intros d g Hd. rewrite Et in Hd. cbn in Hd. rewrite od_get_filter_eq in Hd by done.
    destruct (od_get d (Attach._grants (tokens s))) as [g'|]; [|done]. cbn in Hd. revert Hd. case_decide; [|done]. by intros [= ->]. }
  assert (forall x, session_obj x s1 = if decide (r = x) then set_private_transport None (session_obj r s) else session_obj x s) as Ho.
  { intros x. unfold session_obj. rewrite Es. apply obj_on_obj. }
  destruct (IH s1) as (Hi & Hids & Hnone & Hgs & Hall); [rewrite Et; cbn; by apply od_wf_filter|done|].
  assert (forall x, session_id (session_obj x s1) = session_id (session_obj x s)) as Hid1.
  { intros x. rewrite Ho. by destruct (decide (r = x)) as [<-|]. }
  split; [by rewrite Hi, Es|]. split; [intros x; by rewrite Hids|]. split; [intros x Hx; apply Hnone; rewrite Ho; by destruct (decide (r = x))|].
  split; [intros d g Hd; by apply Hg1, Hgs|]. intros x Hx. split.
  - apply elem_of_cons in Hx as [->|Hx]; [|by apply Hall]. apply Hnone. by rewrite Ho, decide_True.
  - intros d g Hd. apply elem_of_cons in Hx as [->|Hx]; [by apply (Hg1 d), Hgs|]. rewrite <- Hid1. by apply (proj2 (Hall x Hx) d).
Qed.

(** after [stop] has returned nothing of the private transport is left:
    no listener and no endpoint, no session with a transport and no grant of a
    session. *)
Theorem stop_leaves_nothing (s s' : Server A) (Hsm : sm_wf (sessions s)) (Hwf : od_wf (Attach._grants (tokens s))) (Hrun : stop s = (s', Ok tt)) :
  quic_server (priv s') = false /\ _listener_port (priv s') = None /\ endpoint (priv s') = None /\ media_endpoint (priv s') = None /\
  forall sid r, get_session sid (sessions s') = Some r -> private_transport (session_obj r s') = None /\
    forall d g, od_get d (Attach._grants (tokens s')) = Some g -> Attach.logical_session_id g ≠ sid.
Proof.
  revert Hrun. unfold stop. rewrite (bind_ok (gets _) _ s s _ eq_refl).
  destruct (iterM invalidate_session (all (sessions s)) s) as [s1 [[]|e]] eqn:Ei; [|by rewrite (bind_raise _ _ _ _ _ Ei)].
  rewrite (bind_ok _ _ _ _ _ Ei). unfold in_priv, zoom, modify. intros [= <-]. unfold priv. cbn [app set_app]. rewrite private_of_put.
  do 4 (split; [done|]). intros sid r Hr. cbn [sessions set_app tokens] in *.
  destruct (invalidate_all (all (sessions s)) s s1 Hwf Ei) as (Hidx & Hall). destruct (sm_index_ok (sessions s) Hsm sid r) as [_ Hid].
  { unfold get_session in Hr. by rewrite Hidx in Hr. }
  destruct (Hall r) as [Hpt Hg]; [|split; [exact Hpt|]].
  - unfold all. apply od_values_elem. exists sid. apply od_get_Some_elem. unfold get_session in Hr. by rewrite Hidx in Hr.
  - intros d g Hd. rewrite <- Hid. by apply (Hg d).
Qed.
End transports.

(** ** From bootstrap to attachment *)

(** What a client sends with the token of [answer]. *)
Definition attach_request (answer : odict string pyval) (purpose : string) : pyval :=
  VDict [("protocolVersion", VInt 1); ("logicalSessionId", dget "logicalSessionId" answer); ("attachToken", dget "attachToken" answer);
         ("nonce", dget "nonce" answer); ("purpose", VStr purpose); ("ownerBindingHash", dget "ownerBindingHash" answer)].

Section composition.
Context {A : Type} `{HasAuth A} `{!HasAuthLaws A} `{HasPrivate A} `{!HasPrivateLaws A}.
Context `{Qortal.Unicode} `{Qortal.Crypto} `{GroupAccess.World} `{IpAddress} `{!GroupThm.WorldOk}.
Context (disconnect_handlers : list (nat -> M (Server A) unit)).
Context (others : list (GroupAccess.GroupAccessPolicy -> GroupAccess.GroupAccessPolicy)).

Lemma attach_request_fields p sid dest token nonce purpose binding expires :
  attach_fields (attach_request (bootstrap_answer p sid dest token nonce purpose binding expires) purpose) = Some (token, sid, purpose, binding, nonce).
Proof. done. Qed.

(** The session still passes the checks of the authority. *)
Lemma accepts_later ctx c r lid (s s1 : Server A) g later : entitled ctx c r lid s -> same_core (session_obj r s) (session_obj r s1) ->
  session_qapp (session_obj r s) (Attach.qapp_identity g) -> dget "qapp_connection_id" (metadata (session_obj r s)) = VStr lid ->
  Attach.logical_connection_id g = lid -> authenticated_user (session_obj r s) = Some (Attach.grant_user g) ->
  later < expires_at (session_obj r s) -> conns s1 = conns s ->
  Attach.session_accepts (closed_in s1) (session_obj r s1) g later = Ok true.
Proof.
  intros Hent Hc (vs & Evs & _ & Hpair) Hlid Hgl Hu Hlater Hconns. unfold Attach.session_accepts.
  rewrite (core_provisional _ _ Hc), (ent_authenticated _ _ _ _ _ Hent), (core_expires _ _ Hc), (core_user _ _ Hc), Hu.
  rewrite (proj2 (Z.leb_gt _ _) Hlater), bool_decide_true by done. cbn [orb negb]. unfold identity_tuple in Evs.
  rewrite !(core_metadata _ _ Hc) by set_solver. rewrite Evs. cbn [rbind]. rewrite Hpair, Hlid, Hgl. cbn [eq_str]. rewrite bool_decide_true by done.
  rewrite (core_connection _ _ Hc), (ent_link _ _ _ _ _ Hent). unfold closed_in. cbn [conn server_store]. rewrite Hconns.
  pose proof (ent_open _ _ _ _ _ Hent) as Hopen. cbn [conn server_store] in Hopen. by rewrite Hopen.
Qed.

Hypothesis others_ok : Forall (fun f => forall q, GroupThm.cache_ok q -> GroupThm.cache_ok (f q) /\ GroupThm.same_config q (f q)) others.

(** a bootstrap is worth exactly one attachment: with the answer of a
    successful bootstrap for a data transport, a transport that presents it
    before it expires is attached to the session that asked, and every later
    presentation, by any transport at any time, is rejected. *)
Theorem bootstrap_attaches_once ctx d s s' answer token purpose r lid t later
    (Hcache : GroupThm.cache_ok (access (auth s))) (Hwf : od_wf (Attach._grants (tokens s)))
    (Hrun : bootstrap disconnect_handlers others ctx (VDict d) s = (s', Ok answer)) (Htok : token_of answer = Some token)
    (Hpurpose : dget "purpose" d = VStr purpose) (Hdata : purpose ≠ "realtime")
    (Hsession : rpc_session ctx = Some r) (Hlogical : rpc_logical_id ctx = Some lid)
    (Hcurrent : get_session (session_id (session_obj r s)) (sessions s) = Some r)
    (Hlabel : dget "qapp_connection_id" (metadata (session_obj r s)) = VStr lid)
    (Hlater : later < wall s + Attach.ttl (tokens s)) (Halive : later < expires_at (session_obj r s)) :
  let m := attach_request answer purpose in
  let s1 := set_wall later s' in
  snd (attach t m s1) = Ok r /\ private_transport (session_obj r (fst (attach t m s1))) = Some t /\
  forall t' again, snd (attach t' m (set_wall again (fst (attach t m s1)))) = Raise AttachRejected.
Proof.
  destruct (bootstrap_issues disconnect_handlers others others_ok ctx (VDict d) s s' answer token Hcache Hrun Htok)
    as (c & r' & lid' & nonce & purpose' & s0 & g & Hent & _ & Hpt & (d' & [= <-] & Hp') & _ & Hk & Hq & Hg).
  assert (r' = r) as -> by (pose proof (ent_session _ _ _ _ _ Hent); congruence).
  assert (lid' = lid) as -> by (pose proof (ent_logical _ _ _ _ _ Hent); congruence). assert (purpose' = purpose) as -> by congruence.
  destruct (is_drawn _ _ _ _ _ _ _ _ _ Hg) as (sid & dest & q & binding & tk & -> & _ & _ & _ & Hiss & -> & Htk & _). specialize (Htk Hdata).
  pose proof (keeps_objects _ _ Hk r) as Hc. destruct (ent_user _ _ _ _ _ Hent) as (u & Eu & _).
  assert (Attach.logical_session_id g = session_id (session_obj r s0) /\ Attach.logical_connection_id g = lid /\ Attach.grant_user g = u /\
    exists h, Attach.token_hash token = Ok h) as (Egs & Egl & Egu & h & Eh).
  { rewrite AttachThm.issue_unfold in Hiss. cbv zeta in Hiss. destruct (AttachThm.limited _ _ _); [done|].
    destruct (Attach.token_hash token) as [h|]; [|done]. injection Hiss as _ <-. do 2 (split; [done|]). split; [|by exists h].
    cbn. by rewrite (core_user _ _ Hc), Eu. }
  rewrite <- (keeps_tokens _ _ Hk) in Hwf, Hlater. rewrite <- (keeps_wall _ _ Hk) in Hlater.
  destruct (AttachThm.token_attaches_once _ _ _ _ _ _ _ _ _ _ _ _ Hwf Hiss) as [Hfirst Hnext]. cbv zeta.
  set (s1 := set_wall later s'). assert (sessions s1 = sessions s0) as Es1 by apply (is_sessions _ _ _ _ _ _ _ _ _ Hg).
  assert (get_session (session_id (session_obj r s0)) (sessions s1) = Some r) as Hr1.
  { rewrite Es1, (core_id _ _ Hc). unfold get_session. rewrite (keeps_index _ _ Hk). exact Hcurrent. }
  assert (Attach.session_accepts (closed_in s1) (session_obj r s1) g later = Ok true) as Hacc.
  { apply (accepts_later ctx c r lid s); try done; [unfold session_obj; by rewrite Es1|by rewrite Eu, Egu|].
    change (conns s' = conns s). by rewrite (is_conns _ _ _ _ _ _ _ _ _ Hg), (keeps_conns _ _ Hk). }
  specialize (Hfirst (lookup_in s1) (closed_in s1) (session_obj r s1) later).
  rewrite (attach_unfold t _ s1 _ _ _ _ _ (attach_request_fields _ _ _ _ _ _ _ _)). change (tokens s1) with (tokens s'). rewrite Htk.
  change (wall s1) with later. unfold lookup_in in Hfirst at 1. rewrite Hr1 in Hfirst. specialize (Hfirst eq_refl Hacc Hlater).
  destruct (Attach.consume (lookup_in s1) _ _ _ _ _ _ _ tk) as [tk1 res] eqn:Ec. cbn [snd] in Hfirst. subst res. rewrite Egs, Hr1.
  assert (private_transport (session_obj r s1) = None) as Hn by (unfold session_obj; rewrite Es1; etrans; [apply Hc|exact Hpt]).
  rewrite Hn, bool_decide_false by (by intros [? [=]]). cbv zeta. cbn [fst snd]. split; [done|]. split.
  - unfold session_obj. cbn [sessions set_app set_sessions]. by rewrite obj_on_obj, decide_True.
  - intros t' again. rewrite (attach_unfold t' _ _ _ _ _ _ _ (attach_request_fields _ _ _ _ _ _ _ _)).
    cbn [tokens set_wall set_app set_sessions set_tokens wall].
    specialize (Hnext (lookup_in s1) (closed_in s1) (session_id (session_obj r s0)) purpose binding nonce later). rewrite Ec in Hnext. cbn [fst] in Hnext.
    match goal with |- snd (let '(_, _) := ?c in _) = _ => destruct c as [tk2 res2] eqn:Ec2 end.
    match type of Ec2 with Attach.consume ?l ?cl _ ?i ?p ?b ?n ?w _ = _ => specialize (Hnext l cl i p b n w) end.
    rewrite Ec2 in Hnext. cbn [snd] in Hnext. by subst res2.
Qed.
End composition.

(** ** An authenticated session on an open link *)

Module Demo.
#[local] Existing Instances QortalThm.Demo.ascii_unicode QortalThm.Demo.toy_crypto AuthThm.Demo.world AuthThm.Demo.world_ok.
#[local] Instance ip : IpAddress := {| ip_address := fun text => Some (text, true) |}.
Definition App : Type := QAppAuthenticationService * PrivateTransportService.
#[local] Instance auth_lens : HasAuth App := {| auth_of := fst; put_auth := fun x a => (x, snd a) |}.
#[local] Instance auth_laws : HasAuthLaws App.
Proof. by split. Qed.
#[local] Instance private_lens : HasPrivate App := {| private_of := snd; put_private := fun x a => (fst a, x) |}.
#[local] Instance private_laws : HasPrivateLaws App.
Proof. by split. Qed.

Definition service : PrivateTransportService :=
  {| private_transport_public_host := "198.51.100.7"; call_media_public_host := "198.51.100.7"; call_media_port := 4433;
     private_transport_server_name := "qapp"; network_state := None; quic_server := true; _listener_port := Some 4432;
     endpoint := Some "198.51.100.7:4432"; certificate_sha256 := Some "00"; latest_peer_address := None;
     media_endpoint := Some "198.51.100.7:4433" |}.
Definition link : Connection.PhysicalConnection :=
  match Connection.init 4096 8 1000 120 99 1 [] with Ok x => set_logical_connection_ids {["conn-1"]} x | Raise _ => no_connection end.
Definition start : Server App :=
  let s := AuthThm.Demo.authenticated in
  {| max_unauthenticated_sessions := 8; max_logical_sessions_per_link := 4; max_new_sessions_per_link_per_minute := 4;
     idle_connection_timeout := 300; srv_ack_timeout := 120;
     sessions := on_obj 0 (fun o => set_connection (Some 0%nat)
       (set_metadata (od_set "call_room_id" (VStr "room-1") (od_set "qapp_connection_id" (VStr "conn-1") (metadata o))) o)) (sessions s);
     logical_sessions := {["conn-1" := 0%nat]}; connections := [0%nat]; conns := {[0%nat := link]}; tokens := Attach.init 30 4 4 4 16;
     _media_grant_files := ∅; media_files := ∅; revocations := []; closed_transports := []; io_failures := []; wall := 1000; mono := 1;
     entropy := fun _ => ("unused", "token-1"); drawn := 0; shutting_down := false; app := (AuthThm.Demo.service, service) |}.

Definition ctx : BootstrapContext := rpc_context (Some 0%nat) (Some "conn-1") start.
Definition request (purpose : string) : odict string pyval :=
  [("version", VInt 1); ("transport", VStr TRANSPORT); ("nonce", VStr "0123456789abcdef0123456789abcdef"); ("purpose", VStr purpose)].
Definition run (purpose : string) : Server App * res (odict string pyval) := bootstrap [] [] ctx (VDict (request purpose)) start.
Definition after (purpose : string) : Server App := fst (run purpose).
Definition answer (purpose : string) : odict string pyval := match snd (run purpose) with Ok a => a | Raise _ => [] end.

Lemma demo_private_cache : GroupThm.cache_ok (access (auth start)).
Proof.
  intros a r Hl. change ((∅ : gmap string GroupAccess.MembershipResult) !! a = Some r) in Hl. by rewrite lookup_empty in Hl.
Qed.
Lemma demo_answer : snd (run "game") = Ok (answer "game").
Proof. vm_compute. reflexivity. Qed.
Lemma demo_token : token_of (answer "game") = Some "token-1".
Proof. vm_compute. reflexivity. Qed.
Lemma demo_run : bootstrap [] [] ctx (VDict (request "game")) start = (after "game", Ok (answer "game")).
Proof. fold (run "game"). exact (eq_trans (surjective_pairing (run "game")) (f_equal (pair (after "game")) demo_answer)). Qed.

Lemma binding_unambiguous_witness : binding_text "app" "APP" "l" "d" "s" "n" "game" ≠ binding_text "app" "APP" "l" "d" "s" "n" "realtime".
Proof.
  intros E. apply binding_unambiguous in E; [discriminate E|apply (bool_decide_unpack (Forall (fun x => Byte.x00 ∉ str_bytes x) _)); vm_compute; exact I..].
Defined.

Lemma application_payload_roundtrip_witness : exists p, encode_application_payload (VDict [("type", VStr "file_request")]) = Ok p /\
  decode_application_payload p = Ok (VDict [("type", VStr "file_request")]).
Proof.
  eexists. split; [vm_compute; reflexivity|]. apply application_payload_roundtrip; [|vm_compute; reflexivity].
  split; [json_ok|vm_compute; discriminate].
Defined.

Lemma bootstrap_sound_witness : exists c r lid, entitled ctx c r lid start.
Proof.
  destruct (bootstrap_sound [] [] (Forall_nil_2 _) ctx (VDict (request "game")) start (after "game") (answer "game") "token-1"
    demo_private_cache demo_run demo_token) as (c & r & lid & _ & _ & _ & Hent & _).
  exists c, r, lid. exact Hent.
Defined.

Definition presented : pyval := attach_request (answer "game") "game".
Lemma bootstrap_attaches_once_witness :
  snd (attach 7 presented (set_wall 1010 (after "game"))) = Ok 0%nat /\
  snd (attach 8 presented (set_wall 1020 (fst (attach 7 presented (set_wall 1010 (after "game")))))) = Raise AttachRejected.
Proof.
  destruct (bootstrap_attaches_once [] [] (Forall_nil_2 _) ctx (request "game") start (after "game") (answer "game") "token-1" "game" 0 "conn-1" 7 1010
    demo_private_cache od_wf_nil demo_run demo_token eq_refl) as (H1' & _ & H2');
    [discriminate|vm_compute; reflexivity..|].
  split; [exact H1'|exact (H2' 8%nat 1020)].
Defined.

Lemma attach_sound_witness : attachment 7 presented (set_wall 1010 (after "game")) (fst (attach 7 presented (set_wall 1010 (after "game")))) 0.
Proof.
  apply attach_sound; [apply (bool_decide_unpack (NoDup (od_keys _))); vm_compute; exact I|].
  refine (eq_trans (surjective_pairing _) (f_equal (pair _) _)). vm_compute. reflexivity.
Defined.

(** A session with transport 7. *)
Definition manager : SessionManager := fst (create "session-1" "token-1" None 1000 true (empty_manager open_db 1000000000 100000000 60000000 4)).
Definition attached : Server App := set_sessions (on_obj 0 (set_private_transport (Some 7%nat)) manager) start.
Lemma attached_wf : sm_wf (sessions attached).
Proof.
  apply sm_wf_on_obj; [|vm_compute; repeat constructor|identity]. apply create_wf; [|done|done]. apply empty_manager_wf.
  split; [apply od_wf_nil|]. intros sid row Hrow. by apply elem_of_nil in Hrow.
Qed.


Lemma stop_leaves_nothing_witness : get_session "session-1" (sessions (fst (stop attached))) = Some 0%nat /\
  private_transport (session_obj 0 (fst (stop attached))) = None.
Proof.
  assert (get_session "session-1" (sessions (fst (stop attached))) = Some 0%nat) as Hr by (vm_compute; reflexivity).
  assert (stop attached = (fst (stop attached), Ok tt)) as Hs.
  { refine (eq_trans (surjective_pairing _) (f_equal (pair _) _)). vm_compute. reflexivity. }
  split; [exact Hr|].
  destruct (stop_leaves_nothing attached (fst (stop attached)) attached_wf od_wf_nil Hs) as (_ & _ & _ & _ & Hall).
  exact (proj1 (Hall "session-1" 0%nat Hr)).
Defined.
End Demo.
End PrivateThm.
