(* ===== verification/FileStore.v ===== *)
(** * Shared files ([files.py])

    [FileStore]: encrypted uploads in fixed-size chunks, their index in SQLite
    and their bytes in one file per upload.

    The state is the two tables, the directory of [.bin] files and the free
    write slots; the outcomes of file-system calls are a script, and an I/O
    failure raises [OSError] where the call stands.  A transaction that raises
    is rolled back; SQLite itself does not fail here.  Times are in
    microseconds; the tables hold whole seconds.  The locks of files and the
    migration of older indexes are in [Locks] and [Migration]. *)

From stdpp Require Import prelude strings list gmap sorting.
From Stdlib Require Import ZArith Lia.
From S2P Require Import Prelude PyDict PyBytes Base64 Sha256 PyValue.

Module Files.

Definition CHUNK_SIZE : Z := 32768.
Definition MAX_FILE_SIZE : Z := 3 * 1024 * 1024 * 1024.
Definition MAX_EXPIRY : Z := 86400.
Definition MAX_ACTIVE_FILES_PER_OWNER : Z := 2.
Definition OWNER_QUOTA : Z := MAX_FILE_SIZE.
Definition GLOBAL_QUOTA : Z := 10 * 1024 * 1024 * 1024.
Definition ID : string -> bool := fullmatch is_hex 32 32.
Definition BATCH_CHUNKS : Z := 16.
Definition SECOND : Z := 1000000.

Definition file_error {A} (code : string) : res A := Raise (FileError code).

(** ** The binary batch *)

(** The loop of [decode_upload_batch] over the rest of the payload. *)
Fixpoint decode_chunks (count : nat) (rest : bytes) : res (list (Z * bytes) * bytes) :=
  match count with
  | O => Ok ([], rest)
  | S n =>
    if (length rest <? 8)%nat then file_error "INVALID_REQUEST" else
    let index := be_decode (slice 0 4 rest) in
    let size := be_decode (slice 4 8 rest) in
    let rest := drop 8 rest in
    if negb ((28 <=? size) && (size <=? CHUNK_SIZE + 28)) || (Z.of_nat (length rest) <? size)
    then file_error "INVALID_REQUEST"
    else
      let? '(chunks, rest') := decode_chunks n (drop (Z.to_nat size) rest) in
      Ok ((index, take (Z.to_nat size) rest) :: chunks, rest')
  end.

(** [decode_upload_batch]; a tuple is a two-element list *)
Definition decode_upload_batch (payload : bytes) : res (odict string pyval) :=
  let n := Z.of_nat (length payload) in
  if (n <? 22) || (22 + BATCH_CHUNKS * (CHUNK_SIZE + 36) <? n)
     || negb (bool_decide (slice 0 4 payload = str_bytes "QFB1"))
  then file_error "INVALID_REQUEST" else
  let count := be_decode (slice 20 22 payload) in
  if negb ((1 <=? count) && (count <=? BATCH_CHUNKS)) then file_error "INVALID_REQUEST" else
  let? '(chunks, rest) := decode_chunks (Z.to_nat count) (drop 22 payload) in
  match rest with
  | [] => Ok [("op", VStr "put_batch"); ("id", VStr (hex_of (slice 4 20 payload)));
              ("chunks", VList (map (fun c => VList [VInt (fst c); VBytes (snd c)]) chunks))]
  | _ => file_error "INVALID_REQUEST"
  end.

(** ** Arguments *)

(** [integer]: [type(value) is int], so no booleans *)
Definition integer (value : pyval) (low high : Z) : res Z :=
  match value with
  | VInt n => if (low <=? n) && (n <=? high) then Ok n else file_error "INVALID_REQUEST"
  | _ => file_error "INVALID_REQUEST"
  end.

Definition encoded (value : pyval) (maximum : Z) : res bytes :=
  match value with
  | VStr s =>
    if maximum * 2 <? py_len s then file_error "INVALID_REQUEST" else
    match b64decode_validate s with
    | Ok raw => if bool_decide (raw = []) || (maximum <? Z.of_nat (length raw)) then file_error "INVALID_REQUEST" else Ok raw
    | Raise e => if is_ValueError e then file_error "INVALID_REQUEST" else Raise e
    end
  | _ => file_error "INVALID_REQUEST"
  end.

(** ** The store *)

Inductive file_state := Uploading | Ready | Expired | Deleted.
#[export] Instance file_state_eq_dec : EqDecision file_state.
Proof. solve_decision. Defined.
Definition file_state_str (s : file_state) : string :=
  match s with Uploading => "uploading" | Ready => "ready" | Expired => "expired" | Deleted => "deleted" end.

Record Row := {
  id : string;
  owner : string;
  size : Z;
  expires : Z;
  created : Z;
  state : file_state;
  envelope : string;
  manifest : string
}.
#[export] Instance row_eq_dec : EqDecision Row.
Proof. solve_decision. Defined.

Definition set_state (x : file_state) (r : Row) : Row :=
  {| id := id r; owner := owner r; size := size r; expires := expires r; created := created r; state := x;
     envelope := envelope r; manifest := manifest r |}.

(** A native lease: token, end, binding. *)
Definition binding : Type := string * Z * string * Z * list (Z * Z * string).
Definition lease : Type := string * Z * binding.

Record FileStore := {
  files : odict string Row;
  chunks : gmap (string * Z) string;
  disk : gmap string bytes;
  native_writes : odict string lease;
  write_slots : nat;
  io_failures : list bool
}.

Definition set_files (x : odict string Row) (s : FileStore) : FileStore :=
  {| files := x; chunks := chunks s; disk := disk s; native_writes := native_writes s; write_slots := write_slots s;
     io_failures := io_failures s |}.
Definition set_chunks (x : gmap (string * Z) string) (s : FileStore) : FileStore :=
  {| files := files s; chunks := x; disk := disk s; native_writes := native_writes s; write_slots := write_slots s;
     io_failures := io_failures s |}.
Definition set_disk (x : gmap string bytes) (s : FileStore) : FileStore :=
  {| files := files s; chunks := chunks s; disk := x; native_writes := native_writes s; write_slots := write_slots s;
     io_failures := io_failures s |}.
Definition set_native_writes (x : odict string lease) (s : FileStore) : FileStore :=
  {| files := files s; chunks := chunks s; disk := disk s; native_writes := x; write_slots := write_slots s;
     io_failures := io_failures s |}.
Definition set_io_failures (x : list bool) (s : FileStore) : FileStore :=
  {| files := files s; chunks := chunks s; disk := disk s; native_writes := native_writes s; write_slots := write_slots s;
     io_failures := x |}.

Abbreviation FM := (M FileStore).

(** A file-system call that may fail. *)
Definition io : FM unit :=
  let! fs := gets io_failures in
  match fs with
  | [] => ret tt
  | f :: fs' => modify (set_io_failures fs') ;! if (f : bool) then raise OSError else ret tt
  end.

(** [with self.db]: the tables are rolled back when the block raises. *)
Definition transaction {A} (m : FM A) : FM A := fun s =>
  match m s with
  | (s', Ok a) => (s', Ok a)
  | (s', Raise e) => (set_chunks (chunks s) (set_files (files s) s'), Raise e)
  end.

Definition update_file (i : string) (f : Row -> Row) : FM unit :=
  modify (fun s => match od_get i (files s) with Some r => set_files (od_set i (f r) (files s)) s | None => s end).
Definition delete_chunks (i : string) : FM unit :=
  modify (fun s => set_chunks (filter (fun kv => fst (fst kv) ≠ i) (chunks s)) s).
Definition unlink (i : string) : FM unit := io ;! modify (fun s => set_disk (delete i (disk s)) s).
Definition pop_native (i : string) : FM unit := modify (fun s => set_native_writes (od_pop i (native_writes s)) s).

(** [int(time.time())] *)
Definition seconds (now : Z) : Z := Z.quot now SECOND.
(** [row['expires'] <= time.time()] *)
Definition past (r : Row) (now : Z) : bool := expires r * SECOND <=? now.

(** The number of chunks of a file and the stored length of one. *)
Definition chunk_count (size : Z) : Z := Z.max 1 ((size + CHUNK_SIZE - 1) / CHUNK_SIZE).
Definition chunk_length (size index : Z) : Z := Z.min CHUNK_SIZE (Z.max 0 (size - index * CHUNK_SIZE)) + 28.
Definition offset_of (index : Z) : nat := Z.to_nat (index * (CHUNK_SIZE + 28)).

(** [row] *)
Definition row (file_id : pyval) : FM Row :=
  match file_id with
  | VStr i =>
    if negb (ID i) then raise (FileError "NOT_AVAILABLE") else
    let! s := get in
    match od_get i (files s) with
    | Some r => if bool_decide (state r = Deleted) then raise (FileError "NOT_AVAILABLE") else ret r
    | None => raise (FileError "NOT_AVAILABLE")
    end
  | _ => raise (FileError "NOT_AVAILABLE")
  end.

(** [describe] *)
Definition describe (r : Row) (is_owner : bool) : pyval :=
  VDict ([("id", VStr (id r)); ("size", VInt (size r)); ("expires", VInt (expires r));
          ("state", VStr (file_state_str (state r))); ("manifest", VStr (manifest r))]
         ++ if is_owner then [("envelope", VStr (envelope r))] else []).

(** ** Writing chunks *)

(** [stream.seek(offset); stream.write(data)]: a gap is filled with zeros. *)
Definition write_at (offset : nat) (data content : bytes) : bytes :=
  take offset content ++ replicate (offset - length content) Byte.x00 ++ data ++ drop (offset + length data) content.

Definition by_index {A} (a b : Z * A) : Prop := fst a <= fst b.
#[export] Instance by_index_dec {A} (a b : Z * A) : Decision (by_index a b).
Proof. unfold by_index. apply _. Defined.

(** [write_chunks]; [writes] is the dict of new chunks with their digests. *)
Definition write_chunks (i : string) (writes : odict Z (bytes * string)) : FM unit :=
  if bool_decide (writes = []) then ret tt else
  io ;!
  let! s := get in
  match disk s !! i with
  | None => raise OSError
  | Some _ =>
    iterM (fun w => io ;!
      modify (fun s => set_disk (<[i := write_at (offset_of (fst w)) (fst (snd w)) (default [] (disk s !! i))]> (disk s)) s))
      (merge_sort by_index writes) ;!
    io ;!
    transaction (iterM (fun w => modify (fun s => set_chunks (<[(i, fst w) := snd (snd w)]> (chunks s)) s)) writes)
  end.

(** What [flush_batch] decides about one request: nothing new, or a new
    chunk. *)
Definition admit_chunk (s : FileStore) (r : Row) (now : Z) (writes : odict Z (bytes * string)) (user : string)
    (data : odict string pyval) : res (odict Z (bytes * string)) :=
  if negb (bool_decide (owner r = user)) then file_error "ACCESS_DENIED"
  else if past r now || bool_decide (state r = Expired) then file_error "EXPIRED"
  else if negb (bool_decide (state r = Uploading)) then file_error "UPLOAD_CLOSED"
  else
    let? index := integer (dget "index" data) 0 (chunk_count (size r) - 1) in
    let? chunk := encoded (dget "chunk" data) (CHUNK_SIZE + 28) in
    if negb (Z.of_nat (length chunk) =? chunk_length (size r) index) then file_error "INVALID_CHUNK" else
    let digest := sha256_hex chunk in
    let previous := match od_get index writes with Some w => Some (snd w) | None => chunks s !! (id r, index) end in
    match previous with
    | Some d => if bool_decide (d = digest) then Ok writes else file_error "CHUNK_CONFLICT"
    | None => Ok (od_set index (chunk, digest) writes)
    end.

Fixpoint admit_chunks (s : FileStore) (r : Row) (now : Z) (writes : odict Z (bytes * string))
    (batch : list (string * odict string pyval)) : odict Z (bytes * string) * list (option exn) :=
  match batch with
  | [] => (writes, [])
  | (user, data) :: rest =>
    match admit_chunk s r now writes user data with
    | Ok writes' => let '(w, l) := admit_chunks s r now writes' rest in (w, None :: l)
    | Raise e => let '(w, l) := admit_chunks s r now writes rest in (w, Some e :: l)
    end
  end.

(** [flush_batch]: what each future is given, unless the whole flush raises. *)
Definition flush_batch (i : string) (batch : list (string * odict string pyval)) (now : Z) : FM (list (res pyval)) := fun s =>
  match row (VStr i) s with
  | (s, Raise e) => (s, Ok (map (fun _ => Raise e) batch))
  | (s, Ok r) =>
    let '(writes, verdicts) := admit_chunks s r now [] batch in
    let '(s', written) := write_chunks i writes s in
    (s', Ok (map (fun v : option exn => match v, written with
                           | Some e, _ => Raise e
                           | None, Ok _ => Ok (VDict [])
                           | None, Raise e => Raise e
                           end) verdicts))
  end.

(** [put]: concurrent requests for one file.  Those that find a write slot are
    collected by the first of them and flushed together. *)
Definition put (i : string) (requests : list (string * odict string pyval)) (now : Z) : FM (list (res pyval)) :=
  let! slots := gets write_slots in
  let admitted := take slots requests in
  let! results := (if bool_decide (admitted = []) then ret [] else flush_batch i admitted now) in
  ret (results ++ map (fun _ => file_error "BUSY") (drop slots requests)).

(** One element of [for index, chunk in chunks] *)
Definition unpack_pair (v : pyval) : res (pyval * pyval) :=
  match v with
  | VList [a; b] => Ok (a, b)
  | VList _ => Raise (ValueError "unpack")
  (* two characters, or two keys: the first one is not an [int] *)
  | VStr s => if py_len s =? 2 then file_error "INVALID_REQUEST" else Raise (ValueError "unpack")
  | VDict d => if (length d =? 2)%nat then file_error "INVALID_REQUEST" else Raise (ValueError "unpack")
  | VBytes [a; b] => Ok (VInt (byte_val a), VInt (byte_val b))
  | VBytes _ => Raise (ValueError "unpack")
  | _ => Raise (TypeError "unpack")
  end.

(** The loop of [put_batch]: the indices seen and the new chunks. *)
Fixpoint check_batch (s : FileStore) (r : Row) (seen : list Z) (writes : odict Z (bytes * string)) (l : list pyval)
    : res (list Z * odict Z (bytes * string)) :=
  match l with
  | [] => Ok (seen, writes)
  | v :: rest =>
    let? '(vi, vc) := unpack_pair v in
    let? index := integer vi 0 (chunk_count (size r) - 1) in
    match vc with
    | VBytes chunk =>
      if bool_decide (index ∈ seen) || negb (Z.of_nat (length chunk) =? chunk_length (size r) index)
      then file_error "INVALID_CHUNK" else
      let digest := sha256_hex chunk in
      match chunks s !! (id r, index) with
      | Some d => if bool_decide (d = digest) then check_batch s r (seen ++ [index]) writes rest else file_error "CHUNK_CONFLICT"
      | None => check_batch s r (seen ++ [index]) (od_set index (chunk, digest) writes) rest
      end
    | _ => file_error "INVALID_CHUNK"
    end
  end.

(** [put_batch] *)
Definition put_batch (user : string) (i : string) (data : odict string pyval) (now : Z) : FM pyval :=
  let! slots := gets write_slots in
  if (slots =? 0)%nat then raise (FileError "BUSY") else
  let! r := row (VStr i) in
  if negb (bool_decide (owner r = user)) then raise (FileError "ACCESS_DENIED")
  else if past r now then raise (FileError "EXPIRED")
  else if negb (bool_decide (state r = Uploading)) then raise (FileError "UPLOAD_CLOSED")
  else
    match dget "chunks" data with
    | VList l =>
      if negb ((1 <=? Z.of_nat (length l)) && (Z.of_nat (length l) <=? BATCH_CHUNKS)) then raise (FileError "INVALID_REQUEST") else
      let! s := get in
      let! '(seen, writes) := lift (check_batch s r [] [] l) in
      write_chunks i writes ;!
      ret (VDict [("received", VList (map VInt (merge_sort Z.le seen)))])
    | _ => raise (FileError "INVALID_REQUEST")
    end.

(** ** Requests *)

(** [ORDER BY created DESC, id] *)
Definition newest_first (a b : Row) : Prop := created b < created a \/ (created a = created b /\ String.le (id a) (id b)).
#[export] Instance newest_first_dec a b : Decision (newest_first a b).
Proof. unfold newest_first. apply _. Defined.

Definition list_files (user : string) (data : odict string pyval) (now : Z) : FM pyval :=
  let! offset := lift (integer (default (VInt 0) (od_get "offset" data)) 0 1000) in
  match default (VBool false) (od_get "expired" data) with
  | VBool expired =>
    let! s := get in
    let wanted r := bool_decide (owner r = user) && negb (bool_decide (state r = Deleted))
                    && (if expired then expires r <=? seconds now else seconds now <? expires r) in
    let rows := merge_sort newest_first (List.filter wanted (od_values (files s))) in
    ret (VList (map (fun r => describe r true) (take 5 (drop (Z.to_nat offset) rows))))
  | _ => raise (FileError "INVALID_REQUEST")
  end.

Definition active (r : Row) : bool := bool_decide (state r = Uploading) || bool_decide (state r = Ready).
Definition total_size (rows : list Row) : Z := foldr (fun r acc => size r + acc) 0 rows.
Definition rows_where (p : Row -> bool) (s : FileStore) : list Row := List.filter p (od_values (files s)).

(** The limits [create] checks. *)
Definition quota_error (s : FileStore) (user : string) (new_size now : Z) : option string :=
  let live := rows_where (fun r => bool_decide (owner r = user) && active r && (seconds now <? expires r)) s in
  let all_active := rows_where active s in
  let own := rows_where (fun r => bool_decide (owner r = user) && negb (bool_decide (state r = Deleted))) s in
  let own_size := total_size (List.filter active own) in
  if MAX_ACTIVE_FILES_PER_OWNER <=? Z.of_nat (length live) then Some "ACTIVE_FILE_LIMIT"
  else if (1000 <=? Z.of_nat (length all_active)) || (100 <=? Z.of_nat (length own))
          || (GLOBAL_QUOTA <? total_size all_active + new_size) || (OWNER_QUOTA <? own_size + new_size)
  then Some "STORAGE_FULL" else None.

(** [op == 'create'] *)
Definition create (user : string) (i : string) (data : odict string pyval) (now : Z) : FM pyval :=
  let! new_size := lift (integer (dget "size" data) 0 MAX_FILE_SIZE) in
  let! ttl := lift (integer (dget "ttl" data) 60 MAX_EXPIRY) in
  if od_mem "access" data then raise (FileError "FILE_ACCESS_MODEL_CHANGED") else
  lift (encoded (dget "envelope" data) 4096) ;!
  lift (encoded (dget "manifest" data) 2048) ;!
  match dget "envelope" data, dget "manifest" data with
  | VStr env, VStr man =>
    transaction (
      let! s := get in
      match od_get i (files s) with
      | Some _ =>
        let! r := row (VStr i) in
        if negb (bool_decide (owner r = user)) || negb (bool_decide (envelope r = env))
        then raise (FileError "UPLOAD_CONFLICT") else ret (describe r true)
      | None =>
        match quota_error s user new_size now with
        | Some code => raise (FileError code)
        | None =>
          pop_native i ;!
          io ;!
          (* open(.., 'xb') *)
          (if disk s !! i then raise OSError else modify (fun s => set_disk (<[i := []]> (disk s)) s)) ;!
          io ;!
          modify (fun s => set_files (od_set i {| id := i; owner := user; size := new_size; expires := seconds now + ttl;
            created := seconds now; state := Uploading; envelope := env; manifest := man |} (files s)) s) ;!
          let! r := row (VStr i) in
          ret (describe r true)
        end
      end)
  | _, _ => raise (FileError "INVALID_REQUEST")
  end.

(** [SELECT idx FROM chunks WHERE file_id = ? AND idx >= ? ORDER BY idx] *)
Definition chunk_indices (s : FileStore) (i : string) : list Z :=
  merge_sort Z.le (map (fun kv => snd (fst kv)) (map_to_list (filter (fun kv => fst (fst kv) = i) (chunks s)))).

Definition status (r : Row) (i : string) (data : odict string pyval) : FM pyval :=
  let! start := lift (integer (default (VInt 0) (od_get "start" data)) 0 (chunk_count (size r))) in
  let! s := get in
  let indices := take 4097 (List.filter (fun x => start <=? x) (chunk_indices s i)) in
  ret (VDict (("received", VList (map VInt (take 4096 indices)))
              :: if (4096 <? length indices)%nat then [("nextIndex", VInt (nth 4095 indices 0 + 1))] else [])).

(** [op == 'delete'] *)
Definition delete_file (i : string) : FM pyval :=
  pop_native i ;!
  update_file i (set_state Deleted) ;!
  unlink i ;!
  delete_chunks i ;!
  ret (VDict []).

(** [op == 'finish'] *)
Definition finish (r : Row) (i : string) : FM pyval :=
  let! s := get in
  if negb (Z.of_nat (length (chunk_indices s i)) =? chunk_count (size r)) then raise (FileError "UPLOAD_INCOMPLETE") else
  update_file i (set_state Ready) ;!
  ret (VDict []).

(** [stream.seek(..); stream.read(length)] *)
Definition read_chunk (i : string) (index len : Z) : FM pyval :=
  io ;!
  let! s := get in
  match disk s !! i with
  | None => raise OSError
  | Some content =>
    let chunk := take (Z.to_nat len) (drop (offset_of index) content) in
    if negb (Z.of_nat (length chunk) =? len) then raise (FileError "FILE_DAMAGED")
    else ret (VDict [("chunk", VStr (bytes_str (b64encode chunk)))])
  end.

(** What the transaction of the other operations answers: a result, or the
    chunk to read after it. *)
Inductive answer := Done (v : pyval) | ReadChunk (index len : Z).

Definition in_transaction (op : string) (i : string) (data : odict string pyval) (now : Z) : FM answer :=
  let! r := row (VStr i) in
  if bool_decide (op = "delete") then let! v := delete_file i in ret (Done v)
  else if past r now || bool_decide (state r = Expired) then raise (FileError "EXPIRED")
  else if bool_decide (op = "status") then let! v := status r i data in ret (Done v)
  else if bool_decide (op = "finish") then let! v := finish r i in ret (Done v)
  else if bool_decide (op = "info") then
    if negb (bool_decide (state r = Ready)) then raise (FileError "UPLOAD_INCOMPLETE") else ret (Done (describe r false))
  else
    let! index := lift (integer (dget "index" data) 0 (chunk_count (size r) - 1)) in
    if bool_decide (op = "get") then
      if negb (bool_decide (state r = Ready)) then raise (FileError "UPLOAD_INCOMPLETE")
      else ret (ReadChunk index (chunk_length (size r) index))
    else raise (FileError "INVALID_REQUEST").

(** [_request] after [list] and [create]; an [op] that is not a string is none
    of the known ones *)
Definition _request (user : string) (op : string) (i : string) (data : odict string pyval) (now : Z) : FM pyval :=
  let! initial := row (VStr i) in
  if negb (bool_decide (op = "info") || bool_decide (op = "get")) && negb (bool_decide (owner initial = user))
  then raise (FileError "ACCESS_DENIED")
  else if bool_decide (op = "access") then raise (FileError "FILE_ACCESS_MODEL_CHANGED")
  else
    let! a := transaction (in_transaction op i data now) in
    match a with
    | Done v => ret v
    | ReadChunk index len => read_chunk i index len
    end.

Definition capabilities : pyval :=
  VDict [("binaryUploadVersion", VInt 1); ("binaryDownloadVersion", VInt 1);
         ("batchChunks", VInt BATCH_CHUNKS); ("maxInFlightBatches", VInt 8)].

(** [request] *)
Definition request (user : string) (data : odict string pyval) (now : Z) : FM pyval :=
  let op := match dget "op" data with VStr o => o | _ => "" end in
  if bool_decide (op = "capabilities") then ret capabilities
  else if bool_decide (op = "list") then list_files user data now
  else
    match str_matching ID (dget "id" data) with
    | None => raise (FileError (if bool_decide (op = "create") then "INVALID_REQUEST" else "NOT_AVAILABLE"))
    | Some i =>
      if bool_decide (op = "put") then
        let! results := put i [(user, data)] now in
        match results with [r] => lift r | _ => raise (RuntimeError "no result") end
      else if bool_decide (op = "put_batch") then put_batch user i data now
      else if bool_decide (op = "create") then create user i data now
      else _request user op i data now
    end.

(** ** Cleanup *)

Definition expire_one (now : Z) (i : string) : FM unit :=
  unlink i ;!
  transaction (
    pop_native i ;!
    update_file i (fun r => if bool_decide (state r = Deleted) then r else set_state Expired r) ;!
    delete_chunks i ;!
    modify (fun s => match od_get i (files s) with
      | Some r => if bool_decide (state r = Deleted) || (expires r <? seconds now - 7 * 86400)
                  then set_files (od_pop i (files s)) s else s
      | None => s end)).

Definition remove_orphan (i : string) : FM unit :=
  if negb (ID i) then raise (FileError "NOT_AVAILABLE") else
  let! s := get in
  if od_get i (files s) then ret tt else unlink i.

(** [cleanup]; the directory is read when the second loop starts. *)
Definition cleanup (now : Z) : FM unit :=
  let! s := get in
  let expired := rows_where (fun r => (expires r <=? seconds now) || bool_decide (state r = Expired)
                                      || bool_decide (state r = Deleted)) s in
  iterM (fun r => expire_one now (id r)) expired ;!
  let! s := get in
  iterM remove_orphan (elements (dom (disk s))).
End Files.
