(* ===== verification/FileFacts.v ===== *)
(** * Integrity of shared files

    The invariant of [FileStore]: every indexed chunk belongs to an active
    file, lies inside it, and is on the disk with the digest the index holds.
    It survives every request, cleanup and I/O failure. *)

From stdpp Require Import prelude strings list gmap sorting.
From Stdlib Require Import ZArith Lia.
From S2P Require Import Prelude PyDict PyBytes Base64 Sha256 PyValue FileStore.

Module FileInv.
Import Files.

(** ** Regions of a file *)

Definition region (offset len : nat) (content : bytes) : bytes := take len (drop offset content).

Lemma length_region_full offset len content : (0 < len)%nat -> length (region offset len content) = len <-> (offset + len <= length content)%nat.
Proof. intros Hl. unfold region. rewrite length_take, length_drop. lia. Qed.

Lemma length_write_at offset data content :
  length (write_at offset data content) = Nat.max (offset + length data) (length content).
Proof.
  unfold write_at. rewrite !length_app, length_take, length_replicate, length_drop. lia.
Qed.

Lemma write_at_split offset data content :
  exists pre, length pre = offset /\ write_at offset data content = pre ++ data ++ drop (offset + length data) content /\
  take (length content) pre = take offset content.
Proof.
  exists (take offset content ++ replicate (offset - length content) Byte.x00). split; [|split].
  - rewrite length_app, length_take, length_replicate. lia.
  - unfold write_at. by rewrite <- app_assoc.
  - destruct (decide (offset <= length content)%nat).
    + replace (offset - length content)%nat with 0%nat by lia. cbn [replicate]. rewrite app_nil_r, take_take. f_equal. lia.
    + rewrite take_app_length' by (rewrite length_take; lia). done.
Qed.

Lemma region_written offset data content : region offset (length data) (write_at offset data content) = data.
Proof.
  destruct (write_at_split offset data content) as (pre & Hlen & -> & _). unfold region.
  rewrite drop_app_length' by done. by rewrite take_app_length.
Qed.

Lemma region_untouched o n offset data content :
  (o + n <= length content)%nat -> (o + n <= offset \/ offset + length data <= o)%nat ->
  region o n (write_at offset data content) = region o n content.
Proof.
  intros Hin Hdis. unfold region. apply list_eq. intros j. destruct (decide (j < n)%nat) as [Hj|Hj].
  2: { rewrite !lookup_take_ge by lia. done. }
  rewrite !lookup_take_lt, !lookup_drop by lia. unfold write_at. destruct Hdis as [Hd|Hd].
  - rewrite lookup_app_l by (rewrite length_take; lia). by rewrite lookup_take_lt by lia.
  - assert (length (take offset content) = offset) as Ht by (rewrite length_take; lia).
    rewrite lookup_app_r by lia. rewrite Ht. replace (offset - length content)%nat with 0%nat by lia. cbn [replicate app].
    rewrite lookup_app_r by lia. rewrite lookup_drop. f_equal. lia.
Qed.

(** ** Chunks do not overlap *)

Lemma chunk_length_bounds size k : 28 <= chunk_length size k <= CHUNK_SIZE + 28.
Proof. unfold chunk_length, CHUNK_SIZE. lia. Qed.

Lemma chunk_count_pos size : 1 <= chunk_count size.
Proof. unfold chunk_count. lia. Qed.

Lemma chunks_disjoint k k' n n' : 0 <= k -> 0 <= k' -> k ≠ k' -> n <= CHUNK_SIZE + 28 -> n' <= CHUNK_SIZE + 28 ->
  (offset_of k + Z.to_nat n <= offset_of k' \/ offset_of k' + Z.to_nat n' <= offset_of k)%nat.
Proof. unfold offset_of, CHUNK_SIZE. intros. destruct (decide (k < k')); [left|right]; lia. Qed.

(** The bytes of chunk [k] of a file of [size] bytes. *)
Definition chunk_of (size k : Z) (content : bytes) : bytes := region (offset_of k) (Z.to_nat (chunk_length size k)) content.

(** [content] holds chunk [k] completely. *)
Definition holds (size k : Z) (content : bytes) : Prop := Z.of_nat (length (chunk_of size k content)) = chunk_length size k.

Lemma holds_bound size k content : holds size k content <-> (offset_of k + Z.to_nat (chunk_length size k) <= length content)%nat.
Proof.
  pose proof (chunk_length_bounds size k). unfold holds, chunk_of. rewrite <- length_region_full by lia. lia.
Qed.

Lemma chunk_written size k c content : Z.of_nat (length c) = chunk_length size k ->
  chunk_of size k (write_at (offset_of k) c content) = c.
Proof. intros E. unfold chunk_of. rewrite <- E, Nat2Z.id. apply region_written. Qed.

Lemma chunk_untouched size k k' c content : 0 <= k -> 0 <= k' -> k' ≠ k -> Z.of_nat (length c) = chunk_length size k' ->
  holds size k content -> chunk_of size k (write_at (offset_of k') c content) = chunk_of size k content.
Proof.
  intros Hk Hk' Hne Hc Hh. apply region_untouched; [by apply holds_bound|].
  pose proof (chunk_length_bounds size k). pose proof (chunk_length_bounds size k').
  destruct (chunks_disjoint k k' (chunk_length size k) (chunk_length size k')) as [Hd|Hd]; [lia..|left; lia|right; lia].
Qed.

(** ** The invariant *)

Definition row_ok (i : string) (r : Row) : Prop := id r = i /\ ID i = true /\ 0 <= size r <= MAX_FILE_SIZE.

(** Chunk [k] of file [i] is where the index says. *)
Definition chunk_ok (s : FileStore) (i : string) (k : Z) (d : string) : Prop :=
  exists r content, od_get i (files s) = Some r /\ active r = true /\ 0 <= k < chunk_count (size r) /\
    disk s !! i = Some content /\ holds (size r) k content /\ sha256_hex (chunk_of (size r) k content) = d.

Record store_inv (s : FileStore) : Prop := {
  inv_wf : od_wf (files s);
  inv_row : forall i r, od_get i (files s) = Some r -> row_ok i r;
  inv_disk : forall i r, od_get i (files s) = Some r -> active r = true -> is_Some (disk s !! i);
  inv_chunk : forall i k d, chunks s !! (i, k) = Some d -> chunk_ok s i k d;
  inv_ready : forall i r, od_get i (files s) = Some r -> state r = Ready ->
    forall k, 0 <= k < chunk_count (size r) -> is_Some (chunks s !! (i, k))
}.

Definition empty_store (slots : nat) (failures : list bool) : FileStore :=
  {| files := []; chunks := ∅; disk := ∅; native_writes := []; write_slots := slots; io_failures := failures |}.

Lemma empty_inv slots failures : store_inv (empty_store slots failures).
Proof. split; cbn; try done. apply od_wf_nil. Qed.

(** Changes of the script and of the native leases do not matter. *)
Definition same_data (s s' : FileStore) : Prop := files s' = files s /\ chunks s' = chunks s /\ disk s' = disk s.

Lemma inv_same s s' : same_data s s' -> store_inv s -> store_inv s'.
Proof.
  intros (Ef & Ec & Ed) [H1 H2 H3 H4 H5]. split; rewrite ?Ef, ?Ec, ?Ed; try done.
  intros i k d Hk. destruct (H4 i k d Hk) as (r & content & Hr). exists r, content. by rewrite Ef, Ed.
Qed.

Lemma io_same s : same_data s (fst (io s)) /\ (snd (io s) = Ok tt \/ snd (io s) = Raise OSError).
Proof.
  unfold io, bind, gets. destruct (io_failures s) as [|f fs]; [by split; [|left]|]. unfold modify, ret, raise.
  destruct f; cbn [fst snd]; split; try done; [by right|by left].
Qed.

(** ** Writing chunks *)

Definition content (i : string) (s : FileStore) : bytes := default [] (disk s !! i).

(** [s'] differs from [s] at most in the bytes of the chunks [K] of file [i]. *)
Record rewrites (i : string) (sz : Z) (K : Z -> Prop) (s s' : FileStore) : Prop := {
  rw_files : files s' = files s;
  rw_chunks : chunks s' = chunks s;
  rw_other : forall j, j ≠ i -> disk s' !! j = disk s !! j;
  rw_disk : is_Some (disk s !! i) -> is_Some (disk s' !! i);
  rw_keeps : forall k, 0 <= k -> ~ K k -> holds sz k (content i s) -> chunk_of sz k (content i s') = chunk_of sz k (content i s)
}.

Lemma holds_eq sz k c c' : chunk_of sz k c' = chunk_of sz k c -> holds sz k c -> holds sz k c'.
Proof. unfold holds. by intros ->. Qed.

Lemma rewrites_same i sz K s s' : same_data s s' -> rewrites i sz K s s'.
Proof. intros (Ef & Ec & Ed). split; try done; rewrite ?Ed; try done. intros. unfold content. by rewrite Ed. Qed.

Lemma rewrites_trans i sz K s1 s2 s3 : rewrites i sz K s1 s2 -> rewrites i sz K s2 s3 -> rewrites i sz K s1 s3.
Proof.
  intros [A1 A2 A3 A4 A5] [B1 B2 B3 B4 B5]. split.
  - congruence.
  - congruence.
  - intros j Hj. rewrite B3, A3 by done. done.
  - auto.
  - intros k Hk HK Hh. specialize (A5 k Hk HK Hh). rewrite B5; [done..|]. by eapply holds_eq.
Qed.

Lemma rewrites_mono i sz (K K' : Z -> Prop) s s' : (forall k, K k -> K' k) -> rewrites i sz K s s' -> rewrites i sz K' s s'.
Proof. intros Hsub [A1 A2 A3 A4 A5]. split; try done. intros k Hk HK. apply A5; auto. Qed.

Lemma rewrites_inv i r (K : Z -> Prop) s s' : rewrites i (size r) K s s' -> store_inv s ->
  od_get i (files s) = Some r -> (forall k, K k -> chunks s !! (i, k) = None) -> store_inv s'.
Proof.
  intros [Ef Ec Hother Hdisk Hkeep] [H1 H2 H3 H4 H5] Hr HK. split; rewrite ?Ef, ?Ec; try done.
  - intros j q Hq Ha. destruct (decide (j = i)) as [->|]; [by apply Hdisk, (H3 i q)|]. rewrite Hother by done. by eapply H3.
  - intros j k d Hd. destruct (H4 j k d Hd) as (q & c & Hq & Ha & Hk & Hc & Hh & Hs). unfold chunk_ok. rewrite Ef.
    destruct (decide (j = i)) as [->|]; [|exists q, c; by rewrite Hother].
    assert (q = r) as -> by congruence. destruct (Hdisk ltac:(by eexists)) as [c' Hc'].
    assert (chunk_of (size r) k c' = chunk_of (size r) k c) as E.
    { specialize (Hkeep k). unfold content in Hkeep. rewrite Hc, Hc' in Hkeep. apply Hkeep; [lia| |done]. intros Hk'. by rewrite (HK k Hk') in Hd. }
    exists r, c'. repeat split; try done; try lia. + by eapply holds_eq. + by rewrite E.
Qed.

(** One [seek] and [write]. *)
Definition write_one (i : string) (w : Z * (bytes * string)) : M FileStore unit :=
  bind io (fun _ => modify (fun s => set_disk (<[i := write_at (offset_of (fst w)) (fst (snd w)) (default [] (disk s !! i))]> (disk s)) s)).

Lemma write_one_spec i sz w s : 0 <= fst w -> Z.of_nat (length (fst (snd w))) = chunk_length sz (fst w) ->
  rewrites i sz (eq (fst w)) s (fst (write_one i w s)) /\
  match snd (write_one i w s) with
  | Ok _ => chunk_of sz (fst w) (content i (fst (write_one i w s))) = fst (snd w)
  | Raise e => e = OSError
  end.
Proof.
  intros Hk Hlen. destruct w as [k [c d]]. cbn [fst snd] in *. unfold write_one, bind.
  destruct (io_same s) as [Hs Hr]. destruct (io s) as [s1 res]. cbn [fst snd] in *.
  destruct Hr as [->| ->]; [|by split; [apply rewrites_same|]]. unfold modify. cbn [fst snd].
  assert (content i (set_disk (<[i:=write_at (offset_of k) c (default [] (disk s1 !! i))]> (disk s1)) s1) =
          write_at (offset_of k) c (content i s)) as Ec.
  { unfold content. cbn [disk set_disk]. rewrite lookup_insert_eq. destruct Hs as (_ & _ & ->). done. }
  split; [|by rewrite Ec, chunk_written].
  destruct Hs as (Ef & Ecs & Ed). split; cbn [files chunks disk set_disk]; rewrite ?Ed; try done.
  - intros j Hj. by rewrite lookup_insert_ne.
  - intros _. rewrite lookup_insert_eq. by eexists.
  - intros k' Hk' Hne Hh. rewrite Ed in Ec. rewrite Ec. by apply chunk_untouched.
Qed.

(** Well-formed new chunks. *)
Definition write_ok (sz : Z) (w : Z * (bytes * string)) : Prop :=
  0 <= fst w < chunk_count sz /\ Z.of_nat (length (fst (snd w))) = chunk_length sz (fst w) /\
  snd (snd w) = sha256_hex (fst (snd w)).

Lemma write_all_spec i sz ws s : NoDup (map fst ws) -> Forall (write_ok sz) ws ->
  rewrites i sz (fun k => k ∈ map fst ws) s (fst (iterM (write_one i) ws s)) /\
  match snd (iterM (write_one i) ws s) with
  | Ok _ => forall w, w ∈ ws -> chunk_of sz (fst w) (content i (fst (iterM (write_one i) ws s))) = fst (snd w)
  | Raise e => e = OSError
  end.
Proof.
  intros Hnd Hok. revert s. induction ws as [|w ws IH]; intros s; cbn [iterM map].
  { split; [by apply rewrites_same|]. intros w Hw. by apply not_elem_of_nil in Hw. }
  apply NoDup_cons in Hnd as [Hw Hnd]. apply Forall_cons_1 in Hok as [(Hk & Hlen & Hd) Hok].
  destruct (write_one_spec i sz w s ltac:(lia) Hlen) as [Hrw Hres].
  destruct (write_one i w s) as [s1 [[]|e]] eqn:E; cbn [fst snd] in *.
  - rewrite (bind_ok _ _ _ _ _ E). destruct (IH Hnd Hok s1) as [Hrw2 Hres2]. split.
    + eapply rewrites_trans; (eapply rewrites_mono; [|eassumption]); [intros k <-; by left|intros k Hin; by right].
    + destruct (snd (iterM (write_one i) ws s1)); [|done]. intros w' [->|Hin]%elem_of_cons; [|by apply Hres2].
      etrans; [|exact Hres]. apply (rw_keeps _ _ _ _ _ Hrw2); [lia|done|]. unfold holds. rewrite Hres. lia.
  - rewrite (bind_raise _ _ _ _ _ E). cbn [fst snd]. split; [|done]. eapply rewrites_mono; [|exact Hrw]. intros k <-. by left.
Qed.

Lemma NoDup_fst_inj {A} (ws : list (Z * A)) x y : NoDup (map fst ws) -> x ∈ ws -> y ∈ ws -> fst x = fst y -> x = y.
Proof.
  induction ws as [|w ws IH]; [by intros _ Hx%not_elem_of_nil|]. cbn [map]. intros [Hw Hnd]%NoDup_cons Hx Hy E.
  assert (forall z, z ∈ ws -> fst z ∈ map fst ws) as Hin by (intros z Hz; apply list_elem_of_In, in_map; by apply list_elem_of_In).
  apply elem_of_cons in Hx as [->|Hx]; apply elem_of_cons in Hy as [->|Hy]; try done.
  - exfalso. apply Hw. rewrite E. by apply Hin.
  - exfalso. apply Hw. rewrite <- E. by apply Hin.
  - by apply IH.
Qed.

Definition index_writes (i : string) (ws : list (Z * (bytes * string))) (m : gmap (string * Z) string) : gmap (string * Z) string :=
  fold_left (fun m w => <[(i, fst w) := snd (snd w)]> m) ws m.

Lemma index_all i ws s :
  iterM (fun w => modify (fun s => set_chunks (<[(i, fst w) := snd (snd w)]> (chunks s)) s)) ws s =
  (set_chunks (index_writes i ws (chunks s)) s, Ok tt).
Proof.
  revert s. induction ws as [|w ws IH]; intros s; cbn [iterM]; [by destruct s|].
  rewrite (bind_ok (modify _) _ _ _ tt eq_refl), IH. done.
Qed.

Lemma index_writes_lookup i ws m j k : NoDup (map fst ws) ->
  index_writes i ws m !! (j, k) =
    match (if decide (j = i) then List.find (fun w => bool_decide (fst w = k)) ws else None) with
    | Some w => Some (snd (snd w)) | None => m !! (j, k) end.
Proof.
  unfold index_writes. revert m. induction ws as [|w ws IH]; intros m Hnd; cbn [fold_left List.find map]; [by case_decide|].
  apply NoDup_cons in Hnd as [Hw Hnd]. rewrite IH by done. case_decide as Hj; [subst j|by rewrite lookup_insert_ne by congruence].
  case_bool_decide as Ek.
  - subst k. destruct (List.find _ ws) as [w'|] eqn:Ef; [|by rewrite lookup_insert_eq].
    apply find_some in Ef as [Hin Hk%bool_decide_eq_true_1]. exfalso. apply Hw. rewrite <- Hk.
    apply list_elem_of_In, in_map, Hin.
  - destruct (List.find _ ws); [done|]. by rewrite lookup_insert_ne by congruence.
Qed.

(** Chunk [k] of file [i] is indexed and its bytes are [c]. *)
Definition stored (s : FileStore) (i : string) (k : Z) (c : bytes) : Prop :=
  exists r d, od_get i (files s) = Some r /\ chunks s !! (i, k) = Some d /\ chunk_of (size r) k (content i s) = c.

(** What a write of new chunks to file [i] does, whatever fails. *)
Record wrote (i : string) (ws : list (Z * (bytes * string))) (s s' : FileStore) (ok : bool) : Prop := {
  wr_inv : store_inv s';
  wr_files : files s' = files s;
  wr_disk : forall j, j ≠ i -> disk s' !! j = disk s !! j;
  wr_chunks : forall j k, j ≠ i -> chunks s' !! (j, k) = chunks s !! (j, k);
  wr_stored : forall k c, stored s i k c -> stored s' i k c;
  wr_new : if ok then forall w, w ∈ ws -> stored s' i (fst w) (fst (snd w)) else chunks s' = chunks s
}.

Lemma write_chunks_unfold i ws s : ws ≠ [] -> write_chunks i ws s =
  bind io (fun _ => bind get (fun s1 => match disk s1 !! i with
    | None => raise OSError
    | Some _ => bind (iterM (write_one i) (merge_sort by_index ws)) (fun _ => bind io (fun _ =>
        transaction (iterM (fun w => modify (fun s => set_chunks (<[(i, fst w) := snd (snd w)]> (chunks s)) s)) ws))) end)) s.
Proof. intros Hne. unfold write_chunks. by rewrite bool_decide_false. Qed.

Lemma wrote_failed i r ws s s' : store_inv s -> od_get i (files s) = Some r ->
  (forall k, k ∈ map fst ws -> chunks s !! (i, k) = None) ->
  rewrites i (size r) (fun k => k ∈ map fst ws) s s' -> wrote i ws s s' false.
Proof.
  intros Hinv Hr Hnew Hrw. split; try by destruct Hrw.
  - by eapply rewrites_inv.
  - intros j k _. by rewrite (rw_chunks _ _ _ _ _ Hrw).
  - intros k c (q & d & Hq & Hd & Hc). assert (q = r) as -> by congruence. exists r, d.
    rewrite (rw_files _ _ _ _ _ Hrw), (rw_chunks _ _ _ _ _ Hrw). split; [done|]. split; [done|].
    destruct (inv_chunk s Hinv i k d Hd) as (q & c0 & Hq' & _ & Hk & Hdisk & Hh & _).
    assert (q = r) as -> by congruence. rewrite (rw_keeps _ _ _ _ _ Hrw); [done|lia| |].
    + intros Hin. by rewrite (Hnew k Hin) in Hd.
    + unfold content. by rewrite Hdisk.
Qed.

Lemma wrote_indexed i r ws s s1 : store_inv s -> od_get i (files s) = Some r -> active r = true ->
  NoDup (map fst ws) -> Forall (write_ok (size r)) ws -> (forall k, k ∈ map fst ws -> chunks s !! (i, k) = None) ->
  wrote i ws s s1 false -> is_Some (disk s1 !! i) ->
  (forall w, w ∈ ws -> chunk_of (size r) (fst w) (content i s1) = fst (snd w)) ->
  wrote i ws s (set_chunks (index_writes i ws (chunks s1)) s1) true.
Proof.
  intros Hinv Hr Ha Hnd Hok Hnew [Winv Wf Wd Wc Ws Wn] [c1 Hc1] Hbytes.
  assert (forall w, w ∈ ws -> index_writes i ws (chunks s1) !! (i, fst w) = Some (snd (snd w))) as Hnewidx.
  { intros w Hw. rewrite index_writes_lookup, decide_True by done. destruct (List.find _ ws) as [w'|] eqn:Ef.
    - apply find_some in Ef as [Hin Hk%bool_decide_eq_true_1]. by rewrite (NoDup_fst_inj ws w' w) by (try done; by apply list_elem_of_In).
    - eapply find_none in Ef; [|by apply list_elem_of_In]. by rewrite bool_decide_true in Ef. }
  assert (forall j k d, index_writes i ws (chunks s1) !! (j, k) = Some d ->
    (exists w, w ∈ ws /\ j = i /\ k = fst w /\ d = snd (snd w)) \/ chunks s1 !! (j, k) = Some d) as Hinvidx.
  { intros j k d. rewrite index_writes_lookup by done. case_decide as Hj; [|by right]. destruct (List.find _ ws) as [w|] eqn:Ef; [|by right].
    intros [= <-]. left. apply find_some in Ef as [Hin Hk%bool_decide_eq_true_1]. exists w. by rewrite list_elem_of_In. }
  assert (forall j k d, chunks s1 !! (j, k) = Some d -> index_writes i ws (chunks s1) !! (j, k) = Some d) as Hmono.
  { intros j k d Hd. rewrite index_writes_lookup by done. case_decide as Hj; [subst j|done].
    destruct (List.find _ ws) as [w|] eqn:Ef; [|done]. apply find_some in Ef as [Hin Hk%bool_decide_eq_true_1].
    exfalso. rewrite Wn, Hnew in Hd; [done|]. rewrite <- Hk. apply list_elem_of_In, in_map, Hin. }
  split; cbn [files chunks disk set_chunks]; try done.
  - destruct Winv as [H1 H2 H3 H4 H5]. split; cbn [files chunks disk set_chunks]; try done.
    + intros j k d Hd. destruct (Hinvidx j k d Hd) as [(w & Hw & -> & -> & ->)|Hold]; [|exact (H4 j k d Hold)].
      rewrite Forall_forall in Hok. destruct (Hok w Hw) as (Hk & Hlen & Hdig). specialize (Hbytes w Hw).
      unfold content in Hbytes. rewrite Hc1 in Hbytes. change (default [] (Some c1)) with c1 in Hbytes. exists r, c1. cbn [files disk set_chunks]. rewrite Wf.
      repeat split; try done; try lia; [unfold holds; rewrite Hbytes; lia|by rewrite Hbytes].
    + intros j q Hq Hst k Hk. destruct (H5 j q Hq Hst k Hk) as [d Hd]. exists d. by apply Hmono.
  - intros j k Hj. rewrite index_writes_lookup, decide_False by done. by apply Wc.
  - intros k c Hst. destruct (Ws k c Hst) as (q & d & Hq & Hd & Hc). exists q, d. split; [done|]. split; [by apply Hmono|done].
  - intros w Hw. exists r, (snd (snd w)). split; [cbn [files set_chunks]; by rewrite Wf|]. split; [by apply Hnewidx|]. by apply Hbytes.
Qed.

Lemma write_chunks_spec i r ws s : store_inv s -> od_get i (files s) = Some r -> active r = true ->
  od_wf ws -> Forall (write_ok (size r)) ws -> (forall k, k ∈ map fst ws -> chunks s !! (i, k) = None) ->
  wrote i ws s (fst (write_chunks i ws s)) (is_ok (snd (write_chunks i ws s))) /\
  (forall e, snd (write_chunks i ws s) = Raise e -> e = OSError).
Proof.
  intros Hinv Hr Ha Hnd Hok Hnew. change (NoDup (map fst ws)) in Hnd.
  destruct (decide (ws = [])) as [->|Hne].
  { unfold write_chunks. rewrite bool_decide_true by done. cbn [fst snd ret is_ok]. split; [|done].
    split; try done. intros w Hw. by apply not_elem_of_nil in Hw. }
  assert (forall s', same_data s s' -> wrote i ws s s' false) as Hsame.
  { intros s' Hs'. eapply wrote_failed; try done. by apply rewrites_same. }
  rewrite write_chunks_unfold by done. destruct (io_same s) as [Hs1 Hr1]. destruct (io s) as [s1 res1] eqn:E1. cbn [fst snd] in *.
  destruct Hr1 as [->| ->]; [|rewrite (bind_raise _ _ _ _ _ E1); split; [by apply Hsame|by intros e [= <-]]].
  rewrite (bind_ok _ _ _ _ _ E1), (bind_ok get _ s1 s1 s1 eq_refl).
  destruct (inv_disk s Hinv i r Hr Ha) as [c Hc]. pose proof Hs1 as (_ & _ & Ed). rewrite Ed, Hc.
  pose proof (merge_sort_Permutation by_index ws) as Hperm.
  destruct (write_all_spec i (size r) (merge_sort by_index ws) s1) as [Hrw Hbytes].
  { by rewrite Hperm. } { by rewrite Hperm. }
  assert (rewrites i (size r) (fun k => k ∈ map fst ws) s (fst (iterM (write_one i) (merge_sort by_index ws) s1))) as Hrw'.
  { eapply rewrites_trans; [by apply rewrites_same|]. eapply rewrites_mono; [|exact Hrw]. intros k Hk. by rewrite <- (Permutation_map fst Hperm). }
  destruct (iterM (write_one i) (merge_sort by_index ws) s1) as [s2 [[]|e]] eqn:E2; cbn [fst snd] in *.
  2: { rewrite (bind_raise _ _ _ _ _ E2). subst e. split; [by eapply wrote_failed|by intros e [= <-]]. }
  rewrite (bind_ok _ _ _ _ _ E2). destruct (io_same s2) as [Hs3 Hr3]. destruct (io s2) as [s3 res3] eqn:E3. cbn [fst snd] in *.
  assert (wrote i ws s s3 false) as Hw3.
  { eapply wrote_failed; try done. eapply rewrites_trans; [exact Hrw'|]. by apply rewrites_same. }
  destruct Hr3 as [->| ->]; [|rewrite (bind_raise _ _ _ _ _ E3); split; [done|by intros e [= <-]]].
  rewrite (bind_ok _ _ _ _ _ E3). unfold transaction. rewrite index_all. cbn [fst snd is_ok]. split; [|done].
  assert (disk s3 = disk s2) as Ed3 by apply Hs3.
  eapply wrote_indexed; try done.
  - rewrite Ed3. apply (rw_disk _ _ _ _ _ Hrw'). by eexists.
  - intros w Hw. unfold content. rewrite Ed3. apply Hbytes. by rewrite Hperm.
Qed.

(** ** Requests that carry chunks *)

(** Chunks that may be written to the file of [r]. *)
Definition new_writes (s : FileStore) (r : Row) (ws : odict Z (bytes * string)) : Prop :=
  od_wf ws /\ Forall (write_ok (size r)) ws /\ (forall k, k ∈ map fst ws -> chunks s !! (id r, k) = None) /\
  (ws = [] \/ state r = Uploading).

Lemma new_writes_nil s r : new_writes s r [].
Proof. split; [apply od_wf_nil|]. split; [apply Forall_nil_2|]. split; [|by left]. intros k Hk. by apply not_elem_of_nil in Hk. Qed.

Lemma new_writes_add s r ws k c : new_writes s r ws -> state r = Uploading -> 0 <= k < chunk_count (size r) ->
  Z.of_nat (length c) = chunk_length (size r) k -> chunks s !! (id r, k) = None -> od_get k ws = None ->
  new_writes s r (od_set k (c, sha256_hex c) ws).
Proof.
  intros (H1 & H2 & H3 & _) Hst Hk Hlen Hnew Hget. rewrite od_keys_set_new by done.
  split; [rewrite <- od_keys_set_new by done; by apply od_wf_set|]. split; [|split; [|by right]].
  - apply Forall_app. split; [done|]. apply Forall_singleton. done.
  - intros k'. rewrite map_app. intros [Hk'|Hk']%elem_of_app; [by apply H3|]. by apply list_elem_of_singleton in Hk' as ->.
Qed.

Lemma integer_ok v lo hi n : integer v lo hi = Ok n -> v = VInt n /\ lo <= n <= hi.
Proof.
  unfold integer. destruct v; try done. destruct (_ && _) eqn:E; [|done]. intros [= ->].
  apply andb_true_iff in E. split; [done|lia].
Qed.

(** The chunk an accepted request carries is indexed already, or about to be,
    with the digest of its bytes. *)
Definition promised (s : FileStore) (r : Row) (ws : odict Z (bytes * string)) (k : Z) (c : bytes) : Prop :=
  chunks s !! (id r, k) = Some (sha256_hex c) \/ exists c', (k, (c', sha256_hex c)) ∈ ws /\ sha256_hex c' = sha256_hex c.

Lemma admit_chunk_spec s r now ws user data ws' : new_writes s r ws -> admit_chunk s r now ws user data = Ok ws' ->
  new_writes s r ws' /\ (exists tail, ws' = ws ++ tail) /\ owner r = user /\ past r now = false /\ state r = Uploading /\
  exists k c, dget "index" data = VInt k /\ encoded (dget "chunk" data) (CHUNK_SIZE + 28) = Ok c /\ promised s r ws' k c.
Proof.
  intros Hws. unfold admit_chunk. case_bool_decide as Ho; [|done]. cbn [negb].
  destruct (past r now) eqn:Hp; [done|]. cbn [orb]. case_bool_decide; [done|]. case_bool_decide as Hst; [|done]. cbn [negb].
  destruct (integer _ _ _) as [k|] eqn:Ei; [|done]. cbn [rbind]. apply integer_ok in Ei as [Ei Hk].
  destruct (encoded _ _) as [c|] eqn:Ec; [|done]. cbn [rbind]. destruct (_ =? _) eqn:El; [|done]. cbn [negb]. cbv zeta.
  destruct (od_get k ws) as [w|] eqn:Ew.
  - case_bool_decide as Hd; [|done]. intros [= <-]. split; [done|]. split; [exists []; by rewrite app_nil_r|].
    do 3 (split; [done|]). exists k, c. split; [done|]. split; [done|]. right. apply od_get_Some_elem in Ew.
    destruct w as [c' d]. cbn [snd] in Hd. subst d. exists c'. split; [done|].
    destruct Hws as (_ & Hf & _). rewrite Forall_forall in Hf. destruct (Hf _ Ew) as (_ & _ & E). by symmetry.
  - destruct (chunks s !! (id r, k)) as [d|] eqn:Hc.
    + case_bool_decide as Hd; [|done]. intros [= <-]. split; [done|]. split; [exists []; by rewrite app_nil_r|].
      do 3 (split; [done|]). exists k, c. split; [done|]. split; [done|]. left. by rewrite Hc, Hd.
    + intros [= <-]. split; [apply new_writes_add; (done || lia)|]. split; [rewrite od_keys_set_new by done; by eexists|].
      do 3 (split; [done|]). exists k, c. split; [done|]. split; [done|]. right. exists c. split; [|done].
      rewrite od_keys_set_new by done. apply elem_of_app. right. by left.
Qed.

Lemma promised_app s r ws tail k c : promised s r ws k c -> promised s r (ws ++ tail) k c.
Proof. intros [H|(c' & H & E)]; [by left|right]. exists c'. split; [apply elem_of_app; by left|done]. Qed.

(** What an accepted request of a flushed batch is about. *)
Definition accepted (s : FileStore) (r : Row) (ws : odict Z (bytes * string)) (rq : string * odict string pyval) : Prop :=
  owner r = fst rq /\ exists k c, dget "index" (snd rq) = VInt k /\
    encoded (dget "chunk" (snd rq)) (CHUNK_SIZE + 28) = Ok c /\ promised s r ws k c.

Lemma admit_chunks_spec s r now ws batch : new_writes s r ws ->
  let '(ws', vs) := admit_chunks s r now ws batch in
  new_writes s r ws' /\ (exists tail, ws' = ws ++ tail) /\ (ws' = ws \/ owner r ∈ map fst batch) /\ length vs = length batch /\
  forall n rq, batch !! n = Some rq -> vs !! n = Some None -> accepted s r ws' rq.
Proof.
  revert ws. induction batch as [|[user data] batch IH]; intros ws Hws; cbn [admit_chunks].
  { split; [done|]. split; [exists []; by rewrite app_nil_r|]. split; [by left|]. done. }
  destruct (admit_chunk s r now ws user data) as [ws1|e] eqn:E.
  - destruct (admit_chunk_spec s r now ws user data ws1 Hws E) as (Hws1 & [t1 ->] & Ho & _ & _ & k & c & Ei & Ec & Hpr).
    specialize (IH _ Hws1). destruct (admit_chunks _ _ _ _ batch) as [ws2 vs]. destruct IH as (H1 & [t2 ->] & _ & H3 & H4).
    split; [done|]. split; [exists (t1 ++ t2); by rewrite app_assoc|]. split; [right; cbn [map fst]; rewrite Ho; by left|]. split; [cbn [length]; lia|].
    intros [|n] rq; [|apply H4]. intros [= <-] _. split; [done|]. exists k, c. do 2 (split; [done|]). by apply promised_app.
  - specialize (IH _ Hws). destruct (admit_chunks _ _ _ _ batch) as [ws2 vs]. destruct IH as (H1 & H2 & H0 & H3 & H4).
    split; [done|]. split; [done|]. split; [destruct H0; [by left|right; by right]|]. split; [cbn [length]; lia|]. intros [|n] rq; [done|apply H4].
Qed.

Lemma check_batch_spec s r l seen ws seen' ws' : state r = Uploading -> new_writes s r ws ->
  (forall k, k ∈ map fst ws -> k ∈ seen) -> check_batch s r seen ws l = Ok (seen', ws') ->
  new_writes s r ws' /\ (exists tail, ws' = ws ++ tail) /\
  forall k c, VList [VInt k; VBytes c] ∈ l -> chunks s !! (id r, k) = Some (sha256_hex c) \/ (k, (c, sha256_hex c)) ∈ ws'.
Proof.
  intros Hst. revert seen ws. induction l as [|v l IH]; intros seen ws Hws Hseen; cbn [check_batch].
  { intros [= <- <-]. split; [done|]. split; [exists []; by rewrite app_nil_r|]. intros k c Hin. by apply not_elem_of_nil in Hin. }
  destruct (unpack_pair v) as [[vi vc]|] eqn:Eu; [|done]. cbn [rbind].
  destruct (integer vi _ _) as [k|] eqn:Ei; [|done]. cbn [rbind]. apply integer_ok in Ei as [-> Hk].
  destruct vc as [| | | | |c| |]; try done. case_bool_decide as Hin; [done|]. cbn [orb].
  destruct (_ =? _) eqn:El; [|done]. cbn [negb]. cbv zeta.
  assert (forall k' c', VList [VInt k'; VBytes c'] = v -> k' = k /\ c' = c) as Hv.
  { intros k' c' <-. cbn in Eu. by injection Eu as -> ->. }
  destruct (chunks s !! (id r, k)) as [d|] eqn:Hc.
  - case_bool_decide as Hd; [|done]. intros E. apply IH in E as (H1 & [t ->] & H3); [|done|].
    2: { intros k' Hk'. apply elem_of_app. left. by apply Hseen. }
    split; [done|]. split; [by exists t|]. intros k' c' [E|Hin']%elem_of_cons; [|by apply H3].
    apply Hv in E as [-> ->]. left. by rewrite Hc, Hd.
  - assert (od_get k ws = None) as Hget.
    { destruct (od_get k ws) as [w|] eqn:Ew; [|done]. exfalso. apply Hin, Hseen. apply od_get_Some_elem in Ew.
      apply list_elem_of_In, in_map_iff. exists (k, w). split; [done|by apply list_elem_of_In]. }
    intros E. apply IH in E as (H1 & [t Et] & H3); [|apply new_writes_add; (done || lia)|].
    2: { intros k'. rewrite od_keys_set_new, map_app by done. intros [Hk'|Hk']%elem_of_app; apply elem_of_app; [left; by apply Hseen|by right]. }
    rewrite od_keys_set_new, <- app_assoc in Et by done.
    split; [done|]. split; [by eexists|]. intros k' c' [E|Hin']%elem_of_cons; [|by apply H3].
    apply Hv in E as [-> ->]. right. rewrite Et. apply elem_of_app. right. by left.
Qed.

(** After a successful write every promised chunk is stored. *)
Lemma promised_stored s s' r ws k c : store_inv s -> od_get (id r) (files s) = Some r -> wrote (id r) ws s s' true ->
  promised s r ws k c -> exists c', stored s' (id r) k c' /\ sha256_hex c' = sha256_hex c.
Proof.
  intros Hinv Hr Hw [Hold|(c' & Hin & E)].
  - destruct (inv_chunk s Hinv _ _ _ Hold) as (q & content0 & Hq & _ & Hk & Hdisk & Hh & Hs).
    exists (chunk_of (size q) k content0). split; [|done]. apply (wr_stored _ _ _ _ _ Hw).
    exists q, (sha256_hex c). split; [done|]. split; [done|]. unfold content. by rewrite Hdisk.
  - exists c'. split; [|done]. exact (wr_new _ _ _ _ _ Hw _ Hin).
Qed.

(** [row] finds an undeleted file. *)
Lemma row_cases v s : (exists i r, v = VStr i /\ row v s = (s, Ok r) /\ ID i = true /\ od_get i (files s) = Some r /\ state r ≠ Deleted) \/
  row v s = (s, Raise (FileError "NOT_AVAILABLE")).
Proof.
  destruct v as [| | | |i| | |]; try by right. unfold row. destruct (ID i) eqn:Eid; [|by right]. cbn [negb]. unfold bind, get.
  destruct (od_get i (files s)) as [r|] eqn:Er; [|by right]. case_bool_decide; [by right|]. left. by exists i, r.
Qed.
End FileInv.
