(* ===== verification/FileOps.v ===== *)
(** * What each file operation does

    Every operation of [FileStore], on every path including I/O failures,
    keeps the invariant, never changes a stored chunk except by removing it,
    and leaves the files alone that it is not about. *)

From stdpp Require Import prelude strings list gmap sorting.
From Stdlib Require Import ZArith Lia.
From S2P Require Import Prelude PyDict PyBytes Base64 Sha256 PyValue FileStore FileFacts.

Module FileOps.
Import Files FileInv.

(** Nothing of file [i] changed. *)
Definition untouched (i : string) (s s' : FileStore) : Prop :=
  od_get i (files s') = od_get i (files s) /\ disk s' !! i = disk s !! i /\ forall k, chunks s' !! (i, k) = chunks s !! (i, k).

(** The owners and sizes of the files that count against the quotas. *)
Definition weights (d : odict string Row) : list (string * Z) :=
  map (fun r => (owner r, size r)) (List.filter active (od_values d)).

(** The same upload, possibly in another state. *)
Definition same_file (r r' : Row) : Prop :=
  owner r' = owner r /\ size r' = size r /\ expires r' = expires r /\ created r' = created r /\ envelope r' = envelope r.

(** [W]: the files that may change; [D]: the files that may lose chunks; [N]:
    what new files weigh. *)
Record frame (W : Row -> Prop) (D : string -> Prop) (N : list (string * Z)) (s s' : FileStore) : Prop := {
  fr_inv : store_inv s';
  fr_rows : forall i r r', od_get i (files s) = Some r -> od_get i (files s') = Some r' -> same_file r r';
  fr_weights : weights (files s') `sublist_of` weights (files s) ++ N;
  fr_stored : forall i k c, stored s i k c -> stored s' i k c \/ (D i /\ chunks s' !! (i, k) = None);
  fr_others : forall i r, od_get i (files s) = Some r -> ~ W r -> untouched i s s'
}.

Lemma untouched_refl i s s' : same_data s s' -> untouched i s s'.
Proof. intros (Ef & Ec & Ed). split; [by rewrite Ef|]. split; [by rewrite Ed|]. intros k. by rewrite Ec. Qed.

Lemma untouched_trans i s1 s2 s3 : untouched i s1 s2 -> untouched i s2 s3 -> untouched i s1 s3.
Proof. intros (A1 & A2 & A3) (B1 & B2 & B3). split; [congruence|]. split; [congruence|]. intros k. by rewrite B3. Qed.

Lemma stored_untouched i s s' k c : untouched i s s' -> stored s i k c -> stored s' i k c.
Proof.
  intros (E1 & E2 & E3) (r & d & Hr & Hd & Hc). exists r, d. rewrite E1, E3. split; [done|]. split; [done|].
  unfold content in *. by rewrite E2.
Qed.

Lemma same_file_refl r : same_file r r.
Proof. by repeat split. Qed.

(** The table of files is unchanged. *)
Lemma rows_unchanged s s' i r r' : files s' = files s -> od_get i (files s) = Some r -> od_get i (files s') = Some r' -> same_file r r'.
Proof. intros -> Hr Hr'. assert (r' = r) as -> by congruence. apply same_file_refl. Qed.

Lemma weights_unchanged N s s' : files s' = files s -> weights (files s') `sublist_of` weights (files s) ++ N.
Proof. intros ->. by apply sublist_inserts_r. Qed.

Lemma frame_same W D N s s' : store_inv s -> same_data s s' -> frame W D N s s'.
Proof.
  intros Hinv Hs. pose proof Hs as (Ef & _).
  split; [by eapply inv_same|intros; by eapply rows_unchanged|by apply weights_unchanged| |].
  - intros i k c Hst. left. eapply stored_untouched; [|exact Hst]. by apply untouched_refl.
  - intros i r _ _. by apply untouched_refl.
Qed.

Lemma frame_mono (W W' : Row -> Prop) (D D' : string -> Prop) N s s' :
  (forall r, W r -> W' r) -> (forall i, D i -> D' i) -> frame W D N s s' -> frame W' D' N s s'.
Proof.
  intros HW HD [F1 F4 F5 F2 F3]. split; [done..| |].
  - intros i k c Hst. destruct (F2 i k c Hst) as [|[]]; [by left|right; auto].
  - intros i r Hr Hn. apply (F3 i r Hr). auto.
Qed.

(** [s'] has no file that [s] has not. *)
Definition no_new_rows (s s' : FileStore) : Prop := forall i, od_get i (files s) = None -> od_get i (files s') = None.

(** Two steps, one of which adds no file, the second of which indexes
    nothing. *)
Lemma frame_trans W D N s1 s2 s3 : frame W D [] s1 s2 -> frame W D N s2 s3 -> chunks s3 ⊆ chunks s2 ->
  no_new_rows s2 s3 \/ files s2 = files s1 -> frame W D N s1 s3.
Proof.
  intros [A1 A4 A5 A2 A3] [B1 B4 B5 B2 B3] Hsub Hnew. split; [done| | | |].
  - intros i r r' Hr Hr'. destruct (od_get i (files s2)) as [q|] eqn:Hq.
    + specialize (A4 i r q Hr Hq). specialize (B4 i q r' Hq Hr'). unfold same_file in *. intuition congruence.
    + exfalso. destruct Hnew as [Hnew|E]; [by rewrite (Hnew i Hq) in Hr'|congruence].
  - rewrite app_nil_r in A5. etrans; [exact B5|]. by apply sublist_app.
  - intros i k c Hst. destruct (A2 i k c Hst) as [Hst2|[HD Hn]]; [by apply B2|]. right. split; [done|].
    destruct (chunks s3 !! (i, k)) as [d|] eqn:E; [|done]. by rewrite (lookup_weaken _ _ _ _ E Hsub) in Hn.
  - intros i r Hr Hn. destruct (A3 i r Hr Hn) as (E1 & E2 & E3). eapply untouched_trans; [done|].
    apply (B3 i r); [by rewrite E1|done].
Qed.

(** ** Uploads *)

Lemma wrote_frame (W : Row -> Prop) i r ws s s' ok : od_get i (files s) = Some r -> W r -> wrote i ws s s' ok ->
  frame W (fun _ => False) [] s s'.
Proof.
  intros Hr HW Hw. assert (forall j, j ≠ i -> untouched j s s') as Hj.
  { intros j Hne. split; [by rewrite (wr_files _ _ _ _ _ Hw)|]. split; [by apply (wr_disk _ _ _ _ _ Hw)|].
    intros k. by apply (wr_chunks _ _ _ _ _ Hw). }
  pose proof (wr_files _ _ _ _ _ Hw) as Ef.
  split; [apply Hw|intros; by eapply rows_unchanged|by apply weights_unchanged| |].
  - intros j k c Hst. left. destruct (decide (j = i)) as [->|Hne]; [by apply (wr_stored _ _ _ _ _ Hw)|].
    eapply stored_untouched; [|exact Hst]. by apply Hj.
  - intros j q Hq Hn. apply Hj. intros ->. congruence.
Qed.

(** The write of a set of admitted chunks. *)
Lemma write_new_spec s r ws : store_inv s -> od_get (id r) (files s) = Some r -> new_writes s r ws ->
  wrote (id r) ws s (fst (write_chunks (id r) ws s)) (is_ok (snd (write_chunks (id r) ws s))) /\
  (forall e, snd (write_chunks (id r) ws s) = Raise e -> e = OSError).
Proof.
  intros Hinv Hr (Hwf & Hok & Hnew & [->|Hst]).
  - unfold write_chunks. rewrite bool_decide_true by done. cbn [fst snd ret is_ok]. split; [|done].
    split; try done. intros w Hw. by apply not_elem_of_nil in Hw.
  - apply (write_chunks_spec (id r) r); try done. unfold active. by rewrite Hst.
Qed.

Lemma lookup_map {A B} (f : A -> B) l n : map f l !! n = f <$> l !! n.
Proof. apply list_lookup_fmap. Qed.

(** What the answer of a flushed request promises. *)
Definition request_stored (s' : FileStore) (i : string) (rq : string * odict string pyval) : Prop :=
  exists k c c', dget "index" (snd rq) = VInt k /\ encoded (dget "chunk" (snd rq)) (CHUNK_SIZE + 28) = Ok c /\
    stored s' i k c' /\ sha256_hex c' = sha256_hex c.

Definition owned_by (users : list string) (r : Row) : Prop := owner r ∈ users.

Lemma flush_batch_spec i batch now s : store_inv s ->
  exists s' rs, flush_batch i batch now s = (s', Ok rs) /\ length rs = length batch /\
    frame (owned_by (map fst batch)) (fun _ => False) [] s s' /\
    forall n rq v, batch !! n = Some rq -> rs !! n = Some (Ok v) -> request_stored s' i rq.
Proof.
  intros Hinv. unfold flush_batch. destruct (row_cases (VStr i) s) as [(i' & r & [= <-] & E & _ & Hr & _)|E]; rewrite E.
  2: { eexists s, _. split; [done|]. split; [by rewrite length_map|]. split; [by apply frame_same|].
       intros n rq v Hn. rewrite lookup_map, Hn. done. }
  destruct (inv_row s Hinv i r Hr) as (Hid & _ & _). subst i.
  pose proof (admit_chunks_spec s r now [] batch (new_writes_nil s r)) as Hadm.
  destruct (admit_chunks s r now [] batch) as [ws vs]. destruct Hadm as (Hws & _ & Hown & Hlen & Hacc).
  destruct (write_new_spec s r ws Hinv Hr Hws) as [Hwr _].
  destruct (write_chunks (id r) ws s) as [s' res] eqn:Ew. cbn [fst snd] in *.
  eexists s', _. split; [done|]. split; [by rewrite length_map|]. split.
  - destruct Hown as [->|Hown]; [|by eapply wrote_frame]. cbn in Ew. injection Ew as <- _. by apply frame_same.
  - intros n rq v Hn. rewrite lookup_map. destruct (vs !! n) as [[e|]|] eqn:Ev; cbn; try done.
    destruct res as [[]|e]; [|done]. intros _. destruct (Hacc n rq Hn Ev) as (_ & k & c & Ek & Ec & Hp).
    destruct (promised_stored s s' r ws k c Hinv Hr Hwr Hp) as (c' & Hst & Hs). by exists k, c, c'.
Qed.

Lemma put_spec i rqs now s : store_inv s ->
  exists s' rs, put i rqs now s = (s', Ok rs) /\ length rs = length rqs /\
    frame (owned_by (map fst rqs)) (fun _ => False) [] s s' /\
    forall n rq v, rqs !! n = Some rq -> rs !! n = Some (Ok v) -> request_stored s' i rq.
Proof.
  intros Hinv. unfold put. rewrite (bind_ok (gets write_slots) _ s s _ eq_refl). set (n := write_slots s).
  assert (exists s' rs, (if bool_decide (take n rqs = []) then ret [] else flush_batch i (take n rqs) now) s = (s', Ok rs) /\
    length rs = length (take n rqs) /\ frame (owned_by (map fst (take n rqs))) (fun _ => False) [] s s' /\
    forall m rq v, take n rqs !! m = Some rq -> rs !! m = Some (Ok v) -> request_stored s' i rq) as (s' & rs & E & Hlen & Hf & Hst).
  { case_bool_decide as Ht; [|by apply flush_batch_spec]. exists s, []. rewrite Ht. split; [done|]. split; [done|].
    split; [by apply frame_same|done]. }
  rewrite (bind_ok _ _ _ _ _ E). eexists s', _. split; [done|]. split.
  - rewrite length_app, length_map, Hlen, length_take, length_drop. lia.
  - split.
    + eapply (frame_mono _ _ (fun _ => False)); [|done|exact Hf]. intros r. apply sublist_subseteq. apply (fmap_sublist fst), sublist_take.
    + intros m rq v Hm Hv. destruct (decide (m < n)%nat) as [Hlt|Hge].
      * apply (Hst m rq v); [by rewrite lookup_take_lt|]. rewrite lookup_app_l in Hv; [done|].
        apply lookup_lt_Some in Hm. rewrite Hlen, length_take. lia.
      * exfalso. apply lookup_lt_Some in Hm as Hlt. rewrite lookup_app_r in Hv by (rewrite Hlen, length_take; lia).
        rewrite lookup_map in Hv. by destruct (drop n rqs !! _).
Qed.

Lemma put_batch_spec user i data now s : store_inv s ->
  frame (owned_by [user]) (fun _ => False) [] s (fst (put_batch user i data now s)) /\
  match snd (put_batch user i data now s) with
  | Ok _ => forall l k c, dget "chunks" data = VList l -> VList [VInt k; VBytes c] ∈ l ->
      exists c', stored (fst (put_batch user i data now s)) i k c' /\ sha256_hex c' = sha256_hex c /\
        (chunks s !! (i, k) = None -> c' = c)
  | Raise e => (e = OSError \/ fst (put_batch user i data now s) = s) /\ files (fst (put_batch user i data now s)) = files s /\
      chunks (fst (put_batch user i data now s)) = chunks s
  end.
Proof.
  intros Hinv. unfold put_batch. rewrite (bind_ok (gets write_slots) _ s s _ eq_refl).
  assert (forall e, frame (owned_by [user]) (fun _ => False) [] s (fst ((s, Raise e) : FileStore * res pyval)) /\
    (e = OSError \/ fst ((s, Raise e) : FileStore * res pyval) = s) /\ files s = files s /\ chunks s = chunks s) as Hfail.
  { intros e. split; [by apply frame_same|by split; [right|]]. }
  destruct (_ =? 0)%nat; [apply Hfail|].
  destruct (row_cases (VStr i) s) as [(i' & r & [= <-] & E & _ & Hr & _)|E];
    [rewrite (bind_ok _ _ _ _ _ E)|rewrite (bind_raise _ _ _ _ _ E); apply Hfail].
  destruct (inv_row s Hinv i r Hr) as (Hid & _ & _). subst i.
  case_bool_decide as Ho; [|apply Hfail]. destruct (past r now); [apply Hfail|]. case_bool_decide as Hst; [|apply Hfail]. cbn [negb].
  destruct (dget "chunks" data) as [| | | | | |l|]; try apply Hfail. destruct (negb _); [apply Hfail|].
  rewrite (bind_ok get _ s s s eq_refl). destruct (check_batch s r [] [] l) as [[seen ws]|e] eqn:Ec; [|apply Hfail].
  rewrite (bind_ok (lift (Ok (seen, ws))) _ s s _ eq_refl).
  destruct (check_batch_spec s r l [] [] seen ws Hst (new_writes_nil s r)) as (Hws & _ & Hpr); [done..|].
  destruct (write_new_spec s r ws Hinv Hr Hws) as [Hwr Herr].
  destruct (write_chunks (id r) ws s) as [s' [[]|e]] eqn:Ew; cbn [fst snd is_ok] in *.
  - rewrite (bind_ok _ _ _ _ _ Ew). cbn [fst snd ret]. split.
    + eapply wrote_frame; [exact Hr| |exact Hwr]. unfold owned_by. rewrite Ho. by left.
    + intros l' k c [= <-] Hin. destruct (Hpr k c Hin) as [Hold|Hnew].
      * destruct (promised_stored s s' r ws k c Hinv Hr Hwr (or_introl Hold)) as (c' & Hst' & Hs). exists c'.
        split; [done|]. split; [done|]. by rewrite Hold.
      * exists c. split; [exact (wr_new _ _ _ _ _ Hwr _ Hnew)|done].
  - rewrite (bind_raise _ _ _ _ _ Ew). cbn [fst snd]. split.
    + eapply wrote_frame; [exact Hr| |exact Hwr]. unfold owned_by. rewrite Ho. by left.
    + split; [left; by apply Herr|]. split; [apply Hwr|exact (wr_new _ _ _ _ _ Hwr)].
Qed.

(** ** Creation *)

(** A file id without a row has no chunks. *)
Lemma no_row_no_chunks s i k : store_inv s -> od_get i (files s) = None -> chunks s !! (i, k) = None.
Proof.
  intros Hinv Hn. destruct (chunks s !! (i, k)) as [d|] eqn:E; [|done].
  destruct (inv_chunk s Hinv i k d E) as (r & _ & Hr & _). congruence.
Qed.

(** Everything about the files that have a row stays. *)
Lemma frame_orphan W D N s s' : store_inv s -> files s' = files s -> chunks s' = chunks s ->
  (forall i, is_Some (od_get i (files s)) -> disk s' !! i = disk s !! i) -> frame W D N s s'.
Proof.
  intros Hinv Ef Ec Hd. assert (forall i r, od_get i (files s) = Some r -> untouched i s s') as Hun.
  { intros i r Hr. split; [by rewrite Ef|]. split; [by apply Hd|]. intros k. by rewrite Ec. }
  split; [|intros; by eapply rows_unchanged|by apply weights_unchanged|intros i k c Hst; left; destruct Hst as (r & d & Hr & Hrest); eapply stored_untouched; [by eapply Hun|by exists r, d]|intros; by eapply Hun].
  destruct Hinv as [H1 H2 H3 H4 H5]. split; rewrite ?Ef, ?Ec; try done.
  - intros i r Hr Ha. rewrite Hd by done. by eapply H3.
  - intros i k d Hk. destruct (H4 i k d Hk) as (r & c & Hr & Hrest). exists r, c. rewrite Ef, Hd by done. done.
Qed.

(** A new row over an existing empty file. *)
Lemma frame_new W D s i r c : store_inv s -> od_get i (files s) = None -> row_ok i r -> state r = Uploading ->
  disk s !! i = Some c -> frame W D [(owner r, size r)] s (set_files (od_set i r (files s)) s).
Proof.
  intros Hinv Hn Hok Hst Hc.
  assert (forall j, j ≠ i -> untouched j s (set_files (od_set i r (files s)) s)) as Hun.
  { intros j Hj. split; [by cbn [files set_files]; rewrite od_get_set_ne|done]. }
  split; cbn [files chunks disk set_files].
  - pose proof Hinv as [H1 H2 H3 H4 H5]. split; cbn [files chunks disk set_files].
    + by apply od_wf_set.
    + intros j q. rewrite od_get_set. case_decide as Hj; [intros [= <-]; by subst|apply H2].
    + intros j q. rewrite od_get_set. case_decide as Hj; [subst; by eauto|apply H3].
    + intros j k d Hk. destruct (H4 j k d Hk) as (q & c' & Hq & Hrest). exists q, c'. cbn [files disk set_files].
      rewrite od_get_set_ne; [done|]. intros ->. congruence.
    + intros j q. rewrite od_get_set. case_decide as Hj; [intros [= <-]; congruence|apply H5].
  - intros j q q' Hq. rewrite od_get_set_ne by congruence. rewrite Hq. intros [= <-]. apply same_file_refl.
  - rewrite od_keys_set_new by done. unfold weights, od_values. rewrite map_app, List.filter_app, map_app. cbn [map List.filter snd].
    assert (active r = true) as -> by (unfold active; by rewrite Hst). done.
  - intros j k b Hb. left. eapply stored_untouched; [|exact Hb]. apply Hun. intros ->.
    destruct Hb as (q & d & Hq & _). congruence.
  - intros j q Hq _. apply Hun. intros ->. congruence.
Qed.

(** The creating branch of [create]. *)
Definition create_new (user i : string) (new_size ttl : Z) (env man : string) (now : Z) (s : FileStore) : M FileStore pyval :=
  bind (pop_native i) (fun _ => bind io (fun _ =>
  bind (if disk s !! i then raise OSError else modify (fun s => set_disk (<[i := []]> (disk s)) s)) (fun _ =>
  bind io (fun _ =>
  bind (modify (fun s => set_files (od_set i {| id := i; owner := user; size := new_size; expires := seconds now + ttl;
            created := seconds now; state := Uploading; envelope := env; manifest := man |} (files s)) s)) (fun _ =>
  bind (row (VStr i)) (fun r => ret (describe r true))))))).

(** The new row. *)
Definition new_row (user i : string) (new_size ttl : Z) (env man : string) (now : Z) : Row :=
  {| id := i; owner := user; size := new_size; expires := seconds now + ttl; created := seconds now; state := Uploading;
     envelope := env; manifest := man |}.

Lemma io_split s : exists s1, same_data s s1 /\ (io s = (s1, Ok tt) \/ io s = (s1, Raise OSError)).
Proof. destruct (io_same s) as [Hs [E|E]]; exists (fst (io s)); (split; [done|]); rewrite <- E; destruct (io s); [by left|by right]. Qed.

Lemma create_new_spec user i new_size ttl env man now s : store_inv s -> od_get i (files s) = None -> ID i = true ->
  0 <= new_size <= MAX_FILE_SIZE ->
  let '(s', r) := transaction (create_new user i new_size ttl env man now s) s in
  frame (fun _ => False) (fun _ => False) (if is_ok r then [(user, new_size)] else []) s s' /\
  match r with
  | Ok v => files s' = files s ++ [(i, new_row user i new_size ttl env man now)] /\ chunks s' = chunks s
  | Raise e => e = OSError /\ files s' = files s /\ chunks s' = chunks s
  end.
Proof.
  intros Hinv Hn Hid Hsz. unfold transaction.
  destruct (create_new user i new_size ttl env man now s s) as [s' r] eqn:E.
  unfold create_new in E. unfold pop_native in E. rewrite (bind_ok (modify _) _ _ _ tt eq_refl) in E.
  set (s0 := set_native_writes _ s) in E. assert (same_data s s0) as H0 by done.
  assert (forall s1, files s1 = files s -> chunks s1 = chunks s -> (forall j, is_Some (od_get j (files s)) -> disk s1 !! j = disk s !! j) ->
    frame (fun _ => False) (fun _ => False) [] s (set_chunks (chunks s) (set_files (files s) s1)) /\ OSError = OSError /\
      files (set_chunks (chunks s) (set_files (files s) s1)) = files s /\ chunks (set_chunks (chunks s) (set_files (files s) s1)) = chunks s) as Hfail.
  { intros s1 Ef Ec Hd. split; [|done]. apply frame_orphan; done. }
  destruct (io_split s0) as (s1 & H1 & [E1|E1]); [rewrite (bind_ok _ _ _ _ _ E1) in E|rewrite (bind_raise _ _ _ _ _ E1) in E].
  2: { injection E as <- <-. apply Hfail; try apply H1. intros j _. by destruct H1 as (_ & _ & ->). }
  destruct (disk s !! i) as [c|] eqn:Ed.
  { rewrite (bind_raise (raise OSError) _ s1 s1 OSError eq_refl) in E. injection E as <- <-.
    apply Hfail; try apply H1. intros j _. by destruct H1 as (_ & _ & ->). }
  rewrite (bind_ok (modify _) _ _ _ tt eq_refl) in E. set (s2 := set_disk _ s1) in E.
  assert (forall j, is_Some (od_get j (files s)) -> disk s2 !! j = disk s !! j) as Hd2.
  { intros j [q Hq]. unfold s2. cbn [disk set_disk]. destruct H1 as (_ & _ & ->). rewrite lookup_insert_ne; [done|]. intros <-. congruence. }
  assert (files s2 = files s /\ chunks s2 = chunks s) as [Ef2 Ec2] by (split; apply H1).
  destruct (io_split s2) as (s3 & H3 & [E3|E3]); [rewrite (bind_ok _ _ _ _ _ E3) in E|rewrite (bind_raise _ _ _ _ _ E3) in E].
  2: { injection E as <- <-. destruct H3 as (Ef3 & Ec3 & Ed3). apply Hfail; [congruence..|]. intros j Hj. rewrite Ed3. by apply Hd2. }
  rewrite (bind_ok (modify _) _ _ _ tt eq_refl) in E. fold (new_row user i new_size ttl env man now) in E.
  destruct H3 as (Ef3 & Ec3 & Ed3). assert (files s3 = files s) as Ef by congruence. assert (chunks s3 = chunks s) as Ec by congruence.
  assert (frame (fun _ => False) (fun _ => False) [] s s3) as Hfr.
  { apply frame_orphan; [done..|]. intros j Hj. rewrite Ed3. by apply Hd2. }
  unfold row in E. rewrite Hid in E. cbn [negb] in E. unfold bind at 1 in E. unfold bind at 1, get at 1 in E.
  cbn [files set_files] in E. rewrite od_get_set_eq in E. rewrite bool_decide_false in E by done. injection E as <- <-.
  split.
  - cbn [is_ok]. eapply frame_trans; [exact Hfr| |done|by right]. apply (frame_new _ _ s3 i (new_row user i new_size ttl env man now) []); try done.
    + apply Hfr. + by rewrite Ef. + rewrite Ed3. unfold s2. cbn [disk set_disk]. apply lookup_insert_eq.
  - cbn [files chunks set_files]. split; [|done]. rewrite Ef. by apply od_keys_set_new.
Qed.

(** A transaction that changed nothing but the script. *)
Lemma transaction_same {A} (m : M FileStore A) s : same_data s (fst (m s)) ->
  same_data s (fst (transaction m s)) /\ snd (transaction m s) = snd (m s).
Proof. intros Hs. unfold transaction. destruct (m s) as [s' [a|e]]; [done|]. split; [|done]. by destruct Hs as (_ & _ & Ed). Qed.

(** The weight of a file that [create] may add. *)
Definition within_quota (s : FileStore) (user : string) (now : Z) (N : list (string * Z)) : Prop :=
  N = [] \/ exists sz, N = [(user, sz)] /\ 0 <= sz /\ quota_error s user sz now = None.

(** The transaction of [create]. *)
Definition create_tx (user i : string) (sz ttl : Z) (env man : string) (now : Z) : M FileStore pyval :=
  bind get (fun s => match od_get i (files s) with
    | Some _ => bind (row (VStr i)) (fun r => if negb (bool_decide (owner r = user)) || negb (bool_decide (envelope r = env))
        then raise (FileError "UPLOAD_CONFLICT") else ret (describe r true))
    | None => match quota_error s user sz now with
              | Some code => raise (FileError code)
              | None => create_new user i sz ttl env man now s
              end
    end).

Lemma create_tx_spec user i sz ttl env man now s : store_inv s -> ID i = true -> 0 <= sz <= MAX_FILE_SIZE ->
  exists N, within_quota s user now N /\ frame (fun _ => False) (fun _ => False) N s (fst (transaction (create_tx user i sz ttl env man now) s)).
Proof.
  intros Hinv Hid Hsz. destruct (od_get i (files s)) as [q|] eqn:Hq.
  - exists []. split; [by left|]. destruct (transaction_same (create_tx user i sz ttl env man now) s) as [Hs _]; [|by apply frame_same].
    unfold create_tx. rewrite (bind_ok get _ s s s eq_refl), Hq. destruct (row_cases (VStr i) s) as [(i' & r & [= <-] & E & _)|E];
      [rewrite (bind_ok _ _ _ _ _ E)|by rewrite (bind_raise _ _ _ _ _ E)]. by destruct (_ || _).
  - assert (create_tx user i sz ttl env man now s = match quota_error s user sz now with
      | Some code => (s, Raise (FileError code)) | None => create_new user i sz ttl env man now s s end) as E.
    { unfold create_tx. rewrite (bind_ok get _ s s s eq_refl), Hq. by destruct (quota_error s user sz now). }
    destruct (quota_error s user sz now) as [code|] eqn:Equ.
    { exists []. split; [by left|]. destruct (transaction_same (create_tx user i sz ttl env man now) s) as [Hs _];
        [by rewrite E|by apply frame_same]. }
    pose proof (create_new_spec user i sz ttl env man now s Hinv Hq Hid Hsz) as Hc. unfold transaction in *. rewrite E.
    destruct (create_new user i sz ttl env man now s s) as [s' [v|e]]; cbn [fst is_ok] in *; destruct Hc as [Hf _].
    + exists [(user, sz)]. split; [right; exists sz; split; [done|]; split; [lia|done]|exact Hf].
    + exists []. split; [by left|exact Hf].
Qed.

Lemma create_spec user i data now s : store_inv s -> ID i = true ->
  exists N, within_quota s user now N /\ frame (fun _ => False) (fun _ => False) N s (fst (create user i data now s)).
Proof.
  intros Hinv Hid. unfold create, lift.
  assert (exists N, within_quota s user now N /\ frame (fun _ => False) (fun _ => False) N s s) as Hsame.
  { exists []. split; [by left|by apply frame_same]. }
  destruct (integer (dget "size" data) 0 MAX_FILE_SIZE) as [sz|] eqn:Esz; [|exact Hsame]. apply integer_ok in Esz as [_ Hsz].
  rewrite (bind_ok _ _ s s sz eq_refl).
  destruct (integer (dget "ttl" data) 60 MAX_EXPIRY) as [ttl|]; [|exact Hsame]. rewrite (bind_ok _ _ s s ttl eq_refl).
  destruct (od_mem "access" data); [exact Hsame|].
  destruct (encoded (dget "envelope" data) 4096) as [x|]; [|exact Hsame]. rewrite (bind_ok _ _ s s x eq_refl).
  destruct (encoded (dget "manifest" data) 2048) as [y|]; [|exact Hsame]. rewrite (bind_ok _ _ s s y eq_refl).
  destruct (dget "envelope" data) as [| | | |env| | |]; try exact Hsame.
  destruct (dget "manifest" data) as [| | | |man| | |]; try exact Hsame.
  exact (create_tx_spec user i sz ttl env man now s Hinv Hid Hsz).
Qed.

(** ** Deletion *)

Lemma weights_retire i r r' d : od_get i d = Some r -> active r' = false -> weights (od_set i r' d) `sublist_of` weights d.
Proof.
  intros Hr Ha. unfold weights, od_values. apply (fmap_sublist _). revert Hr. induction d as [|[k v] d IH]; [done|]. cbn [od_get od_set].
  case_decide; cbn [map List.filter snd].
  - intros _. rewrite Ha. destruct (active v); [by apply sublist_cons|done].
  - intros Hr. specialize (IH Hr). destruct (active v); [by apply sublist_skip|done].
Qed.

Lemma weights_same i r r' d : od_get i d = Some r -> active r' = active r -> owner r' = owner r -> size r' = size r ->
  weights (od_set i r' d) = weights d.
Proof.
  intros Hr Ha Ho Hs. unfold weights, od_values. revert Hr. induction d as [|[k v] d IH]; [done|]. cbn [od_get od_set].
  case_decide; cbn [map List.filter snd].
  - intros [= ->]. rewrite Ha. destruct (active r); [|done]. cbn [map]. by rewrite Ho, Hs.
  - intros Hr. specialize (IH Hr). destruct (active v); [|done]. cbn [map]. by f_equal.
Qed.

(** A file taken out of service: its row no longer active (or gone), its data
    and chunks gone. *)
Lemma frame_retire (W : Row -> Prop) (D : string -> Prop) s s' i r : store_inv s -> od_get i (files s) = Some r -> W r -> D i ->
  od_wf (files s') -> (forall j, j ≠ i -> od_get j (files s') = od_get j (files s)) ->
  (forall q, od_get i (files s') = Some q -> row_ok i q /\ active q = false /\ same_file r q) ->
  weights (files s') `sublist_of` weights (files s) ->
  (forall j, j ≠ i -> disk s' !! j = disk s !! j) ->
  chunks s' = filter (fun kv => fst (fst kv) ≠ i) (chunks s) -> frame W D [] s s'.
Proof.
  intros Hinv Hr HW HD Hwf Hfiles Hrow Hwt Hdisk Hchunks.
  assert (forall j k, j ≠ i -> chunks s' !! (j, k) = chunks s !! (j, k)) as Hother.
  { intros j k Hj. rewrite Hchunks. destruct (chunks s !! (j, k)) as [d|] eqn:E.
    - apply map_lookup_filter_Some. done. - apply map_lookup_filter_None. by left. }
  assert (forall k, chunks s' !! (i, k) = None) as Hgone.
  { intros k. rewrite Hchunks. apply map_lookup_filter_None. right. intros d _ Hne. by apply Hne. }
  assert (forall j, j ≠ i -> untouched j s s') as Hun.
  { intros j Hj. split; [by apply Hfiles|]. split; [by apply Hdisk|]. intros k. by apply Hother. }
  split.
  - destruct Hinv as [H1 H2 H3 H4 H5]. split; [done| | | |].
    + intros j q. destruct (decide (j = i)) as [->|]; [intros Hq; by apply Hrow|]. rewrite Hfiles by done. apply H2.
    + intros j q Hq Ha. destruct (decide (j = i)) as [->|]; [by destruct (Hrow q Hq) as (_ & Hna & _); rewrite Hna in Ha|].
      rewrite Hfiles in Hq by done. rewrite Hdisk by done. by eapply H3.
    + intros j k d Hd. destruct (decide (j = i)) as [->|]; [by rewrite Hgone in Hd|]. rewrite Hother in Hd by done.
      destruct (H4 j k d Hd) as (q & c & Hq & Hrest). exists q, c. by rewrite Hfiles, Hdisk.
    + intros j q Hq Hst k Hk. destruct (decide (j = i)) as [->|].
      { destruct (Hrow q Hq) as (_ & Hna & _). unfold active in Hna. by rewrite Hst in Hna. }
      rewrite Hfiles in Hq by done. rewrite Hother by done. by eapply H5.
  - intros j q q' Hq Hq'. destruct (decide (j = i)) as [->|]; [assert (q = r) as -> by congruence; by apply Hrow|].
    rewrite Hfiles in Hq' by done. assert (q' = q) as -> by congruence. apply same_file_refl.
  - by rewrite app_nil_r.
  - intros j k c Hst. destruct (decide (j = i)) as [->|]; [right; by split|]. left. eapply stored_untouched; [|exact Hst]. by apply Hun.
  - intros j q Hq Hn. apply Hun. intros ->. congruence.
Qed.

Lemma delete_file_spec i r s : store_inv s -> od_get i (files s) = Some r ->
  frame (fun q => owner q = owner r) (fun j => j = i) [] s (fst (transaction (delete_file i) s)) /\
  match snd (transaction (delete_file i) s) with
  | Ok _ => od_get i (files (fst (transaction (delete_file i) s))) = Some (set_state Deleted r)
  | Raise e => e = OSError
  end.
Proof.
  intros Hinv Hr. unfold transaction. destruct (delete_file i s) as [s' res] eqn:E. revert E.
  unfold delete_file, pop_native. rewrite (bind_ok (modify _) _ s _ tt eq_refl).
  unfold update_file. rewrite (bind_ok (modify _) _ _ _ tt eq_refl). cbn [files set_native_writes]. rewrite Hr.
  set (s1 := set_files _ _). unfold unlink. unfold bind at 1. destruct (io_split s1) as (s2 & H2 & [E|E]).
  - rewrite (bind_ok _ _ _ _ _ E). unfold modify at 1. unfold delete_chunks.
    rewrite (bind_ok (modify _) _ _ _ tt eq_refl). intros [= <- <-]. cbn [fst snd].
    destruct H2 as (Ef & Ec & Ed). split.
    + apply (frame_retire _ _ s _ i r); cbn [files chunks disk set_chunks set_disk]; try done.
      * rewrite Ef. unfold s1. cbn [files set_files]. apply od_wf_set, Hinv.
      * intros j Hj. rewrite Ef. unfold s1. cbn [files set_files]. by rewrite od_get_set_ne.
      * intros q. rewrite Ef. unfold s1. cbn [files set_files]. rewrite od_get_set_eq. intros [= <-].
        split; [exact (inv_row s Hinv i r Hr)|]. split; [done|by repeat split].
      * rewrite Ef. unfold s1. cbn [files set_files]. by eapply weights_retire.
      * intros j Hj. rewrite lookup_delete_ne by done. by rewrite Ed.
      * by rewrite Ec.
    + cbn [files set_chunks set_disk]. rewrite Ef. unfold s1. cbn [files set_files]. apply od_get_set_eq.
  - rewrite (bind_raise _ _ _ _ _ E). intros [= <- <-]. cbn [fst snd]. split; [|done]. destruct H2 as (_ & _ & Ed).
    apply frame_same; [done|]. split; [done|]. split; [done|]. cbn [disk set_chunks set_files]. by rewrite Ed.
Qed.

(** ** Completion *)

Definition index_keys (s : FileStore) (i : string) : list Z :=
  map (fun kv => snd (fst kv)) (map_to_list (filter (fun kv => fst (fst kv) = i) (chunks s))).

Lemma chunk_indices_perm s i : chunk_indices s i ≡ₚ index_keys s i.
Proof. apply merge_sort_Permutation. Qed.

Lemma index_keys_elem s i k : k ∈ index_keys s i <-> is_Some (chunks s !! (i, k)).
Proof.
  unfold index_keys. rewrite list_elem_of_In, in_map_iff. split.
  - intros ([[j k'] d] & E & Hin%list_elem_of_In%elem_of_map_to_list). cbn in E. subst k'.
    apply map_lookup_filter_Some in Hin as [Hd Hj]. cbn in Hj. subst j. by exists d.
  - intros [d Hd]. exists ((i, k), d). split; [done|]. apply list_elem_of_In, elem_of_map_to_list, map_lookup_filter_Some. done.
Qed.

Lemma index_keys_nodup s i : NoDup (index_keys s i).
Proof.
  unfold index_keys. set (m := filter _ (chunks s)).
  assert (forall x, x ∈ map_to_list m -> fst (fst x) = i) as Hi.
  { intros [k d] Hx%elem_of_map_to_list. by apply map_lookup_filter_Some in Hx as [_ Hk]. }
  pose proof (NoDup_fst_map_to_list m) as Hnd. revert Hi Hnd. generalize (map_to_list m). intros l Hi.
  induction l as [|[[j k] d] l IH]; cbn [map fst snd fmap list_fmap]; [intros _; apply NoDup_nil_2|].
  intros [Hx Hnd]%NoDup_cons. apply NoDup_cons. split; [|apply IH; [|done]; intros y Hy; apply Hi; by right].
  intros Hin. apply Hx. apply list_elem_of_In, in_map_iff in Hin as ([[j' k'] d'] & E & Hin%list_elem_of_In). cbn in E. subst k'.
  assert (j = i) as -> by exact (Hi ((j, k), d) ltac:(by left)). assert (j' = i) as -> by exact (Hi ((j', k), d') ltac:(by right)).
  apply list_elem_of_fmap. by exists ((i, k), d').
Qed.

(** [n] different indices below [n] are all of them. *)
Lemma all_indices (l : list Z) n : NoDup l -> (forall k, k ∈ l -> 0 <= k < n) -> Z.of_nat (length l) = n ->
  forall k, 0 <= k < n -> k ∈ l.
Proof.
  intros Hnd Hin Hlen k Hk. assert (l ≡ₚ seqZ 0 n) as ->.
  - apply submseteq_length_Permutation; [|rewrite length_seqZ; lia].
    apply NoDup_submseteq; [done|]. intros x Hx. apply elem_of_seqZ. specialize (Hin x Hx). lia.
  - apply elem_of_seqZ. lia.
Qed.

Lemma complete_upload s i r : store_inv s -> od_get i (files s) = Some r ->
  Z.of_nat (length (chunk_indices s i)) = chunk_count (size r) ->
  forall k, 0 <= k < chunk_count (size r) -> is_Some (chunks s !! (i, k)).
Proof.
  intros Hinv Hr Hlen k Hk. apply index_keys_elem. rewrite (Permutation_length (chunk_indices_perm s i)) in Hlen.
  apply (all_indices _ (chunk_count (size r))); [apply index_keys_nodup| |done|done].
  intros k' [d Hd]%index_keys_elem. destruct (inv_chunk s Hinv i k' d Hd) as (q & _ & Hq & _ & Hk' & _). congruence.
Qed.

Lemma finish_spec i r s : store_inv s -> od_get i (files s) = Some r -> state r ≠ Deleted -> state r ≠ Expired ->
  let '(s', res) := finish r i s in
  frame (fun q => owner q = owner r) (fun _ => False) [] s s' /\ chunks s' = chunks s /\ disk s' = disk s /\
  match res with
  | Ok _ => files s' = od_set i (set_state Ready r) (files s)
  | Raise e => files s' = files s /\ e = FileError "UPLOAD_INCOMPLETE"
  end.
Proof.
  intros Hinv Hr Hnd Hne. unfold finish. rewrite (bind_ok get _ s s s eq_refl).
  destruct (_ =? _) eqn:El; cbn [negb]; [|split; [by apply frame_same|done]].
  unfold update_file. rewrite (bind_ok (modify _) _ s _ tt eq_refl), Hr. unfold ret. cbn [fst snd].
  assert (active r = true) as Ha by (unfold active; by destruct (state r)).
  assert (forall j, j ≠ i -> untouched j s (set_files (od_set i (set_state Ready r) (files s)) s)) as Hun.
  { intros j Hj. split; [cbn [files set_files]; by rewrite od_get_set_ne|done]. }
  split; [split|done].
  - pose proof Hinv as [H1 H2 H3 H4 H5]. split; cbn [files chunks disk set_files].
    + by apply od_wf_set.
    + intros j q. rewrite od_get_set. case_decide as Hj; [intros [= <-]; subst j; exact (H2 i r Hr)|apply H2].
    + intros j q. rewrite od_get_set. case_decide as Hj; [intros _ _; subst j; exact (H3 i r Hr Ha)|apply H3].
    + intros j k d Hd. destruct (H4 j k d Hd) as (q & c & Hq & Hrest). unfold chunk_ok. cbn [files disk set_files].
      destruct (decide (j = i)) as [->|Hj]; [|exists q, c; by rewrite od_get_set_ne].
      assert (q = r) as -> by congruence. exists (set_state Ready r), c. rewrite od_get_set_eq. split; [done|]. by destruct Hrest as [_ Hrest].
    + intros j q. rewrite od_get_set. case_decide as Hj; [|apply H5]. intros [= <-] _. subst j.
      apply (complete_upload s i r Hinv Hr). lia.
  - intros j q q' Hq. cbn [files set_files]. rewrite od_get_set. case_decide as Hj.
    + intros [= <-]. subst j. assert (q = r) as -> by congruence. by repeat split.
    + rewrite Hq. intros [= <-]. apply same_file_refl.
  - cbn [files set_files]. by rewrite app_nil_r, (weights_same i r).
  - intros j k c (q & d & Hq & Hd & Hc). left. destruct (decide (j = i)) as [->|Hj].
    + assert (q = r) as -> by congruence. exists (set_state Ready r), d. cbn [files chunks set_files]. by rewrite od_get_set_eq.
    + eapply stored_untouched; [by apply Hun|]. by exists q, d.
  - intros j q Hq Hn. apply Hun. intros ->. apply Hn. congruence.
Qed.

(** ** The other operations *)

Lemma integer_raise v lo hi e : integer v lo hi = Raise e -> e = FileError "INVALID_REQUEST".
Proof. unfold integer. destruct v; try (by intros [= <-]). by destruct (_ && _); intros [= <-]. Qed.

Lemma status_same r i data s : fst (status r i data s) = s /\ snd (status r i data s) ≠ Raise (FileError "FILE_DAMAGED").
Proof.
  unfold status, bind, lift. destruct (integer _ _ _) eqn:E; [done|]. apply integer_raise in E as ->. done.
Qed.

(** The chunk a download reads. *)
Definition readable (s : FileStore) (i : string) (data : odict string pyval) (now : Z) (k len : Z) : Prop :=
  exists r, od_get i (files s) = Some r /\ state r = Ready /\ past r now = false /\ dget "index" data = VInt k /\
    0 <= k < chunk_count (size r) /\ len = chunk_length (size r) k.

(** What the transaction of an operation may answer. *)
Definition tx_ok (op : string) (s : FileStore) (i : string) (data : odict string pyval) (now : Z) (res : res answer) : Prop :=
  match res with
  | Ok (ReadChunk k len) => op = "get" /\ readable s i data now k len
  | Ok (Done _) => op ≠ "get"
  | Raise e => e ≠ FileError "FILE_DAMAGED"
  end.

Lemma in_transaction_spec op i data now s r : store_inv s -> od_get i (files s) = Some r -> state r ≠ Deleted -> ID i = true ->
  let '(s', res) := transaction (in_transaction op i data now) s in
  frame (fun q => owner q = owner r) (fun j => op = "delete" /\ j = i) [] s s' /\
  (op ≠ "delete" -> op ≠ "finish" -> same_data s s') /\
  tx_ok op s i data now res.
Proof.
  intros Hinv Hr Hnd Hid.
  assert (row (VStr i) s = (s, Ok r)) as Erow.
  { unfold row. rewrite Hid. cbn [negb]. unfold bind, get. by rewrite Hr, bool_decide_false. }
  assert (forall m : M FileStore answer, fst (m s) = s -> tx_ok op s i data now (snd (m s)) ->
    let '(s', res) := transaction m s in frame (fun q => owner q = owner r) (fun j => op = "delete" /\ j = i) [] s s' /\
      (op ≠ "delete" -> op ≠ "finish" -> same_data s s') /\
      tx_ok op s i data now res) as Hstill.
  { intros m Hf Hs. unfold transaction. destruct (m s) as [s' res]. cbn [fst snd] in *. subst s'. destruct res as [a|e].
    - split; [by apply frame_same|done]. - split; [by apply frame_same|done]. }
  destruct (decide (op = "delete")) as [->|Hndel].
  { destruct (delete_file_spec i r s Hinv Hr) as [Hf He]. unfold transaction in *. unfold in_transaction.
    rewrite (bind_ok _ _ _ _ _ Erow), bool_decide_true by done. unfold bind.
    destruct (delete_file i s) as [s' [v|e]]; cbn [fst snd] in *; (split; [by eapply frame_mono; [| |exact Hf]|split; [done|]]);
      [done|by subst e]. }
  destruct (decide (op = "finish")) as [->|Hnfin].
  { unfold in_transaction, transaction. rewrite (bind_ok _ _ _ _ _ Erow). cbn [bool_decide].
    rewrite !(bool_decide_false ("finish" = "delete")), !(bool_decide_false ("finish" = "status")), (bool_decide_true ("finish" = "finish")) by done.
    destruct (past r now || bool_decide (state r = Expired)) eqn:Hexp.
    { cbn [raise]. unfold raise. split; [by apply frame_same|done]. }
    apply orb_false_iff in Hexp as [_ Hexp]. apply bool_decide_eq_false_1 in Hexp.
    pose proof (finish_spec i r s Hinv Hr Hnd Hexp) as Hfin. unfold bind. destruct (finish r i s) as [s' [v|e]].
    - destruct Hfin as (Hf & _). split; [by eapply frame_mono; [| |exact Hf]|done].
    - destruct Hfin as (Hf & Ec & Ed & Ef & He). split; [apply frame_same; done|]. split; [done|]. by subst e. }
  apply Hstill; unfold in_transaction; rewrite (bind_ok _ _ _ _ _ Erow), (bool_decide_false (op = "delete")) by done;
    (destruct (past r now) eqn:Hp; [done|]); cbn [orb]; (case_bool_decide as Hex; [done|]);
    rewrite ?(bool_decide_false (op = "finish")) by done.
  - case_bool_decide; [unfold bind; destruct (status_same r i data s) as [Est _]; destruct (status r i data s) as [? []]; exact Est|].
    case_bool_decide; [by destruct (negb _)|]. unfold bind, lift. destruct (integer _ _ _); [|done].
    case_bool_decide; [by destruct (negb _)|done].
  - case_bool_decide as Hst; [unfold bind; destruct (status_same r i data s) as [_ Est]; destruct (status r i data s) as [? [v|e]];
      cbn [tx_ok snd ret] in *; [by subst op|congruence]|].
    case_bool_decide as Hinf; [destruct (negb _); cbn [tx_ok snd ret raise]; [done|by subst op]|].
    unfold bind, lift. destruct (integer _ _ _) as [k|e] eqn:Ei; [|apply integer_raise in Ei as ->; done].
    case_bool_decide; [|done]. case_bool_decide as Hrd; [|done]. cbn [negb snd ret].
    apply integer_ok in Ei as [Ei Hk]. split; [done|]. exists r. repeat split; (done || lia).
Qed.

Lemma read_chunk_spec i k len s : same_data s (fst (read_chunk i k len s)) /\
  match snd (read_chunk i k len s) with
  | Ok v => exists c, disk s !! i = Some c /\ Z.of_nat (length (region (offset_of k) (Z.to_nat len) c)) = len /\
      v = VDict [("chunk", VStr (bytes_str (b64encode (region (offset_of k) (Z.to_nat len) c))))]
  | Raise e => e = OSError \/ (e = FileError "FILE_DAMAGED" /\ exists c, disk s !! i = Some c /\
      Z.of_nat (length (region (offset_of k) (Z.to_nat len) c)) ≠ len)
  end.
Proof.
  unfold read_chunk. destruct (io_split s) as (s1 & Hs & [E|E]); [|rewrite (bind_raise _ _ _ _ _ E); cbn [fst snd]; by split; [|left]].
  rewrite (bind_ok _ _ _ _ _ E), (bind_ok get _ s1 s1 s1 eq_refl). pose proof Hs as (_ & _ & Ed). rewrite Ed.
  destruct (disk s !! i) as [c|] eqn:Ec; [|cbn [fst snd raise]; by split; [|left]].
  fold (region (offset_of k) (Z.to_nat len) c). destruct (_ =? _) eqn:El; cbn [negb fst snd ret raise].
  - split; [done|]. exists c. split; [done|]. split; [lia|done].
  - split; [done|]. right. split; [done|]. exists c. split; [done|lia].
Qed.

(** A file whose chunk [k] may be read has it. *)
Lemma readable_stored s i data now k len : store_inv s -> readable s i data now k len ->
  exists r c, od_get i (files s) = Some r /\ disk s !! i = Some c /\ len = chunk_length (size r) k /\
    stored s i k (region (offset_of k) (Z.to_nat len) c) /\ Z.of_nat (length (region (offset_of k) (Z.to_nat len) c)) = len.
Proof.
  intros Hinv (r & Hr & Hst & _ & _ & Hk & ->). destruct (inv_ready s Hinv i r Hr Hst k Hk) as [d Hd].
  destruct (inv_chunk s Hinv i k d Hd) as (q & c & Hq & _ & _ & Hc & Hh & _). assert (q = r) as -> by congruence.
  exists r, c. split; [done|]. split; [done|]. split; [done|]. split; [|exact Hh].
  exists r, d. split; [done|]. split; [done|]. unfold content. by rewrite Hc.
Qed.

(** What a download answers. *)
Definition download_ok (s : FileStore) (i : string) (data : odict string pyval) (res : res pyval) : Prop :=
  match res with
  | Ok v => exists k c, dget "index" data = VInt k /\ stored s i k c /\ v = VDict [("chunk", VStr (bytes_str (b64encode c)))]
  | Raise e => e ≠ FileError "FILE_DAMAGED"
  end.

Lemma request_file_spec user op i data now s : store_inv s ->
  let '(s', res) := _request user op i data now s in
  frame (owned_by [user]) (fun j => op = "delete" /\ j = i) [] s s' /\ (op = "get" -> download_ok s i data res).
Proof.
  intros Hinv. unfold _request.
  assert (forall e, e ≠ FileError "FILE_DAMAGED" -> frame (owned_by [user]) (fun j => op = "delete" /\ j = i) [] s s /\
    (op = "get" -> download_ok s i data (Raise e))) as Hsame.
  { intros e He. split; [by apply frame_same|done]. }
  destruct (row_cases (VStr i) s) as [(i' & r & [= <-] & E & Hid & Hr & Hnd)|E];
    [rewrite (bind_ok _ _ _ _ _ E)|rewrite (bind_raise _ _ _ _ _ E); by apply Hsame].
  destruct (negb _ && negb _) eqn:Hacc; [by apply Hsame|]. destruct (bool_decide (op = "access")); [by apply Hsame|].
  pose proof (in_transaction_spec op i data now s r Hinv Hr Hnd Hid) as Ht. unfold bind.
  destruct (transaction (in_transaction op i data now) s) as [s1 res]. destruct Ht as (Hf & Hsd & Hres).
  assert (frame (owned_by [user]) (fun j => op = "delete" /\ j = i) [] s s1) as Hf1.
  { apply andb_false_iff in Hacc as [Hio|Ho].
    - apply frame_same; [done|]. apply negb_false_iff, orb_true_iff in Hio.
      apply Hsd; destruct Hio as [->%bool_decide_eq_true_1| ->%bool_decide_eq_true_1]; done.
    - apply negb_false_iff, bool_decide_eq_true_1 in Ho. eapply frame_mono; [| |exact Hf]; [|done].
      intros q Hq. unfold owned_by. rewrite Hq, Ho. by left. }
  destruct res as [[v|k len]|e]; cbn [tx_ok] in Hres; [by split|destruct Hres as [-> Hrd]|by split].
  assert (same_data s s1) as Hs1 by by apply Hsd. destruct (read_chunk_spec i k len s1) as [Hs2 Hread].
  destruct (read_chunk i k len s1) as [s2 res]. cbn [fst snd] in *. destruct Hs1 as (Ef1 & Ec1 & Ed1).
  split; [apply frame_same; [done|]; destruct Hs2 as (Ef2 & Ec2 & Ed2); repeat split; congruence|]. intros _.
  destruct (readable_stored s i data now k len Hinv Hrd) as (q & c & Hq & Hc & Elen & Hst & Hlen).
  rewrite Ed1 in Hread. destruct res as [v|e]; cbn [download_ok].
  - destruct Hread as (c' & Hc' & _ & ->). assert (c' = c) as -> by congruence. destruct Hrd as (? & _ & _ & _ & Ek & _). eauto.
  - destruct Hread as [->|(_ & c' & Hc' & Hbad)]; [done|]. exfalso. apply Hbad. assert (c' = c) as -> by congruence. done.
Qed.

(** ** Requests *)

Definition op_of (data : odict string pyval) : string := match dget "op" data with VStr o => o | _ => "" end.

(** [data] asks to delete file [j]. *)
Definition deletes (data : odict string pyval) (j : string) : Prop := op_of data = "delete" /\ dget "id" data = VStr j.

Lemma list_files_same user data now s : fst (list_files user data now s) = s.
Proof. unfold list_files, bind, lift. destruct (integer _ _ _); [|done]. by destruct (default _ _). Qed.

Lemma put_one_frame user i data now s : store_inv s ->
  frame (owned_by [user]) (fun _ => False) [] s
    (fst (bind (put i [(user, data)] now) (fun rs => match rs with [r] => lift r | _ => raise (RuntimeError "no result") end) s)).
Proof.
  intros Hinv. destruct (put_spec i [(user, data)] now s Hinv) as (s' & rs & E & _ & Hf & _).
  rewrite (bind_ok _ _ _ _ _ E). by destruct rs as [|r [|]].
Qed.

(** What every request does. *)
Lemma request_spec user data now s : store_inv s ->
  exists N, within_quota s user now N /\ frame (owned_by [user]) (deletes data) N s (fst (request user data now s)) /\
  (op_of data = "get" -> forall i, dget "id" data = VStr i -> download_ok s i data (snd (request user data now s))).
Proof.
  intros Hinv. unfold request. cbv zeta. fold (op_of data).
  assert (within_quota s user now []) as Hnil by by left.
  destruct (decide (op_of data = "get")) as [Eget|Hng].
  - exists []. split; [done|]. rewrite Eget. cbn [bool_decide]. rewrite !bool_decide_false by done.
    destruct (dget "id" data) as [| | | |i| | |] eqn:Eid; cbn [str_matching]; try (split; [by apply frame_same|done]).
    destruct (ID i) eqn:Hid; [|split; [by apply frame_same|by intros _ j [= <-]]].
    pose proof (request_file_spec user "get" i data now s Hinv) as Hr. destruct (_request user "get" i data now s) as [s' res].
    destruct Hr as [Hf Hd]. split; [|intros _ j [= <-]; by apply Hd]. eapply frame_mono; [done| |exact Hf]. by intros j [? _].
  - assert (forall N c, within_quota s user now N -> frame (owned_by [user]) (deletes data) N s (fst c) ->
      exists N, within_quota s user now N /\ frame (owned_by [user]) (deletes data) N s (fst c) /\
      (op_of data = "get" -> forall i, dget "id" data = VStr i -> download_ok s i data (snd c))) as Hdone by (intros N c HN Hc; by exists N).
    case_bool_decide; [by apply (Hdone []), frame_same|].
    case_bool_decide; [apply (Hdone []); [done|]; rewrite list_files_same; by apply frame_same|].
    destruct (str_matching ID (dget "id" data)) as [i|] eqn:Eid; [|by apply (Hdone []), frame_same].
    assert (dget "id" data = VStr i /\ ID i = true) as [Ei Hid].
    { revert Eid. destruct (dget "id" data); try done. cbn [str_matching]. destruct (ID _) eqn:E; [|done]. by intros [= ->]. }
    case_bool_decide; [apply (Hdone []); [done|]; eapply (frame_mono _ _ (fun _ => False)); [done|done|by apply put_one_frame]|].
    case_bool_decide; [apply (Hdone []); [done|]; eapply (frame_mono _ _ (fun _ => False)); [done|done|by apply put_batch_spec]|].
    case_bool_decide.
    + destruct (create_spec user i data now s Hinv Hid) as (N & HN & Hf). apply (Hdone N); [done|].
      eapply (frame_mono (fun _ => False) _ (fun _ => False)); [done|done|exact Hf].
    + pose proof (request_file_spec user (op_of data) i data now s Hinv) as Hr. apply (Hdone []); [done|].
      destruct (_request user (op_of data) i data now s) as [s' res]. destruct Hr as [Hf _].
      eapply frame_mono; [done| |exact Hf]. intros j [Hdel ->]. by split.
Qed.

(** ** Cleanup *)

(** Rows cleanup takes out of service. *)
Definition retired (now : Z) (r : Row) : Prop := expires r <= seconds now \/ active r = false.

Lemma update_file_eq i f r s : od_get i (files s) = Some r -> update_file i f s = (set_files (od_set i (f r) (files s)) s, Ok tt).
Proof. intros Hr. unfold update_file, modify. by rewrite Hr. Qed.

Lemma sublist_filter_bool {A} (p : A -> bool) l1 l2 : l1 `sublist_of` l2 -> List.filter p l1 `sublist_of` List.filter p l2.
Proof.
  induction 1; cbn [List.filter]; [constructor| |]; destruct (p _); by constructor || done.
Qed.

Lemma expire_one_spec now i r s : store_inv s -> od_get i (files s) = Some r -> retired now r ->
  frame (retired now) (fun j => j = i) [] s (fst (expire_one now i s)) /\ chunks (fst (expire_one now i s)) ⊆ chunks s /\
  (forall j, j ≠ i -> od_get j (files (fst (expire_one now i s))) = od_get j (files s)).
Proof.
  intros Hinv Hr Hret. destruct (expire_one now i s) as [s' res] eqn:Eo. cbn [fst]. revert Eo.
  unfold expire_one, unlink. unfold bind at 1. destruct (io_split s) as (s1 & Hs & [E|E]).
  2: { unfold bind. rewrite E. intros [= <- _]. split; [by apply frame_same|]. destruct Hs as (-> & -> & _). done. }
  rewrite (bind_ok _ _ _ _ _ E). unfold modify at 1. set (s2 := set_disk _ s1).
  destruct Hs as (Ef & Ec & Ed). unfold transaction, pop_native. rewrite (bind_ok (modify _) _ s2 _ tt eq_refl).
  set (s3 := set_native_writes _ s2). assert (od_get i (files s3) = Some r) as Hr3 by (cbn; by rewrite Ef).
  rewrite (bind_ok _ _ _ _ _ (update_file_eq i _ r s3 Hr3)). unfold delete_chunks.
  rewrite (bind_ok (modify _) _ _ _ tt eq_refl). unfold modify. cbn [files set_chunks set_files]. rewrite od_get_set_eq.
  set (r' := if bool_decide (state r = Deleted) then r else set_state Expired r).
  assert (row_ok i r' /\ active r' = false /\ same_file r r') as Hr'.
  { pose proof (inv_row s Hinv i r Hr) as Hok. unfold r'. case_bool_decide as Hd; (split; [exact Hok|]); (split; [|by repeat split]); [|done]. unfold active. by rewrite Hd. }
  assert (od_wf (files s)) as Hwf by apply Hinv. clear Hr3. subst s3 s2.
  destruct (bool_decide (state r' = Deleted) || _); intros [= <- _].
  all: split; [apply (frame_retire _ _ s _ i r); cbn [files chunks disk set_files set_chunks set_native_writes set_disk];
    try done; rewrite ?Ef, ?Ec, ?Ed; try done|split; [cbn [chunks set_files set_chunks set_native_writes set_disk]; rewrite Ec; apply map_filter_subseteq
    |intros j Hj; cbn [files set_files set_chunks set_native_writes set_disk]; rewrite ?Ef]].
  - by apply od_wf_pop, od_wf_set.
  - intros j Hj. by rewrite od_get_pop_ne, od_get_set_ne.
  - intros q. by rewrite od_get_pop_eq.
  - rewrite od_pop_set. unfold weights, od_values. apply (fmap_sublist _), sublist_filter_bool, (fmap_sublist snd), od_pop_sublist.
  - intros j Hj. by rewrite lookup_delete_ne.
  - by rewrite od_get_pop_ne, od_get_set_ne.
  - by apply od_wf_set.
  - intros j Hj. by rewrite od_get_set_ne.
  - intros q. rewrite od_get_set_eq. by intros [= <-].
  - by eapply weights_retire; [|apply Hr'].
  - intros j Hj. by rewrite lookup_delete_ne.
  - by rewrite od_get_set_ne.
Qed.

(** The rows of the first loop, whatever happened to the earlier ones. *)
Lemma expire_all_spec now rs s : store_inv s -> NoDup (map id rs) ->
  Forall (fun r => od_get (id r) (files s) = Some r /\ retired now r) rs ->
  frame (retired now) (fun j => exists r, r ∈ rs /\ id r = j) [] s (fst (iterM (fun r => expire_one now (id r)) rs s)) /\
  chunks (fst (iterM (fun r => expire_one now (id r)) rs s)) ⊆ chunks s /\
  no_new_rows s (fst (iterM (fun r => expire_one now (id r)) rs s)).
Proof.
  revert s. induction rs as [|r rs IH]; intros s Hinv Hnd Hall; cbn [iterM]; [split; [by apply frame_same|split; [done|by intros ?]]|].
  apply NoDup_cons in Hnd as [Hni Hnd]. apply Forall_cons_1 in Hall as [[Hr Hret] Hall].
  destruct (expire_one_spec now (id r) r s Hinv Hr Hret) as (Hf & Hsub & Hrest).
  assert (frame (retired now) (fun j => exists q, q ∈ r :: rs /\ id q = j) [] s (fst (expire_one now (id r) s))) as Hf1.
  { eapply frame_mono; [done| |exact Hf]. intros j ->. exists r. split; [by left|done]. }
  assert (no_new_rows s (fst (expire_one now (id r) s))) as Hno.
  { intros j Hj. rewrite Hrest; [done|]. intros ->. congruence. }
  destruct (expire_one now (id r) s) as [s1 [[]|e]] eqn:E; cbn [fst] in *; [|rewrite (bind_raise _ _ _ _ _ E); done].
  rewrite (bind_ok _ _ _ _ _ E). destruct (IH s1 (fr_inv _ _ _ _ _ Hf) Hnd) as (Hf2 & Hsub2 & Hno2).
  { rewrite Forall_forall in Hall |- *. intros q Hq. destruct (Hall q Hq) as [Hq1 Hq2]. split; [|done].
    rewrite Hrest; [done|]. intros Heq. apply Hni. rewrite <- Heq. apply list_elem_of_In, in_map. by apply list_elem_of_In. }
  split; [|split; [by etrans|intros j Hj; by apply Hno2, Hno]]. eapply frame_trans; [exact Hf1| |done|by left].
  eapply frame_mono; [done| |exact Hf2]. intros j (q & Hq & <-). exists q. split; [by right|done].
Qed.

Lemma remove_orphan_spec W D i s : store_inv s -> frame W D [] s (fst (remove_orphan i s)) /\
  chunks (fst (remove_orphan i s)) = chunks s /\ files (fst (remove_orphan i s)) = files s.
Proof.
  intros Hinv. unfold remove_orphan. destruct (negb (ID i)); [split; [by apply frame_same|done]|].
  rewrite (bind_ok get _ s s s eq_refl). destruct (od_get i (files s)) as [r|] eqn:Hr; [split; [by apply frame_same|done]|].
  unfold unlink. destruct (io_split s) as (s1 & Hs & [E|E]);
    [rewrite (bind_ok _ _ _ _ _ E)|rewrite (bind_raise _ _ _ _ _ E); cbn [fst]; split; [by apply frame_same|destruct Hs as (? & ? & _); done]].
  unfold modify. cbn [fst chunks files set_disk]. destruct Hs as (Ef & Ec & Ed). split; [|done].
  apply frame_orphan; cbn [files chunks disk set_disk]; [done..|]. intros j [q Hq]. rewrite Ed, lookup_delete_ne; [done|]. intros ->. congruence.
Qed.

Lemma remove_orphans_spec W D ids s : store_inv s ->
  frame W D [] s (fst (iterM remove_orphan ids s)) /\
  chunks (fst (iterM remove_orphan ids s)) = chunks s /\ files (fst (iterM remove_orphan ids s)) = files s.
Proof.
  revert s. induction ids as [|i ids IH]; intros s Hinv; cbn [iterM]; [split; [by apply frame_same|done]|].
  destruct (remove_orphan_spec W D i s Hinv) as (Hf & Ec & Ef).
  destruct (remove_orphan i s) as [s1 [[]|e]] eqn:E; cbn [fst] in *; [|rewrite (bind_raise _ _ _ _ _ E); done].
  rewrite (bind_ok _ _ _ _ _ E). destruct (IH s1 (fr_inv _ _ _ _ _ Hf)) as (Hf2 & Ec2 & Ef2). split; [|by rewrite Ec2, Ef2].
  eapply frame_trans; [exact Hf|exact Hf2|by rewrite Ec2|by right].
Qed.

Lemma filter_bool_sublist {A} (p : A -> bool) l : List.filter p l `sublist_of` l.
Proof. induction l as [|x l IH]; [constructor|]. cbn [List.filter]. destruct (p x); by constructor. Qed.

Lemma NoDup_row_ids s p : store_inv s -> NoDup (map id (rows_where p s)) /\
  Forall (fun r => od_get (id r) (files s) = Some r) (rows_where p s).
Proof.
  intros Hinv. pose proof (inv_wf s Hinv) as Hwf. unfold rows_where.
  assert (forall kv, kv ∈ files s -> id (snd kv) = fst kv /\ od_get (fst kv) (files s) = Some (snd kv)) as Hkv.
  { intros [i r] Hin. apply od_get_elem in Hin; [|done]. destruct (inv_row s Hinv i r Hin) as [Hid _]. done. }
  split.
  - assert (map id (od_values (files s)) = od_keys (files s)) as E.
    { unfold od_values, od_keys. rewrite map_map. apply map_ext_in. intros kv Hin. apply Hkv. by apply list_elem_of_In. }
    unfold od_wf in Hwf. rewrite <- E in Hwf. eapply sublist_NoDup; [exact Hwf|].
    apply (fmap_sublist id), filter_bool_sublist.
  - apply Forall_forall. intros r [Hin _]%list_elem_of_In%filter_In. apply list_elem_of_In, od_values_elem in Hin as [i Hin].
    destruct (Hkv (i, r) Hin) as [E1 E2]. cbn [fst snd] in *. by rewrite E1.
Qed.

Lemma cleanup_spec now s : store_inv s -> frame (retired now) (fun j => exists r, od_get j (files s) = Some r /\ retired now r) [] s (fst (cleanup now s)).
Proof.
  intros Hinv. unfold cleanup. rewrite (bind_ok get _ s s s eq_refl).
  set (rs := rows_where _ s). destruct (NoDup_row_ids s (fun r => (expires r <=? seconds now) || bool_decide (state r = Expired)
    || bool_decide (state r = Deleted)) Hinv) as [Hnd Hget]. fold rs in Hnd, Hget.
  assert (Forall (fun r => od_get (id r) (files s) = Some r /\ retired now r) rs) as Hall.
  { rewrite Forall_forall in Hget |- *. intros r Hr. split; [by apply Hget|]. unfold rs, rows_where in Hr.
    apply list_elem_of_In, filter_In in Hr as [_ Hp]. rewrite !orb_true_iff, !bool_decide_eq_true in Hp. unfold retired, active.
    destruct Hp as [[Hp|Hp]|Hp]; [left; lia|right; by rewrite Hp|right; by rewrite Hp]. }
  destruct (expire_all_spec now rs s Hinv Hnd Hall) as (Hf & Hsub & _).
  assert (frame (retired now) (fun j => exists r, od_get j (files s) = Some r /\ retired now r) [] s
    (fst (iterM (fun r => expire_one now (id r)) rs s))) as Hf1.
  { eapply frame_mono; [done| |exact Hf]. intros j (r & Hr & <-). rewrite Forall_forall in Hall. by exists r; apply Hall. }
  destruct (iterM _ rs s) as [s1 [[]|e]] eqn:E; cbn [fst] in *; [|rewrite (bind_raise _ _ _ _ _ E); exact Hf1].
  rewrite (bind_ok _ _ _ _ _ E), (bind_ok get _ s1 s1 s1 eq_refl).
  destruct (remove_orphans_spec (retired now) (fun j => exists r, od_get j (files s) = Some r /\ retired now r)
    (elements (dom (disk s1))) s1 (fr_inv _ _ _ _ _ Hf1)) as (Hf2 & Ec & Ef).
  eapply frame_trans; [exact Hf1|exact Hf2|by rewrite Ec|]. left. intros j. by rewrite Ef.
Qed.
End FileOps.
