(* ===== verification/FileTheorems.v ===== *)
(** * What the file store guarantees

    The store as a machine whose steps are the requests of its users, the
    concurrent uploads to one file and the cleanup passes, in any order and
    with any I/O failures. *)

From stdpp Require Import prelude strings list gmap sorting.
From Stdlib Require Import ZArith Lia.
From S2P Require Import Prelude PyDict PyBytes Base64 Sha256 PyValue FileStore FileFacts FileOps.

Module FileThm.
Import Files FileInv FileOps.

Inductive event :=
  | Request (user : string) (data : odict string pyval) (now : Z)
  | Puts (i : string) (requests : list (string * odict string pyval)) (now : Z)
  | Cleanup (now : Z).

Definition step (s : FileStore) (e : event) : FileStore :=
  match e with
  | Request user data now => fst (request user data now s)
  | Puts i requests now => fst (put i requests now s)
  | Cleanup now => fst (cleanup now s)
  end.

Definition run (s : FileStore) (es : list event) : FileStore := fold_left step es s.

(** The files event [e] may change in state [s], those it may take chunks
    from, and the weight it may add. *)
Definition writes (e : event) (r : Row) : Prop :=
  match e with
  | Request user _ _ => owner r = user
  | Puts _ requests _ => owner r ∈ map fst requests
  | Cleanup now => retired now r
  end.
Definition drops (e : event) (s : FileStore) (j : string) : Prop :=
  match e with
  | Request _ data _ => deletes data j
  | Puts _ _ _ => False
  | Cleanup now => exists r, od_get j (files s) = Some r /\ retired now r
  end.
Definition adds (e : event) (s : FileStore) (N : list (string * Z)) : Prop :=
  match e with Request user _ now => within_quota s user now N | _ => N = [] end.

Lemma step_spec e s : store_inv s -> exists N, adds e s N /\ frame (writes e) (drops e s) N s (step s e).
Proof.
  intros Hinv. destruct e as [user data now|i rqs now|now]; cbn [step adds].
  - destruct (request_spec user data now s Hinv) as (N & HN & Hf & _). exists N. split; [done|].
    eapply frame_mono; [|done|exact Hf]. intros r Hr. by apply list_elem_of_singleton in Hr.
  - destruct (put_spec i rqs now s Hinv) as (s' & rs & E & _ & Hf & _). exists []. split; [done|]. by rewrite E.
  - exists []. split; [done|]. by apply cleanup_spec.
Qed.

Lemma step_inv e s : store_inv s -> store_inv (step s e).
Proof. intros Hinv. destruct (step_spec e s Hinv) as (N & _ & Hf). apply Hf. Qed.

Lemma run_inv es s : store_inv s -> store_inv (run s es).
Proof. revert s. induction es as [|e es IH]; [done|]. intros s Hinv. by apply IH, step_inv. Qed.

Lemma store_reachable_inv slots failures es : store_inv (run (empty_store slots failures) es).
Proof. apply run_inv, empty_inv. Qed.

(** ** The index and the disk *)


(** ** Quotas *)

Definition sum_weights (ws : list (string * Z)) : Z := foldr (fun w acc => snd w + acc) 0 ws.
Definition weights_of (user : string) (ws : list (string * Z)) : list (string * Z) :=
  List.filter (fun w => bool_decide (fst w = user)) ws.

Lemma sum_weights_sublist ws ws' : Forall (fun w : string * Z => 0 <= snd w) ws' -> ws `sublist_of` ws' -> sum_weights ws <= sum_weights ws'.
Proof.
  intros Hpos Hsub. induction Hsub as [|w ws ws' Hsub IH|w ws ws' Hsub IH]; [done|..]; apply Forall_cons_1 in Hpos as [Hw Hpos];
    specialize (IH Hpos); cbn [sum_weights foldr]; fold (sum_weights ws) (sum_weights ws'); lia.
Qed.

Lemma sum_weights_app ws ws' : sum_weights (ws ++ ws') = sum_weights ws + sum_weights ws'.
Proof. induction ws as [|w ws IH]; [done|]. cbn. unfold sum_weights in *. lia. Qed.

Lemma total_weights rows : total_size rows = sum_weights (map (fun r => (owner r, size r)) rows).
Proof. induction rows as [|r rows IH]; [done|]. unfold total_size, sum_weights in *. cbn. by rewrite IH. Qed.

Lemma filter_comm {A} (p q : A -> bool) l : List.filter p (List.filter q l) = List.filter q (List.filter p l).
Proof.
  induction l as [|x l IH]; [done|]. cbn [List.filter]. destruct (q x) eqn:Hq, (p x) eqn:Hp; cbn [List.filter];
    rewrite ?Hp, ?Hq; by rewrite IH.
Qed.

Lemma weights_of_rows user rows : weights_of user (map (fun r => (owner r, size r)) rows) =
  map (fun r => (owner r, size r)) (List.filter (fun r => bool_decide (owner r = user)) rows).
Proof.
  unfold weights_of. induction rows as [|r rows IH]; [done|]. cbn [map List.filter fst].
  destruct (bool_decide (owner r = user)); cbn [map]; by rewrite IH.
Qed.

Lemma filter_andb {A} (p q : A -> bool) l : List.filter (fun x => p x && q x) l = List.filter p (List.filter q l).
Proof. induction l as [|x l IH]; [done|]. cbn [List.filter]. destruct (q x), (p x) eqn:E; cbn; rewrite ?E, ?IH; done. Qed.

Lemma own_active user rows : List.filter active (List.filter (fun r => bool_decide (owner r = user) && negb (bool_decide (state r = Deleted))) rows) =
  List.filter (fun r => bool_decide (owner r = user)) (List.filter active rows).
Proof.
  rewrite filter_andb, filter_comm. f_equal. induction rows as [|r rows IH]; [done|]. cbn [List.filter].
  case_bool_decide as Hd; cbn [negb List.filter]; [unfold active at 2; by rewrite Hd|]. by rewrite IH.
Qed.

Definition within (ws : list (string * Z)) : Prop :=
  sum_weights ws <= GLOBAL_QUOTA /\ Z.of_nat (length ws) <= 1000 /\ forall user, sum_weights (weights_of user ws) <= OWNER_QUOTA.

Lemma weights_nonneg s : store_inv s -> Forall (fun w => 0 <= snd w) (weights (files s)).
Proof.
  intros Hinv. apply Forall_forall. intros w (r & -> & Hr)%list_elem_of_fmap. cbn [snd].
  apply list_elem_of_In, filter_In in Hr as [Hr _]. apply list_elem_of_In, od_values_elem in Hr as [i Hi].
  apply od_get_elem in Hi; [|apply Hinv]. apply (inv_row s Hinv) in Hi as (_ & _ & ?). lia.
Qed.

Lemma within_sublist ws ws' : Forall (fun w : string * Z => 0 <= snd w) ws' -> ws `sublist_of` ws' -> within ws' -> within ws.
Proof.
  intros Hpos Hsub (H1 & H2 & H3). split; [|split].
  - etrans; [by apply sum_weights_sublist|done].
  - apply sublist_length in Hsub. lia.
  - intros user. etrans; [|apply (H3 user)]. apply sum_weights_sublist.
    + rewrite Forall_forall in Hpos |- *. intros w [Hw _]%list_elem_of_In%filter_In. apply Hpos. by apply list_elem_of_In.
    + by apply sublist_filter_bool.
Qed.

Lemma within_added s user sz now : 0 <= sz -> quota_error s user sz now = None -> within (weights (files s)) ->
  within (weights (files s) ++ [(user, sz)]).
Proof.
  intros Hsz Hq (H1 & H2 & H3). unfold quota_error in Hq. cbv zeta in Hq. destruct (_ <=? _); [done|].
  destruct (_ || _) eqn:E in Hq; [done|]. apply orb_false_iff in E as [E Eo]. apply orb_false_iff in E as [E Eg].
  apply orb_false_iff in E as [En _]. unfold rows_where in *. rewrite own_active in Eo. rewrite total_weights in Eg, Eo.
  rewrite <- weights_of_rows in Eo. fold (weights (files s)) in Eg, Eo.
  split; [|split].
  - rewrite sum_weights_app. cbn. lia.
  - rewrite length_app. unfold weights at 1. rewrite length_map. cbn. lia.
  - intros u. unfold weights_of. rewrite List.filter_app, sum_weights_app. fold (weights_of u (weights (files s))).
    cbn [List.filter fst]. case_bool_decide as Hu; [subst u; cbn; lia|]. cbn. specialize (H3 u). lia.
Qed.

Lemma step_within e s : store_inv s -> within (weights (files s)) -> within (weights (files (step s e))).
Proof.
  intros Hinv Hw. destruct (step_spec e s Hinv) as (N & HN & Hf). pose proof (weights_nonneg s Hinv) as Hpos.
  assert (Forall (fun w => 0 <= snd w) N /\ within (weights (files s) ++ N)) as [HposN HwN].
  { assert (N = [] \/ exists user now sz, N = [(user, sz)] /\ 0 <= sz /\ quota_error s user sz now = None) as [->|(u & now & sz & -> & Hsz & Hq)].
    - destruct e; cbn [adds] in HN; [|by left..]. destruct HN as [->|(sz & Hn)]; [by left|]. right. eauto.
    - by rewrite app_nil_r.
    - split; [by apply Forall_singleton|by eapply within_added]. }
  eapply within_sublist; [|apply (fr_weights _ _ _ _ _ Hf)|done]. by apply Forall_app.
Qed.

(** C17: the limits of [create] hold in every reachable state: the active files
    never exceed the global quota or a thousand, and those of one owner never
    exceed that owner's quota. *)
Theorem quotas_respected slots failures es :
  let s := run (empty_store slots failures) es in
  total_size (rows_where active s) <= GLOBAL_QUOTA /\ Z.of_nat (length (rows_where active s)) <= 1000 /\
  forall user, total_size (rows_where (fun r => bool_decide (owner r = user) && active r) s) <= OWNER_QUOTA.
Proof.
  intros s. assert (within (weights (files s))) as (H1 & H2 & H3).
  { assert (forall es s, store_inv s -> within (weights (files s)) -> within (weights (files (run s es)))) as Hrun.
    { clear. intros es. induction es as [|e es IH]; [done|]. intros s Hinv Hw. apply IH; [by apply step_inv|by apply step_within]. }
    apply Hrun; [apply empty_inv|]. by split. }
  unfold rows_where. rewrite total_weights. fold (weights (files s)). split; [done|]. split.
  - unfold weights in H2. by rewrite length_map in H2.
  - intros user. rewrite filter_andb, total_weights, <- weights_of_rows. apply H3.
Qed.

(** ** Downloads *)

Definition get_request (i : string) (k : Z) : odict string pyval := [("op", VStr "get"); ("id", VStr i); ("index", VInt k)].
Definition chunk_answer (c : bytes) : pyval := VDict [("chunk", VStr (bytes_str (b64encode c)))].

Lemma get_answers s i k r user now : store_inv s -> od_get i (files s) = Some r -> state r = Ready -> past r now = false ->
  0 <= k < chunk_count (size r) -> io_failures s = [] ->
  exists c, stored s i k c /\ Z.of_nat (length c) = chunk_length (size r) k /\ request user (get_request i k) now s = (s, Ok (chunk_answer c)).
Proof.
  intros Hinv Hr Hst Hp Hk Hio. destruct (inv_row s Hinv i r Hr) as (_ & Hid & _).
  destruct (readable_stored s i (get_request i k) now k (chunk_length (size r) k) Hinv) as (q & c & Hq & Hc & _ & Hs & Hlen);
    [by exists r|]. eexists. split; [exact Hs|]. split; [done|].
  assert (row (VStr i) s = (s, Ok r)) as Erow.
  { unfold row. rewrite Hid. cbn [negb]. unfold bind, get. rewrite Hr, bool_decide_false by by rewrite Hst. done. }
  unfold request. cbv zeta.
  change (dget "op" (get_request i k)) with (VStr "get"). change (dget "id" (get_request i k)) with (VStr i). cbn [str_matching]. rewrite Hid.
  rewrite !bool_decide_false by done. unfold _request. rewrite (bind_ok _ _ _ _ _ Erow). rewrite (bool_decide_true ("get" = "get")) by done.
  rewrite orb_true_r. cbn [negb andb]. rewrite bool_decide_false by done.
  assert (transaction (in_transaction "get" i (get_request i k) now) s = (s, Ok (ReadChunk k (chunk_length (size r) k)))) as Etx.
  { unfold transaction, in_transaction. rewrite (bind_ok _ _ _ _ _ Erow), Hp. cbn [orb]. rewrite !(bool_decide_false (_ = _)) by (done || by rewrite Hst).
    change (dget "index" (get_request i k)) with (VInt k). unfold integer. rewrite !(proj2 (Z.leb_le _ _)) by lia. cbn [andb].
    unfold bind, lift. rewrite (bool_decide_true ("get" = "get")), bool_decide_true by done. done. }
  rewrite (bind_ok _ _ _ _ _ Etx). unfold read_chunk, io. rewrite (bind_ok (bind (gets io_failures) _) _ s s tt).
  - rewrite (bind_ok get _ s s s eq_refl), Hc. unfold region in Hlen. rewrite (proj2 (Z.eqb_eq _ _) Hlen). done.
  - unfold bind, gets, ret. by rewrite Hio.
Qed.

(** a file that is ready and has not expired can be downloaded whole: in
    every reachable state and for every user, the request for any of its
    chunks answers bytes of the announced length whose digest is the one
    indexed at upload, and changes nothing. *)
Theorem ready_file_downloads slots failures es i k r user now :
  let s := run (empty_store slots failures) es in
  od_get i (files s) = Some r -> state r = Ready -> now < expires r * SECOND -> 0 <= k < chunk_count (size r) -> io_failures s = [] ->
  exists c, request user (get_request i k) now s = (s, Ok (chunk_answer c)) /\ chunks s !! (i, k) = Some (sha256_hex c) /\
    Z.of_nat (length c) = chunk_length (size r) k.
Proof.
  intros s Hr Hst Hp Hk Hio. pose proof (store_reachable_inv slots failures es : store_inv s) as Hinv.
  destruct (get_answers s i k r user now Hinv Hr Hst) as (c & (q & d & Hq & Hd & Hc) & Hlen & E); [unfold past; lia|done..|].
  exists c. split; [done|]. split; [|done]. destruct (inv_chunk s Hinv i k d Hd) as (q' & cont & Hq' & _ & _ & Hdisk & _ & <-).
  rewrite Hd. subst c. unfold content. rewrite Hdisk. by assert (q' = q) as -> by congruence.
Qed.

(** ** A chunk from upload to download *)

Definition batch_request (i : string) (cs : list (Z * bytes)) : odict string pyval :=
  [("op", VStr "put_batch"); ("id", VStr i); ("chunks", VList (map (fun c => VList [VInt (fst c); VBytes (snd c)]) cs))].

(** [e] neither deletes file [i] nor is a cleanup after [deadline]. *)
Definition spares (i : string) (deadline : Z) (e : event) : Prop :=
  match e with
  | Request _ data _ => ~ deletes data i
  | Puts _ _ _ => True
  | Cleanup now => seconds now < deadline
  end.

Definition kept (i : string) (k : Z) (c : bytes) (deadline : Z) (s : FileStore) : Prop :=
  stored s i k c /\ exists r, od_get i (files s) = Some r /\ expires r = deadline.

Lemma step_kept i k c deadline e s : store_inv s -> spares i deadline e -> kept i k c deadline s -> kept i k c deadline (step s e).
Proof.
  intros Hinv Hsp (Hst & r & Hr & Hex). destruct (step_spec e s Hinv) as (N & _ & Hf).
  destruct (fr_stored _ _ _ _ _ Hf i k c Hst) as [Hst'|[HD _]].
  - split; [done|]. destruct Hst' as (r' & _ & Hr' & _). exists r'. split; [done|].
    destruct (fr_rows _ _ _ _ _ Hf i r r' Hr Hr') as (_ & _ & -> & _). done.
  - exfalso. destruct e as [user data now|j rqs now|now]; cbn [drops spares] in *; [done..|].
    destruct HD as (q & Hq & Hret). assert (q = r) as -> by congruence. destruct Hret as [Hret|Hact]; [lia|].
    destruct Hst as (q & d & _ & Hd & _). destruct (inv_chunk s Hinv i k d Hd) as (q' & ? & Hq' & Ha & _). congruence.
Qed.

Lemma run_kept i k c deadline es s : store_inv s -> Forall (spares i deadline) es -> kept i k c deadline s -> kept i k c deadline (run s es).
Proof.
  revert s. induction es as [|e es IH]; [done|]. intros s Hinv [He Hes]%Forall_cons_1 Hk.
  apply IH; [by apply step_inv|done|by apply step_kept].
Qed.

Lemma request_put_batch user i cs now s v : snd (request user (batch_request i cs) now s) = Ok v ->
  request user (batch_request i cs) now s = put_batch user i (batch_request i cs) now s.
Proof.
  unfold request. change (dget "op" (batch_request i cs)) with (VStr "put_batch"). change (dget "id" (batch_request i cs)) with (VStr i).
  cbv zeta. cbn [str_matching]. rewrite !(bool_decide_false (_ = _)) by done. destruct (ID i); [|done].
  by rewrite bool_decide_true.
Qed.

(** An accepted new chunk is kept. *)
Lemma upload_kept user i cs now s v k c r : store_inv s -> snd (request user (batch_request i cs) now s) = Ok v -> (k, c) ∈ cs ->
  chunks s !! (i, k) = None -> od_get i (files s) = Some r -> kept i k c (expires r) (fst (request user (batch_request i cs) now s)).
Proof.
  intros Hinv Hok Hin Hnew Hr. pose proof (request_put_batch _ _ _ _ _ _ Hok) as E. rewrite E in Hok |- *.
  destruct (put_batch_spec user i (batch_request i cs) now s Hinv) as [Hf Hput]. rewrite Hok in Hput.
  destruct (Hput _ k c eq_refl) as (c' & Hst & _ & Hc).
  { apply (list_elem_of_fmap_2 (fun c => VList [VInt (fst c); VBytes (snd c)]) _ _ Hin). }
  rewrite (Hc Hnew) in Hst. split; [done|]. pose proof Hst as (r' & _ & Hr' & _). exists r'. split; [done|].
  by destruct (fr_rows _ _ _ _ _ Hf i r r' Hr Hr') as (_ & _ & -> & _).
Qed.

(** C15: what was uploaded is what is downloaded: a new chunk of an accepted
    batch comes back byte for byte, for every reader, after any requests,
    concurrent uploads, I/O failures and cleanups in between, as long as the
    file is not deleted, has not expired and was finished. *)
Theorem upload_download_roundtrip slots failures before user i cs now v k c r after reader later r' :
  let s := run (empty_store slots failures) before in
  let s' := run (fst (request user (batch_request i cs) now s)) after in
  snd (request user (batch_request i cs) now s) = Ok v -> (k, c) ∈ cs -> chunks s !! (i, k) = None ->
  od_get i (files s) = Some r -> Forall (spares i (expires r)) after -> later < expires r * SECOND ->
  od_get i (files s') = Some r' -> state r' = Ready -> io_failures s' = [] ->
  request reader (get_request i k) later s' = (s', Ok (chunk_answer c)).
Proof.
  intros s s' Hok Hin Hnew Hr Hsp Hlt Hr' Hst Hio. pose proof (store_reachable_inv slots failures before : store_inv s) as Hinv.
  assert (store_inv (fst (request user (batch_request i cs) now s))) as Hinv1 by (by apply (step_inv (Request user (batch_request i cs) now))).
  pose proof (upload_kept user i cs now s v k c r Hinv Hok Hin Hnew Hr) as Hk. apply (run_kept _ _ _ _ after) in Hk; [|done..].
  fold s' in Hk. pose proof (run_inv after _ Hinv1 : store_inv s') as Hinv'. destruct Hk as [(q & d & Hq & Hd & Hc) (q' & Hq' & Hex)].
  assert (q' = r') as -> by congruence. assert (q = r') as -> by congruence.
  destruct (inv_chunk s' Hinv' i k d Hd) as (q & ? & Hq2 & _ & Hrange & _). assert (q = r') as -> by congruence.
  destruct (get_answers s' i k r' reader later Hinv' Hr' Hst) as (c' & (p & d' & Hp & _ & Hc') & _ & E); [unfold past; lia|done..|].
  assert (p = r') as -> by congruence. by subst c c'.
Qed.

(** ** Who may change a file *)

(** a file changes - its record, its index and its bytes - only by a
    request of its owner, by concurrent uploads one of which is its owner's,
    or by a cleanup once it has expired or was deleted. *)
Theorem file_isolation slots failures es e i r :
  let s := run (empty_store slots failures) es in
  od_get i (files s) = Some r ->
  match e with
  | Request user _ _ => owner r ≠ user
  | Puts _ requests _ => owner r ∉ map fst requests
  | Cleanup now => seconds now < expires r /\ active r = true
  end ->
  od_get i (files (step s e)) = Some r /\ disk (step s e) !! i = disk s !! i /\
  forall k, chunks (step s e) !! (i, k) = chunks s !! (i, k).
Proof.
  intros s Hr He. destruct (step_spec e s (store_reachable_inv slots failures es)) as (N & _ & Hf).
  destruct (fr_others _ _ _ _ _ Hf i r Hr) as (Ef & Ed & Ec); [|by rewrite Ef].
  destruct e as [user data now|j rqs now|now]; cbn [writes]; [done..|]. unfold retired. destruct He as [He ->]. intros [?|?]; [lia|done].
Qed.

(** a batch that is refused leaves the store exactly as it was; one whose
    write fails leaves the index and the files table as they were and no
    stored chunk damaged. *)
Theorem put_batch_atomic slots failures es user i data now e :
  let s := run (empty_store slots failures) es in
  let s' := fst (put_batch user i data now s) in
  snd (put_batch user i data now s) = Raise e ->
  (e ≠ OSError -> s' = s) /\ files s' = files s /\ chunks s' = chunks s /\ forall j k c, stored s j k c -> stored s' j k c.
Proof.
  intros s s' He. destruct (put_batch_spec user i data now s (store_reachable_inv slots failures es)) as [Hf Hput].
  rewrite He in Hput. destruct Hput as (Hsame & Ef & Ec). split; [by destruct Hsame|]. do 2 (split; [done|]).
  intros j k c Hst. by destruct (fr_stored _ _ _ _ _ Hf j k c Hst) as [|[]].
Qed.

(** ** The binary batch *)

(** The layout of a batch, as the client writes it. *)
Definition encode_chunk (c : Z * bytes) : bytes := be_encode 4 (fst c) ++ be_encode 4 (Z.of_nat (length (snd c))) ++ snd c.
Definition encode_upload_batch (file : bytes) (cs : list (Z * bytes)) : bytes :=
  str_bytes "QFB1" ++ file ++ be_encode 2 (Z.of_nat (length cs)) ++ concat (map encode_chunk cs).

Definition sendable (c : Z * bytes) : Prop := 0 <= fst c < 2 ^ 32 /\ 28 <= Z.of_nat (length (snd c)) <= CHUNK_SIZE + 28.

Lemma slice_skip n m (a b : bytes) : length a = n -> slice n m (a ++ b) = take (m - n) b.
Proof. intros <-. unfold slice. by rewrite drop_app_length. Qed.

Lemma slice_0 n (l : bytes) : slice 0 n l = take n l.
Proof. unfold slice. by rewrite drop_0, Nat.sub_0_r. Qed.

Lemma decode_chunks_encoded cs rest : Forall sendable cs -> decode_chunks (length cs) (concat (map encode_chunk cs) ++ rest) = Ok (cs, rest).
Proof.
  induction cs as [|[k c] cs IH]; [done|]. intros [[Hk Hc] Hcs]%Forall_cons_1. cbn [fst snd] in *.
  set (tail := concat (map encode_chunk cs) ++ rest).
  replace (concat (map encode_chunk ((k, c) :: cs)) ++ rest) with (be_encode 4 k ++ be_encode 4 (Z.of_nat (length c)) ++ c ++ tail)
    by (unfold tail; cbn [map concat]; unfold encode_chunk at 2; cbn [fst snd]; by rewrite <- !app_assoc).
  cbn [length decode_chunks].
  assert ((length (be_encode 4 k ++ be_encode 4 (Z.of_nat (length c)) ++ c ++ tail) <? 8)%nat = false) as ->.
  { apply Nat.ltb_ge. rewrite !length_app, !length_be_encode. lia. }
  rewrite slice_0, (slice_skip 4 8) by apply length_be_encode.
  rewrite !take_app_length' by (rewrite length_be_encode; lia). rewrite !be_decode_encode_small by (unfold CHUNK_SIZE in *; lia).
  replace (drop 8 _) with (c ++ tail) by (rewrite app_assoc, drop_app_length' by (rewrite length_app, !length_be_encode; lia); done).
  rewrite Nat2Z.id, take_app_length, drop_app_length. rewrite !(proj2 (Z.leb_le _ _)), (proj2 (Z.ltb_ge _ _)) by (rewrite ?length_app; lia).
  cbn [andb negb orb]. unfold tail. by rewrite (IH Hcs).
Qed.

(** the binary upload carries its chunks exactly: the decoder reads back
    the file id and every chunk of a batch in the client's layout. *)
Theorem upload_batch_roundtrip file cs : length file = 16%nat -> (1 <= length cs <= 16)%nat -> Forall sendable cs ->
  decode_upload_batch (encode_upload_batch file cs) = Ok (batch_request (hex_of file) cs).
Proof.
  intros Hfile Hn Hcs. unfold decode_upload_batch, encode_upload_batch.
  assert (Z.of_nat (length (concat (map encode_chunk cs))) <= Z.of_nat (length cs) * (CHUNK_SIZE + 36)) as Hlen.
  { clear Hn. induction cs as [|[k c] cs IH]; [done|]. apply Forall_cons_1 in Hcs as [[_ Hc] Hcs]. specialize (IH Hcs). cbn [map concat snd] in *.
    unfold encode_chunk at 1. rewrite !length_app, !length_be_encode. cbn [snd length]. lia. }
  set (p := str_bytes "QFB1" ++ file ++ be_encode 2 (Z.of_nat (length cs)) ++ concat (map encode_chunk cs)).
  assert (length p = 22 + length (concat (map encode_chunk cs)))%nat as Hp.
  { unfold p. rewrite !length_app, length_be_encode, Hfile. done. }
  assert (slice 0 4 p = str_bytes "QFB1") as E1 by done.
  assert (slice 4 20 p = file) as E2.
  { unfold p. rewrite slice_skip by done. rewrite take_app_length'; [done|]. by rewrite Hfile. }
  assert (slice 20 22 p = be_encode 2 (Z.of_nat (length cs))) as E3.
  { unfold p. rewrite app_assoc, slice_skip by (rewrite length_app, Hfile; done). rewrite take_app_length'; [done|]. by rewrite length_be_encode. }
  assert (drop 22 p = concat (map encode_chunk cs)) as E4.
  { unfold p. rewrite !app_assoc. rewrite drop_app_length' by (rewrite !length_app, length_be_encode, Hfile; done). done. }
  unfold BATCH_CHUNKS in *. cbv zeta. rewrite E1, E2, E3, E4, be_decode_encode_small by lia. rewrite bool_decide_true by done.
  rewrite (proj2 (Z.ltb_ge (Z.of_nat (length p)) 22)), (proj2 (Z.ltb_ge _ (Z.of_nat (length p)))) by nia. rewrite !(proj2 (Z.leb_le _ _)) by lia.
  cbn [negb orb andb]. rewrite Nat2Z.id.
  pose proof (decode_chunks_encoded cs [] Hcs) as Hd. rewrite app_nil_r in Hd. by rewrite Hd.
Qed.

(** ** Examples *)

Module Demo.
Definition file : string := "00112233445566778899aabbccddeeff".
Definition chunk : bytes := replicate 28 Byte.x41.
Definition create_data : odict string pyval :=
  [("op", VStr "create"); ("id", VStr file); ("size", VInt 0); ("ttl", VInt 60); ("envelope", VStr "QQ=="); ("manifest", VStr "QQ==")].
Definition created_events : list event := [Request "alice" create_data 0].
Definition later_events : list event :=
  [Puts file [("mallory", [("index", VInt 0); ("chunk", VStr "QQ==")])] 1; Cleanup 2; Request "alice" [("op", VStr "finish"); ("id", VStr file)] 3].
Definition ready_events : list event := created_events ++ [Request "alice" (batch_request file [(0, chunk)]) 1] ++ later_events.
Definition demo_row (st : file_state) : Row :=
  {| id := file; owner := "alice"; size := 0; expires := 60; created := 0; state := st; envelope := "QQ=="; manifest := "QQ==" |}.

(** C0, at a file of one chunk. *)
Lemma ready_file_downloads_witness : exists c, request "bob" (get_request file 0) 5 (run (empty_store 16 []) ready_events) =
  (run (empty_store 16 []) ready_events, Ok (chunk_answer c)) /\ chunks (run (empty_store 16 []) ready_events) !! (file, 0) = Some (sha256_hex c) /\
  Z.of_nat (length c) = 28.
Proof.
  apply (ready_file_downloads 16 [] ready_events file 0 (demo_row Ready) "bob" 5);
    [vm_compute; reflexivity|reflexivity|reflexivity|split; [discriminate|reflexivity]|vm_compute; reflexivity].
Defined.

Lemma upload_download_roundtrip_witness :
  let s' := run (fst (request "alice" (batch_request file [(0, chunk)]) 1 (run (empty_store 16 []) created_events))) later_events in
  request "bob" (get_request file 0) 5 s' = (s', Ok (chunk_answer chunk)).
Proof.
  apply (upload_download_roundtrip 16 [] created_events "alice" file [(0, chunk)] 1 (VDict [("received", VList [VInt 0])]) 0 chunk
    (demo_row Uploading) later_events "bob" 5 (demo_row Ready)); try (vm_compute; reflexivity).
  - by left.
  - repeat apply Forall_cons_2; [done|reflexivity|intros [H _]; discriminate H|apply Forall_nil_2].
Defined.

Lemma file_isolation_witness :
  let s := run (empty_store 16 []) ready_events in
  od_get file (files (step s (Request "mallory" [("op", VStr "delete"); ("id", VStr file)] 6))) = Some (demo_row Ready).
Proof.
  refine (proj1 (file_isolation 16 [] ready_events (Request "mallory" [("op", VStr "delete"); ("id", VStr file)] 6) file (demo_row Ready) _ _));
    [vm_compute; reflexivity|discriminate].
Defined.

Lemma put_batch_atomic_witness :
  fst (put_batch "mallory" file (batch_request file [(0, chunk)]) 4 (run (empty_store 16 []) ready_events)) = run (empty_store 16 []) ready_events.
Proof.
  refine (proj1 (put_batch_atomic 16 [] ready_events "mallory" file (batch_request file [(0, chunk)]) 4 (FileError "ACCESS_DENIED") _) _);
    [vm_compute; reflexivity|discriminate].
Defined.

Lemma upload_batch_roundtrip_witness :
  decode_upload_batch (encode_upload_batch (replicate 16 Byte.x41) [(0, chunk)]) = Ok (batch_request (hex_of (replicate 16 Byte.x41)) [(0, chunk)]).
Proof.
  apply (upload_batch_roundtrip (replicate 16 Byte.x41) [(0, chunk)]); [reflexivity|split; repeat constructor|].
  apply Forall_singleton. split; split; vm_compute; (reflexivity || discriminate).
Defined.
End Demo.
End FileThm.
