(* ===== verification/NativeFiles.v ===== *)
(** * The native file interface ([private_transport/native_files.py])

    The native data plane reads and writes the encrypted chunks itself; this
    interface gives it metadata only.  An upload is a [prepare], which checks
    the chunks and hands out a lease, the child's writes, and a [commit], which
    indexes the chunks if the lease is still the one of that [prepare].

    The state is that of [FileStore]; the clocks and [secrets.token_hex] are
    arguments.  A chunk that is not a dict raises [AttributeError] in Python and
    [TypeError] here; no caller distinguishes them. *)

From stdpp Require Import prelude strings list gmap sorting.
From Stdlib Require Import ZArith Lia.
From S2P Require Import Prelude PyDict PyBytes Sha256 PyValue FileStore.

Module NativeFiles.
Import Files.

Definition _DIGEST : string -> bool := fullmatch is_hex 64 64.
Definition LEASE_SECONDS : Z := 120 * SECOND.
Definition MAX_LEASES : nat := 2048.

(** One chunk of a request: index, length, digest. *)
Definition chunk_ref : Type := Z * Z * string.

(** The checks of one chunk against the row. *)
Definition check_ref (r : Row) (seen : list Z) (v : pyval) : res chunk_ref :=
  match v with
  | VDict c =>
    let? index := integer (dget "index" c) 0 (chunk_count (size r) - 1) in
    let length := chunk_length (size r) index in
    match dget "digest" c with
    | VStr digest =>
      if bool_decide (index ∈ seen) || negb (eq_int (dget "length" c) length) || negb (_DIGEST digest)
      then file_error "INVALID_CHUNK" else Ok (index, length, digest)
    | _ => file_error "INVALID_CHUNK"
    end
  | _ => Raise (TypeError "object has no attribute 'get'")
  end.

(** The loop over the chunks: all of them, and the new ones. *)
Fixpoint check_refs (s : FileStore) (i : string) (r : Row) (seen : list Z) (l : list pyval) : res (list chunk_ref * list (Z * string)) :=
  match l with
  | [] => Ok ([], [])
  | v :: rest =>
    let? '(index, length, digest) := check_ref r seen v in
    match chunks s !! (i, index) with
    | Some d =>
      if bool_decide (d = digest)
      then let? '(refs, writes) := check_refs s i r (seen ++ [index]) rest in Ok ((index, length, digest) :: refs, writes)
      else file_error "CHUNK_CONFLICT"
    | None =>
      let? '(refs, writes) := check_refs s i r (seen ++ [index]) rest in Ok ((index, length, digest) :: refs, (index, digest) :: writes)
    end
  end.

(** A list comprehension whose expression may raise. *)
Fixpoint map_res {X Y} (f : X -> res Y) (l : list X) : res (list Y) :=
  match l with [] => Ok [] | x :: l' => let? y := f x in let? ys := map_res f l' in Ok (y :: ys) end.

(** [op in ('read', 'read_batch')] *)
Definition read_request (op : string) (r : Row) (request : odict string pyval) : res pyval :=
  if negb (bool_decide (state r = Ready)) then file_error "UPLOAD_INCOMPLETE" else
  let indices := if bool_decide (op = "read") then VList [dget "index" request] else dget "indices" request in
  match indices with
  | VList l =>
    if negb ((1 <=? Z.of_nat (length l)) && (Z.of_nat (length l) <=? BATCH_CHUNKS)) then file_error "INVALID_REQUEST" else
    let? checked := map_res (fun v => integer v 0 (chunk_count (size r) - 1)) l in
    if negb (bool_decide (NoDup checked)) then file_error "INVALID_REQUEST" else
    let lengths := map (chunk_length (size r)) checked in
    if bool_decide (op = "read") then Ok (VDict [("length", VInt (nth 0 lengths 0))])
    else Ok (VDict [("indices", VList (map VInt checked)); ("lengths", VList (map VInt lengths))])
  | _ => file_error "INVALID_REQUEST"
  end.

Definition binding_of (r : Row) (refs : list chunk_ref) : binding := (owner r, created r, envelope r, size r, refs).

#[export] Instance binding_eq_dec : EqDecision binding.
Proof. unfold binding. apply _. Defined.

(** Whether a commit presents the current lease of the file. *)
Definition lease_valid (l : option lease) (presented : pyval) (b : binding) (mono : Z) : bool :=
  match l with
  | Some (token, until, bound) => eq_str presented token && negb (until <=? mono) && bool_decide (bound = b)
  | None => false
  end.

Definition received (refs : list chunk_ref) : pyval := VList (map VInt (merge_sort Z.le (map (fun c => fst (fst c)) refs))).

(** [op == 'commit'] after the checks *)
Definition commit (i : string) (r : Row) (request : odict string pyval) (refs : list chunk_ref) (writes : list (Z * string)) (mono : Z) : FM pyval :=
  let! s := get in
  if negb (lease_valid (od_get i (native_writes s)) (dget "lease" request) (binding_of r refs) mono)
  then raise (FileError "BUSY") else
  transaction (iterM (fun w => modify (fun s => set_chunks (<[(i, fst w) := snd w]> (chunks s)) s)) writes) ;!
  pop_native i ;!
  ret (VDict [("received", received refs)]).

(** [op == 'prepare'] after the checks *)
Definition prepare (i : string) (r : Row) (refs : list chunk_ref) (writes : list (Z * string)) (mono : Z) (token : string) : FM pyval :=
  modify (fun s => set_native_writes (filter (fun kv => mono < snd (fst (snd kv))) (native_writes s)) s) ;!
  let! s := get in
  if negb (od_mem i (native_writes s)) && (MAX_LEASES <=? length (native_writes s))%nat then raise (FileError "BUSY") else
  modify (fun s => set_native_writes (od_set i (token, mono + LEASE_SECONDS, binding_of r refs) (native_writes s)) s) ;!
  ret (VDict [("write", VList (map (fun w => VInt (fst w)) writes)); ("received", received refs); ("lease", VStr token)]).

(** [native_file_request]; [row['id']] is the id the row was selected by *)
Definition native_file_request (user : string) (request : odict string pyval) (now mono : Z) (token : string) : FM pyval :=
  let op := match dget "op" request with VStr o => o | _ => "" end in
  let i := match dget "id" request with VStr x => x | _ => "" end in
  let! r := row (dget "id" request) in
  if past r now || bool_decide (state r = Expired) then raise (FileError "EXPIRED")
  else if bool_decide (op ∈ ["read"; "read_batch"]) then lift (read_request op r request)
  else if negb (bool_decide (op ∈ ["prepare"; "commit"])) then raise (FileError "INVALID_REQUEST")
  else if negb (bool_decide (owner r = user)) then raise (FileError "ACCESS_DENIED")
  else if negb (bool_decide (state r = Uploading)) then raise (FileError "UPLOAD_CLOSED")
  else
    match dget "chunks" request with
    | VList l =>
      if negb ((1 <=? Z.of_nat (length l)) && (Z.of_nat (length l) <=? BATCH_CHUNKS)) then raise (FileError "INVALID_REQUEST") else
      let! s := get in
      let! '(refs, writes) := lift (check_refs s i r [] l) in
      if bool_decide (op = "commit") then commit i r request refs writes mono else prepare i r refs writes mono token
    | _ => raise (FileError "INVALID_REQUEST")
    end.
End NativeFiles.
