(* ===== verification/NativeFacts.v ===== *)
(** * Leases of the native file interface

    Of all the prepares of a file only the latest can be committed, once, for
    exactly what it checked; and a commit whose bytes are on disk keeps index
    and disk in agreement. *)

From stdpp Require Import prelude strings list gmap sorting.
From Stdlib Require Import ZArith Lia.
From S2P Require Import Prelude PyDict PyBytes Sha256 PyValue FileStore FileFacts FileOps FileTheorems NativeFiles.

Module NativeThm.
Import Files FileInv FileOps FileThm NativeFiles.

(** ** Requests *)

Definition native_op (request : odict string pyval) : string := match dget "op" request with VStr o => o | _ => "" end.

(** What an accepted [prepare] or [commit] has checked. *)
Record checked (user : string) (request : odict string pyval) (s : FileStore) (i : string) (r : Row) (refs : list chunk_ref)
    (ws : list (Z * string)) : Prop := {
  ck_id : dget "id" request = VStr i;
  ck_row : od_get i (files s) = Some r;
  ck_owner : owner r = user;
  ck_state : state r = Uploading;
  ck_refs : exists l, dget "chunks" request = VList l /\ check_refs s i r [] l = Ok (refs, ws)
}.

(** The outcomes of a request: an answer that changes nothing, an exception
    that changes nothing, or the body of [prepare] or [commit]. *)
Lemma native_cases user request now mono token s :
  (exists v, native_file_request user request now mono token s = (s, v) /\ ((exists x, v = Ok x) -> native_op request ∈ ["read"; "read_batch"])) \/
  exists i r refs ws, checked user request s i r refs ws /\
    ((native_op request = "commit" /\ native_file_request user request now mono token s = commit i r request refs ws mono s) \/
     (native_op request = "prepare" /\ native_file_request user request now mono token s = prepare i r refs ws mono token s)).
Proof.
  unfold native_file_request. fold (native_op request). cbv zeta.
  assert (forall e, exists v, (s, Raise e) = (s, v) /\ ((exists x : pyval, v = Ok x) -> native_op request ∈ ["read"; "read_batch"])) as Hraise.
  { intros e. eexists. split; [done|]. by intros [? ?]. }
  destruct (row_cases (dget "id" request) s) as [(i & r & Ei & E & _ & Hr & _)|E];
    [rewrite (bind_ok _ _ _ _ _ E), Ei|left; rewrite (bind_raise _ _ _ _ _ E); apply Hraise].
  destruct (past r now || _); [left; apply Hraise|]. case_bool_decide as Hread; [left; eexists; split; [done|by intros _]|].
  case_bool_decide as Hop; cbn [negb]; [|left; apply Hraise]. case_bool_decide as Ho; cbn [negb]; [|left; apply Hraise].
  case_bool_decide as Hst; cbn [negb]; [|left; apply Hraise].
  destruct (dget "chunks" request) as [| | | | | |l|] eqn:El; try (left; apply Hraise). destruct (negb _); [left; apply Hraise|].
  rewrite (bind_ok get _ s s s eq_refl). destruct (check_refs s i r [] l) as [[refs ws]|e] eqn:Ec; [|left; apply Hraise].
  rewrite (bind_ok (lift (Ok (refs, ws))) _ s s _ eq_refl). right. exists i, r, refs, ws. split; [split; eauto|].
  case_bool_decide as Hc; [by left|]. right. split; [|done]. set_solver.
Qed.

(** ** The lease of a file *)

(** Nothing but a [prepare] gives a file a lease. *)
Definition only_loses (i : string) (s s' : FileStore) : Prop :=
  od_wf (native_writes s) -> od_wf (native_writes s') /\
  (od_get i (native_writes s') = od_get i (native_writes s) \/ od_get i (native_writes s') = None).
#[export] Instance only_loses_preorder i : PreOrder (only_loses i).
Proof.
  split; [by intros s Hwf; split; [|left]|]. intros s1 s2 s3 E1 E2 Hwf. destruct (E1 Hwf) as [Hwf2 L1]. destruct (E2 Hwf2) as [Hwf3 L2].
  split; [done|]. destruct L1 as [L1|L1], L2 as [L2|L2]; rewrite ?L2, ?L1; auto.
Qed.

Lemma loses_same i (s s' : FileStore) : native_writes s' = native_writes s -> only_loses i s s'.
Proof. intros E Hwf. rewrite E. by split; [|left]. Qed.

Lemma loses_io i : moves (only_loses i) io.
Proof. unfold io. repeat (moves_step || (apply loses_same; done)). Qed.

Lemma loses_transaction {A} i (m : M FileStore A) : moves (only_loses i) m -> moves (only_loses i) (transaction m).
Proof. intros Hm s. unfold transaction. specialize (Hm s). destruct (m s) as [s' [a|e]]; [exact Hm|exact Hm]. Qed.

Lemma loses_pop i j : moves (only_loses i) (pop_native j).
Proof.
  unfold pop_native. moves_step. intros Hwf. cbn [native_writes set_native_writes]. split; [by apply od_wf_pop|].
  destruct (decide (i = j)) as [->|]; [right; apply od_get_pop_eq|left; by rewrite od_get_pop_ne].
Qed.

Lemma loses_update i j f : moves (only_loses i) (update_file j f).
Proof. unfold update_file. moves_step. apply loses_same. by destruct (od_get j _). Qed.

Lemma loses_row i v : moves (only_loses i) (row v).
Proof. intros s. destruct (row_cases v s) as [(? & ? & _ & E & _)|E]; by rewrite E. Qed.

Ltac loses_step :=
  match goal with
  | |- moves (only_loses _) io => apply loses_io
  | |- moves (only_loses _) (row _) => apply loses_row
  | |- moves (only_loses _) (pop_native _) => apply loses_pop
  | |- moves (only_loses _) (update_file _ _) => apply loses_update
  | |- moves (only_loses _) (transaction _) => apply loses_transaction
  | |- moves (only_loses _) (let '(_, _) := ?x in _) => destruct x
  | |- only_loses _ _ _ => apply loses_same; (done || by destruct (od_get _ _))
  | _ => moves_step
  end.

Lemma loses_write_chunks i j ws : moves (only_loses i) (write_chunks j ws).
Proof. unfold write_chunks. repeat loses_step. Qed.

Lemma loses_put i j rqs now : moves (only_loses i) (put j rqs now).
Proof.
  unfold put. repeat loses_step. intros s. unfold flush_batch. pose proof (loses_row i (VStr j) s) as Hr.
  destruct (row (VStr j) s) as [s1 [r|e]]; [|exact Hr]. destruct (admit_chunks s1 r now [] _) as [ws vs].
  pose proof (loses_write_chunks i j ws s1) as Hw. destruct (write_chunks j ws s1) as [s2 res]. cbn [fst] in *. by etrans.
Qed.

Lemma loses_put_batch i user j data now : moves (only_loses i) (put_batch user j data now).
Proof. unfold put_batch. repeat (loses_step || apply loses_write_chunks). Qed.

Lemma loses_request i user data now : moves (only_loses i) (request user data now).
Proof.
  unfold request, list_files, create, _request, in_transaction, status, finish, delete_file, delete_chunks, unlink, read_chunk. cbv zeta.
  repeat (loses_step || apply loses_put || apply loses_put_batch).
Qed.

Lemma loses_cleanup i now : moves (only_loses i) (cleanup now).
Proof.
  unfold cleanup, expire_one, remove_orphan, unlink, delete_chunks. repeat loses_step.
  apply loses_same. destruct (od_get _ _) as [r|]; [by destruct (_ || _)|done].
Qed.

Lemma loses_commit i j r request refs ws mono : moves (only_loses i) (commit j r request refs ws mono).
Proof. unfold commit. repeat loses_step. Qed.

(** A [prepare] gives its own file its lease and no other file one. *)
Lemma prepare_lease i j r refs ws mono token s s' v : od_wf (native_writes s) -> prepare j r refs ws mono token s = (s', Ok v) ->
  od_wf (native_writes s') /\
  if decide (i = j) then od_get i (native_writes s') = Some (token, mono + LEASE_SECONDS, binding_of r refs)
  else od_get i (native_writes s') = od_get i (native_writes s) \/ od_get i (native_writes s') = None.
Proof.
  intros Hwf. unfold prepare. rewrite (bind_ok (modify _) _ _ _ tt eq_refl), (bind_ok get _ _ _ _ eq_refl). destruct (_ && _); [done|].
  rewrite (bind_ok (modify _) _ _ _ tt eq_refl). intros [= <- _]. cbn [native_writes set_native_writes].
  split; [by apply od_wf_set, od_wf_filter|]. case_decide as Hj; [subst j; apply od_get_set_eq|].
  rewrite od_get_set_ne, od_get_filter_eq by done. destruct (od_get i (native_writes s)); cbn; [case_decide|]; auto.
Qed.

Lemma prepare_refused j r refs ws mono token s s' e : prepare j r refs ws mono token s = (s', Raise e) -> forall i, only_loses i s s'.
Proof.
  unfold prepare. rewrite (bind_ok (modify _) _ _ _ tt eq_refl), (bind_ok get _ _ _ _ eq_refl). destruct (_ && _); [|done].
  intros [= <- _] i Hwf. cbn [native_writes set_native_writes]. split; [by apply od_wf_filter|].
  rewrite od_get_filter_eq by done. destruct (od_get i (native_writes s)); cbn; [case_decide|]; auto.
Qed.

(** The insertions of a commit. *)
Definition bare (w : Z * string) : Z * (bytes * string) := (fst w, ([], snd w)).

Lemma commit_index i ws s :
  transaction (iterM (fun w : Z * string => modify (fun s => set_chunks (<[(i, fst w) := snd w]> (chunks s)) s)) ws) s =
  (set_chunks (index_writes i (map bare ws) (chunks s)) s, Ok tt).
Proof.
  unfold transaction. rewrite <- index_all.
  assert (forall l s, iterM (fun w => modify (fun s => set_chunks (<[(i, fst w) := snd (snd w)]> (chunks s)) s)) (map bare l) s =
    iterM (fun w : Z * string => modify (fun s => set_chunks (<[(i, fst w) := snd w]> (chunks s)) s)) l s) as E.
  { induction l as [|w l IH]; [done|]. intros s1. cbn [map iterM]. unfold bind, modify. apply IH. }
  rewrite <- E, index_all. done.
Qed.

Lemma index_other i ws m j k : j ≠ i -> index_writes i ws m !! (j, k) = m !! (j, k).
Proof.
  intros Hj. unfold index_writes. revert m. induction ws as [|w ws IH]; intros m; [done|]. cbn [fold_left]. rewrite IH.
  by rewrite lookup_insert_ne by congruence.
Qed.

(** A native request changes files of its user only. *)
Lemma native_untouched user request now mono token s j q : od_get j (files s) = Some q -> owner q ≠ user ->
  untouched j s (fst (native_file_request user request now mono token s)).
Proof.
  intros Hq Ho. destruct (native_cases user request now mono token s) as [(v & E & _)|(i & r & refs & ws & Hck & [[_ E]|[_ E]])]; rewrite E.
  - by apply untouched_refl.
  - assert (j ≠ i) as Hj by (intros ->; apply Ho; pose proof (ck_row _ _ _ _ _ _ _ Hck); pose proof (ck_owner _ _ _ _ _ _ _ Hck); congruence).
    unfold commit. rewrite (bind_ok get _ s s s eq_refl). destruct (lease_valid _ _ _ _); cbn [negb]; [|by apply untouched_refl].
    rewrite (bind_ok _ _ _ _ _ (commit_index i ws s)), (bind_ok (pop_native i) _ _ _ tt eq_refl). cbn [fst ret].
    split; [done|]. split; [done|]. intros k. by apply index_other.
  - unfold prepare, bind, modify, get, raise, ret. destruct (_ && _); by apply untouched_refl.
Qed.

(** ** Histories *)

Inductive nevent :=
  | Store (e : event)
  | Native (user : string) (request : odict string pyval) (now mono : Z) (token : string).

Definition nstep (s : FileStore) (e : nevent) : FileStore :=
  match e with Store e => step s e | Native user rq now mono token => fst (native_file_request user rq now mono token s) end.
Definition nrun (s : FileStore) (es : list nevent) : FileStore := fold_left nstep es s.

(** [e] is not a request to prepare file [i]. *)
Definition no_prepare (i : string) (e : nevent) : Prop :=
  match e with Store _ => True | Native _ rq _ _ _ => ~ (native_op rq = "prepare" /\ dget "id" rq = VStr i) end.

Lemma nstep_loses i e s : no_prepare i e -> only_loses i s (nstep s e).
Proof.
  destruct e as [[user data now|j rqs now|now]|user rq now mono token]; cbn [no_prepare nstep step]; intros Hno.
  - apply loses_request. - apply loses_put. - apply loses_cleanup.
  - destruct (native_cases user rq now mono token s) as [(v & -> & _)|(j & r & refs & ws & Hck & [[_ ->]|[Hop ->]])];
      [done|apply loses_commit|]. destruct (prepare j r refs ws mono token s) as [s' [v|e]] eqn:E; [|by eapply prepare_refused].
    intros Hwf. destruct (prepare_lease i j r refs ws mono token s s' v Hwf E) as [Hwf' Hl]. cbn [fst]. split; [done|].
    destruct (decide (i = j)) as [->|]; [|done]. exfalso. apply Hno. split; [done|apply Hck].
Qed.

Lemma nrun_loses i es s : Forall (no_prepare i) es -> only_loses i s (nrun s es).
Proof.
  revert s. induction es as [|e es IH]; intros s; [done|]. intros [He Hes]%Forall_cons_1. cbn [nrun fold_left].
  etrans; [by apply nstep_loses|by apply IH].
Qed.

(** What an accepted commit presents. *)
Lemma commit_accepted user rq now mono token s s' v : native_op rq = "commit" -> native_file_request user rq now mono token s = (s', Ok v) ->
  exists i r refs ws t until, checked user rq s i r refs ws /\ dget "lease" rq = VStr t /\ mono < until /\
    od_get i (native_writes s) = Some (t, until, binding_of r refs) /\
    chunks s' = index_writes i (map bare ws) (chunks s) /\ files s' = files s /\ disk s' = disk s /\
    od_get i (native_writes s') = None.
Proof.
  intros Hop Hrun. destruct (native_cases user rq now mono token s) as [(w & E & Hread)|(i & r & refs & ws & Hck & [[_ E]|[Hp _]])].
  - rewrite E in Hrun. injection Hrun as _ ->. specialize (Hread (ex_intro _ v eq_refl)). rewrite Hop in Hread. set_solver.
  - rewrite E in Hrun. revert Hrun. unfold commit. rewrite (bind_ok get _ s s s eq_refl).
    destruct (lease_valid _ _ _ _) eqn:Hl; cbn [negb]; [|done]. unfold lease_valid in Hl.
    destruct (od_get i (native_writes s)) as [[[t until] b]|] eqn:Elease; [|done].
    rewrite !andb_true_iff, negb_true_iff, bool_decide_eq_true in Hl. destruct Hl as ((Ht & Hu) & ->).
    rewrite (bind_ok _ _ _ _ _ (commit_index i ws s)).
    rewrite (bind_ok (pop_native i) _ _ _ tt eq_refl). intros [= <- _]. exists i, r, refs, ws, t, until. split; [done|].
    split; [|]. { destruct (dget "lease" rq); try done. cbn [eq_str] in Ht. by apply bool_decide_eq_true in Ht as ->. }
    split; [lia|]. do 4 (split; [done|]). cbn. apply od_get_pop_eq.
  - by rewrite Hop in Hp.
Qed.

(** ** Commits *)

(** Chunk [c] of a file of [size] bytes is on disk. *)
Definition on_disk (s : FileStore) (i : string) (size : Z) (c : chunk_ref) : Prop :=
  let '(k, n, d) := c in Z.of_nat (length (chunk_of size k (content i s))) = n /\ sha256_hex (chunk_of size k (content i s)) = d.

Lemma check_ref_ok r seen v k n d : check_ref r seen v = Ok (k, n, d) ->
  0 <= k < chunk_count (size r) /\ n = chunk_length (size r) k /\ k ∉ seen.
Proof.
  unfold check_ref. destruct v as [| | | | | | |c]; try done. destruct (integer _ _ _) as [q|] eqn:Eq; [cbn [rbind]|done].
  apply integer_ok in Eq as [_ Hq]. destruct (dget "digest" c) as [| | | |digest| | |]; try done. case_bool_decide as Hs; [done|]. cbn [orb].
  destruct (_ || _); [done|]. intros [= <- <- <-]. split; [lia|]. by split.
Qed.

(** What the loop over the chunks of a request has checked. *)
Lemma check_refs_ok s i r l seen refs ws : check_refs s i r seen l = Ok (refs, ws) ->
  NoDup (map fst ws) /\ (forall k, k ∈ map fst ws -> k ∉ seen /\ chunks s !! (i, k) = None) /\
  (forall k d, (k, d) ∈ ws -> exists n, (k, n, d) ∈ refs) /\
  (forall k n d, (k, n, d) ∈ refs -> 0 <= k < chunk_count (size r) /\ n = chunk_length (size r) k /\
    (chunks s !! (i, k) = Some d \/ (k, d) ∈ ws)).
Proof.
  revert seen refs ws. induction l as [|v l IH]; intros seen refs ws; cbn [check_refs].
  { intros [= <- <-]. repeat split; try set_solver. constructor. }
  destruct (check_ref r seen v) as [[[k n] d]|] eqn:Ev; [cbn [rbind]|done]. apply check_ref_ok in Ev as (Hk & Hn & Hs).
  destruct (chunks s !! (i, k)) as [d'|] eqn:Ed; [case_bool_decide as Hd; [subst d'|done]|];
    destruct (check_refs s i r (seen ++ [k]) l) as [[refs' ws']|] eqn:El; try done; cbn [rbind]; intros [= <- <-];
    destruct (IH _ _ _ El) as (Hnd & Hnew & Hin & Hrefs).
  - split; [done|]. split; [intros q Hq; specialize (Hnew q Hq); set_solver|]. split; [set_solver|].
    intros q m e Hq. apply elem_of_cons in Hq as [[= -> -> ->]|Hq]; [by eauto|]. by apply Hrefs.
  - split. { cbn [map]. constructor; [|done]. intros Hq%Hnew. set_solver. }
    split. { intros q Hq. cbn [map fst] in Hq. apply elem_of_cons in Hq as [->|Hq]; [done|]. specialize (Hnew q Hq). set_solver. }
    split; [set_solver|]. intros q m e Hq. apply elem_of_cons in Hq as [[= -> -> ->]|Hq].
    + split; [done|]. split; [done|]. right. left.
    + destruct (Hrefs q m e Hq) as (? & ? & [?|?]); [by eauto|]. split; [done|]. split; [done|]. right. by right.
Qed.

(** A commit whose chunks are on disk keeps the store consistent, and every
    chunk it names is then stored. *)
Lemma commit_indexes s i r refs ws l : store_inv s -> od_get i (files s) = Some r -> state r = Uploading ->
  check_refs s i r [] l = Ok (refs, ws) -> Forall (on_disk s i (size r)) refs ->
  let s' := set_chunks (index_writes i (map bare ws) (chunks s)) s in
  store_inv s' /\ forall k n d, (k, n, d) ∈ refs -> chunks s' !! (i, k) = Some d.
Proof.
  intros Hinv Hr Hst Hck Hdisk s'. destruct (check_refs_ok _ _ _ _ _ _ _ Hck) as (Hnd & Hnew & Hin & Hrefs).
  set (full := map (fun w : Z * string => (fst w, (chunk_of (size r) (fst w) (content i s), snd w))) ws).
  assert (map fst full = map fst ws) as Ekeys by (unfold full; rewrite map_map; by apply map_ext).
  assert (forall m, index_writes i full m = index_writes i (map bare ws) m) as Eidx.
  { unfold full, index_writes. clear. induction ws as [|w ws IH]; intros m; [done|]. cbn [map fold_left]. apply IH. }
  assert (active r = true) as Ha by (unfold active; by rewrite Hst).
  assert (forall w, w ∈ full -> exists k n d, w = (k, (chunk_of (size r) k (content i s), d)) /\ (k, n, d) ∈ refs) as Hfull.
  { intros w Hw. apply list_elem_of_In, in_map_iff in Hw as ([k d] & <- & Hw). apply list_elem_of_In in Hw. destruct (Hin k d Hw) as [n Hn].
    exists k, n, d. by split. }
  rewrite Forall_forall in Hdisk.
  assert (wrote i full s (set_chunks (index_writes i full (chunks s)) s) true) as W.
  { apply (wrote_indexed i r); try done; rewrite ?Ekeys; try done.
    - rewrite Forall_forall. intros w Hw. destruct (Hfull w Hw) as (k & n & d & -> & Hn). destruct (Hrefs k n d Hn) as (Hk & -> & _).
      destruct (Hdisk _ Hn) as [Hlen Hd]. by repeat split; cbn [fst snd]; try lia.
    - intros k Hk. by apply Hnew.
    - by eapply inv_disk.
    - intros w Hw. by destruct (Hfull w Hw) as (k & n & d & -> & _). }
  split; [pose proof (wr_inv _ _ _ _ _ W) as Wi; by rewrite Eidx in Wi|]. intros k n d Hn. destruct (Hrefs k n d Hn) as (_ & _ & Hcase).
  cbn [chunks set_chunks s']. rewrite <- Eidx, index_writes_lookup, decide_True by (try done; by rewrite Ekeys).
  destruct (List.find _ full) as [w|] eqn:Ef.
  - apply find_some in Ef as [Hw Hk%bool_decide_eq_true_1]. apply list_elem_of_In in Hw. subst k. unfold full in Hw.
    apply list_elem_of_In, in_map_iff in Hw as ([q e] & <- & Hw). apply list_elem_of_In in Hw. cbn [fst snd] in *. f_equal.
    destruct Hcase as [Hc|Hc].
    + assert (q ∈ map fst ws) as Hq by (apply list_elem_of_In, (in_map fst ws (q, e)); by apply list_elem_of_In).
      destruct (Hnew q Hq) as [_ E]. congruence.
    + by injection (NoDup_fst_inj ws (q, e) (q, d) Hnd Hw Hc eq_refl) as ->.
  - destruct Hcase as [Hc|Hc]; [done|]. exfalso. assert (In (k, (chunk_of (size r) k (content i s), d)) full) as Hk.
    { apply in_map_iff. exists (k, d). split; [reflexivity|by apply list_elem_of_In]. }
    pose proof (find_none _ _ Ef _ Hk) as E. cbn [fst] in E. by rewrite bool_decide_true in E.
Qed.

(** Every other request leaves rows, index and disk alone. *)
Lemma request_keeps user rq now mono token s : native_op rq ≠ "commit" -> store_inv s ->
  store_inv (fst (native_file_request user rq now mono token s)).
Proof.
  intros Hop Hinv. destruct (native_cases user rq now mono token s) as [(v & E & _)|(i & r & refs & ws & _ & [[Hp _]|[_ E]])]; [|done|];
    rewrite E; [done|]. eapply inv_same, Hinv. unfold prepare, bind, modify, get, raise, ret. by destruct (_ && _).
Qed.

(** The child's write to a file of which nothing is indexed yet. *)
Lemma child_write_inv s i r c : store_inv s -> od_get i (files s) = Some r -> chunks s = ∅ ->
  store_inv (set_disk (<[i := c]> (disk s)) s).
Proof.
  intros Hinv Hr Hc. apply (rewrites_inv i r (fun _ => True) s); [|done|done|by intros k _; rewrite Hc].
  split; try done; cbn [disk set_disk].
  - intros j Hj. by rewrite lookup_insert_ne.
  - intros _. rewrite lookup_insert_eq. by eexists.
Qed.

(** C18: only the latest prepare of a file can be committed: once a later
    prepare of the file has been accepted, a commit that presents the lease of
    an earlier one is refused and changes nothing, whatever requests, uploads,
    cleanups and native requests other than prepares of this file come
    between. *)
Theorem late_commit_rejected s0 user0 rq0 now0 mono0 token0 s1 v0 i es user rq now mono token
    (Hwf : od_wf (native_writes s0))
    (Hprepare : native_file_request user0 rq0 now0 mono0 token0 s0 = (s1, Ok v0))
    (Hop0 : native_op rq0 = "prepare") (Hid0 : dget "id" rq0 = VStr i)
    (Hes : Forall (no_prepare i) es) (Hop : native_op rq = "commit") (Hid : dget "id" rq = VStr i)
    (Hold : dget "lease" rq ≠ VStr token0) :
  exists e, native_file_request user rq now mono token (nrun s1 es) = (nrun s1 es, Raise e).
Proof.
  set (s := nrun s1 es).
  assert (od_wf (native_writes s1) /\ exists until b, od_get i (native_writes s1) = Some (token0, until, b)) as [Hwf1 (until & b & Hl)].
  { destruct (native_cases user0 rq0 now0 mono0 token0 s0) as [(w & E & Hread)|(j & r & refs & ws & Hck & [[Hp _]|[_ E]])].
    - rewrite E in Hprepare. injection Hprepare as _ ->. specialize (Hread (ex_intro _ v0 eq_refl)). rewrite Hop0 in Hread. set_solver.
    - by rewrite Hop0 in Hp.
    - rewrite E in Hprepare. assert (j = i) as -> by (pose proof (ck_id _ _ _ _ _ _ _ Hck); congruence).
      destruct (prepare_lease i i r refs ws mono0 token0 s0 s1 v0 Hwf Hprepare) as [Hwf' Hl]. rewrite decide_True in Hl by done. eauto. }
  destruct (nrun_loses i es s1 Hes Hwf1) as [_ Hlose]. fold s in Hlose.
  destruct (native_file_request user rq now mono token s) as [s' [v|e]] eqn:E.
  - exfalso. destruct (commit_accepted user rq now mono token s s' v Hop E) as (j & r & refs & ws & t & u & Hck & Ht & _ & Hlease & _).
    assert (j = i) as -> by (pose proof (ck_id _ _ _ _ _ _ _ Hck); congruence). rewrite Hl, Hlease in Hlose.
    destruct Hlose as [[= -> _ _]|]; [|done]. by rewrite Ht in Hold.
  - exists e. f_equal. destruct (native_cases user rq now mono token s) as [(w & E' & _)|(j & r & refs & ws & Hck & [[_ E']|[Hp _]])];
      [congruence| |by rewrite Hop in Hp]. rewrite E' in E. revert E. unfold commit. rewrite (bind_ok get _ s s s eq_refl).
    destruct (lease_valid _ _ _ _); cbn [negb]; [|by intros [= <- _]].
    by rewrite (bind_ok _ _ _ _ _ (commit_index j ws s)).
Qed.

(** a native upload keeps index and disk in agreement: in every consistent
    store where the bytes of the leased chunks of the file are on disk, an
    accepted commit leaves a consistent store in which every leased chunk is
    indexed with its digest, and spends the lease. *)
Theorem native_commit_sound s user rq now mono token s' v i t until own cr env sz refs
    (Hinv : store_inv s) (Hop : native_op rq = "commit") (Hid : dget "id" rq = VStr i)
    (Hlease : od_get i (native_writes s) = Some (t, until, (own, cr, env, sz, refs)))
    (Hchild : Forall (on_disk s i sz) refs)
    (Hcommit : native_file_request user rq now mono token s = (s', Ok v)) :
  store_inv s' /\ disk s' = disk s /\ (forall k n d, (k, n, d) ∈ refs -> chunks s' !! (i, k) = Some d) /\
  own = user /\ mono < until /\ dget "lease" rq = VStr t /\ od_get i (native_writes s') = None.
Proof.
  destruct (commit_accepted user rq now mono token s s' v Hop Hcommit)
    as (j & r & refs' & ws & t' & u & Hck & Ht & Hu & Hl & Ec & Ef & Ed & Hspent).
  destruct Hck as [Hi Hr Ho Hst (l & _ & Hrefs)]. assert (j = i) as -> by congruence. rewrite Hlease in Hl. injection Hl as -> -> -> -> -> -> ->.
  destruct (commit_indexes s i r refs' ws l Hinv Hr Hst Hrefs Hchild) as [Hinv' Hidx].
  split; [|by rewrite Ec; repeat split]. eapply inv_same, Hinv'. by repeat split.
Qed.

(** ** Examples *)

Module Demo.
Import FileThm.Demo.
Definition digest : string := sha256_hex chunk.
Definition native_rq (op lease : string) : odict string pyval :=
  [("op", VStr op); ("id", VStr file); ("lease", VStr lease);
   ("chunks", VList [VDict [("index", VInt 0); ("length", VInt 28); ("digest", VStr digest)]])].
Definition fresh : FileStore := run (empty_store 16 []) created_events.
Definition leased (token : string) (s : FileStore) : FileStore := fst (native_file_request "alice" (native_rq "prepare" "") 1 1 token s).
(** The child has written the chunk. *)
Definition written : FileStore := let s := leased "t1" fresh in set_disk (<[file := chunk]> (disk s)) s.

Definition prepared : pyval := VDict [("write", VList [VInt 0]); ("received", VList [VInt 0]); ("lease", VStr "t2")].

(** A retry overtakes the commit of the first attempt. *)
Lemma late_commit_rejected_witness :
  exists e, native_file_request "alice" (native_rq "commit" "t1") 3 3 "" (nrun (leased "t2" (leased "t1" fresh)) [Store (Cleanup 2)]) =
    (nrun (leased "t2" (leased "t1" fresh)) [Store (Cleanup 2)], Raise e).
Proof.
  apply (late_commit_rejected (leased "t1" fresh) "alice" (native_rq "prepare" "") 1 1 "t2" _ prepared file [Store (Cleanup 2)] "alice"
    (native_rq "commit" "t1") 3 3 ""); try reflexivity.
  - vm_compute. repeat constructor; set_solver.
  - by repeat constructor.
  - discriminate.
Defined.

Lemma written_inv : store_inv written.
Proof.
  assert (store_inv (leased "t1" fresh)) as Hl by (apply request_keeps; [discriminate|apply store_reachable_inv]).
  apply (child_write_inv (leased "t1" fresh) file (demo_row Uploading) chunk Hl); [vm_compute; reflexivity|].
  apply (bool_decide_unpack _). vm_compute. exact I.
Qed.

Lemma native_commit_sound_witness :
  chunks (fst (native_file_request "alice" (native_rq "commit" "t1") 3 3 "" written)) !! (file, 0) = Some digest.
Proof.
  refine (proj1 (proj2 (proj2 (native_commit_sound written "alice" (native_rq "commit" "t1") 3 3 "" _ (VDict [("received", VList [VInt 0])]) file "t1"
    (1 + LEASE_SECONDS) "alice" 0 "QQ==" 0 [(0, 28, digest)] _ eq_refl eq_refl _ _ _))) 0 28 digest _).
  - apply written_inv.
  - vm_compute. reflexivity.
  - apply Forall_singleton. split; vm_compute; reflexivity.
  - refine (eq_trans (surjective_pairing _) (f_equal (pair _) _)). vm_compute. reflexivity.
  - by left.
Defined.
End Demo.
End NativeThm.
