(* ===== verification/FileHandler.v ===== *)
(** * The file request handler ([install_files] of [files.py])

    A private transport hands file messages to [handle], which admits them
    while one of a bounded number of slots is free and submits them to a worker
    pool.  A worker checks the session again, serves the request from the store
    and answers on the transport, unless it was detached meanwhile.

    The pools are queues.  Other threads run while a worker runs: [elsewhere k]
    is what they do at its [k]-th yield, between the checks and the request, and
    between the request and the answer.  [reply] is the transport's. *)

From stdpp Require Import prelude strings list gmap.
From Stdlib Require Import ZArith Lia.
From S2P Require Import Prelude PyDict PyBytes PyValue Database Sessions Connection Server QortalIdentity GroupAccess AuthService PrivateService FileStore.

Module FileHandler.
Import Connection Server Auth PrivateTransport.

Definition SLOTS : nat := 16.
Definition CONTROL_SLOTS : nat := 8.
Definition limit (bulk : bool) : nat := if bulk then SLOTS else CONTROL_SLOTS.

(** [slots] and [control_slots] with the tasks that hold them. *)
Record pool := { free : nat; waiting : list (PrivateMessageContext * pyval); running : nat }.

Record FileService := { file_store : Files.FileStore; transfers : pool; controls : pool; accepting : bool }.

Definition pool_of (bulk : bool) (f : FileService) : pool := if bulk then transfers f else controls f.
Definition set_pool (bulk : bool) (p : pool) (f : FileService) : FileService :=
  {| file_store := file_store f; transfers := if bulk then p else transfers f; controls := if bulk then controls f else p;
     accepting := accepting f |}.
Definition set_file_store (x : Files.FileStore) (f : FileService) : FileService :=
  {| file_store := x; transfers := transfers f; controls := controls f; accepting := accepting f |}.
Definition set_accepting (x : bool) (f : FileService) : FileService :=
  {| file_store := file_store f; transfers := transfers f; controls := controls f; accepting := x |}.

Definition empty_pool (n : nat) : pool := {| free := n; waiting := []; running := 0 |}.
Definition init (store : Files.FileStore) : FileService :=
  {| file_store := store; transfers := empty_pool SLOTS; controls := empty_pool CONTROL_SLOTS; accepting := true |}.

(** Where the service's state is in the applications' state. *)
Class HasFiles (A : Type) := { files_of : A -> FileService; put_files : FileService -> A -> A }.
Class HasFilesLaws (A : Type) `{HasFiles A, HasAuth A} : Prop := {
  files_of_put : forall x a, files_of (put_files x a) = x;
  auth_of_put_files : forall x a, auth_of (put_files x a) = auth_of a;
  files_of_put_auth : forall x a, files_of (put_auth x a) = files_of a
}.

Definition failure (code : string) : pyval := VDict [("ok", VBool false); ("error", VStr code)].
Definition success (result : pyval) : pyval := VDict [("ok", VBool true); ("result", result)].

(** [str(exc) if isinstance(exc, FileError) else 'BACKEND_ACCESS_DENIED'], and
    the code of every other exception. *)
Definition failure_code (e : exn) : string :=
  match e with
  | FileError code => code
  | GroupAccessDenied | GroupAccessUnavailable => "BACKEND_ACCESS_DENIED"
  | _ => "STORAGE_UNAVAILABLE"
  end.

(** The requests that move chunks. *)
Definition is_bulk (data : pyval) : bool :=
  match data with
  | VBytes _ => true
  | VDict d => match dget "op" d with VStr op => bool_decide (op ∈ ["put"; "get"; "put_batch"]) | _ => false end
  | _ => false
  end.

Section handler.
Context {A : Type} `{HasAuth A} `{HasFiles A} `{Qortal.Unicode} `{Qortal.Crypto} `{GroupAccess.World}.
Context (others : list (GroupAccess.GroupAccessPolicy -> GroupAccess.GroupAccessPolicy)).
Context (elsewhere : nat -> Server A -> Server A).
Context (reply : PrivateMessageContext -> pyval -> M (Server A) unit).

Abbreviation SrvM := (M (Server A)).

Definition service (s : Server A) : FileService := files_of (app s).
Definition in_files {B} (m : M FileService B) : SrvM B := zoom service (fun x s => set_app (put_files x (app s)) s) m.
Definition in_store {B} (m : M Files.FileStore B) : SrvM B := in_files (zoom file_store set_file_store m).
Definition on_pool (bulk : bool) (f : pool -> pool) : SrvM unit := in_files (modify (fun x => set_pool bulk (f (pool_of bulk x)) x)).

(** [handle]; a context without [reply] is one of a Reticulum message. *)
Definition handle (ctx : MessageContext + PrivateMessageContext) (data : pyval) : SrvM unit :=
  match ctx with
  | inr c =>
    if negb (bool_decide (pm_lane c = "reliable")) then raise (ValueError "files require reliable private transport") else
    let bulk := is_bulk data in
    let! f := gets service in
    if (free (pool_of bulk f) =? 0)%nat then reply c (failure "BUSY")
    else
      on_pool bulk (fun p => {| free := free p - 1; waiting := waiting p; running := running p |}) ;!
      if accepting f
      then on_pool bulk (fun p => {| free := free p; waiting := waiting p ++ [(c, data)]; running := running p |})
      else raise (RuntimeError "cannot schedule new futures after shutdown")
  | inl _ => raise (ValueError "files require reliable private transport")
  end.

(** The session of the message may use the store over this transport. *)
Definition admitted (c : PrivateMessageContext) (s : Server A) : bool :=
  let o := session_obj (pm_session c) s in
  negb (provisional o) && has_user o && negb (expires_at o <=? wall s) && bool_decide (private_transport o = Some (pm_transport c)).

(** The body of [work] inside its [try]. *)
Definition serve (c : PrivateMessageContext) (data : pyval) : SrvM unit :=
  let! s := get in
  if negb (admitted c s) then raise (FileError "AUTHENTICATION_REQUIRED") else
  require_authorized others (pm_session c) (wall s) ;!
  modify (elsewhere 0) ;!
  let! s := get in
  let! request := lift (match data with
    | VBytes raw => Files.decode_upload_batch raw
    | VDict d => Ok d
    | _ => Raise (TypeError "object has no attribute 'get'")
    end) in
  let! result := in_store (Files.request (default "" (authenticated_user (session_obj (pm_session c) s))) request (wall s)) in
  modify (elsewhere 1) ;!
  let! o := gets (session_obj (pm_session c)) in
  if bool_decide (private_transport o = Some (pm_transport c)) then reply c (success result) else ret tt.

(** [request_slots.release()] of a bounded semaphore *)
Definition release (bulk : bool) : SrvM unit :=
  let! f := gets service in
  if (limit bulk <=? free (pool_of bulk f))%nat then raise (ValueError "Semaphore released too many times")
  else on_pool bulk (fun p => {| free := S (free p); waiting := waiting p; running := running p - 1 |}).

(** [work] *)
Definition work (bulk : bool) (c : PrivateMessageContext) (data : pyval) : SrvM unit :=
  finally (try_catch (serve c data) (fun _ => true) (fun e => reply c (failure (failure_code e)))) (release bulk).

(** A worker of a pool takes the oldest task; what the task raises stays in its
    future. *)
Definition worker (bulk : bool) : SrvM unit :=
  let! f := gets service in
  match waiting (pool_of bulk f) with
  | [] => ret tt
  | (c, data) :: rest =>
    on_pool bulk (fun p => {| free := free p; waiting := rest; running := S (running p) |}) ;!
    try_catch (work bulk c data) (fun _ => true) (fun _ => ret tt)
  end.

(** One pass of [cleanup_loop]. *)
Definition cleanup_pass : SrvM unit :=
  let! now := gets wall in
  try_catch (in_store (Files.cleanup now)) (fun _ => true) (fun _ => ret tt).

(** [shutdown]: no more tasks are accepted, the accepted ones are finished. *)
Definition shutdown : SrvM unit :=
  in_files (modify (set_accepting false)) ;!
  let! f := gets service in
  iterM worker (replicate (length (waiting (transfers f))) true ++ replicate (length (waiting (controls f))) false).
End handler.
End FileHandler.
