(* ===== verification/HandlerFacts.v ===== *)
(** * What the file request handler guarantees

    No request reaches the store but for a session that is authenticated,
    unexpired, attached over the transport that asks and authorized, and then
    it touches no file of another owner; and no path through the handler loses
    or duplicates a slot. *)

From stdpp Require Import prelude strings list gmap.
From Stdlib Require Import ZArith Lia.
From S2P Require Import Prelude PyDict PyBytes PyValue Database Sessions SessionFacts Connection Server QortalIdentity QortalFacts GroupAccess GroupFacts AuthService AuthFacts PrivateService PrivateFacts FileStore FileFacts FileOps FileTheorems FileHandler.

Module HandlerThm.
Import Connection Server Auth PrivateTransport FileHandler AuthThm.

Section facts.
Context {A : Type} `{HasAuth A} `{!HasAuthLaws A} `{HasFiles A} `{!HasFilesLaws A}.
Context `{Qortal.Unicode} `{Qortal.Crypto} `{GroupAccess.World} `{!GroupThm.WorldOk}.
Context (others : list (GroupAccess.GroupAccessPolicy -> GroupAccess.GroupAccessPolicy)).
Context (elsewhere : nat -> Server A -> Server A).
Context (reply : PrivateMessageContext -> pyval -> M (Server A) unit).

Abbreviation store s := (file_store (service s)).

(** ** What the parts leave alone *)

Lemma service_put_auth x (s : Server A) : service (set_app (put_auth x (app s)) s) = service s.
Proof. unfold service. cbn [app set_app]. apply files_of_put_auth. Qed.

Lemma service_in_access {B} (m : M GroupAccess.GroupAccessPolicy B) : moves (stays service) (in_access (A := A) m).
Proof. intros s. rewrite in_access_eq. apply service_put_auth. Qed.

Lemma service_in_sessions {B} (m : SM B) : moves (stays service) (in_sessions (A := A) m).
Proof. intros s. by rewrite srv_in_sessions_eq. Qed.

Lemma service_require_authorized r now : moves (stays service) (require_authorized (A := A) others r now).
Proof. unfold require_authorized, set_meta, set_session. repeat (moves_step || apply service_in_access || apply service_in_sessions). Qed.

Lemma service_set (f : FileService) (s : Server A) : service (set_app (put_files f (app s)) s) = f.
Proof. unfold service. cbn [app set_app]. apply files_of_put. Qed.

Lemma in_store_eq {B} (m : M Files.FileStore B) (s : Server A) :
  in_store m s = (set_app (put_files (set_file_store (fst (m (store s))) (service s)) (app s)) s, snd (m (store s))).
Proof. unfold in_store, in_files, zoom. by destruct (m (store s)). Qed.

Lemma service_on_pool b f (s : Server A) : service (fst (on_pool b f s)) = set_pool b (f (pool_of b (service s))) (service s).
Proof. apply service_set. Qed.

(** ** Requests reach the store for authorized sessions only *)

Section confined.
Context (Hreply : forall c v, moves (stays service) (reply c v)).
Context (Helse : forall k s, store (elsewhere k s) = store s).

(** The request a message carries. *)
Definition carried (data : pyval) : res (odict string pyval) :=
  match data with
  | VBytes raw => Files.decode_upload_batch raw
  | VDict d => Ok d
  | _ => Raise (TypeError "object has no attribute 'get'")
  end.

(** The state in which a worker that passed the checks in [s] turns to the
    store. *)
Definition turn (c : PrivateMessageContext) (s : Server A) : Server A :=
  elsewhere 0 (fst (require_authorized others (pm_session c) (wall s) s)).
Definition asker (c : PrivateMessageContext) (s : Server A) : string := default "" (authenticated_user (session_obj (pm_session c) (turn c s))).

Lemma serve_store c data s : let s' := fst (serve others elsewhere reply c data s) in
  store s' = store s \/
  (admitted c s = true /\ snd (require_authorized others (pm_session c) (wall s) s) = Ok tt /\
   exists rq, carried data = Ok rq /\ store s' = fst (Files.request (asker c s) rq (wall (turn c s)) (store s))).
Proof.
  unfold serve. rewrite (bind_ok get _ s s s eq_refl). destruct (admitted c s); [|by left]. cbn [negb].
  pose proof (service_require_authorized (pm_session c) (wall s) s) as Hs. unfold asker, turn.
  destruct (require_authorized others (pm_session c) (wall s) s) as [s1 [[]|e]] eqn:E; cbn [fst] in *;
    [rewrite (bind_ok _ _ _ _ _ E)|rewrite (bind_raise _ _ _ _ _ E); left; cbn [fst]; by rewrite Hs].
  rewrite (bind_ok (modify _) _ s1 (elsewhere 0 s1) tt eq_refl). set (s2 := elsewhere 0 s1).
  assert (store s2 = store s) as E2 by (unfold s2; rewrite Helse; by rewrite Hs).
  rewrite (bind_ok get _ s2 s2 s2 eq_refl). fold (carried data). destruct (carried data) as [rq|e] eqn:Ec; [|by left].
  rewrite (bind_ok (lift (Ok rq)) _ s2 s2 rq eq_refl). right. split; [done|]. split; [done|]. exists rq. split; [done|].
  set (u := default "" _). rewrite <- E2.
  assert (forall x, store (fst (in_store (Files.request u rq (wall s2)) s2)) = x -> x = fst (Files.request u rq (wall s2) (store s2))) as Hx.
  { intros x <-. by rewrite in_store_eq; cbn [fst]; rewrite service_set. }
  unfold bind at 1. destruct (in_store _ s2) as [s3 [v|e]]; cbn [fst] in *; [|by apply Hx].
  rewrite (bind_ok (modify _) _ s3 (elsewhere 1 s3) tt eq_refl), (bind_ok (gets _) _ _ _ _ eq_refl).
  case_bool_decide; [|cbn [fst ret]; rewrite Helse; by apply Hx].
  apply Hx. rewrite <- (Helse 1 s3). pose proof (Hreply c (success v) (elsewhere 1 s3)) as Hr. unfold stays in Hr. by rewrite Hr.
Qed.

Lemma store_release b : moves (stays (fun s : Server A => store s)) (release b).
Proof. unfold release. repeat moves_step. intros s. unfold stays. by rewrite service_on_pool. Qed.

Lemma work_store b c data s : store (fst (work others elsewhere reply b c data s)) = store (fst (serve others elsewhere reply c data s)).
Proof.
  unfold work, finally, try_catch. destruct (serve others elsewhere reply c data s) as [s1 [[]|e]]; cbn [fst].
  - pose proof (store_release b s1) as Hr. destruct (release b s1) as [s2 [[]|]]; exact Hr.
  - pose proof (Hreply c (failure (failure_code e)) s1) as Hp. destruct (reply c _ s1) as [s2 r]. pose proof (store_release b s2) as Hr.
    unfold stays in *. cbn [fst] in *. destruct (release b s2) as [s3 [[]|]]; cbn [fst] in *; by rewrite Hr, Hp.
Qed.

(** The session of a message is authenticated, unexpired and attached over the
    transport the message came on. *)
Record entitled (c : PrivateMessageContext) (s : Server A) : Prop := {
  ent_promoted : provisional (session_obj (pm_session c) s) = false;
  ent_user : exists u, authenticated_user (session_obj (pm_session c) s) = Some u /\ u ≠ "";
  ent_live : wall s < expires_at (session_obj (pm_session c) s);
  ent_transport : private_transport (session_obj (pm_session c) s) = Some (pm_transport c)
}.

Lemma admitted_entitled c s : admitted c s = true -> entitled c s.
Proof.
  unfold admitted, has_user. rewrite !andb_true_iff, !negb_true_iff, Z.leb_gt, bool_decide_eq_true.
  intros [[[Q1 Q2] Q3] Q4]. split; [done| |done|done]. destruct (authenticated_user _) as [u|]; [|done].
  exists u. split; [done|]. by apply negb_true_iff, bool_decide_eq_false in Q2.
Qed.

End confined.

(** ** Slots *)

Definition total (p : pool) : nat := free p + length (waiting p) + running p.
Definition account (b : bool) (s : Server A) : nat := total (pool_of b (service s)).
Definition busy (b : bool) (s : Server A) : Prop := (0 < running (pool_of b (service s)))%nat.

(** No slot is lost while tasks are accepted, none is ever made up. *)
Record balanced (s s' : Server A) : Prop := {
  bal_le : forall b, (account b s' <= account b s)%nat;
  bal_eq : accepting (service s') = true -> accepting (service s) = true /\ forall b, account b s' = account b s
}.
#[export] Instance balanced_preorder : PreOrder balanced.
Proof.
  split; [by intros s; split|]. intros s1 s2 s3 [L1 E1] [L2 E2]. split; [intros b; etrans; [apply L2|apply L1]|].
  intros Ha. destruct (E2 Ha) as [Ha2 E]. destruct (E1 Ha2) as [Ha1 E']. split; [done|]. intros b. by rewrite E.
Qed.

(** What a worker of pool [b] and the other threads do while it runs. *)
Definition fair (b : bool) (s s' : Server A) : Prop := balanced s s' /\ (busy b s -> busy b s').
#[export] Instance fair_preorder b : PreOrder (fair b).
Proof. split; [by intros s|]. intros s1 s2 s3 [A1 A2] [B1 B2]. split; [by etrans|auto]. Qed.

Lemma fair_same b (s s' : Server A) : (forall c, pool_of c (service s') = pool_of c (service s)) -> accepting (service s') = accepting (service s) -> fair b s s'.
Proof. intros E Ea. unfold fair, busy. rewrite E. split; [|done]. split; unfold account; [intros c; by rewrite E|]. rewrite Ea. intros ->. split; [done|]. intros c. by rewrite E. Qed.

Section slots.
Context (Hreply : forall c v, moves (stays service) (reply c v)).
Context (Hfair : forall k b s, fair b s (elsewhere k s)).

Lemma fair_stays b {B} (m : M (Server A) B) : moves (stays service) m -> moves (fair b) m.
Proof. intros Hm s. specialize (Hm s). apply fair_same; intros; by rewrite Hm. Qed.

Lemma fair_in_store b {B} (m : M Files.FileStore B) : moves (fair b) (in_store (A := A) m).
Proof. intros s. rewrite in_store_eq. cbn [fst]. by apply fair_same; [intros []|]; rewrite service_set. Qed.

Lemma fair_serve b c data : moves (fair b) (serve others elsewhere reply c data).
Proof.
  unfold serve. repeat (moves_step || apply fair_in_store || apply Hfair || (apply fair_stays; apply Hreply) || (apply fair_stays; apply service_require_authorized)).
Qed.

Lemma account_on_pool b f c (s : Server A) : account c (fst (on_pool b f s)) = if decide (c = b) then total (f (pool_of b (service s))) else account c s.
Proof. unfold account. rewrite service_on_pool. by destruct b, c. Qed.

Lemma release_balanced b (s : Server A) : busy b s -> (account b s <= limit b)%nat -> balanced s (fst (release b s)) /\ snd (release b s) = Ok tt.
Proof.
  unfold busy, account, total. intros Hb Ht. unfold release. rewrite (bind_ok (gets service) _ s s _ eq_refl).
  rewrite (proj2 (Nat.leb_gt _ _)) by lia. split; [|done].
  assert (forall c, account c (fst (on_pool b (fun p => {| free := S (free p); waiting := waiting p; running := running p - 1 |}) s)) = account c s) as E.
  { intros c. rewrite account_on_pool. case_decide as Hc; [subst c|done]. unfold account, total. cbn [free waiting running]. lia. }
  split; [intros c; by rewrite E|]. rewrite service_on_pool. intros Ha. by split.
Qed.

Lemma worker_balanced b (s : Server A) : (account b s <= limit b)%nat -> balanced s (fst (worker others elsewhere reply b s)).
Proof.
  intros Ht. unfold worker. rewrite (bind_ok (gets service) _ s s _ eq_refl). destruct (waiting (pool_of b (service s))) as [|[c data] rest] eqn:Ew; [done|].
  unfold bind at 1. set (start := on_pool b _ s).
  assert (balanced s (fst start) /\ busy b (fst start)) as [Hs Hb].
  { unfold start. assert (forall d, account d (fst (on_pool b (fun p => {| free := free p; waiting := rest; running := S (running p) |}) s)) = account d s) as E.
    { intros d. rewrite account_on_pool. case_decide as Hd; [subst d|done]. unfold account, total. rewrite Ew. cbn [free waiting running length]. lia. }
    split; [split; [intros d; by rewrite E|]; rewrite service_on_pool; by split|].
    unfold busy. rewrite service_on_pool. destruct b; cbn [pool_of set_pool transfers controls running]; lia. }
  change start with (fst start, Ok tt : res unit). cbv iota. set (s1 := fst start) in *. etrans; [exact Hs|].
  unfold try_catch at 1, work, finally.
  set (tried := try_catch (serve others elsewhere reply c data) _ _). assert (fair b s1 (fst (tried s1))) as [Hbal Hbusy].
  { unfold tried. apply moves_try; [apply _|apply fair_serve|intros e; apply fair_stays, Hreply]. }
  destruct (tried s1) as [s2 r]. cbn [fst] in *. specialize (Hbusy Hb).
  destruct (release_balanced b s2 Hbusy) as [Hr Ho]; [etrans; [apply Hbal|]; etrans; [apply Hs|exact Ht]|].
  destruct (release b s2) as [s3 o]. cbn [fst snd] in *. subst o. destruct r as [[]|e]; cbn [fst]; by etrans.
Qed.

Lemma handle_balanced ctx data : moves balanced (handle reply ctx data).
Proof.
  intros s. destruct ctx as [m|c]; [done|]. cbn [handle]. case_bool_decide; [|done]. cbn [negb]. rewrite (bind_ok (gets service) _ s s _ eq_refl).
  set (b := is_bulk data). destruct (Nat.eqb_spec (free (pool_of b (service s))) 0) as [|Hf]; [apply (fair_stays b), Hreply|].
  set (take := fun p : pool => {| free := free p - 1; waiting := waiting p; running := running p |}).
  rewrite (bind_ok (on_pool b take) _ s (fst (on_pool b take s)) tt eq_refl). set (s1 := fst (on_pool b take s)).
  assert (forall d, account d s1 = if decide (d = b) then (account b s - 1)%nat else account d s) as E1.
  { intros d. unfold s1. rewrite account_on_pool. case_decide; [|done]. unfold account, total, take. cbn [free waiting running]. lia. }
  assert (accepting (service s1) = accepting (service s)) as Ea by (unfold s1; rewrite service_on_pool; by destruct b).
  assert (0 < account b s)%nat as Hpos by (unfold account, total; lia).
  destruct (accepting (service s)) eqn:Eacc.
  - assert (forall d, account d (fst (on_pool b (fun p => {| free := free p; waiting := waiting p ++ [(c, data)]; running := running p |}) s1)) = account d s) as E.
    { intros d. rewrite account_on_pool. specialize (E1 d). case_decide as Hd; [subst d|done].
      unfold account, total in E1. unfold total. cbn [free waiting running]. rewrite length_app. cbn [length].
      unfold account, total in Hpos |- *. lia. }
    split; [intros d; by rewrite E|]. intros _. by split.
  - split; [intros d; cbn [fst]; rewrite E1; case_decide; subst; lia|]. cbn [raise fst]. congruence.
Qed.

Inductive event := Handle (ctx : MessageContext + PrivateMessageContext) (data : pyval) | Worker (b : bool) | Cleanup | Shutdown.
Definition step (s : Server A) (e : event) : Server A :=
  fst (match e with
       | Handle ctx data => handle reply ctx data
       | Worker b => worker others elsewhere reply b
       | Cleanup => cleanup_pass
       | Shutdown => shutdown others elsewhere reply
       end s).
Definition within (s : Server A) : Prop := forall b, (account b s <= limit b)%nat.

Lemma within_balanced s s' : within s -> balanced s s' -> within s'.
Proof. intros Hw [Hl _] b. etrans; [apply Hl|apply Hw]. Qed.

Lemma workers_balanced bs s : within s -> balanced s (fst (iterM (worker others elsewhere reply) bs s)).
Proof.
  revert s. induction bs as [|b bs IH]; intros s Hw; [done|]. cbn [iterM]. pose proof (worker_balanced b s (Hw b)) as Hb. unfold bind.
  destruct (worker others elsewhere reply b s) as [s1 [[]|e]]; [|done]. cbn [fst] in Hb. etrans; [exact Hb|]. apply IH. by eapply within_balanced.
Qed.

Lemma step_balanced e s : within s -> balanced s (step s e).
Proof.
  intros Hw. destruct e as [ctx data|b| |]; cbn [step].
  - apply handle_balanced. - by apply worker_balanced.
  - assert (moves (fair true) (cleanup_pass (A := A))) as Hc by (unfold cleanup_pass; repeat (moves_step || apply fair_in_store)). apply Hc.
  - unfold shutdown. set (off := in_files (modify (set_accepting false))). assert (balanced s (fst (off s))) as Hoff.
    { unfold off, in_files, zoom, modify. cbn [fst]. split; unfold account; rewrite service_set; [by intros []|done]. }
    change (balanced s (fst (bind off (fun _ => let! f := gets service in iterM (worker others elsewhere reply)
      (replicate (length (waiting (transfers f))) true ++ replicate (length (waiting (controls f))) false)) s))).
    rewrite (bind_ok off _ s (fst (off s)) tt eq_refl), (bind_ok (gets service) _ _ _ _ eq_refl).
    etrans; [exact Hoff|]. apply workers_balanced. by eapply within_balanced.
Qed.

(** whatever requests, workers, cleanups and shutdowns come in whatever
    order, with whatever errors and whatever other threads do fairly meanwhile,
    the free slots of a pool, the tasks waiting and the tasks running together
    never exceed the pool's limit, and equal it until shutdown: no path
    through the handler leaks a slot or releases one twice. *)
Theorem file_slots_conserved es s data_dir b (Hinit : service s = init data_dir) :
  let s' := fold_left step es s in
  (account b s' <= limit b)%nat /\ (accepting (service s') = true -> account b s' = limit b).
Proof.
  assert (forall c, account c s = limit c) as E0 by (intros c; unfold account; rewrite Hinit; by destruct c).
  assert (within s) as Hw by (intros c; by rewrite E0).
  assert (balanced s (fold_left step es s)) as [Hl He].
  { clear Hinit E0. revert s Hw. induction es as [|e es IH]; intros s Hw; [done|]. cbn [fold_left].
    etrans; [by apply step_balanced|]. apply IH. eapply within_balanced; [done|by apply step_balanced]. }
  cbv zeta. split; [etrans; [apply Hl|]; by rewrite E0|]. intros Ha. destruct (He Ha) as [_ E]. by rewrite E, E0.
Qed.
End slots.
End facts.

(** ** Examples *)

Module Demo.
#[local] Existing Instances QortalThm.Demo.ascii_unicode QortalThm.Demo.toy_crypto AuthThm.Demo.world AuthThm.Demo.world_ok.
Definition App : Type := QAppAuthenticationService * FileService.
#[local] Instance auth_lens : HasAuth App := {| auth_of := fst; put_auth := fun x a => (x, snd a) |}.
#[local] Instance auth_laws : HasAuthLaws App.
Proof. by split. Qed.
#[local] Instance files_lens : HasFiles App := {| files_of := snd; put_files := fun x a => (fst a, x) |}.
#[local] Instance files_laws : HasFilesLaws App.
Proof. by split. Qed.

(** An authenticated session attached over transport 7. *)
Definition attached : Server App :=
  let s := AuthThm.Demo.authenticated in
  {| max_unauthenticated_sessions := 8; max_logical_sessions_per_link := 4; max_new_sessions_per_link_per_minute := 4;
     idle_connection_timeout := 300; srv_ack_timeout := 120; sessions := on_obj 0 (set_private_transport (Some 7%nat)) (sessions s);
     logical_sessions := ∅; connections := []; conns := ∅; tokens := tokens s;
     _media_grant_files := ∅; media_files := ∅; revocations := []; closed_transports := []; io_failures := []; wall := 1000; mono := 1;
     entropy := entropy s; drawn := 0; shutting_down := false; app := (AuthThm.Demo.service, init (FileInv.empty_store 16 [])) |}.
Definition ctx : PrivateMessageContext :=
  {| pm_session := 0; pm_message_id := "m1"; pm_logical_id := "conn-1"; pm_lane := "reliable"; pm_transport := 7 |}.
Definition quiet (_ : nat) (s : Server App) : Server App := s.
Definition no_reply (_ : PrivateMessageContext) (_ : pyval) : M (Server App) unit := ret tt.
Definition after : Server App := fst (work [] quiet no_reply false ctx (VDict FileThm.Demo.create_data) attached).

Lemma no_reply_stays c v : moves (stays service) (no_reply c v).
Proof. by intros s. Qed.


(** A request queued, refused work for want of a session, and a shutdown. *)
Definition history : list event := [Handle (inr ctx) (VDict FileThm.Demo.create_data); Worker false; Handle (inr ctx) (VBytes []); Shutdown].

Lemma file_slots_conserved_witness : (account true (fold_left (step [] quiet no_reply) history attached) <= 16)%nat.
Proof.
  apply (file_slots_conserved [] quiet no_reply no_reply_stays (fun _ _ _ => conj (reflexivity _) (fun h => h)) history attached
    (FileInv.empty_store 16 []) true). reflexivity.
Defined.
End Demo.
End HandlerThm.
