(* ===== verification/PyNumber.v ===== *)
(** * Numbers from text

    [int(s)] and [float(s)] of a string: surrounding white space, a sign,
    decimal digits with single underscores between them, and for floats a
    fraction, an exponent and the names of the special values.  Decimal digits
    of other scripts, which Python accepts too, are rejected.  A float is the
    decimal number its literal denotes, without rounding to 53 bits. *)

From stdpp Require Import prelude strings list.
From Stdlib Require Import ZArith Lia.
From S2P Require Import Prelude PyBytes PyValue QortalIdentity.

Module Number.
Definition UNDERSCORE : byte := Byte.x5f.

(** The digits of a literal without its underscores. *)
Fixpoint plain_digits (l : bytes) : option bytes :=
  match l with
  | [] => None
  | [d] => if is_digit d then Some [d] else None
  | d :: ((u :: l1) as l') =>
    if negb (is_digit d) then None
    else (d ::.) <$> (if is_char "_" u then plain_digits l1 else plain_digits l')
  end.

Definition split_sign (l : bytes) : Z * bytes :=
  match l with
  | b :: l' => if is_char "-" b then (-1, l') else if is_char "+" b then (1, l') else (1, l)
  | [] => (1, [])
  end.

Definition int_of_bytes (l : bytes) : res Z :=
  let '(sign, body) := split_sign l in
  match plain_digits body with
  | Some ds => Ok (sign * digits_value ds)
  | None => Raise (ValueError "invalid literal for int() with base 10")
  end.

Definition int_of_str `{Qortal.Unicode} (s : string) : res Z := int_of_bytes (str_bytes (Qortal.strip s)).

(** [s.rsplit(c, 1)] when it has two parts. *)
Definition rsplit (c : byte -> bool) (l : bytes) : option (bytes * bytes) :=
  match split_at c (rev l) with
  | (last, Some first) => Some (rev first, rev last)
  | (_, None) => None
  end.

(** ** Floats *)

(** [mantissa * 10 ^ exponent], an infinity, or not a number. *)
Inductive pyfloat := Finite (mantissa exponent : Z) | Infinite (negative : bool) | NaN.
#[export] Instance pyfloat_eq_dec : EqDecision pyfloat.
Proof. solve_decision. Defined.

(** [f <= n] and [n <= f] for an integer [n] *)
Definition float_le (f : pyfloat) (n : Z) : bool :=
  match f with
  | Finite m e => if 0 <=? e then m * 10 ^ e <=? n else m <=? n * 10 ^ (- e)
  | Infinite negative => negative
  | NaN => false
  end.
Definition float_ge (f : pyfloat) (n : Z) : bool :=
  match f with
  | Finite m e => if 0 <=? e then n <=? m * 10 ^ e else n * 10 ^ (- e) <=? m
  | Infinite negative => negb negative
  | NaN => false
  end.
Definition isfinite (f : pyfloat) : bool := match f with Finite _ _ => true | _ => false end.

(** [int(f)] *)
Definition truncate (f : pyfloat) : res Z :=
  match f with
  | Finite m e => Ok (if 0 <=? e then m * 10 ^ e else Z.quot m (10 ^ (- e)))
  | Infinite _ => Raise OverflowError
  | NaN => Raise (ValueError "cannot convert float NaN to integer")
  end.

(** The digits of a part that may be empty. *)
Definition part_digits (l : bytes) : option bytes := match l with [] => Some [] | _ => plain_digits l end.

Definition float_of_bytes (lower : string -> string) (l : bytes) : res pyfloat :=
  let bad := Raise (ValueError "could not convert string to float") in
  let '(sign, body) := split_sign l in
  let word := lower (bytes_str body) in
  if bool_decide (word = "inf") || bool_decide (word = "infinity") then Ok (Infinite (sign <? 0))
  else if bool_decide (word = "nan") then Ok NaN
  else
    let '(mantissa, exponent) := split_at (is_char "eE") body in
    let '(int_part, fraction) := split_at (is_char ".") mantissa in
    let e := match exponent with
      | None => Some 0
      | Some x => let '(esign, digits) := split_sign x in (fun ds => esign * digits_value ds) <$> plain_digits digits end in
    match part_digits int_part, part_digits (default [] fraction), e with
    | Some i, Some f, Some x =>
      if (length i + length f =? 0)%nat then bad else Ok (Finite (sign * digits_value (i ++ f)) (x - Z.of_nat (length f)))
    | _, _, _ => bad
    end.

Definition float_of_str `{Qortal.Unicode} (s : string) : res pyfloat := float_of_bytes Qortal.lower (str_bytes (Qortal.strip s)).

(** The float of a literal in a document. *)
Definition float_of_literal (s : string) : pyfloat :=
  match float_value s with
  | Some (m, e) => Finite m e
  | None => if bool_decide (s = "NaN") then NaN else Infinite (match str_bytes s with b :: _ => is_char "-" b | [] => false end)
  end.

Example float_fraction : float_of_bytes id (str_bytes "-1_0.25e-3") = Ok (Finite (-1025) (-5)).
Proof. reflexivity. Qed.
Example float_point : is_ok (float_of_bytes id (str_bytes ".")) = false.
Proof. reflexivity. Qed.
Example int_grouped : int_of_bytes (str_bytes "-1_024") = Ok (-1024).
Proof. reflexivity. Qed.
Example int_trailing_underscore : is_ok (int_of_bytes (str_bytes "10_")) = false.
Proof. reflexivity. Qed.
Example rsplit_address : rsplit (is_char ":") (str_bytes "[::1]:443") = Some (str_bytes "[::1]", str_bytes "443").
Proof. reflexivity. Qed.
End Number.
