(* ===== verification/NativeServer.v ===== *)
(** * The control plane of the native transport ([private_transport/native_server.py])

    The native process terminates QUIC and asks the backend over a socket pair:
    to attach a connection to a session, to serve file metadata, to validate a
    connection and to deliver application messages.  The reader thread admits
    requests while a slot of their pool is free, a worker thread runs
    [_dispatch]; an application answers a message later through the transport.

    The socket is the list of the values written to it with a script of write
    failures; what other threads do while a dispatcher has released the lock is
    [elsewhere].  The child's control messages have the fields of its control
    struct, so [op], [connection], [lane], [messageId] and [peer] are strings
    where present.  Starting and stopping the process are in [NativeProcess]. *)

From stdpp Require Import prelude strings list gmap.
From Stdlib Require Import ZArith Lia.
From S2P Require Import Prelude PyDict PyBytes PyValue Json JsonBytes Database Sessions Protocol Connection Server QortalIdentity PyNumber GroupAccess AuthService PrivateService FileStore NativeFiles FileHandler.

Module Native.
Import Protocol Connection Server Auth PrivateTransport FileHandler.

Definition MAX_IPC_LINE : Z := 128 * 1024.
Definition MAX_CONNECTIONS : nat := 256.
Definition MAX_PENDING : nat := 128.
Definition POOL_SLOTS : nat := 32.

(** [NativeTransport] *)
Record NativeTransport := { nt_connection : string; nt_session : option nat; nt_pending : odict (string * string) pyval }.

(** [NativeQuicServer].  A transport object is a number; [attaching] maps an
    identifier to whether its event is set; a pool is its free slots and the
    requests submitted and not yet finished. *)
Record NativeQuicServer := {
  native_connections : odict string nat;
  transports : gmap nat NativeTransport;
  next_transport : nat;
  attaching : gmap string bool;
  stopping : bool;
  slots : bool -> nat;
  submitted : list (odict string pyval * bool);
  sent : list pyval;
  write_failures : list bool;
  server_stop : bool
}.

Definition set_native_connections (x : odict string nat) (n : NativeQuicServer) : NativeQuicServer :=
  {| native_connections := x; transports := transports n; next_transport := next_transport n; attaching := attaching n;
     stopping := stopping n; slots := slots n; submitted := submitted n; sent := sent n; write_failures := write_failures n; server_stop := server_stop n |}.
Definition set_transports (x : gmap nat NativeTransport) (k : nat) (n : NativeQuicServer) : NativeQuicServer :=
  {| native_connections := native_connections n; transports := x; next_transport := k; attaching := attaching n;
     stopping := stopping n; slots := slots n; submitted := submitted n; sent := sent n; write_failures := write_failures n; server_stop := server_stop n |}.
Definition set_attaching (x : gmap string bool) (n : NativeQuicServer) : NativeQuicServer :=
  {| native_connections := native_connections n; transports := transports n; next_transport := next_transport n; attaching := x;
     stopping := stopping n; slots := slots n; submitted := submitted n; sent := sent n; write_failures := write_failures n; server_stop := server_stop n |}.
Definition set_stopping (x y : bool) (n : NativeQuicServer) : NativeQuicServer :=
  {| native_connections := native_connections n; transports := transports n; next_transport := next_transport n; attaching := attaching n;
     stopping := x; slots := slots n; submitted := submitted n; sent := sent n; write_failures := write_failures n; server_stop := y |}.
Definition set_work (x : bool -> nat) (q : list (odict string pyval * bool)) (n : NativeQuicServer) : NativeQuicServer :=
  {| native_connections := native_connections n; transports := transports n; next_transport := next_transport n; attaching := attaching n;
     stopping := stopping n; slots := x; submitted := q; sent := sent n; write_failures := write_failures n; server_stop := server_stop n |}.
Definition set_socket (x : list pyval) (fs : list bool) (n : NativeQuicServer) : NativeQuicServer :=
  {| native_connections := native_connections n; transports := transports n; next_transport := next_transport n; attaching := attaching n;
     stopping := stopping n; slots := slots n; submitted := submitted n; sent := x; write_failures := fs; server_stop := server_stop n |}.

Definition init : NativeQuicServer :=
  {| native_connections := []; transports := ∅; next_transport := 0; attaching := ∅; stopping := false; slots := fun _ => POOL_SLOTS;
     submitted := []; sent := []; write_failures := []; server_stop := false |}.

Definition no_transport : NativeTransport := {| nt_connection := ""; nt_session := None; nt_pending := [] |}.
Definition transport_obj (t : nat) (n : NativeQuicServer) : NativeTransport := default no_transport (transports n !! t).
Definition on_transport (t : nat) (f : NativeTransport -> NativeTransport) (n : NativeQuicServer) : NativeQuicServer :=
  set_transports (<[t := f (transport_obj t n)]> (transports n)) (next_transport n) n.
Definition set_nt_session (r : option nat) (x : NativeTransport) : NativeTransport :=
  {| nt_connection := nt_connection x; nt_session := r; nt_pending := nt_pending x |}.
Definition set_nt_pending (p : odict (string * string) pyval) (x : NativeTransport) : NativeTransport :=
  {| nt_connection := nt_connection x; nt_session := nt_session x; nt_pending := p |}.

(** Where the server's state is in the applications' state. *)
Class HasNative (A : Type) := { native_of : A -> NativeQuicServer; put_native : NativeQuicServer -> A -> A }.
Class HasNativeLaws (A : Type) `{HasNative A, HasAuth A, HasPrivate A, HasFiles A} : Prop := {
  native_of_put : forall x a, native_of (put_native x a) = x;
  native_of_put_auth : forall x a, native_of (put_auth x a) = native_of a;
  native_of_put_private : forall x a, native_of (put_private x a) = native_of a;
  native_of_put_files : forall x a, native_of (put_files x a) = native_of a;
  auth_of_put_native : forall x a, auth_of (put_native x a) = auth_of a;
  files_of_put_native : forall x a, files_of (put_native x a) = files_of a;
  files_of_put_private : forall x a, files_of (put_private x a) = files_of a
}.

(** [request[key]] where the child's struct has a string *)
Definition str_item (d : odict string pyval) (key : string) : res string :=
  match od_get key d with
  | Some (VStr s) => Ok s
  | Some _ => Raise (TypeError "not a string")
  | None => Raise (KeyError key)
  end.
Definition op_is (d : odict string pyval) (op : string) : bool := eq_str (dget "op" d) op.

(** The peer address of an attach request; only whether it parses matters. *)
Definition peer_address `{Qortal.Unicode} (d : odict string pyval) : res unit :=
  match dget "peer" d with
  | VStr peer =>
    if bool_decide (peer = "") then Ok tt else
    match Number.rsplit (is_char ":") (str_bytes peer) with
    | Some (_, port) => let? _ := Number.int_of_str (bytes_str port) in Ok tt
    | None => Raise (ValueError "not enough values to unpack (expected 2, got 1)")
    end
  | _ => Ok tt
  end.

Definition answer (id result : pyval) : pyval := VDict [("id", id); ("ok", VBool true); ("result", result)].
Definition refusal (id : pyval) (code : string) : pyval := VDict [("id", id); ("ok", VBool false); ("error", VStr code)].

(** The exceptions [_dispatch] reports with a code of its own. *)
Definition is_refusal (e : exn) : bool :=
  match e with GroupAccessDenied | GroupAccessUnavailable => true | _ => is_ValueError e end.
Definition refusal_code (e : exn) : string := match e with FileError code => code | _ => "BACKEND_ACCESS_DENIED" end.

(** The local variables of [_dispatch] that its [finally] block reads. *)
Record locals := { l_transport : option nat; l_delegated : bool }.

Section server.
Context {A : Type} `{HasAuth A} `{HasPrivate A} `{HasFiles A} `{HasNative A}.
Context `{Qortal.Unicode} `{Qortal.Crypto} `{GroupAccess.World}.
Context (others : list (GroupAccess.GroupAccessPolicy -> GroupAccess.GroupAccessPolicy)).
Context (elsewhere : nat -> Server A -> Server A).
Context (message_handlers : gmap string (PrivateMessageContext -> pyval -> M (Server A) unit)).

Abbreviation SrvM := (M (Server A)).

Definition native (s : Server A) : NativeQuicServer := native_of (app s).
Definition in_native {B} (m : M NativeQuicServer B) : SrvM B := zoom native (fun x s => set_app (put_native x (app s)) s) m.

(** [send] *)
Definition send (value : pyval) : SrvM unit :=
  let! text := lift (dumps true value) in
  if MAX_IPC_LINE <? Z.of_nat (length (str_bytes text)) + 1 then raise (ValueError "Native control response too large") else
  let! n := gets native in
  if stopping n then ret tt else
  match write_failures n with
  | true :: fs => in_native (modify (set_socket (sent n) fs)) ;! raise OSError
  | fs => in_native (modify (set_socket (sent n ++ [value]) (tail fs)))
  end.

(** [NativeTransport.send_json] *)
Definition send_json (t : nat) (lane message_id : string) (value : pyval) : SrvM unit :=
  let! n := gets native in
  match od_get (lane, message_id) (nt_pending (transport_obj t n)) with
  | Some id =>
    in_native (modify (on_transport t (fun x => set_nt_pending (od_pop (lane, message_id) (nt_pending x)) x))) ;!
    send (answer id value)
  | None => ret tt
  end.

(** [PrivateMessageContext.reply] over such a transport *)
Definition context_reply (c : PrivateMessageContext) (value : pyval) : SrvM unit := send_json (pm_transport c) (pm_lane c) (pm_message_id c) value.

(** [NativeTransport.request_close] *)
Definition request_close (t : nat) : SrvM unit :=
  let! n := gets native in
  send (VDict [("event", VStr "close"); ("connection", VStr (nt_connection (transport_obj t n)))]).

(** [_detach] *)
Definition _detach (identifier : string) : SrvM unit :=
  let! n := gets native in
  in_native (modify (fun n => set_attaching (alter (fun _ => true) identifier (attaching n)) n)) ;!
  in_native (modify (fun n => set_native_connections (od_pop identifier (native_connections n)) n)) ;!
  match od_get identifier (native_connections n) with
  | Some t => match nt_session (transport_obj t n) with Some r => detach r t | None => ret tt end
  | None => ret tt
  end.

(** [_authorized] *)
Definition _authorized (t : nat) : SrvM nat :=
  let! s := get in
  match nt_session (transport_obj t (native s)) with
  | Some r =>
    let o := session_obj r s in
    if provisional o || negb (has_user o) || (expires_at o <=? wall s) || negb (bool_decide (private_transport o = Some t))
    then raise (FileError "AUTHENTICATION_REQUIRED")
    else require_authorized others r (wall s) ;! ret r
  | None => raise (FileError "AUTHENTICATION_REQUIRED")
  end.

(** ** Dispatch *)

Abbreviation DM := (M (Server A * locals)).
Definition srv {B} (m : SrvM B) : DM B := zoom fst (fun x sl => (x, snd sl)) m.
Definition set_local_transport (t : option nat) : DM unit :=
  modify (fun sl => (fst sl, {| l_transport := t; l_delegated := l_delegated (snd sl) |})).
Definition set_delegated : DM unit :=
  modify (fun sl => (fst sl, {| l_transport := l_transport (snd sl); l_delegated := true |})).

(** [NativeTransport(self, identifier)] *)
Definition new_transport (identifier : string) : SrvM nat :=
  let! n := gets native in
  let t := next_transport n in
  in_native (modify (fun n => set_transports
    (<[t := {| nt_connection := identifier; nt_session := None; nt_pending := [] |}]> (transports n)) (S t) n)) ;!
  ret t.

(** Why a connection cannot be attached now. *)
Definition unavailable (identifier : string) (n : NativeQuicServer) : bool :=
  match attaching n !! identifier with Some false => false | _ => true end
  || od_mem identifier (native_connections n) || (MAX_CONNECTIONS <=? length (native_connections n))%nat || stopping n.

(** The part of an attach under the server's lock. *)
Definition attach_locked (identifier : string) (t : nat) (request : odict string pyval) : SrvM unit :=
  let! n := gets native in
  if unavailable identifier n then raise (ValueError "connection unavailable") else
  let! metadata := lift (getitem request "metadata") in
  let! r := attach t metadata in
  in_native (modify (on_transport t (set_nt_session (Some r)))) ;!
  in_native (modify (fun n => set_native_connections (od_set identifier t (native_connections n)) n)).

(** [op == 'attach'] *)
Definition attach_connection (identifier : string) (request : odict string pyval) : DM pyval :=
  let! t := srv (new_transport identifier) in
  set_local_transport (Some t) ;!
  srv (lift (peer_address request)) ;!
  srv (attach_locked identifier t request) ;!
  srv (modify (elsewhere 0)) ;!
  let! r := srv (_authorized t) in
  let! o := srv (gets (session_obj r)) in
  ret (VDict [("logicalSessionId", VStr (session_id o)); ("expiresAt", VInt (expires_at o / 1000))]).

(** [op == 'file'] *)
Definition file_metadata (r : nat) (request : odict string pyval) : SrvM pyval :=
  let! s := get in
  let! metadata := lift (getitem request "metadata") in
  match metadata with
  | VDict d =>
    let! '(_, token) := draw in
    in_store (NativeFiles.native_file_request (default "" (authenticated_user (session_obj r s))) d (wall s) (mono s) token)
  | _ => raise (TypeError "object has no attribute 'get'")
  end.

(** [op == 'message'] *)
Definition deliver (t r : nat) (request : odict string pyval) : SrvM unit :=
  let! message_id := lift (str_item request "messageId") in
  let! lane := lift (str_item request "lane") in
  let! n := gets native in
  let pending := nt_pending (transport_obj t n) in
  if (MAX_PENDING <=? length pending)%nat || od_mem (lane, message_id) pending then raise (FileError "BUSY") else
  let! id := lift (getitem request "id") in
  in_native (modify (on_transport t (fun x => set_nt_pending (od_set (lane, message_id) id (nt_pending x)) x))) ;!
  let! metadata := lift (getitem request "metadata") in
  let! payload := lift (encode_application_payload metadata) in
  handle_application_message message_handlers t r lane message_id payload.

(** The body of [_dispatch] inside its [try]. *)
Definition serve_request (request : odict string pyval) : DM unit :=
  let! op := srv (lift (str_item request "op")) in
  let! identifier := srv (lift (str_item request "connection")) in
  let respond (result : pyval) : DM unit := let! id := srv (lift (getitem request "id")) in srv (send (answer id result)) in
  if bool_decide (op = "attach") then
    let! result := attach_connection identifier request in respond result
  else
    let! n := srv (gets native) in
    match od_get identifier (native_connections n) with
    | None => raise (FileError "AUTHENTICATION_REQUIRED")
    | Some t =>
      set_local_transport (Some t) ;!
      let! r := srv (_authorized t) in
      srv (modify (elsewhere 1)) ;!
      if bool_decide (op = "file") then let! result := srv (file_metadata r request) in respond result
      else if bool_decide (op = "validate") then
        let! o := srv (gets (session_obj r)) in respond (VDict [("expiresAt", VInt (expires_at o / 1000))])
      else if bool_decide (op = "message") then srv (deliver t r request) ;! set_delegated
      else raise (ValueError "unsupported native request")
    end.

(** Its [except] blocks. *)
Definition refuse (request : odict string pyval) (e : exn) : SrvM unit :=
  if is_refusal e then
    (if op_is request "attach" then let! identifier := lift (str_item request "connection") in _detach identifier else ret tt) ;!
    let! id := lift (getitem request "id") in send (refusal id (refusal_code e))
  else let! id := lift (getitem request "id") in send (refusal id "STORAGE_UNAVAILABLE").

(** [self.slots[pool].release()] of a bounded semaphore *)
Definition release_slot (pool : bool) : SrvM unit :=
  let! n := gets native in
  if (POOL_SLOTS <=? slots n pool)%nat then raise (ValueError "Semaphore released too many times")
  else in_native (modify (fun n => set_work (fun p => if bool_decide (p = pool) then S (slots n p) else slots n p) (submitted n) n)).

(** Its [finally] block. *)
Definition settle (request : odict string pyval) (pool : bool) : DM unit :=
  let! '(_, l) := get in
  srv ((if op_is request "message" && negb (l_delegated l) then
          match l_transport l, dget "lane" request, dget "messageId" request with
          | Some t, VStr lane, VStr message_id =>
            in_native (modify (on_transport t (fun x => set_nt_pending (od_pop (lane, message_id) (nt_pending x)) x)))
          | _, _, _ => ret tt
          end
        else ret tt) ;!
       (if op_is request "attach" then
          let! identifier := lift (str_item request "connection") in
          in_native (modify (fun n => set_attaching (delete identifier (attaching n)) n))
        else ret tt) ;!
       release_slot pool).

(** [_dispatch] *)
Definition _dispatch (request : odict string pyval) (pool : bool) : SrvM unit := fun s =>
  let '(sl, r) := finally (try_catch (serve_request request) (fun _ => true) (fun e => srv (refuse request e))) (settle request pool)
    (s, {| l_transport := None; l_delegated := false |}) in
  (fst sl, r).

(** A worker takes the oldest request of its pool; what it raises stays in its
    future. *)
Fixpoint take_request (pool : bool) (q : list (odict string pyval * bool)) : option (odict string pyval * list (odict string pyval * bool)) :=
  match q with
  | [] => None
  | (request, p) :: rest =>
    if bool_decide (p = pool) then Some (request, rest)
    else match take_request pool rest with Some (x, rest') => Some (x, (request, p) :: rest') | None => None end
  end.
Definition dispatch_next (pool : bool) : SrvM unit :=
  let! n := gets native in
  match take_request pool (submitted n) with
  | Some (request, rest) =>
    in_native (modify (set_work (slots n) rest)) ;!
    try_catch (_dispatch request pool) (fun _ => true) (fun _ => ret tt)
  | None => ret tt
  end.

(** ** The reader *)

(** One turn of the loop of [_read]; [line] is what [readline] returned. *)
Definition read_line (line : bytes) : SrvM unit :=
  if (MAX_IPC_LINE <? Z.of_nat (length line)) || negb (match last line with Some b => bool_decide (b = Byte.x0a) | None => false end)
  then raise (ValueError "Native IPC framing limit exceeded") else
  let! value := lift (loads_raw line) in
  match value with
  | VDict request =>
    (if op_is request "attach" then
       let! identifier := lift (str_item request "connection") in
       in_native (modify (fun n => set_attaching (<[identifier := false]> (attaching n)) n))
     else ret tt) ;!
    if op_is request "detach" then let! identifier := lift (str_item request "connection") in _detach identifier
    else
      let pool := op_is request "file" in
      let! n := gets native in
      if (slots n pool =? 0)%nat then
        match dget "connection" request with
        | VStr identifier => in_native (modify (fun n => set_attaching (delete identifier (attaching n)) n))
        | _ => ret tt
        end ;!
        let! id := lift (getitem request "id") in send (refusal id "BUSY")
      else
        in_native (modify (fun n => set_work (fun p => if bool_decide (p = pool) then (slots n p - 1)%nat else slots n p)
                                             (submitted n ++ [(request, pool)]) n))
  | _ => raise (TypeError "object has no attribute 'get'")
  end.

(** Its [finally] block: every connection is detached, and a loss of the child
    that was not asked for stops the server. *)
Definition reader_ended : SrvM unit :=
  let! n := gets native in
  in_native (modify (set_stopping true (server_stop n))) ;!
  iterM _detach (od_keys (native_connections n)) ;!
  in_native (modify (fun n' => set_stopping true (server_stop n' || negb (stopping n)) n')).

(** [_read] of a stream with these lines; no line is read once [stop] was
    called. *)
Definition _read (lines : list bytes) : SrvM unit :=
  finally
    (try_catch (iterM (fun line => let! n := gets native in if stopping n then ret tt else read_line line) lines)
       (fun _ => true) (fun _ => ret tt))
    reader_ended.
End server.
End Native.
