(* ===== verification/NativePlane.v ===== *)
(** * What the native control plane guarantees

    Every session attached to a native transport is attached through a
    registered connection, in every reachable state; so the end of the control
    connection detaches them all.  The native process is served file metadata
    for authorized sessions only. *)

From stdpp Require Import prelude strings list gmap.
From Stdlib Require Import ZArith Lia.
From S2P Require Import Prelude PyDict PyBytes PyValue Json JsonBytes Database Sessions SessionFacts Protocol Connection Authorization Server QortalIdentity QortalFacts PyNumber GroupAccess GroupFacts AuthService AuthFacts PrivateService PrivateFacts FileStore FileFacts FileOps FileTheorems NativeFiles NativeFacts FileHandler HandlerFacts NativeServer.

Module NativePlane.
Import Protocol Connection Server Auth PrivateTransport FileHandler Native AuthThm PrivateThm HandlerThm.

Section facts.
Context {A : Type} `{HasAuth A} `{!HasAuthLaws A} `{HasPrivate A} `{!HasPrivateLaws A} `{HasFiles A} `{!HasFilesLaws A} `{HasNative A} `{!HasNativeLaws A}.
Context `{Qortal.Unicode} `{Qortal.Crypto} `{GroupAccess.World} `{!GroupThm.WorldOk}.
Context (others : list (GroupAccess.GroupAccessPolicy -> GroupAccess.GroupAccessPolicy)).
Context (elsewhere : nat -> Server A -> Server A).
Context (message_handlers : gmap string (PrivateMessageContext -> pyval -> M (Server A) unit)).

Definition attached_to (r : nat) (s : Server A) : option nat := private_transport (session_obj r s).

(** ** The invariant *)

Record plane_inv (s : Server A) : Prop := {
  pl_wf : od_wf (native_connections (native s));
  pl_count : (length (native_connections (native s)) <= MAX_CONNECTIONS)%nat;
  pl_pending : forall t, (length (nt_pending (transport_obj t (native s))) <= MAX_PENDING)%nat;
  pl_registered : forall i t, od_get i (native_connections (native s)) = Some t ->
    (t < next_transport (native s))%nat /\ nt_connection (transport_obj t (native s)) = i /\ is_Some (nt_session (transport_obj t (native s)));
  pl_attached : forall r t, attached_to r s = Some t -> exists i,
    od_get i (native_connections (native s)) = Some t /\ nt_session (transport_obj t (native s)) = Some r
}.

(** Steps that change neither connections nor transports nor attachments. *)
Record calm (s s' : Server A) : Prop := {
  calm_connections : native_connections (native s') = native_connections (native s);
  calm_transports : transports (native s') = transports (native s);
  calm_next : next_transport (native s') = next_transport (native s);
  calm_attached : forall r, attached_to r s' = attached_to r s
}.
#[export] Instance calm_preorder : PreOrder calm.
Proof. split; [by intros s; split|]. intros s1 s2 s3 [A1 A2 A3 A4] [B1 B2 B3 B4]. split; [congruence..|]. intros r. by rewrite B4. Qed.

Lemma calm_inv s s' : calm s s' -> plane_inv s -> plane_inv s'.
Proof.
  intros [C1 C2 C3 C4] [Q1 Q2 Q3 Q4 Q5]. split; unfold transport_obj in *; rewrite ?C1, ?C2, ?C3; try done.
  intros r t. rewrite C4. apply Q5.
Qed.

Lemma calm_preserves {B} (m : M (Server A) B) : moves calm m -> preserves plane_inv m.
Proof. intros Hm s. by apply calm_inv, Hm. Qed.

Lemma native_set n (s : Server A) : native (set_app (put_native n (app s)) s) = n.
Proof. unfold native. cbn [app set_app]. apply native_of_put. Qed.

Lemma calm_native f (s : Server A) : native_connections (f (native s)) = native_connections (native s) -> transports (f (native s)) = transports (native s) ->
  next_transport (f (native s)) = next_transport (native s) -> calm s (fst (in_native (modify f) s)).
Proof. intros E1 E2 E3. unfold in_native, zoom, modify. cbn [fst]. split; rewrite ?native_set; try done. Qed.

Lemma calm_in_access {B} (m : M GroupAccess.GroupAccessPolicy B) : moves calm (in_access (A := A) m).
Proof. intros s. rewrite in_access_eq. cbn [fst]. by split; unfold native; cbn [app set_app]; rewrite ?native_of_put_auth. Qed.

Lemma calm_sessions {B} (m : SM B) : (forall x r, private_transport (obj r (fst (m x))) = private_transport (obj r x)) -> moves calm (in_sessions (A := A) m).
Proof. intros Hm s. rewrite srv_in_sessions_eq. cbn [fst]. split; try done. intros r. apply Hm. Qed.

Lemma calm_require_authorized r now : moves calm (require_authorized (A := A) others r now).
Proof.
  unfold require_authorized, set_meta, set_session. repeat (moves_step || apply calm_in_access || apply calm_sessions); intros x y.
  all: try (unfold modify; cbn [fst]; rewrite obj_on_obj; by case_decide; subst).
  apply (core_transport _ _ (proj2 (persist_core r x) y)).
Qed.

Lemma calm_in_store {B} (m : M Files.FileStore B) : moves calm (in_store (A := A) m).
Proof. intros s. rewrite in_store_eq. cbn [fst]. by split; unfold native; cbn [app set_app]; rewrite ?native_of_put_files. Qed.

Lemma calm_draw : moves calm (draw (A := A)).
Proof. unfold draw. repeat moves_step. by split. Qed.

Lemma calm_send value : moves calm (Native.send (A := A) value).
Proof. unfold Native.send. repeat (moves_step || (intros ?; by apply calm_native)). Qed.

Lemma calm_release p : moves calm (release_slot (A := A) p).
Proof. unfold release_slot. repeat (moves_step || (intros ?; by apply calm_native)). Qed.

Lemma calm_authorized t : moves calm (_authorized (A := A) others t).
Proof. unfold _authorized. repeat (moves_step || apply calm_require_authorized). Qed.

(** ** Transports *)

Lemma obj_on_transport t f t' n : transport_obj t' (on_transport t f n) = if decide (t' = t) then f (transport_obj t n) else transport_obj t' n.
Proof.
  unfold on_transport, transport_obj. cbn [transports set_transports]. case_decide as Ht; [subst t'; by rewrite lookup_insert_eq|by rewrite lookup_insert_ne].
Qed.

(** A change of the pending requests of a transport. *)
Lemma pending_inv t f (s : Server A) :
  (length (f (transport_obj t (native s))) <= MAX_PENDING)%nat -> plane_inv s ->
  plane_inv (fst (in_native (modify (on_transport t (fun x => set_nt_pending (f x) x))) s)).
Proof.
  intros Hlen [Q1 Q2 Q3 Q4 Q5]. unfold in_native, zoom, modify. cbn [fst].
  split; unfold attached_to in *; rewrite ?native_set; try done.
  - intros t'. rewrite obj_on_transport. by case_decide.
  - intros i t' Ht. destruct (Q4 i t' Ht) as (? & ? & ?). rewrite obj_on_transport. case_decide; [subst|]; done.
  - intros r t' Ht. destruct (Q5 r t' Ht) as (i & ? & ?). exists i. rewrite obj_on_transport. case_decide; [subst|]; done.
Qed.

Lemma pop_pending_preserves t k : preserves plane_inv (in_native (modify (on_transport t (fun x => set_nt_pending (od_pop k (nt_pending x)) x))) : M (Server A) unit).
Proof. intros s Hs. apply (pending_inv t (fun x => od_pop k (nt_pending x))); [|done]. etrans; [apply od_length_pop_le|apply Hs]. Qed.

Lemma send_json_preserves t lane mid value : preserves plane_inv (send_json (A := A) t lane mid value).
Proof.
  intros s Hs. unfold send_json. rewrite (bind_ok (gets native) _ s s _ eq_refl). destruct (od_get _ _) as [id|]; [|done].
  apply preserves_bind; [apply pop_pending_preserves|intros []; apply calm_preserves, calm_send|done].
Qed.

(** A transport object that no connection refers to yet. *)
Definition unregistered (t : nat) (i : string) (s : Server A) : Prop :=
  (t < next_transport (native s))%nat /\ nt_connection (transport_obj t (native s)) = i /\
  forall i', od_get i' (native_connections (native s)) ≠ Some t.

Lemma new_transport_inv i (s : Server A) : plane_inv s -> exists s' t, new_transport i s = (s', Ok t) /\ plane_inv s' /\ unregistered t i s'.
Proof.
  intros [Q1 Q2 Q3 Q4 Q5]. set (n := native s) in *. set (t := next_transport n).
  set (n' := set_transports (<[t := {| nt_connection := i; nt_session := None; nt_pending := [] |}]> (transports n)) (S t) n).
  exists (set_app (put_native n' (app s)) s), t. split; [done|].
  assert (forall t', transport_obj t' n' = if decide (t' = t) then {| nt_connection := i; nt_session := None; nt_pending := [] |} else transport_obj t' n) as Eo.
  { intros t'. unfold transport_obj, n'. cbn [transports set_transports]. case_decide as Ht; [subst t'; by rewrite lookup_insert_eq|by rewrite lookup_insert_ne]. }
  assert (forall i' t', od_get i' (native_connections n) = Some t' -> t' ≠ t) as Hne by (intros i' t' Ht; destruct (Q4 i' t' Ht); unfold t; lia).
  split.
  - split; unfold attached_to in *; rewrite ?native_set; try done.
    + intros t'. rewrite Eo. case_decide; [cbn; lia|done].
    + intros i' t' Ht. destruct (Q4 i' t' Ht) as (Hlt & ? & ?). rewrite Eo, decide_False by (by eapply Hne). cbn. split; [fold t in Hlt; lia|done].
    + intros r t' Ht. destruct (Q5 r t' Ht) as (i' & Hi & Hs). exists i'. rewrite Eo, decide_False by (by eapply Hne). done.
  - unfold unregistered. rewrite native_set. split; [cbn; lia|]. split; [by rewrite Eo, decide_True|]. intros i' Hi. by apply (Hne i' t Hi).
Qed.

Lemma attach_shape t m (s : Server A) :
  match attach t m s with
  | (s', Ok r) => native s' = native s /\ forall x, attached_to x s' = if decide (x = r) then Some t else attached_to x s
  | (s', Raise _) => native s' = native s /\ forall x, attached_to x s' = attached_to x s
  end.
Proof.
  destruct (attach_fields m) as [[[[[token sid] purpose] binding] nonce]|] eqn:Ef; [|by unfold attach; rewrite Ef].
  rewrite (attach_unfold t m s _ _ _ _ _ Ef). destruct (Attach.consume _ _ _ _ _ _ _ _ _) as [tk [[g o]|e]]; [|done].
  destruct (get_session _ _) as [r|]; [|done]. case_bool_decide; [done|]. cbv zeta. split.
  - unfold native. cbn [app set_app]. by rewrite native_of_put_private.
  - intros x. unfold attached_to, session_obj. cbn [sessions set_app set_sessions]. rewrite obj_on_obj. case_decide as Hx; [subst x; by rewrite decide_True|].
    by rewrite decide_False by congruence.
Qed.

Lemma attach_locked_inv i t rq (s : Server A) : plane_inv s -> unregistered t i s -> plane_inv (fst (attach_locked i t rq s)).
Proof.
  intros Hs (Ht & Hc & Hu). pose proof Hs as [Q1 Q2 Q3 Q4 Q5]. unfold attach_locked. rewrite (bind_ok (gets native) _ s s _ eq_refl).
  destruct (unavailable i (native s)) eqn:Hun; [done|]. destruct (getitem rq "metadata") as [m|e]; [|done].
  rewrite (bind_ok (lift (Ok m)) _ s s m eq_refl). pose proof (attach_shape t m s) as Hsh. unfold bind at 1.
  destruct (attach t m s) as [s1 [r|e]]; destruct Hsh as [En Ea]; [|apply (calm_inv s); [|exact Hs]; cbn [fst]; by split; rewrite ?En].
  unfold bind, in_native, zoom, modify. cbn [fst]. rewrite native_set, En. set (n2 := on_transport t _ (native s)).
  assert (od_get i (native_connections (native s)) = None) as Hnew.
  { unfold unavailable in Hun. apply orb_false_iff in Hun as [Hun _]. apply orb_false_iff in Hun as [Hun _]. apply orb_false_iff in Hun as [_ Hm].
    unfold od_mem in Hm. by destruct (od_get i _). }
  assert (length (native_connections (native s)) < MAX_CONNECTIONS)%nat as Hlen.
  { unfold unavailable in Hun. apply orb_false_iff in Hun as [Hun _]. apply orb_false_iff in Hun as [_ Hl]. apply Nat.leb_gt in Hl. lia. }
  assert (forall t', transport_obj t' n2 = if decide (t' = t) then set_nt_session (Some r) (transport_obj t (native s)) else transport_obj t' (native s)) as Eo
    by (intros t'; apply obj_on_transport).
  assert (forall x, attached_to x (set_app (put_native (set_native_connections (od_set i t (native_connections n2)) n2)
    (app (set_app (put_native n2 (app s1)) s1))) (set_app (put_native n2 (app s1)) s1)) = attached_to x s1) as Ea' by done.
  split; rewrite ?native_set; cbn [native_connections set_native_connections on_transport set_transports next_transport].
  - by apply od_wf_set.
  - etrans; [apply od_length_set_le|]. exact Hlen.
  - intros t'. change (transport_obj t' _) with (transport_obj t' n2). rewrite Eo. case_decide; [apply Q3|apply Q3].
  - intros i' t' Hi. change (transport_obj t' _) with (transport_obj t' n2). rewrite Eo. destruct (decide (i' = i)) as [->|Hi'].
    + rewrite od_get_set_eq in Hi. injection Hi as <-. rewrite decide_True by done. cbn. split; [exact Ht|]. by split.
    + change (native_connections n2) with (native_connections (native s)) in Hi. rewrite od_get_set_ne in Hi by done.
      rewrite decide_False by (intros ->; by apply (Hu i')). by apply Q4.
  - intros x t' Hx. rewrite Ea', Ea in Hx. change (transport_obj t' _) with (transport_obj t' n2). rewrite Eo.
    change (native_connections n2) with (native_connections (native s)). case_decide as Hxr.
    + injection Hx as <-. exists i. rewrite od_get_set_eq, decide_True by done. cbn. by subst x.
    + destruct (Q5 x t' Hx) as (i' & Hi & Hse). exists i'. rewrite od_get_set_ne by (intros ->; congruence). split; [done|].
      rewrite decide_False; [done|]. intros ->. by apply (Hu i').
Qed.

Lemma detach_preserves i : preserves plane_inv (_detach (A := A) i).
Proof.
  intros s [Q1 Q2 Q3 Q4 Q5]. unfold _detach. rewrite (bind_ok (gets native) _ s s _ eq_refl). unfold in_native at 1 2.
  unfold bind at 1 2, zoom at 1 2, modify at 1 2. set (n1 := set_attaching _ (native s)). rewrite native_set.
  set (n2 := set_native_connections _ n1). set (s2 := set_app (put_native n2 _) _).
  assert (native s2 = n2) as En by apply native_set.
  assert (forall s', native s' = n2 -> (forall r t, attached_to r s' = Some t -> attached_to r s = Some t /\ od_get i (native_connections (native s)) ≠ Some t) -> plane_inv s') as Hgo.
  { intros s' E Ha. split; rewrite E; unfold n2, n1; cbn [native_connections set_native_connections set_attaching next_transport].
    - by apply od_wf_pop.
    - etrans; [apply od_length_pop_le|exact Q2].
    - exact Q3.
    - intros i' t Hi. apply Q4. destruct (decide (i' = i)) as [->|]; [by rewrite od_get_pop_eq in Hi|]. by rewrite od_get_pop_ne in Hi.
    - intros r t Hr. destruct (Ha r t Hr) as [Hr' Hne]. destruct (Q5 r t Hr') as (i' & Hi & Hs). exists i'.
      rewrite od_get_pop_ne by (intros ->; congruence). done. }
  destruct (od_get i (native_connections (native s))) as [t|] eqn:Ei; [|by apply Hgo].
  destruct (Q4 i t Ei) as (_ & _ & [r Hr]). rewrite Hr. unfold detach. rewrite (bind_ok (gets _) _ s2 s2 _ eq_refl).
  change (session_obj r s2) with (session_obj r s). case_bool_decide as Hp.
  - unfold set_session. rewrite srv_in_sessions_eq. cbn [fst]. apply Hgo; [done|]. intros x t' Hx. unfold attached_to, session_obj in Hx |- *.
    cbn [sessions set_sessions] in Hx. unfold modify in Hx. cbn [fst] in Hx. rewrite obj_on_obj in Hx. case_decide as Hxr; [done|]. split; [done|].
    intros [= ->]. destruct (Q5 x t' Hx) as (i' & _ & Hs). congruence.
  - apply Hgo; [done|]. intros x t' Hx. split; [done|]. intros [= ->]. destruct (Q5 x t' Hx) as (i' & _ & Hs).
    assert (x = r) as -> by congruence. done.
Qed.

(** ** Requests *)

(** A message reaches a registered handler, or is refused. *)
Lemma message_cases t r lane mid payload s : (exists e, handle_application_message message_handlers t r lane mid payload s = (s, Raise e)) \/
  exists name h c v, message_handlers !! name = Some h /\ handle_application_message message_handlers t r lane mid payload s = h c v s.
Proof.
  unfold handle_application_message. rewrite (bind_ok (gets _) _ s s _ eq_refl). case_bool_decide; [|by left; eexists]. cbn [negb].
  unfold lift, bind. destruct (decode_application_payload payload) as [value|]; [|by left; eexists].
  match goal with |- context [match ?x with Ok _ => _ | Raise _ => _ end] => destruct x as [type|] end; [|by left; eexists].
  destruct (dget "qapp_connection_id" _) as [| | | |lid| | |]; try by left; eexists.
  destruct (in_strings type _) as [known|]; [|by left; eexists]. destruct type as [| | | |name| | |]; try by left; eexists.
  destruct known; [|by left; eexists]. cbn [negb].
  destruct (message_handlers !! name) as [h|] eqn:E1; [right; by repeat eexists|].
  destruct (message_handlers !! "*") as [h|] eqn:E2; [right|left]; by repeat eexists.
Qed.

Lemma attaching_preserves f : preserves plane_inv (in_native (modify (fun n => set_attaching (f n) n)) : M (Server A) unit).
Proof. apply calm_preserves. intros s. by apply calm_native. Qed.

(** ** The reader *)

Lemma read_line_preserves line : preserves plane_inv (read_line (A := A) line).
Proof.
  unfold read_line. destruct (_ || _); [apply preserves_raise|]. apply preserves_bind; [apply preserves_lift|]. intros [| | | | | | |rq]; try apply preserves_raise.
  apply preserves_bind; [|intros []].
  { destruct (op_is rq "attach"); [|apply preserves_ret]. apply preserves_bind; [apply preserves_lift|]. intros i. apply attaching_preserves. }
  destruct (op_is rq "detach"); [apply preserves_bind; [apply preserves_lift|]; intros i; apply detach_preserves|].
  cbv zeta. apply preserves_bind; [apply preserves_gets|]. intros n. destruct (slots n _ =? 0)%nat; [|apply calm_preserves; intros s; by apply calm_native].
  apply preserves_bind; [destruct (dget "connection" rq); try apply preserves_ret; apply attaching_preserves|]. intros [].
  apply preserves_bind; [apply preserves_lift|]. intros id. apply calm_preserves, calm_send.
Qed.

Lemma stopping_preserves f : preserves plane_inv (in_native (modify (fun n => set_stopping true (f n) n)) : M (Server A) unit).
Proof. apply calm_preserves. intros s. by apply calm_native. Qed.

Lemma detach_pops i (s : Server A) : snd (_detach i s) = Ok tt /\
  native_connections (native (fst (_detach i s))) = od_pop i (native_connections (native s)) /\ stopping (native (fst (_detach i s))) = stopping (native s).
Proof.
  set (s1 := set_app (put_native (set_attaching (alter (fun _ => true) i (attaching (native s))) (native s)) (app s)) s).
  set (s2 := set_app (put_native (set_native_connections (od_pop i (native_connections (native s1))) (native s1)) (app s1)) s1).
  assert (native_connections (native s2) = od_pop i (native_connections (native s)) /\ stopping (native s2) = stopping (native s)) as [E1 E2]
    by (unfold s2; rewrite native_set; unfold s1; by rewrite native_set).
  assert (_detach i s = match od_get i (native_connections (native s)) with
    | Some t => match nt_session (transport_obj t (native s)) with Some r => detach r t | None => ret tt end
    | None => ret tt end s2) as -> by reflexivity.
  destruct (od_get i _) as [t|]; [|done]. destruct (nt_session _) as [r|]; [|done].
  unfold detach. rewrite (bind_ok (gets _) _ s2 s2 _ eq_refl). case_bool_decide; [|done]. unfold set_session. by rewrite srv_in_sessions_eq.
Qed.

Lemma detach_all ids (s : Server A) : snd (iterM _detach ids s) = Ok tt /\ stopping (native (fst (iterM _detach ids s))) = stopping (native s) /\
  forall i, od_get i (native_connections (native (fst (iterM _detach ids s)))) =
    if decide (i ∈ ids) then None else od_get i (native_connections (native s)).
Proof.
  revert s. induction ids as [|j ids IH]; intros s; cbn [iterM]; [split; [done|]; split; [done|]; intros i; by rewrite decide_False by apply not_elem_of_nil|].
  destruct (detach_pops j s) as (Ho & Ep & Es). unfold bind. destruct (_detach j s) as [s1 r]. cbn [fst snd] in *. subst r.
  destruct (IH s1) as (Ho & Es' & Eg). split; [done|]. split; [by rewrite Es'|]. intros i. rewrite Eg, Ep.
  destruct (decide (i ∈ ids)) as [Hi|Hi]; [by rewrite decide_True by by right|]. destruct (decide (i = j)) as [->|Hj].
  - by rewrite decide_True, od_get_pop_eq by left.
  - rewrite decide_False, od_get_pop_ne by (try done; set_solver). done.
Qed.

Lemma reader_ended_preserves : preserves plane_inv (reader_ended (A := A)).
Proof.
  unfold reader_ended. apply preserves_bind; [apply preserves_gets|]. intros n. apply preserves_bind; [apply (stopping_preserves (fun _ => server_stop n))|]. intros [].
  apply preserves_bind; [apply preserves_iterM; intros i; apply detach_preserves|]. intros []. apply (stopping_preserves (fun n' => server_stop n' || negb (stopping n))).
Qed.

(** Reading does not stop the server. *)
Definition running_flag (s : Server A) : bool := stopping (native s).

Lemma running_native f (s : Server A) : stopping (f (native s)) = stopping (native s) -> stays running_flag s (fst (in_native (modify f) s)).
Proof. intros E. unfold stays, running_flag, in_native, zoom, modify. cbn [fst]. by rewrite native_set. Qed.

Lemma running_read_line line : moves (stays running_flag) (read_line (A := A) line).
Proof.
  assert (forall i, moves (stays running_flag) (_detach (A := A) i)) as Hd by (intros i s; apply detach_pops).
  unfold read_line, Native.send. repeat (moves_step || apply Hd || (intros ?; by apply running_native)).
Qed.

Lemma reader_ended_all (s : Server A) : snd (reader_ended s) = Ok tt /\ stopping (native (fst (reader_ended s))) = true /\
  native_connections (native (fst (reader_ended s))) = [] /\ (running_flag s = false -> server_stop (native (fst (reader_ended s))) = true).
Proof.
  unfold reader_ended. rewrite (bind_ok (gets native) _ s s _ eq_refl). set (m := in_native (modify (set_stopping true (server_stop (native s))))).
  rewrite (bind_ok m _ s (fst (m s)) tt eq_refl). set (s1 := fst (m s)).
  assert (native s1 = set_stopping true (server_stop (native s)) (native s)) as E1 by (unfold s1; apply native_set).
  destruct (detach_all (od_keys (native_connections (native s))) s1) as (Ho & Es & Eg).
  destruct (iterM _detach _ s1) as [s2 r] eqn:E2. cbn [fst snd] in *. subst r. rewrite (bind_ok _ _ _ _ _ E2).
  unfold in_native, zoom, modify. cbn [fst snd]. split; [done|].
  rewrite native_set. split; [done|]. cbn [native_connections server_stop set_stopping]. split; [|intros E; unfold running_flag in E; rewrite E; apply orb_true_r].
  destruct (native_connections (native s2)) as [|[i t] d]; [done|]. specialize (Eg i). cbn [od_get fst] in Eg. rewrite decide_True in Eg by done.
  rewrite E1 in Eg. cbn [native_connections set_stopping] in Eg. case_decide as Hi; [done|]. symmetry in Eg. exfalso. apply Hi.
  apply od_get_is_Some. by eexists.
Qed.

(** C29: when the control connection ends, for whatever reason and after
    whatever lines, every native connection is gone, no session is left
    attached to a transport, and the server is told to stop unless it was
    stopping already. *)
Theorem eof_detaches_all lines s (Hs : plane_inv s) :
  let s' := fst (_read lines s) in
  snd (_read lines s) = Ok tt /\ native_connections (native s') = [] /\ stopping (native s') = true /\ (forall r, attached_to r s' = None) /\
  (stopping (native s) = false -> server_stop (native s') = true).
Proof.
  unfold _read, finally. set (loop := try_catch _ _ _).
  assert (preserves plane_inv loop) as Hl.
  { apply preserves_try; [apply preserves_iterM; intros line|intros e; apply preserves_ret]. apply preserves_bind; [apply preserves_gets|].
    intros n. destruct (stopping n); [apply preserves_ret|apply read_line_preserves]. }
  assert (snd (loop s) = Ok tt) as Hok.
  { unfold loop, try_catch. by destruct (iterM _ lines s) as [x [[]|e]]. }
  assert (moves (stays running_flag) loop) as Hrun by (unfold loop; repeat (moves_step || apply running_read_line)). specialize (Hrun s).
  specialize (Hl s Hs). destruct (loop s) as [s1 r]. cbn [fst snd] in *. subst r.
  destruct (reader_ended_all s1) as (Ho & Hst & Hc & Hstop). pose proof (reader_ended_preserves s1 Hl) as [_ _ _ _ Ha].
  destruct (reader_ended s1) as [s2 o]. cbn [fst snd] in *. subst o. cbn [fst snd]. split; [done|]. split; [done|]. split; [done|].
  split; [|intros E; apply Hstop; by rewrite Hrun].
  intros x. destruct (attached_to x s2) as [t|] eqn:E; [|done]. destruct (Ha x t E) as (i & Hi & _). by rewrite Hc in Hi.
Qed.
Section requests.
Context (Hhandlers : forall name h, message_handlers !! name = Some h -> forall c v, preserves plane_inv (h c v)).
Context (Helse : forall k s, plane_inv s -> plane_inv (elsewhere k s)).

Lemma message_preserves t r lane mid payload : preserves plane_inv (handle_application_message message_handlers t r lane mid payload).
Proof.
  intros s Hs. destruct (message_cases t r lane mid payload s) as [[e E]|(name & h & c & v & Hh & E)]; rewrite E; [done|by eapply Hhandlers].
Qed.

Lemma deliver_preserves t r rq : preserves plane_inv (deliver message_handlers t r rq).
Proof.
  intros s Hs. unfold deliver. destruct (str_item rq "messageId") as [mid|]; [|done]. destruct (str_item rq "lane") as [lane|]; [|done].
  rewrite (bind_ok (lift (Ok mid)) _ s s mid eq_refl), (bind_ok (lift (Ok lane)) _ s s lane eq_refl), (bind_ok (gets native) _ s s _ eq_refl).
  cbv zeta. destruct (_ || _) eqn:Hb; [done|]. apply orb_false_iff in Hb as [Hl _]. apply Nat.leb_gt in Hl.
  destruct (getitem rq "id") as [id|]; [|done]. rewrite (bind_ok (lift (Ok id)) _ s s id eq_refl).
  set (add := in_native _). assert (plane_inv (fst (add s))) as Ha.
  { apply (pending_inv t (fun x => od_set (lane, mid) id (nt_pending x))); [|done]. etrans; [apply od_length_set_le|]. unfold MAX_PENDING in *. lia. }
  rewrite (bind_ok add _ s (fst (add s)) tt eq_refl). destruct (getitem rq "metadata") as [m|]; [|done].
  unfold bind, lift. destruct (encode_application_payload m) as [payload|]; [|done]. by apply message_preserves.
Qed.

Lemma srv_preserves {B} (m : M (Server A) B) : preserves plane_inv m -> preserves (fun sl => plane_inv (fst sl)) (srv m).
Proof. intros Hm [s l] Hs. unfold srv, zoom. cbn [fst]. specialize (Hm s Hs). by destruct (m s). Qed.

Lemma srv_lift {B} (x : res B) sl : srv (lift x) sl = (sl, x) :> ((Server A * locals) * res B).
Proof. by destruct sl. Qed.

Lemma attach_connection_preserves i rq : preserves (fun sl => plane_inv (fst sl)) (attach_connection others elsewhere i rq).
Proof.
  intros [s l] Hs. cbn [fst] in Hs. destruct (new_transport_inv i s Hs) as (s1 & t & E & Hs1 & Hu). unfold attach_connection.
  assert (srv (new_transport i) (s, l) = ((s1, l), Ok t)) as E' by (unfold srv, zoom; cbn [fst snd]; by rewrite E).
  rewrite (bind_ok _ _ _ _ _ E'), (bind_ok (set_local_transport (Some t)) _ (s1, l) (s1, {| l_transport := Some t; l_delegated := l_delegated l |}) tt eq_refl).
  unfold bind at 1. rewrite srv_lift. destruct (peer_address rq) as [[]|]; [|done].
  pose proof (attach_locked_inv i t rq s1 Hs1 Hu) as Hl. unfold bind at 1, srv at 1, zoom at 1. cbn [fst snd].
  destruct (attach_locked i t rq s1) as [s2 [[]|e]]; cbn [fst] in Hl; [|done].
  apply preserves_bind; [|intros []|exact Hl].
  - apply srv_preserves. intros x Hx. by apply Helse.
  - apply preserves_bind; [apply srv_preserves, calm_preserves, calm_authorized|]. intros r.
    apply preserves_bind; [apply srv_preserves, preserves_gets|]. intros o. apply preserves_ret.
Qed.

Lemma file_metadata_calm r rq : moves calm (file_metadata (A := A) r rq).
Proof. unfold file_metadata. repeat (moves_step || apply calm_draw || apply calm_in_store). Qed.

Lemma serve_preserves rq : preserves (fun sl => plane_inv (fst sl)) (serve_request others elsewhere message_handlers rq).
Proof.
  assert (forall f : Server A * locals -> Server A * locals, (forall sl, fst (f sl) = fst sl) -> preserves (fun sl => plane_inv (fst sl)) (modify f)) as Hlocal.
  { intros f Hf sl Hs. cbn [fst modify]. by rewrite Hf. }
  assert (forall result, preserves (fun sl => plane_inv (fst sl)) (let! id := srv (lift (getitem rq "id")) in srv (Native.send (A := A) (answer id result)))) as Hrespond.
  { intros result. apply preserves_bind; [apply srv_preserves, preserves_lift|]. intros id. apply srv_preserves, calm_preserves, calm_send. }
  unfold serve_request. apply preserves_bind; [apply srv_preserves, preserves_lift|]. intros op.
  apply preserves_bind; [apply srv_preserves, preserves_lift|]. intros i. cbv zeta. case_bool_decide.
  { apply preserves_bind; [apply attach_connection_preserves|]. apply Hrespond. }
  apply preserves_bind; [apply srv_preserves, preserves_gets|]. intros n. destruct (od_get i _) as [t|]; [|apply preserves_raise].
  apply preserves_bind; [by apply Hlocal|]. intros [].
  apply preserves_bind; [apply srv_preserves, calm_preserves, calm_authorized|]. intros r.
  apply preserves_bind; [apply srv_preserves; intros x Hx; by apply Helse|]. intros [].
  case_bool_decide; [apply preserves_bind; [apply srv_preserves, calm_preserves, file_metadata_calm|apply Hrespond]|].
  case_bool_decide; [apply preserves_bind; [apply srv_preserves, preserves_gets|intros o; apply Hrespond]|].
  case_bool_decide; [|apply preserves_raise]. apply preserves_bind; [apply srv_preserves, deliver_preserves|intros []; by apply Hlocal].
Qed.

Lemma refuse_preserves rq e : preserves plane_inv (refuse (A := A) rq e).
Proof.
  unfold refuse. assert (forall x c, preserves plane_inv (let! id := lift x in Native.send (A := A) (refusal id c))) as Hsend.
  { intros x c. apply preserves_bind; [apply preserves_lift|]. intros id. apply calm_preserves, calm_send. }
  destruct (is_refusal e); [|apply Hsend]. apply preserves_bind; [|intros []; apply Hsend]. destruct (op_is rq "attach"); [|apply preserves_ret].
  apply preserves_bind; [apply preserves_lift|]. intros i. apply detach_preserves.
Qed.

Lemma settle_preserves rq pool : preserves (fun sl => plane_inv (fst sl)) (settle (A := A) rq pool).
Proof.
  intros sl Hs. unfold settle. rewrite (bind_ok get _ sl sl sl eq_refl). destruct sl as [s l]. apply srv_preserves; [|done].
  apply preserves_bind; [|intros []; apply preserves_bind; [|intros []; apply calm_preserves, calm_release]].
  - destruct (_ && _); [|apply preserves_ret]. destruct (l_transport l), (dget "lane" rq), (dget "messageId" rq); try apply preserves_ret.
    apply pop_pending_preserves.
  - destruct (op_is rq "attach"); [|apply preserves_ret]. apply preserves_bind; [apply preserves_lift|]. intros i. apply attaching_preserves.
Qed.

Lemma dispatch_preserves rq pool : preserves plane_inv (_dispatch others elsewhere message_handlers rq pool).
Proof.
  intros s Hs. unfold _dispatch, finally.
  set (tried := try_catch _ _ _). set (sl0 := (s, _)).
  assert (plane_inv (fst (fst (tried sl0)))) as Ht.
  { unfold tried. apply (preserves_try (fun sl => plane_inv (fst sl))); [apply serve_preserves|intros e; apply srv_preserves, refuse_preserves|done]. }
  destruct (tried sl0) as [sl1 r]. pose proof (settle_preserves rq pool sl1 Ht) as Hse.
  destruct (settle rq pool sl1) as [sl2 [[]|]]; exact Hse.
Qed.

Lemma next_preserves pool : preserves plane_inv (dispatch_next others elsewhere message_handlers pool).
Proof.
  unfold dispatch_next. apply preserves_bind; [apply preserves_gets|]. intros n. destruct (take_request pool _) as [[rq rest]|]; [|apply preserves_ret].
  apply preserves_bind; [apply calm_preserves; intros s; by apply calm_native|]. intros [].
  apply preserves_try; [apply dispatch_preserves|intros e; apply preserves_ret].
Qed.

(** ** Reachable states *)

Inductive event :=
  | Line (line : bytes)
  | Dispatch (pool : bool)
  | Reply (t : nat) (lane message_id : string) (value : pyval)
  | Ended
  | Elsewhere (k : nat).

Definition step (s : Server A) (e : event) : Server A :=
  match e with
  | Line line => fst (read_line line s)
  | Dispatch pool => fst (dispatch_next others elsewhere message_handlers pool s)
  | Reply t lane message_id value => fst (send_json t lane message_id value s)
  | Ended => fst (reader_ended s)
  | Elsewhere k => elsewhere k s
  end.

Lemma step_preserves e s : plane_inv s -> plane_inv (step s e).
Proof.
  destruct e; cbn [step]; [apply read_line_preserves|apply next_preserves|apply send_json_preserves|apply reader_ended_preserves|apply Helse].
Qed.

Lemma plane_start (s : Server A) : native s = Native.init -> (forall r, attached_to r s = None) -> plane_inv s.
Proof.
  intros E Hn. split; rewrite ?E.
  - apply od_wf_nil. - apply Nat.le_0_l. - intros t. unfold transport_obj, Native.init. cbn [transports]. rewrite lookup_empty. apply Nat.le_0_l.
  - done. - intros r t Hr. by rewrite Hn in Hr.
Qed.

(** C28: in every reachable state of the control plane at most 256 connections
    are registered, each with its own transport that belongs to a session, no
    transport has more than 128 unanswered messages, and every session that is
    attached to a transport is attached through a registered connection of
    that transport. *)
Theorem attachments_registered es s (Hstart : native s = Native.init) (Hnone : forall r, attached_to r s = None) :
  plane_inv (fold_left step es s).
Proof.
  pose proof (plane_start s Hstart Hnone) as Hs. clear Hstart Hnone. revert s Hs. induction es as [|e es IH]; intros s Hs; [done|].
  cbn [fold_left]. by apply IH, step_preserves.
Qed.

End requests.

(** ** The file handler on this transport *)

Section file_handler.
Context (Helse : forall k s, plane_inv s -> plane_inv (elsewhere k s)).

Lemma calm_in_files f (s : Server A) : calm s (fst (in_files (modify f) s)).
Proof. unfold in_files, zoom, modify. cbn [fst]. by split; unfold native; cbn [app set_app]; rewrite ?native_of_put_files. Qed.

Lemma reply_preserves c v : preserves plane_inv (context_reply (A := A) c v).
Proof. apply send_json_preserves. Qed.

Lemma on_pool_preserves b f : preserves plane_inv (on_pool (A := A) b f).
Proof. apply calm_preserves. intros s. apply calm_in_files. Qed.

Lemma file_handle_preserves ctx data : preserves plane_inv (handle (A := A) context_reply ctx data).
Proof.
  destruct ctx as [c|c]; [apply preserves_raise|]. cbn [handle]. case_bool_decide; [|apply preserves_raise]. cbv zeta. cbn [negb].
  apply preserves_bind; [apply preserves_gets|]. intros f. destruct (_ =? _)%nat; [apply reply_preserves|].
  apply preserves_bind; [apply on_pool_preserves|]. intros []. destruct (accepting f); [apply on_pool_preserves|apply preserves_raise].
Qed.

Lemma file_serve_preserves c data : preserves plane_inv (serve others elsewhere context_reply c data).
Proof.
  intros s Hs. unfold serve. rewrite (bind_ok get _ s s s eq_refl). destruct (negb _); [done|].
  apply preserves_bind; [apply calm_preserves, calm_require_authorized| |done]. intros []. apply preserves_bind; [intros x; apply Helse|]. intros [].
  clear s Hs. intros s Hs. rewrite (bind_ok get _ s s s eq_refl). apply preserves_bind; [apply preserves_lift| |done]. intros rq.
  apply preserves_bind; [apply calm_preserves, calm_in_store|]. intros v. apply preserves_bind; [intros x; apply Helse|]. intros [].
  apply preserves_bind; [apply preserves_gets|]. intros o. case_bool_decide; [apply reply_preserves|apply preserves_ret].
Qed.

Lemma file_release_preserves b : preserves plane_inv (release (A := A) b).
Proof.
  unfold release. apply preserves_bind; [apply preserves_gets|]. intros f. destruct (_ <=? _)%nat; [apply preserves_raise|apply on_pool_preserves].
Qed.

Lemma file_worker_preserves b : preserves plane_inv (worker others elsewhere context_reply b).
Proof.
  unfold worker. apply preserves_bind; [apply preserves_gets|]. intros f. destruct (waiting _) as [|[c data] rest]; [apply preserves_ret|].
  apply preserves_bind; [apply on_pool_preserves|]. intros []. apply preserves_try; [|intros e; apply preserves_ret].
  intros s Hs. unfold work, finally. set (tried := try_catch _ _ _).
  assert (plane_inv (fst (tried s))) as Ht by (apply preserves_try; [apply file_serve_preserves|intros e; apply reply_preserves|done]).
  destruct (tried s) as [s1 r]. pose proof (file_release_preserves b s1 Ht) as Hr. destruct (release b s1) as [s2 [[]|]]; exact Hr.
Qed.
End file_handler.

(** ** File metadata *)

Section metadata.
Abbreviation store s := (file_store (service s)).
Definition store_of (s : Server A) : Files.FileStore := store s.
Context (Helse : forall k s, store (elsewhere k s) = store s).
Context (Hhandlers : forall name h, message_handlers !! name = Some h -> forall c v, moves (stays store_of) (h c v)).

Lemma store_set n (s : Server A) : service (set_app (put_native n (app s)) s) = service s.
Proof. unfold service. cbn [app set_app]. apply files_of_put_native. Qed.

Lemma store_native {B} (m : M NativeQuicServer B) : moves (stays store_of) (in_native (A := A) m).
Proof. intros s. unfold in_native, zoom, stays, store_of. destruct (m (native s)). cbn [fst]. by rewrite store_set. Qed.

Lemma store_authorize r now : moves (stays store_of) (require_authorized (A := A) others r now).
Proof. intros s. unfold stays, store_of. by rewrite (service_require_authorized others r now s). Qed.

Lemma store_attach t m : moves (stays store_of) (attach (A := A) t m).
Proof.
  intros s. destruct (attach_fields m) as [[[[[token sid] purpose] binding] nonce]|] eqn:Ef; [|by unfold attach; rewrite Ef].
  rewrite (attach_unfold t m s _ _ _ _ _ Ef). destruct (Attach.consume _ _ _ _ _ _ _ _ _) as [tk [[g o]|e]]; [|done].
  destruct (get_session _ _) as [r|]; [|done]. case_bool_decide; [done|]. unfold stays, store_of, service. cbn [fst app set_app].
  by rewrite files_of_put_private.
Qed.

Lemma store_send v : moves (stays store_of) (Native.send (A := A) v).
Proof. unfold Native.send. repeat (moves_step || apply store_native). Qed.

Lemma store_detach i : moves (stays store_of) (_detach (A := A) i).
Proof.
  unfold _detach, detach, set_session. repeat (moves_step || apply store_native || (intros s; rewrite srv_in_sessions_eq; done)).
Qed.

Lemma store_message t r lane mid payload : moves (stays store_of) (handle_application_message message_handlers t r lane mid payload).
Proof.
  intros s. destruct (message_cases t r lane mid payload s) as [[e E]|(name & h & c & v & Hh & E)]; rewrite E; [done|by eapply Hhandlers].
Qed.

(** The file handler only queues. *)
Lemma store_handle ctx data : moves (stays store_of) (handle (A := A) context_reply ctx data).
Proof.
  assert (forall b f, moves (stays store_of) (on_pool (A := A) b f)) as Hp.
  { intros b f s. unfold stays, store_of. rewrite service_on_pool. by destruct b. }
  unfold handle, context_reply, send_json. cbv zeta. repeat (moves_step || apply Hp || apply store_native || apply store_send).
Qed.

Lemma store_srv {B} (m : M (Server A) B) : moves (stays store_of) m -> moves (stays (fun sl => store_of (fst sl))) (srv m).
Proof. intros Hm [s l]. unfold srv, zoom. cbn [fst]. specialize (Hm s). by destruct (m s). Qed.

Lemma store_deliver t r rq : moves (stays store_of) (deliver message_handlers t r rq).
Proof. unfold deliver. cbv zeta. repeat (moves_step || apply store_native || apply store_message). Qed.

Lemma store_refuse rq e : moves (stays store_of) (refuse (A := A) rq e).
Proof. unfold refuse. repeat (moves_step || apply store_detach || apply store_send). Qed.

Lemma store_settle rq pool : moves (stays (fun sl => store_of (fst sl))) (settle (A := A) rq pool).
Proof.
  unfold settle, release_slot. repeat (moves_step || apply store_srv || apply store_native).
Qed.

Lemma store_authorized t : moves (stays store_of) (_authorized (A := A) others t).
Proof. unfold _authorized. repeat (moves_step || apply store_authorize). Qed.

Lemma store_attach_connection i rq : moves (stays (fun sl => store_of (fst sl))) (attach_connection others elsewhere i rq).
Proof.
  unfold attach_connection, set_local_transport.
  repeat (moves_step || apply store_srv || apply store_authorized || (unfold new_transport, attach_locked) || apply store_native || apply store_attach || apply Helse || done).
Qed.

Lemma authorized_cases t (s s' : Server A) x : _authorized others t s = (s', Ok x) ->
  nt_session (transport_obj t (native s)) = Some x /\ provisional (session_obj x s) = false /\ has_user (session_obj x s) = true /\
  wall s < expires_at (session_obj x s) /\ attached_to x s = Some t /\ require_authorized others x (wall s) s = (s', Ok tt).
Proof.
  unfold _authorized. rewrite (bind_ok get _ s s s eq_refl). destruct (nt_session _) as [r|] eqn:Er; [|done].
  destruct (provisional _) eqn:Hp; [done|]. destruct (has_user _) eqn:Hu; [|done]. cbn [orb negb].
  destruct (expires_at _ <=? wall s) eqn:Hx; [done|]. case_bool_decide as Ha; [|done]. cbn [orb negb]. unfold bind.
  destruct (require_authorized others r (wall s) s) as [s1 [[]|e]] eqn:E; [|done]. intros [= <- <-]. repeat split; try done. lia.
Qed.

(** The state in which a dispatcher that authorized session [r] in [s] turns
    to the store, and the user it serves. *)
Definition turned (r : nat) (s : Server A) : Server A := elsewhere 1 (fst (require_authorized others r (wall s) s)).
Definition served_user (r : nat) (s : Server A) : string := default "" (authenticated_user (session_obj r (turned r s))).

(** The request for file metadata that [rq] carries was served for session
    [r]. *)
Definition served (rq : odict string pyval) (s : Server A) (r : nat) (st' : Files.FileStore) : Prop :=
  exists i t d token,
    str_item rq "op" = Ok "file" /\ str_item rq "connection" = Ok i /\ getitem rq "metadata" = Ok (VDict d) /\
    od_get i (native_connections (native s)) = Some t /\ nt_session (transport_obj t (native s)) = Some r /\
    provisional (session_obj r s) = false /\ has_user (session_obj r s) = true /\ wall s < expires_at (session_obj r s) /\ attached_to r s = Some t /\
    snd (require_authorized others r (wall s) s) = Ok tt /\
    st' = fst (NativeFiles.native_file_request (served_user r s) d (wall (turned r s)) (mono (turned r s)) token (store s)).

Lemma metadata_store r rq (s : Server A) : store (fst (file_metadata r rq s)) = store s \/
  exists d token, getitem rq "metadata" = Ok (VDict d) /\ store (fst (file_metadata r rq s)) =
    fst (NativeFiles.native_file_request (default "" (authenticated_user (session_obj r s))) d (wall s) (mono s) token (store s)).
Proof.
  unfold file_metadata. rewrite (bind_ok get _ s s s eq_refl). destruct (getitem rq "metadata") as [m|]; [|by left].
  rewrite (bind_ok (lift (Ok m)) _ s s m eq_refl). destruct m as [| | | | | | |d]; try by left. right.
  destruct (entropy s (drawn s)) as [a token] eqn:Ee. exists d, token. split; [done|].
  assert (draw s = (set_drawn (S (drawn s)) s, Ok (a, token))) as Ed by (unfold draw, bind, get, modify, ret; by rewrite Ee).
  rewrite (bind_ok _ _ _ _ _ Ed), in_store_eq. cbn [fst]. by rewrite service_set.
Qed.

Lemma srv_ok {B} (m : M (Server A) B) s l s' x : m s = (s', Ok x) -> srv m (s, l) = ((s', l), Ok x).
Proof. intros E. unfold srv, zoom. cbn [fst snd]. by rewrite E. Qed.
Lemma srv_raise {B} (m : M (Server A) B) s l s' e : m s = (s', Raise e) -> srv m (s, l) = ((s', l), Raise e).
Proof. intros E. unfold srv, zoom. cbn [fst snd]. by rewrite E. Qed.

Lemma request_store rq s l : let s' := fst (fst (serve_request others elsewhere message_handlers rq (s, l))) in
  store s' = store s \/ exists r, served rq s r (store s').
Proof.
  assert (forall result, moves (stays (fun sl => store_of (fst sl))) (let! id := srv (lift (getitem rq "id")) in srv (Native.send (A := A) (answer id result)))) as Hrespond.
  { intros result. repeat (moves_step || apply store_srv || apply store_send). }
  cbv zeta. set (Q := fun st => st = store s \/ exists r, served rq s r st). change (Q (store (fst (fst (serve_request others elsewhere message_handlers rq (s, l)))))).
  unfold serve_request. unfold bind at 1. rewrite srv_lift. destruct (str_item rq "op") as [op|] eqn:Eop; [|by left].
  unfold bind at 1. rewrite srv_lift. destruct (str_item rq "connection") as [i|] eqn:Ei; [|by left]. cbv zeta.
  case_bool_decide as Hat.
  { left. match goal with |- store (fst (fst (?m (s, l)))) = _ => assert (moves (stays (fun sl => store_of (fst sl))) m) as Hm end;
      [moves_step; [apply store_attach_connection|apply Hrespond]|apply (Hm (s, l))]. }
  rewrite (bind_ok (srv (gets native)) _ (s, l) (s, l) (native s) eq_refl). destruct (od_get i (native_connections (native s))) as [t|] eqn:Et; [|by left].
  rewrite (bind_ok (set_local_transport (Some t)) _ (s, l) (s, {| l_transport := Some t; l_delegated := l_delegated l |}) tt eq_refl).
  set (l1 := {| l_transport := _ |}). destruct (_authorized others t s) as [s1 [r|e]] eqn:Ea.
  2: { rewrite (bind_raise _ _ _ _ _ (srv_raise _ _ _ _ _ Ea)). left. pose proof (store_authorized t s) as Hs. rewrite Ea in Hs. exact Hs. }
  rewrite (bind_ok _ _ _ _ _ (srv_ok _ _ _ _ _ Ea)). destruct (authorized_cases t s s1 r Ea) as (Q1 & Q2 & Q3 & Q4 & Q5 & Er).
  rewrite (bind_ok (srv (modify (elsewhere 1))) _ (s1, l1) (elsewhere 1 s1, l1) tt eq_refl). set (s2 := elsewhere 1 s1).
  assert (store s2 = store s) as E2. { unfold s2. rewrite Helse. pose proof (store_authorized t s) as Hs. rewrite Ea in Hs. exact Hs. }
  case_bool_decide as Hf; [subst op|].
  - match goal with |- context [fst (fst (?m (s2, l1)))] => assert (store (fst (fst (m (s2, l1)))) = store (fst (file_metadata r rq s2))) as -> end.
    { destruct (file_metadata r rq s2) as [s3 [v|e]] eqn:E3;
        [rewrite (bind_ok _ _ _ _ _ (srv_ok _ _ _ _ _ E3)); apply (Hrespond v (s3, l1))|by rewrite (bind_raise _ _ _ _ _ (srv_raise _ _ _ _ _ E3))]. }
    destruct (metadata_store r rq s2) as [Hm|(d & token & Ed & Hm)]; [left; by rewrite Hm|right].
    exists r, i, t, d, token. unfold served_user, turned. rewrite Er. do 10 (split; [done|]). by rewrite Hm, E2.
  - left. rewrite <- E2. match goal with |- store (fst (fst (?m (s2, l1)))) = _ => assert (moves (stays (fun sl => store_of (fst sl))) m) as Hm end;
      [unfold set_delegated; repeat (moves_step || apply store_srv || apply store_send || apply store_deliver || done)|apply (Hm (s2, l1))].
Qed.

(** the native process gets or changes file metadata only over a registered
    connection whose session is authenticated, unexpired, attached to that
    connection's transport and authorized by group policy; the request is then
    served for the session's user, and no file of another owner changes.
    Otherwise the store does not change. *)
Theorem native_metadata_confined rq pool s
    (Hothers : Forall (fun f => forall q, GroupThm.cache_ok q -> GroupThm.cache_ok (f q) /\ GroupThm.same_config q (f q)) others)
    (Hcache : GroupThm.cache_ok (access (auth s))) :
  let s' := fst (_dispatch others elsewhere message_handlers rq pool s) in
  store s' = store s \/
  exists r, served rq s r (store s') /\ may_pass others r s (wall s) /\
    forall i q, od_get i (Files.files (store s)) = Some q -> Files.owner q ≠ served_user r s -> FileOps.untouched i (store s) (store s').
Proof.
  cbv zeta. assert (store (fst (_dispatch others elsewhere message_handlers rq pool s)) =
    store (fst (fst (serve_request others elsewhere message_handlers rq (s, {| l_transport := None; l_delegated := false |}))))) as ->.
  { unfold _dispatch, finally, try_catch. destruct (serve_request _ _ _ _ _) as [sl [[]|e]]; cbn [fst].
    - pose proof (store_settle rq pool sl) as Hs. destruct (settle rq pool sl) as [sl2 [[]|]]; exact Hs.
    - pose proof (store_srv _ (store_refuse rq e) sl) as Hr. destruct (srv (refuse rq e) sl) as [sl1 o]. pose proof (store_settle rq pool sl1) as Hs.
      unfold stays, store_of in *. cbn [fst] in *. destruct (settle rq pool sl1) as [sl2 [[]|]]; cbn [fst] in *; by rewrite Hs, Hr. }
  destruct (request_store rq s {| l_transport := None; l_delegated := false |}) as [E|[r Hse]]; [by left|]. right. exists r. split; [done|].
  destruct Hse as (i & t & d & token & _ & _ & _ & _ & _ & _ & _ & _ & _ & Hok & Hst).
  split; [by apply require_authorized_passes|]. rewrite Hst. intros j q. apply NativeThm.native_untouched.
Qed.
End metadata.
End facts.

(** ** Examples *)

Module Demo.
#[local] Existing Instances QortalThm.Demo.ascii_unicode QortalThm.Demo.toy_crypto AuthThm.Demo.world AuthThm.Demo.world_ok.
Record App := { the_auth : QAppAuthenticationService; the_private : PrivateTransportService; the_files : FileService; the_native : NativeQuicServer }.
#[local] Instance auth_lens : HasAuth App :=
  {| auth_of := the_auth; put_auth := fun x a => {| the_auth := x; the_private := the_private a; the_files := the_files a; the_native := the_native a |} |}.
#[local] Instance private_lens : HasPrivate App :=
  {| private_of := the_private; put_private := fun x a => {| the_auth := the_auth a; the_private := x; the_files := the_files a; the_native := the_native a |} |}.
#[local] Instance files_lens : HasFiles App :=
  {| files_of := the_files; put_files := fun x a => {| the_auth := the_auth a; the_private := the_private a; the_files := x; the_native := the_native a |} |}.
#[local] Instance native_lens : HasNative App :=
  {| native_of := the_native; put_native := fun x a => {| the_auth := the_auth a; the_private := the_private a; the_files := the_files a; the_native := x |} |}.
#[local] Instance auth_laws : HasAuthLaws App.
Proof. by split. Qed.
#[local] Instance private_laws : HasPrivateLaws App.
Proof. by split. Qed.
#[local] Instance files_laws : HasFilesLaws App.
Proof. by split. Qed.
#[local] Instance native_laws : HasNativeLaws App.
Proof. by split. Qed.

Definition quiet (_ : nat) (s : Server App) : Server App := s.
Definition handlers : gmap string (PrivateMessageContext -> pyval -> M (Server App) unit) :=
  {["file_request" := (fun c => handle context_reply (inr c)); "file_binary" := (fun c => handle context_reply (inr c))]}.

(** An authenticated session of connection ["conn-1"]. *)
Definition server (sm : SessionManager) (n : NativeQuicServer) : Server App :=
  {| max_unauthenticated_sessions := 8; max_logical_sessions_per_link := 4; max_new_sessions_per_link_per_minute := 4;
     idle_connection_timeout := 300; srv_ack_timeout := 120; sessions := sm;
     logical_sessions := ∅; connections := []; conns := ∅; tokens := Attach.init 30 4 4 4 16;
     _media_grant_files := ∅; media_files := ∅; revocations := []; closed_transports := []; io_failures := []; wall := 1000; mono := 1;
     entropy := fun _ => ("unused", "lease-1"); drawn := 0; shutting_down := false;
     app := {| the_auth := AuthThm.Demo.service; the_private := PrivateThm.Demo.service;
               the_files := FileHandler.init (FileThm.run (FileInv.empty_store 16 [])
                 [FileThm.Request QortalThm.Demo.address FileThm.Demo.create_data 0]);
               the_native := n |} |}.
Definition manager : SessionManager :=
  on_obj 0 (fun o => set_metadata (od_set "qapp_connection_id" (VStr "conn-1") (metadata o)) o) (sessions AuthThm.Demo.authenticated).
Definition fresh : Server App := server (empty_manager open_db 1000000000 100000000 60000000 4) Native.init.
Definition attached : Server App :=
  server (on_obj 0 (set_private_transport (Some 0%nat)) manager)
    (set_native_connections [("c1", 0%nat)]
      (set_transports {[0%nat := {| nt_connection := "c1"; nt_session := Some 0%nat; nt_pending := [] |}]} 1 Native.init)).

Lemma handlers_cases name h : handlers !! name = Some h -> forall c, h c = handle context_reply (inr c).
Proof.
  unfold handlers. destruct (decide (name = "file_request")) as [->|H1]; [by intros [= <-]|]. rewrite lookup_insert_ne by done.
  destruct (decide (name = "file_binary")) as [->|H2]; [by intros [= <-]|]. by rewrite lookup_singleton_ne.
Qed.
Lemma handlers_preserve name h : handlers !! name = Some h -> forall c v, preserves plane_inv (h c v).
Proof. intros Hh c v. rewrite (handlers_cases name h Hh). apply file_handle_preserves. Qed.
Lemma handlers_store name h : handlers !! name = Some h -> forall c v, moves (stays store_of) (h c v).
Proof. intros Hh c v. rewrite (handlers_cases name h Hh). apply store_handle. Qed.

Lemma unattached_heap m : bool_decide (map_Forall (fun _ o => private_transport o = None) (heap m)) = true -> forall r, private_transport (obj r m) = None.
Proof.
  intros Hb r. apply bool_decide_eq_true in Hb. unfold obj, lookup_total, map_lookup_total. destruct (heap m !! r) as [o|] eqn:E; [by apply (Hb r)|done].
Qed.

Lemma attached_inv : plane_inv attached.
Proof.
  split; try (vm_compute; lia).
  - apply (bool_decide_unpack _). vm_compute. exact I.
  - intros t. unfold transport_obj. change (transports (native attached)) with ({[0%nat := {| nt_connection := "c1"; nt_session := Some 0%nat; nt_pending := [] |}]} : gmap nat NativeTransport).
    destruct (decide (t = 0%nat)) as [->|Ht]; [rewrite lookup_singleton_eq|rewrite lookup_singleton_ne by done]; apply Nat.le_0_l.
  - intros i t. unfold attached, server, native. cbn. case_decide as Hi; [|done]. intros [= <-]. subst i. split; [lia|]. split; [reflexivity|by eexists].
  - intros r t. unfold attached_to, session_obj, attached. cbn [sessions server]. rewrite obj_on_obj. case_decide as Hr.
    + subst r. intros [= <-]. exists "c1". split; reflexivity.
    + rewrite unattached_heap; [done|]. vm_compute. reflexivity.
Qed.

(** An attach without a token, and the loss of the child. *)
Definition attach_request : odict string pyval :=
  [("op", VStr "attach"); ("connection", VStr "c9"); ("id", VInt 1); ("metadata", VDict [])].
Definition attach_line : bytes := match dumps true (VDict attach_request) with Ok text => str_bytes text ++ [Byte.x0a] | Raise _ => [] end.

Lemma attachments_registered_witness : plane_inv (fold_left (step [] quiet handlers) [Line attach_line; Dispatch false; Ended] fresh).
Proof.
  apply (attachments_registered [] quiet handlers handlers_preserve (fun _ _ h => h) [Line attach_line; Dispatch false; Ended] fresh); [reflexivity|].
  intros r. apply unattached_heap. vm_compute. reflexivity.
Defined.

Lemma eof_detaches_all_witness : attached_to 0 attached = Some 0%nat /\ attached_to 0 (fst (_read [] attached)) = None.
Proof.
  split; [reflexivity|]. exact (proj1 (proj2 (proj2 (proj2 (eof_detaches_all [] attached attached_inv)))) 0%nat).
Defined.

Definition prepare_request : odict string pyval :=
  [("op", VStr "file"); ("connection", VStr "c1"); ("id", VInt 5); ("metadata", VDict (NativeThm.Demo.native_rq "prepare" ""))].

Lemma native_metadata_confined_witness : exists r, may_pass [] r attached 1000 /\
  served [] quiet prepare_request attached r (file_store (service (fst (_dispatch [] quiet handlers prepare_request true attached)))).
Proof.
  destruct (native_metadata_confined [] quiet handlers (fun _ _ => eq_refl) handlers_store prepare_request true attached) as [E|(r & Hs & Hm & _)].
  - apply Forall_nil_2.
  - exact AuthThm.Demo.demo_cache.
  - exfalso. assert (Files.native_writes (file_store (service (fst (_dispatch [] quiet handlers prepare_request true attached)))) ≠ []) as Hne by (vm_compute; discriminate).
    apply Hne. rewrite E. reflexivity.
  - exists r. exact (conj Hm Hs).
Defined.

(** ** A defect: a repeated message id cancels the first request *)

Definition message (id : Z) : odict string pyval :=
  [("op", VStr "message"); ("connection", VStr "c1"); ("id", VInt id); ("lane", VStr "reliable"); ("messageId", VStr "m1");
   ("metadata", VDict [("type", VStr "file_request"); ("op", VStr "capabilities")])].
Definition dispatched (id : Z) (s : Server App) : Server App := fst (_dispatch [] quiet handlers (message id) false (
  fst (in_native (modify (fun n => set_work (fun _ => 31%nat) (submitted n) n)) s))).
Definition finished (s : Server App) : Server App := fst (worker [] quiet context_reply false s).

(** the cleanup after a refused message removes the pending entry under its
    message id even when that entry is another request's: a message that
    repeats the id of one that is still being served is refused as busy, and
    then the answer to the first one is discarded.  Without the repetition
    the first one is answered. *)
Theorem repeated_message_loses_answer :
  sent (native (finished (dispatched 1 attached))) = [answer (VInt 1) (success Files.capabilities)] /\
  sent (native (finished (dispatched 2 (dispatched 1 attached)))) = [refusal (VInt 2) "BUSY"].
Proof. split; vm_compute; reflexivity. Qed.
End Demo.
End NativePlane.
