(* ===== verification/Config.v ===== *)
(** * Configuration ([config.py])

    [load_config] merges the defaults, a TOML document and the environment,
    coerces every value to the type of the field's default and validates the
    result.

    A configuration maps field names to typed values.  The fields are visited in
    the iteration order of a set of strings, which Python does not fix: an
    argument.  The document is what [tomllib] reads, the environment a function;
    [ipaddress], [urllib.parse] and [str()] of floats and containers are
    parameters.  Floats are exact decimals. *)

From stdpp Require Import prelude strings list gmap.
From Stdlib Require Import ZArith Lia.
From S2P Require Import Prelude PyDict PyBytes PyValue Json QortalIdentity GroupAccess PyNumber PrivateService.

Module Config.
Import PrivateTransport.

Definition DEFAULT_RNS_CONFIG : string := "[reticulum]
enable_transport = False
share_instance = Yes
instance_name = qapp-backend-call

[logging]
loglevel = 4

[interfaces]
  [[Local Qortal Hub]]
  type = BackboneInterface
  enabled = Yes
  remote = host.docker.internal
  target_port = 4243
  network_name = qortal-hub
  passphrase = qortal-hub-community-mesh-v1

  [[Qortal Backbone Primary]]
  type = BackboneInterface
  enabled = Yes
  remote = phantom.mobilefabrik.com
  target_port = 4400
  network_name = qortal-hub

  [[Qortal Backbone]]
  type = BackboneInterface
  enabled = Yes
  remote = reticulum.qortal.link
  target_port = 4444
  network_name = qortal-hub

  [[Qortal Backbone 2]]
  type = BackboneInterface
  enabled = Yes
  remote = reticulum2.qortal.link
  target_port = 4444
  network_name = qortal-hub

  [[Qortal Backbone 3]]
  type = BackboneInterface
  enabled = Yes
  remote = reticulum3.qortal.link
  target_port = 4444
  network_name = qortal-hub

  [[Qortal Backbone 4]]
  type = BackboneInterface
  enabled = Yes
  remote = reticulum4.qortal.link
  target_port = 4444
  network_name = qortal-hub

  [[Qortal Backbone 5]]
  type = BackboneInterface
  enabled = Yes
  remote = reticulum5.qortal.link
  target_port = 4444
  network_name = qortal-hub
".

(** ** Fields *)

Inductive fval :=
| FPath (path : string)
| FStr (s : string)
| FBool (b : bool)
| FInt (n : Z)
| FFloat (f : Number.pyfloat)
| FQapps (l : list (string * string))
| FGroups (l : list Z)
| FUrls (l : list string).

(** The fields of the dataclass with their defaults. *)
Definition DEFAULTS : list (string * fval) := [
   ("production_deployment", FStr "local"); ("instance_lock_path", FPath ".qapp-backend-call-instance.lock");
   ("rns_config_dir", FPath "data/reticulum"); ("data_dir", FPath "data/backend"); ("identity_path", FPath "data/backend/identity");
   ("database_path", FPath "data/backend/backend.sqlite3"); ("backup_path", FPath "data/backups"); ("log_level", FStr "INFO");
   ("max_frame_size", FInt (256 * 1024)); ("max_queue_bytes", FInt (2 * 1024 * 1024)); ("max_unacked_messages", FInt 64);
   ("dedup_cache_size", FInt 512); ("ack_timeout", FFloat (Number.Finite 1200 (-1))); ("max_transport_retries", FInt 0);
   ("session_ttl", FInt (24 * 60 * 60)); ("unauthenticated_session_ttl", FInt (2 * 60)); ("max_logical_sessions_per_link", FInt 8);
   ("max_unauthenticated_sessions", FInt 256); ("max_auth_challenges", FInt 512); ("max_new_sessions_per_link_per_minute", FInt 16);
   ("idle_connection_timeout", FInt (5 * 60)); ("announce_interval", FInt (15 * 60)); ("max_rpc_payload", FInt (256 * 1024));
   ("max_rpc_response", FInt (1024 * 1024)); ("private_transport_bind_host", FStr "127.0.0.1"); ("private_transport_public_host", FStr "127.0.0.1");
   ("private_transport_port", FInt 0); ("private_transport_server_name", FStr "qapp-call-private-backend");
   ("private_transport_cert_path", FPath "data/backend/private-transport-cert.pem");
   ("private_transport_key_path", FPath "data/backend/private-transport-key.pem"); ("network_state_path", FPath "data/network/reachability.json");
   ("call_media_public_host", FStr "127.0.0.1"); ("call_media_port", FInt 4446); ("call_media_grants_path", FPath "data/backend/call-media-grants");
   ("call_media_revocations_path", FPath "data/backend/call-media-revocations"); ("private_transport_attach_ttl", FFloat (Number.Finite 300 (-1)));
   ("private_transport_bootstraps_per_minute", FInt 4); ("private_transport_bootstraps_per_user_per_minute", FInt 8);
   ("private_transport_max_unused_per_session", FInt 4); ("private_transport_max_unused_global", FInt 1024); ("enforce_qapp_allowlist", FBool false);
   ("allowed_qapps", FQapps []); ("access_mode", FStr "public"); ("allowed_group_ids", FGroups []); ("core_url_bases", FUrls []);
   ("access_revalidate_interval", FInt (30 * 60)); ("access_outage_grace", FInt (60 * 60))].
Definition names : list string := map fst DEFAULTS.

Definition _PATH_FIELDS : list string :=
  ["instance_lock_path"; "rns_config_dir"; "data_dir"; "identity_path"; "database_path"; "backup_path"; "private_transport_cert_path";
   "private_transport_key_path"; "network_state_path"; "call_media_grants_path"; "call_media_revocations_path"].

Definition _ENV_NAMES : list (string * string) := [
   ("production_deployment", "BACKEND_PRODUCTION_DEPLOYMENT"); ("instance_lock_path", "BACKEND_INSTANCE_LOCK_PATH");
   ("rns_config_dir", "RNS_CONFIG_DIR"); ("data_dir", "BACKEND_DATA_DIR"); ("identity_path", "BACKEND_IDENTITY_PATH");
   ("database_path", "BACKEND_DATABASE_PATH"); ("backup_path", "BACKEND_BACKUP_PATH"); ("log_level", "LOG_LEVEL");
   ("max_frame_size", "MAX_FRAME_SIZE"); ("max_queue_bytes", "MAX_QUEUE_BYTES"); ("max_unacked_messages", "MAX_UNACKED_MESSAGES");
   ("dedup_cache_size", "DEDUP_CACHE_SIZE"); ("ack_timeout", "ACK_TIMEOUT"); ("max_transport_retries", "MAX_TRANSPORT_RETRIES");
   ("session_ttl", "SESSION_TTL"); ("unauthenticated_session_ttl", "UNAUTHENTICATED_SESSION_TTL");
   ("max_logical_sessions_per_link", "MAX_LOGICAL_SESSIONS_PER_LINK"); ("max_unauthenticated_sessions", "MAX_UNAUTHENTICATED_SESSIONS");
   ("max_auth_challenges", "MAX_AUTH_CHALLENGES"); ("max_new_sessions_per_link_per_minute", "MAX_NEW_SESSIONS_PER_LINK_PER_MINUTE");
   ("idle_connection_timeout", "IDLE_CONNECTION_TIMEOUT"); ("announce_interval", "ANNOUNCE_INTERVAL"); ("max_rpc_payload", "MAX_RPC_PAYLOAD");
   ("max_rpc_response", "MAX_RPC_RESPONSE"); ("private_transport_bind_host", "PRIVATE_TRANSPORT_BIND_HOST");
   ("private_transport_public_host", "PRIVATE_TRANSPORT_PUBLIC_HOST"); ("private_transport_port", "PRIVATE_TRANSPORT_PORT");
   ("private_transport_server_name", "PRIVATE_TRANSPORT_SERVER_NAME"); ("private_transport_cert_path", "PRIVATE_TRANSPORT_CERT_PATH");
   ("private_transport_key_path", "PRIVATE_TRANSPORT_KEY_PATH"); ("network_state_path", "BACKEND_NETWORK_STATE_PATH");
   ("call_media_public_host", "CALL_MEDIA_PUBLIC_HOST"); ("call_media_port", "CALL_MEDIA_PORT");
   ("call_media_grants_path", "CALL_MEDIA_GRANTS_PATH"); ("call_media_revocations_path", "CALL_MEDIA_REVOCATIONS_PATH");
   ("private_transport_attach_ttl", "PRIVATE_TRANSPORT_ATTACH_TTL");
   ("private_transport_bootstraps_per_minute", "PRIVATE_TRANSPORT_BOOTSTRAPS_PER_MINUTE");
   ("private_transport_bootstraps_per_user_per_minute", "PRIVATE_TRANSPORT_BOOTSTRAPS_PER_USER_PER_MINUTE");
   ("private_transport_max_unused_per_session", "PRIVATE_TRANSPORT_MAX_UNUSED_PER_SESSION");
   ("private_transport_max_unused_global", "PRIVATE_TRANSPORT_MAX_UNUSED_GLOBAL"); ("enforce_qapp_allowlist", "ENFORCE_QAPP_ALLOWLIST");
   ("allowed_qapps", "ALLOWED_QAPPS"); ("access_mode", "BACKEND_ACCESS_MODE"); ("allowed_group_ids", "BACKEND_ALLOWED_GROUP_IDS");
   ("core_url_bases", "BACKEND_CORE_URL_BASES"); ("access_revalidate_interval", "BACKEND_ACCESS_REVALIDATE_INTERVAL");
   ("access_outage_grace", "BACKEND_ACCESS_OUTAGE_GRACE")].

Abbreviation Config := (gmap string fval).
Definition defaults : Config := list_to_map DEFAULTS.
Definition field (c : Config) (name : string) : fval := default (FInt 0) (c !! name).
Definition int_field (c : Config) (name : string) : Z := match field c name with FInt n => n | _ => 0 end.
Definition str_field (c : Config) (name : string) : string := match field c name with FStr s => s | _ => "" end.
Definition qapps (c : Config) : list (string * string) := match field c "allowed_qapps" with FQapps l => l | _ => [] end.
Definition groups (c : Config) : list Z := match field c "allowed_group_ids" with FGroups l => l | _ => [] end.
Definition urls (c : Config) : list string := match field c "core_url_bases" with FUrls l => l | _ => [] end.
Definition attach_ttl (c : Config) : Number.pyfloat :=
  match field c "private_transport_attach_ttl" with FFloat f => f | _ => Number.NaN end.

(** [urlparse(text)]: the attributes the code reads. *)
Record url := { scheme : string; hostname : option string; username : option string; password : option string; query : string; fragment : string }.
Class UrlParse := { urlparse : string -> res url }.

(** [str(v)] of a float, list or dict *)
Class Repr := { repr : pyval -> string }.

Section config.
Context `{Qortal.Unicode} `{IpAddress} `{UrlParse} `{Repr}.

(** ** Coercion *)

Definition str (v : pyval) : string :=
  match v with
  | VStr s => s
  | VInt n => bytes_str (dec n)
  | VBool b => if b then "True" else "False"
  | VNone => "None"
  | _ => repr v
  end.

(** [int(v)] and [float(v)] *)
Definition to_int (v : pyval) : res Z :=
  match v with
  | VStr s => Number.int_of_str s
  | VInt n => Ok n
  | VBool b => Ok (if b then 1 else 0)
  | VFloat s => Number.truncate (Number.float_of_literal s)
  | _ => Raise (TypeError "int() argument must be a string, a bytes-like object or a real number")
  end.
Definition to_float (v : pyval) : res Number.pyfloat :=
  match v with
  | VStr s => Number.float_of_str s
  | VInt n => Ok (Number.Finite n 0)
  | VBool b => Ok (Number.Finite (if b then 1 else 0) 0)
  | VFloat s => Ok (Number.float_of_literal s)
  | _ => Raise (TypeError "float() argument must be a string or a real number")
  end.

(** A list given as such or as JSON text. *)
Definition array (name : string) (v : pyval) : res (list pyval) :=
  let? v := match v with
    | VStr s => match loads s with
                | Ok x => Ok x
                | Raise JSONDecodeError => Raise (ValueError (name ++ " must be a JSON array"))
                | Raise e => Raise e
                end
    | _ => Ok v end in
  match v with VList l => Ok l | _ => Raise (ValueError (name ++ " must be an array")) end.

Definition all_of {X} (f : pyval -> option X) (msg : string) (l : list pyval) : res (list X) :=
  match mapM f l with Some xs => Ok xs | None => Raise (ValueError msg) end.
Definition as_int (v : pyval) : option Z := match v with VInt n => Some n | _ => None end.

(** One entry of [allowed_qapps]. *)
Definition qapp_entry (v : pyval) : res (string * string) :=
  match v with
  | VDict d =>
    if forallb (fun k => bool_decide (k ∈ ["name"; "service"])) (od_keys d)
    then Qortal.normalize_qapp_identity (dget "name" d) (dget "service" d)
    else Raise (ValueError "allowed_qapps entries must contain only name and service")
  | _ => Raise (ValueError "allowed_qapps entries must contain only name and service")
  end.
Fixpoint qapp_entries (l : list pyval) : res (list (string * string)) :=
  match l with [] => Ok [] | v :: l' => let? q := qapp_entry v in let? qs := qapp_entries l' in Ok (q :: qs) end.

(** [_coerce] *)
Definition _coerce (v : pyval) (default : fval) (name : string) : res fval :=
  if bool_decide (name = "allowed_group_ids") then
    let? l := array name v in let? ns := all_of as_int "allowed_group_ids must contain integers" l in Ok (FGroups ns)
  else if bool_decide (name = "core_url_bases") then
    let? l := array name v in let? ss := all_of as_str "core_url_bases must contain strings" l in Ok (FUrls (map GroupAccess.rstrip_slash ss))
  else if bool_decide (name = "allowed_qapps") then
    let? l := array name v in let? qs := qapp_entries l in Ok (FQapps qs)
  else if bool_decide (name ∈ _PATH_FIELDS) then
    match v with VStr s => Ok (FPath s) | _ => Raise (TypeError "expected str, bytes or os.PathLike object") end
  else
    match default with
    | FBool _ =>
      let normalized := Qortal.lower (Qortal.strip (str v)) in
      if bool_decide (normalized ∈ ["1"; "0"; "true"; "false"; "yes"; "no"; "on"; "off"])
      then Ok (FBool (bool_decide (normalized ∈ ["1"; "true"; "yes"; "on"])))
      else Raise (ValueError (name ++ " must be a boolean"))
    | FInt _ => let? n := to_int v in Ok (FInt n)
    | FFloat _ => let? f := to_float v in Ok (FFloat f)
    | _ => Ok (FStr (str v))
    end.

(** ** Validation *)

Definition require (b : bool) (msg : string) : res unit := if b then Ok tt else Raise (ValueError msg).

Definition POSITIVE : list string :=
  ["max_frame_size"; "max_queue_bytes"; "max_unacked_messages"; "dedup_cache_size"; "ack_timeout"; "session_ttl";
   "unauthenticated_session_ttl"; "max_logical_sessions_per_link"; "max_unauthenticated_sessions"; "max_auth_challenges";
   "max_new_sessions_per_link_per_minute"; "idle_connection_timeout"; "announce_interval"; "max_rpc_payload"; "max_rpc_response"].
Definition nonpositive (v : fval) : bool := match v with FInt n => n <=? 0 | FFloat f => Number.float_le f 0 | _ => false end.
Fixpoint check_positive (c : Config) (l : list string) : res unit :=
  match l with
  | [] => Ok tt
  | name :: l' => if nonpositive (field c name) then Raise (ValueError (name ++ " must be positive")) else check_positive c l'
  end.

Definition is_auto (host : string) : bool := bool_decide (Qortal.lower (Qortal.strip host) = "auto").
Definition is_ip (host : string) : bool := bool_decide (is_Some (ip_address host)).

Fixpoint check_qapps (l : list (string * string)) : res unit :=
  match l with
  | [] => Ok tt
  | (name, service) :: l' =>
    let? q := Qortal.normalize_qapp_identity (VStr name) (VStr service) in
    if bool_decide (q = (name, service)) then check_qapps l'
    else Raise (ValueError "allowed_qapps entries must use canonical identities")
  end.

Definition LOCAL_HOSTS : list string := ["127.0.0.1"; "localhost"; "::1"; "host.docker.internal"].

Definition has_hostname (u : url) : bool := match hostname u with Some h => negb (bool_decide (h = "")) | None => false end.
Definition check_url (base : string) : res unit :=
  let? u := urlparse base in
  if negb (bool_decide (scheme u ∈ ["http"; "https"])) || negb (has_hostname u) || bool_decide (is_Some (username u))
     || bool_decide (is_Some (password u)) || negb (bool_decide (query u = "")) || negb (bool_decide (fragment u = ""))
  then Raise (ValueError "core_url_bases contains an invalid Core URL")
  else require (negb (bool_decide (scheme u = "http")) || bool_decide (default "" (hostname u) ∈ LOCAL_HOSTS)) "remote Core URLs must use HTTPS".
Fixpoint check_urls (l : list string) : res unit :=
  match l with [] => Ok tt | base :: l' => let? _ := check_url base in check_urls l' end.

Definition between (lo n hi : Z) : bool := (lo <=? n) && (n <=? hi).

(** [Config.validate] *)
Definition validate (c : Config) : res unit :=
  let? _ := require (bool_decide (str_field c "production_deployment" ∈ ["local"; "docker"])) "production_deployment must be local or docker" in
  let? _ := check_positive c POSITIVE in
  let? _ := require (int_field c "unauthenticated_session_ttl" <=? int_field c "session_ttl") "unauthenticated_session_ttl cannot exceed session_ttl" in
  let? _ := require (int_field c "max_transport_retries" =? 0) "protocol v1 requires max_transport_retries = 0" in
  let? _ := require (int_field c "max_frame_size" <=? 256 * 1024) "max_frame_size cannot exceed 262144" in
  let? _ := require (is_ip (str_field c "private_transport_bind_host")
                     && forallb (fun name => is_auto (str_field c name) || is_ip (str_field c name)) ["private_transport_public_host"; "call_media_public_host"])
              "private transport hosts must be literal IP addresses or auto" in
  let? _ := require (between 0 (int_field c "private_transport_port") 65535) "private_transport_port must be between 0 and 65535" in
  let? _ := require (negb (is_auto (str_field c "private_transport_public_host") && (int_field c "private_transport_port" =? 0)))
              "automatic reachability requires a fixed private_transport_port" in
  let? _ := require (between 1 (int_field c "call_media_port") 65535) "call_media_port must be between 1 and 65535" in
  let? _ := require (negb (bool_decide (Qortal.strip (str_field c "private_transport_server_name") = ""))) "private_transport_server_name is invalid" in
  let? _ := require (Number.isfinite (attach_ttl c) && Number.float_ge (attach_ttl c) 5 && Number.float_le (attach_ttl c) 300)
              "private_transport_attach_ttl must be between 5 and 300 seconds" in
  let? _ := require (forallb (fun name => 0 <? int_field c name)
                       ["private_transport_bootstraps_per_minute"; "private_transport_bootstraps_per_user_per_minute";
                        "private_transport_max_unused_per_session"; "private_transport_max_unused_global"])
              "private transport limits must be positive" in
  let? _ := require (int_field c "private_transport_max_unused_per_session" <=? int_field c "private_transport_max_unused_global")
              "private transport global token limit is too small" in
  let? _ := check_qapps (qapps c) in
  let mode := str_field c "access_mode" in
  let? _ := require (bool_decide (mode ∈ ["public"; "groups"])) "access_mode must be public or groups" in
  let? _ := require ((length (groups c) <=? 16)%nat && forallb (fun g => 0 <? g) (groups c) && bool_decide (NoDup (groups c)))
              "allowed_group_ids must contain up to 16 unique positive integers" in
  let? _ := require (negb (bool_decide (mode = "public") && negb (bool_decide (groups c = [])))) "public access cannot have group restrictions" in
  let? _ := require (negb (bool_decide (mode = "groups") && bool_decide (groups c = []))) "groups access requires at least one allowed_group_id" in
  let? _ := require ((length (urls c) <=? 8)%nat && negb (bool_decide (mode = "groups") && bool_decide (urls c = [])))
              "groups access requires 1 to 8 Core URLs" in
  let? _ := check_urls (urls c) in
  let interval := int_field c "access_revalidate_interval" in
  let? _ := require (between 60 interval (12 * 60 * 60)) "access_revalidate_interval must be between 60 seconds and 12 hours" in
  require (between interval (int_field c "access_outage_grace") (24 * 60 * 60))
    "access_outage_grace must be at least the revalidation interval and at most 24 hours".

(** ** Loading *)

(** The table of the document that holds the settings. *)
Definition section (document : pyval) : res (odict string pyval) :=
  match document with
  | VDict d =>
    match od_get "backend" d with
    | Some (VDict s) => Ok s
    | Some _ => Raise (ValueError "configuration [backend] must be a table")
    | None => Ok d
    end
  | _ => Raise (ValueError "configuration [backend] must be a table")
  end.

(** The raw value of a field: the environment's, else the document's. *)
Definition raw_value (values : odict string pyval) (getenv : string -> option string) (name : string) : option pyval :=
  match getenv (default "" (od_get name _ENV_NAMES)) with
  | Some text => Some (VStr text)
  | None => od_get name values
  end.

(** The loop over the fields: [values[name] = _coerce(..)]. *)
Fixpoint coerce_all (values : odict string pyval) (getenv : string -> option string) (order : list string) (c : Config) : res Config :=
  match order with
  | [] => Ok c
  | name :: rest =>
    match raw_value values getenv name with
    | Some v => let? x := _coerce v (field defaults name) name in coerce_all values getenv rest (<[name := x]> c)
    | None => coerce_all values getenv rest c
    end
  end.

(** [load_config]; [document] is [None] when no path is given. *)
Definition load_config (order : list string) (document : option (res pyval)) (getenv : string -> option string) : res Config :=
  let? values := match document with None => Ok [] | Some d => let? x := d in section x end in
  if negb (forallb (fun k => bool_decide (k ∈ names)) (od_keys values)) then Raise (ValueError "unknown configuration keys") else
  let? c := coerce_all values getenv order defaults in
  let? _ := validate c in
  Ok c.
End config.

(** [Config._ensure_rns_config] over the files of the file system *)
Definition _ensure_rns_config (path : string) (files : gmap string string) : gmap string string :=
  match files !! path with Some _ => files | None => <[path := DEFAULT_RNS_CONFIG]> files end.
End Config.
