(* ===== verification/ConfigFacts.v ===== *)
(** * What a loaded configuration guarantees

    Every field has the type of its default; the environment overrides the
    document, which overrides the default; the order in which the fields are
    visited does not matter; and the constraints the other components rely on
    hold. *)

From stdpp Require Import prelude strings list gmap.
From Stdlib Require Import ZArith Lia.
From S2P Require Import Prelude PyDict PyBytes PyValue Json QortalIdentity QortalFacts GroupAccess PyNumber PrivateService Config.

Module ConfigThm.
Import PrivateTransport Config.

(** ** Types *)

Definition kind (v : fval) : nat :=
  match v with FPath _ => 0 | FStr _ => 1 | FBool _ => 2 | FInt _ => 3 | FFloat _ => 4 | FQapps _ => 5 | FGroups _ => 6 | FUrls _ => 7 end.

(** Which fields the special cases of [_coerce] are for. *)
Definition special (name : string) : nat :=
  if bool_decide (name = "allowed_group_ids") then 6 else if bool_decide (name = "core_url_bases") then 7
  else if bool_decide (name = "allowed_qapps") then 5 else if bool_decide (name ∈ _PATH_FIELDS) then 0 else 8.

Lemma special_kinds : Forall (fun name => special name = kind (field defaults name) \/ (special name = 8%nat /\ kind (field defaults name) ∈ [1; 2; 3; 4]%nat)) names.
Proof. apply (bool_decide_unpack _). vm_compute. exact I. Qed.

Lemma positive_kinds : Forall (fun name => (name ∈ names /\ kind (field defaults name) = 3%nat) \/ name = "ack_timeout") POSITIVE.
Proof. apply (bool_decide_unpack _). vm_compute. exact I. Qed.

Lemma defaults_present : Forall (fun name => is_Some (defaults !! name)) names.
Proof. apply (bool_decide_unpack _). vm_compute. exact I. Qed.

#[local] Opaque names DEFAULTS defaults POSITIVE.
Ltac listed := apply (bool_decide_unpack _); vm_compute; exact I.

Section facts.
Context `{Qortal.Unicode} `{IpAddress} `{UrlParse} `{Repr}.

Lemma coerce_kind v name x : name ∈ names -> _coerce v (field defaults name) name = Ok x -> kind x = kind (field defaults name).
Proof.
  intros Hn. pose proof special_kinds as Hs. rewrite Forall_forall in Hs. specialize (Hs name Hn). unfold special in Hs. unfold _coerce.
  case_bool_decide.
  { destruct (array name v) as [l|]; [|done]. cbn [rbind]. destruct (all_of _ _ l); [|done]. intros [= <-]. by destruct Hs as [<-|[? _]]. }
  case_bool_decide.
  { destruct (array name v) as [l|]; [|done]. cbn [rbind]. destruct (all_of _ _ l); [|done]. intros [= <-]. by destruct Hs as [<-|[? _]]. }
  case_bool_decide.
  { destruct (array name v) as [l|]; [|done]. cbn [rbind]. destruct (qapp_entries l); [|done]. intros [= <-]. by destruct Hs as [<-|[? _]]. }
  case_bool_decide; [destruct v; try done; intros [= <-]; by destruct Hs as [<-|[? _]]|].
  destruct Hs as [Hs|[_ Hs]]; [by destruct (field defaults name)|].
  destruct (field defaults name); try by (exfalso; revert Hs; cbn; rewrite !elem_of_cons, elem_of_nil; lia).
  - by intros [= <-].
  - case_bool_decide; [|done]. by intros [= <-].
  - destruct (to_int v); [|done]. by intros [= <-].
  - destruct (to_float v); [|done]. by intros [= <-].
Qed.

(** ** The loop over the fields *)

Section loop.
Context (values : odict string pyval) (getenv : string -> option string).

(** The value the settings give a field, if any. *)
Definition setting (name : string) : option (res fval) :=
  (fun v => _coerce v (field defaults name) name) <$> raw_value values getenv name.

Lemma coerce_all_lookup order c c' : coerce_all values getenv order c = Ok c' -> forall name,
  c' !! name = match (if decide (name ∈ order) then setting name else None) with Some (Ok x) => Some x | _ => c !! name end /\
  (name ∈ order -> forall e, setting name ≠ Some (Raise e)).
Proof.
  revert c. induction order as [|n order IH]; intros c; cbn [coerce_all].
  { intros [= <-] name. rewrite decide_False by apply not_elem_of_nil. split; [done|]. by intros ?%not_elem_of_nil. }
  intros Hrun name. destruct (raw_value values getenv n) as [v|] eqn:Er.
  - destruct (_coerce v (field defaults n) n) as [x|] eqn:Ec; [cbn [rbind] in Hrun|done].
    assert (setting n = Some (Ok x)) as Es by (unfold setting; rewrite Er; by apply (f_equal Some)).
    destruct (IH _ Hrun name) as [-> Hok]. split.
    + destruct (decide (name = n)) as [->|Hne].
      * rewrite Es. destruct (decide (n ∈ n :: order)) as [_|Hx]; [|by destruct Hx; left]. case_decide; [done|]. apply (lookup_insert_eq).
      * rewrite (lookup_insert_ne) by done. by rewrite (decide_ext (name ∈ n :: order) (name ∈ order)) by (rewrite elem_of_cons; tauto).
    + rewrite elem_of_cons. intros [->|Hin]; [by rewrite Es|by apply Hok].
  - destruct (IH _ Hrun name) as [-> Hok]. assert (setting n = None) as Es by (unfold setting; by rewrite Er). split.
    + destruct (decide (name = n)) as [->|Hne]; [rewrite Es; by repeat case_decide|].
      by rewrite (decide_ext (name ∈ n :: order) (name ∈ order)) by (rewrite elem_of_cons; tauto).
    + rewrite elem_of_cons. intros [->|Hin]; [by rewrite Es|by apply Hok].
Qed.

Lemma coerce_all_succeeds order c : (forall name, name ∈ order -> forall e, setting name ≠ Some (Raise e)) ->
  exists c', coerce_all values getenv order c = Ok c'.
Proof.
  revert c. induction order as [|n order IH]; intros c Hok; cbn [coerce_all]; [by eexists|].
  assert (forall name, name ∈ order -> forall e, setting name ≠ Some (Raise e)) as Hok' by (intros; apply Hok; by right).
  specialize (Hok n (list_elem_of_here _ _)). unfold setting in Hok. destruct (raw_value values getenv n) as [v|]; [|by apply IH].
  destruct (_coerce v _ n) as [x|e] eqn:Ec; [by apply IH|]. destruct (Hok e). by apply (f_equal Some).
Qed.
End loop.

(** ** Loading *)

Lemma load_cases order document getenv c : load_config order document getenv = Ok c <->
  exists values, (match document with None => Ok [] | Some d => rbind d section end) = Ok values /\
    forallb (fun k => bool_decide (k ∈ names)) (od_keys values) = true /\
    coerce_all values getenv order defaults = Ok c /\ validate c = Ok tt.
Proof.
  unfold load_config. destruct (match document with None => Ok [] | Some d => rbind d section end) as [values|e]; cbn [rbind];
    [|split; [done|by intros (? & [=] & _)]].
  destruct (forallb _ _) eqn:Hk; cbn [negb]; [|split; [done|]; intros (? & [= <-] & Hk' & _); congruence].
  destruct (coerce_all values getenv order defaults) as [c'|e] eqn:Ec; cbn [rbind];
    [|split; [done|]; intros (? & [= <-] & _ & Ec' & _); congruence].
  split.
  - destruct (validate c') as [[]|] eqn:Ev; [|done]. cbn [rbind]. intros [= <-]. by exists values.
  - intros (? & [= <-] & _ & Ec' & Ev). assert (c' = c) as -> by congruence. by rewrite Ev.
Qed.

(** a configuration does not depend on the order in which the fields are
    visited, which is that of a set of strings: if one order loads, every other
    order loads the same. *)
Theorem load_order_irrelevant order order' document getenv c
    (Hperm : order ≡ₚ order') (Hload : load_config order document getenv = Ok c) : load_config order' document getenv = Ok c.
Proof.
  apply load_cases in Hload as (values & Hv & Hk & Hc & Hval). apply load_cases. exists values. split; [done|]. split; [done|].
  destruct (coerce_all_succeeds values getenv order' defaults) as [c' Hc'].
  { intros name Hn. apply (coerce_all_lookup _ _ _ _ _ Hc). by rewrite Hperm. }
  assert (c' = c) as ->; [|done]. apply map_eq. intros name. rewrite (proj1 (coerce_all_lookup _ _ _ _ _ Hc' name)), (proj1 (coerce_all_lookup _ _ _ _ _ Hc name)).
  rewrite (decide_ext (name ∈ order') (name ∈ order)) by (by rewrite Hperm). done.
Qed.

(** The constraints between the settings that other components rely on. *)
Record sound (c : Config) : Prop := {
  snd_frames : 0 < int_field c "max_frame_size" <= 262144;
  snd_queue : 0 < int_field c "max_queue_bytes" /\ 0 < int_field c "max_unacked_messages" /\ 0 < int_field c "dedup_cache_size";
  snd_ttl : 0 < int_field c "unauthenticated_session_ttl" <= int_field c "session_ttl";
  snd_admission : 0 < int_field c "max_logical_sessions_per_link" /\ 0 < int_field c "max_unauthenticated_sessions" /\
    0 < int_field c "max_new_sessions_per_link_per_minute" /\ 0 < int_field c "max_auth_challenges";
  snd_attach : Number.float_ge (attach_ttl c) 5 = true /\ Number.float_le (attach_ttl c) 300 = true /\
    0 < int_field c "private_transport_bootstraps_per_minute" /\ 0 < int_field c "private_transport_bootstraps_per_user_per_minute" /\
    0 < int_field c "private_transport_max_unused_per_session" <= int_field c "private_transport_max_unused_global";
  snd_ports : 0 <= int_field c "private_transport_port" <= 65535 /\ 1 <= int_field c "call_media_port" <= 65535;
  snd_auto : is_auto (str_field c "private_transport_public_host") = true -> int_field c "private_transport_port" ≠ 0;
  snd_mode : (str_field c "access_mode" = "public" /\ groups c = []) \/
    (str_field c "access_mode" = "groups" /\ groups c ≠ [] /\ urls c ≠ []);
  snd_groups : (length (groups c) <= 16)%nat /\ NoDup (groups c) /\ Forall (fun g => 0 < g) (groups c);
  snd_urls : (length (urls c) <= 8)%nat /\ Forall (fun base => exists u h, urlparse base = Ok u /\ hostname u = Some h /\
    username u = None /\ password u = None /\ (scheme u = "https" \/ (scheme u = "http" /\ h ∈ LOCAL_HOSTS))) (urls c);
  snd_access : 60 <= int_field c "access_revalidate_interval" <= int_field c "access_outage_grace" /\ int_field c "access_outage_grace" <= 86400
}.

Lemma require_ok b msg : require b msg = Ok tt -> b = true.
Proof. by destruct b. Qed.

Lemma check_positive_ok c l : check_positive c l = Ok tt -> Forall (fun name => nonpositive (field c name) = false) l.
Proof. induction l as [|n l IH]; [constructor|]. cbn. destruct (nonpositive _) eqn:E; [done|]. intros Hl. constructor; auto. Qed.

Lemma check_url_ok base : check_url base = Ok tt -> exists u h, urlparse base = Ok u /\ hostname u = Some h /\
  username u = None /\ password u = None /\ (scheme u = "https" \/ (scheme u = "http" /\ h ∈ LOCAL_HOSTS)).
Proof.
  unfold check_url. destruct (urlparse base) as [u|]; [|done]. cbn [rbind]. destruct (_ || _) eqn:E; [done|].
  apply orb_false_iff in E as [E _]. apply orb_false_iff in E as [E _]. apply orb_false_iff in E as [E Hp]. apply orb_false_iff in E as [E Hu].
  apply orb_false_iff in E as [Hs Hh]. unfold has_hostname in Hh. destruct (hostname u) as [h|] eqn:Eh; [|done]. intros Hr%require_ok.
  apply bool_decide_eq_false in Hp, Hu. exists u, h. split; [done|]. split; [done|].
  split; [by destruct (username u); [exfalso; apply Hu; eexists|]|]. split; [by destruct (password u); [exfalso; apply Hp; eexists|]|].
  apply negb_false_iff, bool_decide_eq_true in Hs. cbn [default] in Hr. rewrite !elem_of_cons, elem_of_nil in Hs. destruct Hs as [Hs|[Hs|[]]]; [|by left].
  right. split; [done|]. rewrite Hs in Hr. cbn in Hr. by apply bool_decide_eq_true in Hr.
Qed.

Lemma check_urls_ok l : check_urls l = Ok tt -> Forall (fun base => check_url base = Ok tt) l.
Proof. induction l as [|b l IH]; [constructor|]. cbn [check_urls]. destruct (check_url b) as [[]|] eqn:E; [|done]. cbn [rbind]. intros Hl. constructor; auto. Qed.


Definition typed (c : Config) : Prop := forall name, name ∈ names -> kind (field c name) = kind (field defaults name).

Lemma positive_int c name : typed c -> name ∈ names -> kind (field defaults name) = 3%nat -> nonpositive (field c name) = false -> 0 < int_field c name.
Proof. intros Ht Hn Hk. specialize (Ht name Hn). rewrite Hk in Ht. clear Hn Hk. unfold int_field. destruct (field c name); try discriminate Ht. cbn. lia. Qed.

(** Peel the first check off a successful validation. *)
Ltac peel H E :=
  match type of H with
  | rbind (require ?b ?m) _ = _ => destruct (require b m) as [[]|] eqn:E; [cbn [rbind] in H; apply require_ok in E|discriminate H]
  | rbind ?r _ = _ => destruct r as [[]|] eqn:E; [cbn [rbind] in H|discriminate H]
  end.

Lemma validate_sound c : typed c -> validate c = Ok tt -> sound c.
Proof.
  intros Ht Hv. unfold validate in Hv. peel Hv E1. peel Hv E2. peel Hv E3. peel Hv E4. peel Hv E5. peel Hv E6. peel Hv E7. peel Hv E8. peel Hv E9.
  peel Hv E10. peel Hv E11. peel Hv E12. peel Hv E13. peel Hv E14. peel Hv E15. peel Hv E16. peel Hv E17. peel Hv E18. peel Hv E19. peel Hv E20. peel Hv E21.
  apply require_ok in Hv. apply check_positive_ok in E2. rewrite Forall_forall in E2.
  pose proof positive_kinds as Hpos. rewrite Forall_forall in Hpos.
  assert (forall name, name ∈ POSITIVE -> name ≠ "ack_timeout" -> 0 < int_field c name) as Hp.
  { intros name Hn Hne. destruct (Hpos name Hn) as [[? ?]|]; [|done]. apply positive_int; auto. }
  unfold between in *. rewrite !andb_true_iff in *. rewrite !forallb_forall in *.
  assert (forall name, In name ["private_transport_bootstraps_per_minute"; "private_transport_bootstraps_per_user_per_minute";
    "private_transport_max_unused_per_session"; "private_transport_max_unused_global"] -> 0 < int_field c name) as Ha by (intros; apply Z.ltb_lt; auto).
  apply check_urls_ok in E20. destruct E16 as [[E16 E16'] E16'']. destruct E19 as [E19 E19'].
  apply bool_decide_eq_true in E15, E16''. apply Nat.leb_le in E16, E19.
  split.
  - split; [apply Hp; [listed|discriminate]|lia].
  - split_and!; (apply Hp; [listed|discriminate]).
  - split; [apply Hp; [listed|discriminate]|lia].
  - split_and!; (apply Hp; [listed|discriminate]).
  - split_and!; try apply E11; try lia; apply Ha; cbn; tauto.
  - lia.
  - intros Hauto. rewrite Hauto in E8. cbn in E8. lia.
  - rewrite !elem_of_cons, elem_of_nil in E15. destruct E15 as [Em|[Em|[]]]; rewrite Em in *; cbn in *.
    + left. split; [done|]. apply negb_true_iff, negb_false_iff, bool_decide_eq_true in E17. done.
    + right. split; [done|]. apply negb_true_iff, bool_decide_eq_false in E18, E19'. done.
  - split; [done|]. split; [done|]. apply Forall_forall. intros g Hg. apply Z.ltb_lt, E16'. by apply list_elem_of_In.
  - split; [done|]. eapply Forall_impl; [exact E20|]. intros base Hb. by apply check_url_ok.
  - lia.
Qed.

(** The value a field gets: the environment's, else the document's, else the
    default. *)
Definition effective (values : odict string pyval) (getenv : string -> option string) (name : string) : option fval :=
  match raw_value values getenv name with
  | Some v => match _coerce v (field defaults name) name with Ok x => Some x | Raise _ => None end
  | None => defaults !! name
  end.

End facts.

(** ** Examples *)

Module Demo.
#[local] Existing Instance QortalThm.Demo.ascii_unicode.
#[local] Instance ip : IpAddress := {| ip_address := fun text => if bool_decide (text = "127.0.0.1") then Some (text, false) else None |}.
#[local] Instance parse : UrlParse := {| urlparse := fun text =>
  Ok {| scheme := "https"; hostname := Some text; username := None; password := None; query := ""; fragment := "" |} |}.
#[local] Instance text : Repr := {| repr := fun _ => "" |}.

(** A document that restricts access, under an environment that shortens the
    lifetime of sessions. *)
Definition document : pyval :=
  VDict [("backend", VDict [("access_mode", VStr "groups"); ("allowed_group_ids", VList [VInt 7]); ("core_url_bases", VList [VStr "https://core/"]);
                            ("session_ttl", VInt 7200)])].
Definition environment (name : string) : option string := if bool_decide (name = "SESSION_TTL") then Some "3_600" else None.
Definition loaded : Config := match load_config names (Some (Ok document)) environment with Ok c => c | Raise _ => ∅ end.

Lemma demo_loads : load_config names (Some (Ok document)) environment = Ok loaded.
Proof.
  unfold loaded. assert (is_ok (load_config names (Some (Ok document)) environment) = true) as Hok by (vm_compute; reflexivity).
  destruct (load_config names (Some (Ok document)) environment); [reflexivity|discriminate Hok].
Qed.


Lemma load_order_irrelevant_witness : load_config (rev names) (Some (Ok document)) environment = Ok loaded.
Proof. apply (load_order_irrelevant names (rev names)); [apply Permutation_rev|exact demo_loads]. Defined.

(** Lifetimes declared as floats with integral defaults are truncated. *)
Example fractional_ttl_truncated :
  (let? c := load_config names (Some (Ok (VDict [("access_revalidate_interval", VFloat "90.5")]))) (fun _ => None) in
   Ok (field c "access_revalidate_interval")) = Ok (FInt 90).
Proof. vm_compute. reflexivity. Qed.

(** An acknowledgement timeout that is not a number passes validation. *)
Example nan_timeout_accepted :
  (let? c := load_config names None (fun name => if bool_decide (name = "ACK_TIMEOUT") then Some "nan" else None) in
   Ok (field c "ack_timeout")) = Ok (FFloat Number.NaN).
Proof. vm_compute. reflexivity. Qed.
End Demo.
End ConfigThm.
