(* ===== verification/Writer.v ===== *)
(** * Bounded writes on a Reticulum stream ([reticulum/writer.py])

    [ReticulumWriter.__call__] has a worker of a pool write a frame to the raw
    channel, piece by piece, while it polls for the outcome; whatever goes wrong
    cancels the writer, since a partial frame makes the stream unusable.  A
    worker that was given up may still be inside [raw.write] afterwards.

    The threads are the events of a machine: a call that begins, polls, or gives
    up waiting for the gate, workers that take a job, check, or whose write
    returns, other writers' jobs in the shared pool, and [cancel] from outside.
    What [raw.write] does is part of the event. *)

From stdpp Require Import prelude strings list.
From Stdlib Require Import ZArith Lia.
From Stdlib.Strings Require Import Byte.
From S2P Require Import Prelude PyBytes.

Module Writer.

(** ** Pools *)

(** [WritePool]: the jobs that no worker has taken yet. *)
Record WritePool (J : Type) := { capacity : nat; jobs : list J }.
Arguments capacity {J}.
Arguments jobs {J}.

(** [WRITE_POOL] and [TEARDOWN_POOL] *)
Definition WRITE_POOL {J} : WritePool J := {| capacity := 64; jobs := [] |}.
Definition TEARDOWN_POOL {J} : WritePool J := {| capacity := 64; jobs := [] |}.

(** [submit]; the worker threads are those that later take jobs. *)
Definition submit {J} (job : J) : M (WritePool J) unit :=
  let! p := get in
  if (capacity p <=? length (jobs p))%nat then raise QueueFull
  else put {| capacity := capacity p; jobs := jobs p ++ [job] |}.

(** One turn of [_run]: a worker takes the oldest job and runs it; a job's
    exception is swallowed. *)
Definition run_turn {S J} (pool : S -> WritePool J) (set_pool : WritePool J -> S -> S) (run : J -> M S unit) : M S unit :=
  let! s := get in
  match jobs (pool s) with
  | [] => ret tt
  | job :: rest =>
    modify (set_pool {| capacity := capacity (pool s); jobs := rest |}) ;!
    try_catch (run job) (fun _ => true) (fun _ => ret tt)
  end.

(** [schedule_teardown] *)
Definition schedule_teardown {J} (teardown : option J) : M (WritePool J) unit :=
  match teardown with
  | Some job => try_catch (submit job) (fun e => bool_decide (e = QueueFull)) (fun _ => ret tt)
  | None => ret tt
  end.

(** ** The writer *)

(** Where a job is: in the pool, before its next check, inside [raw.write], or
    finished with an exception or none. *)
Inductive phase := Queued | Checking | Writing | Finished (error : option exn).
#[export] Instance phase_eq_dec : EqDecision phase.
Proof. solve_decision. Defined.

(** A run of [write], with the variables of the call it belongs to. *)
Record job := { data : bytes; offset : nat; deadline : Z; at_ : phase }.
Definition set_at (p : phase) (j : job) : job :=
  {| data := data j; offset := offset j; deadline := deadline j; at_ := p |}.
Definition advance (k : nat) (j : job) : job :=
  {| data := data j; offset := offset j + k; deadline := deadline j; at_ := Checking |}.

(** [ReticulumWriter]: the bytes [raw] has taken, [cancelled], whether a call
    holds [gate], and the jobs submitted so far, the last one by the latest
    call.  Entries of the pool are indices of jobs, or [None] for the jobs of
    other writers. *)
Record ReticulumWriter := {
  raw : bytes;
  cancelled : bool;
  gate : bool;
  started : list job;
  pool : WritePool (option nat);
  timeout : Z
}.

Definition new_writer (p : WritePool (option nat)) (t : Z) : ReticulumWriter :=
  {| raw := []; cancelled := false; gate := false; started := []; pool := p; timeout := t |}.

Definition set_raw (b : bytes) (w : ReticulumWriter) : ReticulumWriter :=
  {| raw := b; cancelled := cancelled w; gate := gate w; started := started w; pool := pool w; timeout := timeout w |}.
Definition set_gate (b : bool) (w : ReticulumWriter) : ReticulumWriter :=
  {| raw := raw w; cancelled := cancelled w; gate := b; started := started w; pool := pool w; timeout := timeout w |}.
Definition set_started (l : list job) (w : ReticulumWriter) : ReticulumWriter :=
  {| raw := raw w; cancelled := cancelled w; gate := gate w; started := l; pool := pool w; timeout := timeout w |}.
Definition set_pool (p : WritePool (option nat)) (w : ReticulumWriter) : ReticulumWriter :=
  {| raw := raw w; cancelled := cancelled w; gate := gate w; started := started w; pool := p; timeout := timeout w |}.
Definition set_job (i : nat) (j : job) (w : ReticulumWriter) : ReticulumWriter :=
  set_started (<[i := j]> (started w)) w.

(** [cancel] *)
Definition cancel (w : ReticulumWriter) : ReticulumWriter :=
  {| raw := raw w; cancelled := true; gate := gate w; started := started w; pool := pool w; timeout := timeout w |}.

(** [check] *)
Definition check (limit now : Z) : M ReticulumWriter unit :=
  let! w := get in
  guard_or (negb (cancelled w)) (ConnectionError "Reticulum stream cancelled") ;!
  guard_or (now <? limit) (TimeoutError "Reticulum write timed out").

(** The [except] and [finally] clauses around the body of a call that does
    not go on after [c]. *)
Definition leaving {A} (c : M ReticulumWriter A) : M ReticulumWriter A :=
  try_catch c (fun _ => true) (fun e => modify cancel ;! modify (set_gate false) ;! raise e).

(** [__call__] when [gate.acquire] times out *)
Definition gate_timed_out : M ReticulumWriter unit :=
  modify cancel ;! raise (TimeoutError "Reticulum write lock timed out").

(** [__call__] from the acquired gate to [pool.submit]; [called] is the time
    of the call. *)
Definition begin_call (frame : bytes) (called now : Z) : M ReticulumWriter unit :=
  let! w := get in
  let limit := called + timeout w in
  modify (set_gate true) ;!
  leaving (
    check limit now ;!
    zoom pool set_pool (submit (Some (length (started w)))) ;!
    modify (set_started (started w ++ [{| data := frame; offset := 0; deadline := limit; at_ := Queued |}]))).

(** One turn of the waiting loop: [false] while the call goes on waiting. *)
Definition poll (now : Z) : M ReticulumWriter bool :=
  let! w := get in
  match last (started w) with
  | None => ret false
  | Some j =>
    leaving (
      check (deadline j) now ;!
      match at_ j with
      | Finished None => modify (set_gate false) ;! ret true
      | Finished (Some e) => raise e
      | _ => ret false
      end)
  end.

(** ** Workers *)

(** A worker takes a job of this writer, or of another one. *)
Definition take_job : M ReticulumWriter unit :=
  run_turn pool set_pool (fun entry =>
    match entry with
    | Some i => modify (fun w => match started w !! i with Some j => set_job i (set_at Checking j) w | None => w end)
    | None => ret tt
    end).

(** [write] up to the next [raw.write], or to its end. *)
Definition worker_check (i : nat) (j : job) (now : Z) : M ReticulumWriter unit :=
  try_catch
    (check (deadline j) now ;!
     modify (set_job i (set_at (if (offset j <? length (data j))%nat then Writing else Finished None) j)))
    (fun _ => true) (fun e => modify (set_job i (set_at (Finished (Some e)) j))).

(** [raw.write] took [n] bytes, then returned [k] or raised. *)
Definition worker_wrote (i : nat) (j : job) (n : nat) (report : res Z) : M ReticulumWriter unit :=
  modify (fun w => set_raw (raw w ++ take n (drop (offset j) (data j))) w) ;!
  try_catch
    (let! k := lift report in
     if (k <? 0) || (Z.of_nat (length (data j) - offset j) <? k) then raise OSError
     else modify (set_job i (advance (Z.to_nat k) j)))
    (fun _ => true) (fun e => modify (set_job i (set_at (Finished (Some e)) j))).

(** A channel takes bytes from the front, and what it reports as written it
    took; it may report a length out of range. *)
Definition honest (j : job) (n : nat) (report : res Z) : Prop :=
  (n <= length (data j) - offset j)%nat /\
  forall k, report = Ok k -> 0 <= k <= Z.of_nat (length (data j) - offset j) -> n = Z.to_nat k.

(** ** Interleavings *)

Inductive step (w : ReticulumWriter) : ReticulumWriter -> Prop :=
| Begins frame called now : gate w = false -> step w (fst (begin_call frame called now w))
| GateTimesOut : gate w = true -> step w (fst (gate_timed_out w))
| Polls now : gate w = true -> step w (fst (poll now w))
| Takes : step w (fst (take_job w))
| Submits : step w (fst (zoom pool set_pool (submit None) w))
| Checks i j now : started w !! i = Some j -> at_ j = Checking -> step w (fst (worker_check i j now w))
| Wrote i j n report : started w !! i = Some j -> at_ j = Writing -> honest j n report ->
    step w (fst (worker_wrote i j n report w))
| Cancels : step w (cancel w).

(** ** The invariant *)

Definition frames (l : list job) : bytes := concat (map data l).

(** A job whose frame the channel has taken in full. *)
Definition written (j : job) : Prop := at_ j = Finished None.

(** The job of the latest call with [n] bytes of its frame taken: the worker
    knows how many, unless it failed. *)
Record current (w : ReticulumWriter) (j : job) (n : nat) : Prop := {
  current_range : (offset j <= n <= length (data j))%nat;
  current_known : (forall e, at_ j ≠ Finished (Some e)) -> n = offset j;
  current_full : at_ j = Finished None -> n = length (data j);
  current_held : gate w = false -> cancelled w = true
}.

(** Every frame before the latest one is in the stream; so is the latest one,
    or else a prefix of it, and then its call goes on or the writer is
    cancelled. *)
Inductive consistent (w : ReticulumWriter) : Prop :=
| Quiet : Forall written (started w) -> gate w = false -> raw w = frames (started w) -> consistent w
| Busy before j n : started w = before ++ [j] -> Forall written before -> current w j n ->
    raw w = frames before ++ take n (data j) -> consistent w.

(** The entries of the pool that are this writer's are jobs still to be
    taken, each listed once. *)
Record pooled (w : ReticulumWriter) : Prop := {
  pooled_bound : (length (jobs (pool w)) <= capacity (pool w))%nat;
  pooled_queued : forall i, i ∈ omap id (jobs (pool w)) -> exists j, started w !! i = Some j /\ at_ j = Queued;
  pooled_once : NoDup (omap id (jobs (pool w)))
}.

Definition inv (w : ReticulumWriter) : Prop := consistent w /\ pooled w.

(** ** Lemmas *)

(** Only the job of the latest call can be unfinished. *)
Lemma unfinished_is_latest w i j :
  consistent w -> started w !! i = Some j -> at_ j ≠ Finished None ->
  exists before n, started w = before ++ [j] /\ i = length before /\ Forall written before /\
    current w j n /\ raw w = frames before ++ take n (data j).
Proof.
  intros [Hall _ _|before j0 n Es Hb Hc Hr] Hi Hn.
  - by destruct (Hn (Forall_lookup_1 _ _ _ _ Hall Hi)).
  - exists before, n. rewrite Es in Hi |- *. apply lookup_app_Some in Hi as [Hi|[Hle Hi]].
    + by destruct (Hn (Forall_lookup_1 _ _ _ _ Hb Hi)).
    + apply list_lookup_singleton_Some in Hi as [Hz <-]. assert (i = length before) as -> by lia. done.
Qed.

Lemma set_latest before j j' w i :
  started w = before ++ [j] -> i = length before -> started (set_job i j' w) = before ++ [j'].
Proof. intros Es ->. cbn. rewrite Es, insert_app_r_alt, Nat.sub_diag by lia. done. Qed.

(** Submitting an entry and taking one. *)
Lemma submit_eq {J} (x : J) p :
  submit x p = if (capacity p <=? length (jobs p))%nat then (p, Raise QueueFull)
               else ({| capacity := capacity p; jobs := jobs p ++ [x] |}, Ok tt).
Proof. unfold submit. munfold. by case_match. Qed.

Lemma pooled_same w w' :
  pool w' = pool w -> (forall i j, started w !! i = Some j -> at_ j = Queued -> started w' !! i = Some j) ->
  pooled w -> pooled w'.
Proof.
  intros Ep Hs [Hb Hq Ho]. split; rewrite Ep; [done| |done].
  intros i Hi. destruct (Hq i Hi) as (j & Hj & Hat). eauto.
Qed.

(** Updating a job that is not queued leaves the pool's entries alone. *)
Lemma pooled_set_job w i j j' :
  started w !! i = Some j -> at_ j ≠ Queued -> pooled w -> pooled (set_job i j' w).
Proof.
  intros Hi Hn. apply pooled_same; [done|]. intros k q Hk Hq. cbn.
  rewrite list_lookup_insert_ne; [done|]. intros ->. rewrite Hi in Hk. by injection Hk as ->.
Qed.

Lemma consistent_cancel w : consistent w -> consistent (cancel w).
Proof.
  intros [Hall Hg Hr|before j n Es Hb [H1 H2 H3 H4] Hr]; [by apply Quiet|].
  by apply (Busy _ before j n).
Qed.

(** The end of a call that failed. *)
Lemma consistent_give_up w b : consistent w -> consistent (set_gate false (cancel (set_gate b w))).
Proof.
  intros [Hall Hg Hr|before j n Es Hb [H1 H2 H3 H4] Hr]; [by apply Quiet|].
  by apply (Busy _ before j n).
Qed.

Lemma leaving_eq {A} (c : M ReticulumWriter A) w :
  leaving c w = match c w with
                | (w', Ok a) => (w', Ok a)
                | (w', Raise e) => (set_gate false (cancel w'), Raise e)
                end.
Proof. unfold leaving. munfold. by destruct (c w) as [w' [a|e]]. Qed.

Lemma check_eq limit now w :
  check limit now w = (w, if cancelled w then Raise (ConnectionError "Reticulum stream cancelled")
                          else if now <? limit then Ok tt else Raise (TimeoutError "Reticulum write timed out")).
Proof. unfold check. munfold. destruct (cancelled w); [done|]. cbn. by destruct (now <? limit). Qed.

Lemma poll_eq now w :
  poll now w =
    match last (started w) with
    | None => (w, Ok false)
    | Some j =>
      match (if cancelled w then Raise (ConnectionError "Reticulum stream cancelled")
             else if now <? deadline j then
               match at_ j with Finished None => Ok true | Finished (Some e) => Raise e | _ => Ok false end
             else Raise (TimeoutError "Reticulum write timed out")) with
      | Ok b => (if b then set_gate false w else w, Ok b)
      | Raise e => (set_gate false (cancel w), Raise e)
      end
    end.
Proof.
  unfold poll, bind at 1, get. destruct (last (started w)) as [j|]; [|done].
  rewrite leaving_eq. unfold bind at 1. rewrite check_eq. destruct (cancelled w); [done|].
  destruct (now <? _); [|done]. by destruct (at_ j) as [| | |[e|]].
Qed.

Lemma begin_inv frame called now w : gate w = false -> inv w -> inv (fst (begin_call frame called now w)).
Proof.
  intros Hg [Hc Hp]. unfold begin_call, bind at 1, get, bind at 1, modify at 1. cbv beta iota zeta.
  rewrite leaving_eq. unfold bind at 1. rewrite check_eq. cbn [cancelled set_gate].
  destruct (cancelled w) eqn:Ec; [split; [by apply consistent_give_up|by revert Hp; apply pooled_same]|].
  destruct (now <? _); [|split; [by apply consistent_give_up|by revert Hp; apply pooled_same]].
  unfold bind, zoom. rewrite submit_eq. cbn [pool set_gate].
  destruct (_ <=? _)%nat eqn:Ecap; cbn [fst].
  { split; [exact (consistent_give_up w true Hc)|]. by revert Hp; apply pooled_same. }
  apply Nat.leb_gt in Ecap. destruct Hc as [Hall _ Hr|before j n Es Hb [_ _ _ Hheld] Hr]; [|by rewrite Hheld in Ec].
  split.
  - eapply (Busy _ (started w) _ 0%nat); [reflexivity|done| |cbn; by rewrite app_nil_r].
    split; cbn; [lia|done|done|done].
  - destruct Hp as [Hb Hq Ho]. split; cbn [pool jobs capacity set_started set_pool set_gate modify fst].
    + rewrite length_app. cbn. lia.
    + intros i Hi. rewrite omap_app in Hi. apply elem_of_app in Hi as [Hi|Hi].
      * destruct (Hq i Hi) as (j & Hj & Hat). exists j. split; [|done]. cbn. by apply lookup_app_l_Some.
      * apply list_elem_of_singleton in Hi as ->. cbn. rewrite lookup_app_r, Nat.sub_diag by lia. eauto.
    + rewrite omap_app. apply NoDup_app. split; [done|]. split; [|apply NoDup_singleton].
      intros i Hi Hin. apply list_elem_of_singleton in Hin as ->. destruct (Hq _ Hi) as (j & Hj & _).
      apply lookup_lt_Some in Hj. lia.
Qed.

Lemma poll_inv now w : gate w = true -> inv w -> inv (fst (poll now w)).
Proof.
  intros Hg [Hc Hp]. rewrite poll_eq. destruct (last (started w)) as [j|] eqn:El; [|done].
  assert (inv (set_gate false (cancel w))) as Hoff.
  { split; [exact (consistent_give_up w true Hc)|]. by revert Hp; apply pooled_same. }
  destruct (cancelled w); [done|]. destruct (now <? _); [|done].
  destruct (at_ j) as [| | |[e|]] eqn:Eat; try done. cbn [fst].
  split; [|by revert Hp; apply pooled_same].
  destruct Hc as [|before j0 n Es Hb [H1 H2 H3 H4] Hr]; [congruence|].
  rewrite Es, last_snoc in El. injection El as ->. apply Quiet; cbn; [|done|].
  - rewrite Es. apply Forall_app. by split; [|constructor].
  - rewrite Hr, Es, H3 by done. unfold frames. rewrite map_app, concat_app. cbn. by rewrite app_nil_r, take_ge.
Qed.

Lemma submits_inv w : inv w -> inv (fst (zoom pool set_pool (submit None) w)).
Proof.
  intros [Hc Hp]. unfold zoom. rewrite submit_eq. destruct (_ <=? _)%nat eqn:E; [by destruct w|].
  apply Nat.leb_gt in E. split.
  - destruct Hc as [Hall Hg Hr|before j n Es Hb [H1 H2 H3 H4] Hr]; [by apply Quiet|]. by apply (Busy _ before j n).
  - destruct Hp as [Hb Hq Ho]. split; cbn; [rewrite length_app; cbn; lia|..]; rewrite omap_app, app_nil_r; done.
Qed.

(** A worker changes the job of the latest call. *)
Lemma worker_inv w i j j' n' b :
  inv w -> started w !! i = Some j -> at_ j ≠ Finished None -> at_ j ≠ Queued -> data j' = data j ->
  (forall before n, raw w = frames before ++ take n (data j) -> current w j n ->
     b = frames before ++ take (n' n) (data j) /\ current w j' (n' n)) ->
  inv (set_job i j' (set_raw b w)).
Proof.
  intros [Hc Hp] Hi Hn Hq Hd Hb. destruct (unfinished_is_latest _ _ _ Hc Hi Hn) as (before & n & Es & -> & Hw & Hcur & Hr).
  destruct (Hb before n Hr Hcur) as [Er [H1 H2 H3 H4]]. split.
  - apply (Busy _ before j' (n' n)); [by apply (set_latest before j)|done|by split|]. cbn. by rewrite Hd.
  - apply (pooled_set_job _ _ j); [done|done|]. by revert Hp; apply pooled_same.
Qed.

Lemma current_at w j n p :
  current w j n -> at_ j ≠ Finished None -> (forall e, at_ j ≠ Finished (Some e)) ->
  (p = Finished None -> offset j = length (data j)) -> current w (set_at p j) n.
Proof.
  intros [H1 H2 H3 H4] Hn Hne Hp. split; cbn; [done|by intros _; apply H2| |done].
  intros E. rewrite H2 by done. by apply Hp.
Qed.

Lemma take_eq w :
  take_job w =
    (match jobs (pool w) with
     | [] => w
     | entry :: rest =>
       let w' := set_pool {| capacity := capacity (pool w); jobs := rest |} w in
       match entry ≫= (fun i => (i,.) <$> started w !! i) with
       | Some (i, j) => set_job i (set_at Checking j) w'
       | None => w'
       end
     end, Ok tt).
Proof.
  unfold take_job, run_turn, bind at 1, get. destruct (jobs (pool w)) as [|[i|] rest]; [done| |done].
  unfold bind, modify, try_catch. cbn. by destruct (started w !! i).
Qed.

Lemma take_inv w : inv w -> inv (fst (take_job w)).
Proof.
  intros [Hc Hp]. rewrite take_eq. destruct (jobs (pool w)) as [|[i|] rest] eqn:Ej; [done|..].
  - destruct Hp as [Hb Hq Ho]. rewrite Ej in *. cbn in Hq, Ho. apply NoDup_cons in Ho as [Hni Ho].
    destruct (Hq i) as (j & Hj & Hat); [by left|]. cbn [fst mbind option_bind]. rewrite Hj. cbn [fmap option_fmap option_map].
    destruct (unfinished_is_latest _ _ _ Hc Hj) as (before & n & Es & -> & Hw & Hcur & Hr); [congruence|]. split.
    + apply (Busy _ before (set_at Checking j) n); [by apply (set_latest before j)|done| |done].
      destruct (current_at w j n Checking); try done; congruence.
    + split; cbn; [cbn in Hb; lia| |done]. intros k Hk. destruct (Hq k) as (q & Hk' & Hat'); [by right|].
      exists q. split; [|done]. rewrite list_lookup_insert_ne; [done|]. by intros <-.
  - split.
    + destruct Hc as [Hall Hg Hr|before j n Es Hb [H1 H2 H3 H4] Hr]; [by apply Quiet|]. by apply (Busy _ before j n).
    + destruct Hp as [Hb Hq Ho]. rewrite Ej in *. split; cbn in *; [lia|done..].
Qed.

Lemma worker_check_inv w i j now :
  inv w -> started w !! i = Some j -> at_ j = Checking -> inv (fst (worker_check i j now w)).
Proof.
  intros Hinv Hi Hat. unfold worker_check, try_catch, bind. rewrite check_eq.
  assert (forall p, (p = Finished None -> offset j = length (data j)) -> inv (set_job i (set_at p j) w)) as Hset.
  { intros p Hp. assert (set_job i (set_at p j) w = set_job i (set_at p j) (set_raw (raw w) w)) as -> by done.
    apply (worker_inv w i j _ id); [done|done|congruence|congruence|done|].
    intros before n Hr Hcur. split; [done|]. apply current_at; [done|congruence..|done]. }
  destruct (cancelled w); [by apply Hset|]. destruct (now <? _); [|by apply Hset]. apply Hset.
  destruct (offset j <? length (data j))%nat eqn:Eo; [done|]. intros _. apply Nat.ltb_ge in Eo.
  destruct (unfinished_is_latest _ _ _ (proj1 Hinv) Hi) as (? & n & _ & _ & _ & [Hle _ _ _] & _); [congruence|]. lia.
Qed.

Lemma worker_wrote_inv w i j n report :
  inv w -> started w !! i = Some j -> at_ j = Writing -> honest j n report ->
  inv (fst (worker_wrote i j n report w)).
Proof.
  intros Hinv Hi Hat [Hn Hk]. unfold worker_wrote, try_catch, bind, modify, lift. cbv beta iota.
  assert (forall j', data j' = data j -> (offset j' <= offset j + n)%nat -> at_ j' ≠ Finished None ->
    ((forall e, at_ j' ≠ Finished (Some e)) -> offset j' = (offset j + n)%nat) ->
    inv (set_job i j' (set_raw (raw w ++ take n (drop (offset j) (data j))) w))) as Hset.
  { intros j' Hd Ho Hf Hx. apply (worker_inv w i j j' (fun m => (m + n)%nat)); [done|done|congruence|congruence|done|].
    intros before m Hr [H1 H2 H3 H4]. rewrite (H2 ltac:(intros e; congruence)) in *. split.
    - rewrite Hr, <- app_assoc. f_equal. rewrite take_take_drop. done.
    - split; cbn; [rewrite Hd; lia|by intros E; rewrite Hx|done|done]. }
  destruct report as [k|e]; cbn [fst]; [|by apply Hset; cbn; try done; try lia; intros E; destruct (E e)].
  destruct (_ || _)%bool eqn:Ek; cbn [fst]; [by apply Hset; cbn; try done; try lia; intros E; destruct (E OSError)|].
  apply orb_false_iff in Ek as [E1 E2]. apply Z.ltb_ge in E1, E2.
  specialize (Hk k eq_refl ltac:(lia)). subst n. by apply Hset; cbn; try done; lia.
Qed.

Lemma writer_step w w' : step w w' -> inv w -> inv w'.
Proof.
  intros Hs Hinv. destruct Hs as [frame called now Hg|Hg|now Hg| | |i j now Hi Hat|i j n report Hi Hat Hh|].
  - by apply begin_inv.
  - destruct Hinv as [Hc Hp]. split; [by apply consistent_cancel|by revert Hp; apply pooled_same].
  - by apply poll_inv.
  - by apply take_inv.
  - by apply submits_inv.
  - by apply worker_check_inv.
  - by apply worker_wrote_inv.
  - destruct Hinv as [Hc Hp]. split; [by apply consistent_cancel|by revert Hp; apply pooled_same].
Qed.

Lemma new_inv p t :
  omap id (jobs p) = [] -> (length (jobs p) <= capacity p)%nat -> inv (new_writer p t).
Proof.
  intros He Hl. split; [by apply Quiet|]. split; cbn; [done|..]; rewrite He; [|constructor].
  intros i Hi. by apply not_elem_of_nil in Hi.
Qed.

Lemma writer_reachable p t w :
  omap id (jobs p) = [] -> (length (jobs p) <= capacity p)%nat -> rtc step (new_writer p t) w -> inv w.
Proof.
  intros He Hl Hr. assert (inv (new_writer p t)) as H0 by by apply new_inv.
  induction Hr as [|x y z Hs _ IH]; [done|]. eauto using writer_step.
Qed.

(** After [cancel] no job is submitted any more. *)
Lemma begin_cancelled frame called now w :
  cancelled w = true ->
  begin_call frame called now w =
    (set_gate false (cancel (set_gate true w)), Raise (ConnectionError "Reticulum stream cancelled")).
Proof.
  intros Hc. unfold begin_call, bind at 1, get, bind at 1, modify at 1. cbv beta iota zeta. rewrite leaving_eq.
  unfold bind. rewrite check_eq. cbn [cancelled set_gate]. by rewrite Hc.
Qed.

Lemma data_set_job i j j' w :
  started w !! i = Some j -> data j' = data j -> map data (started (set_job i j' w)) = map data (started w).
Proof.
  intros Hi Hd. change (data <$> <[i:=j']> (started w) = data <$> started w).
  rewrite list_fmap_insert, Hd. apply list_insert_id. by rewrite list_lookup_fmap, Hi.
Qed.

(** Polling changes neither the stream nor the jobs, and never uncancels. *)
Lemma poll_frame now w :
  started (fst (poll now w)) = started w /\ raw (fst (poll now w)) = raw w /\
  (cancelled w = true -> cancelled (fst (poll now w)) = true).
Proof.
  rewrite poll_eq. destruct (last (started w)) as [j|]; [|done].
  destruct (cancelled w); [done|]. destruct (now <? _); [|done]. by destruct (at_ j) as [| | |[e|]].
Qed.

Lemma worker_check_frame i j now w :
  exists p, fst (worker_check i j now w) = set_job i (set_at p j) w.
Proof.
  unfold worker_check, try_catch, bind. rewrite check_eq. destruct (cancelled w); [by eexists|].
  destruct (now <? _); by eexists.
Qed.

Lemma worker_wrote_frame i j n report w :
  exists b j', data j' = data j /\ fst (worker_wrote i j n report w) = set_job i j' (set_raw b w).
Proof.
  unfold worker_wrote, try_catch, bind, modify, lift. cbv beta iota.
  destruct report as [k|e]; [destruct (_ || _)|]; by do 2 eexists; split; [|reflexivity].
Qed.

Lemma take_frame w :
  cancelled (fst (take_job w)) = cancelled w /\ map data (started (fst (take_job w))) = map data (started w).
Proof.
  rewrite take_eq. destruct (jobs (pool w)) as [|[i|] rest]; [done| |done]. cbn [fst mbind option_bind].
  destruct (started w !! i) as [j|] eqn:Hj; [|done]. split; [done|]. by apply (data_set_job _ j _ (set_pool _ w)).
Qed.

(** Once cancelled, the writer stays cancelled and takes no further frame. *)
Lemma step_cancelled w w' :
  step w w' -> cancelled w = true -> cancelled w' = true /\ map data (started w') = map data (started w).
Proof.
  intros Hs Hc. destruct Hs as [frame called now Hg|Hg|now Hg| | |i j now Hi Hat|i j n report Hi Hat Hh|]; try done.
  - by rewrite begin_cancelled.
  - destruct (poll_frame now w) as (-> & _ & H). auto.
  - destruct (take_frame w) as [-> ->]. done.
  - unfold zoom. rewrite submit_eq. by destruct (_ <=? _)%nat.
  - destruct (worker_check_frame i j now w) as [p ->]. split; [done|]. by apply (data_set_job _ j).
  - destruct (worker_wrote_frame i j n report w) as (b & j' & Hd & ->). split; [done|].
    by apply (data_set_job _ j _ (set_raw b w)).
Qed.

Lemma inv_prefix w : consistent w -> raw w `prefix_of` frames (started w).
Proof.
  intros [_ _ ->|before j n -> _ _ ->]; [done|]. exists (drop n (data j)). unfold frames.
  rewrite map_app, concat_app. cbn. by rewrite app_nil_r, <- app_assoc, take_drop.
Qed.

(** C32: Whatever the interleaving of callers, workers, other writers of the
    pool and cancellations, and however the channel splits or fails its
    writes, the bytes in the stream are a prefix of the frames in the order of
    their calls, without a gap, a repetition or a mixture; a call that returns
    has its frame and all earlier ones in the stream in full; a call does not
    wait past its deadline; and once the writer is cancelled no frame but the
    submitted ones gets into the stream. *)
Theorem stream_frames_whole p t w :
  omap id (jobs p) = [] -> (length (jobs p) <= capacity p)%nat -> rtc step (new_writer p t) w ->
  raw w `prefix_of` frames (started w) /\
  (forall now, gate w = true -> snd (poll now w) = Ok true -> raw (fst (poll now w)) = frames (started w)) /\
  (forall now j, gate w = true -> last (started w) = Some j -> deadline j <= now -> exists e, snd (poll now w) = Raise e) /\
  (forall w', cancelled w = true -> rtc step w w' -> raw w' `prefix_of` frames (started w)).
Proof.
  intros He Hl Hr. assert (inv w) as Hinv by by apply (writer_reachable p t). split; [apply inv_prefix, Hinv|].
  split; [|split].
  - intros now Hg Hp. assert (gate (fst (poll now w)) = false) as Hg'.
    { revert Hp. rewrite poll_eq. destruct (last (started w)) as [j|]; [|done]. destruct (cancelled w); [done|].
      by destruct (now <? _); [|done]; destruct (at_ j) as [| | |[e|]]. }
    assert (cancelled (fst (poll now w)) = false) as Hc'.
    { revert Hp. rewrite poll_eq. destruct (last (started w)) as [j|]; [|done]. destruct (cancelled w) eqn:Ec; [done|].
      by destruct (now <? _); [|done]; destruct (at_ j) as [| | |[e|]]. }
    destruct (poll_frame now w) as (Es & _ & _). rewrite <- Es.
    destruct (poll_inv now w Hg Hinv) as [[_ _ ->|before j n _ _ [_ _ _ Hheld] _] _]; [done|]. by rewrite Hheld in Hc'.
  - intros now j Hg El Hd. rewrite poll_eq, El. destruct (cancelled w); [by eexists|]. destruct (now <? _) eqn:E; [|by eexists]. apply Z.ltb_lt in E. lia.
  - intros w' Hc Hs. assert (map data (started w') = map data (started w) /\ inv w') as [Em Hi].
    { clear Hr. revert Hc. induction Hs as [|x y z Hxy _ IH]; [done|]. intros Hc.
      destruct (step_cancelled x y Hxy Hc) as [Hy <-]. apply IH; [by apply (writer_step x)|done]. }
    unfold frames. rewrite <- Em. apply inv_prefix, Hi.
Qed.

(** A write of three bytes that the channel takes in two pieces, a second call
    on which the channel fails after one byte. *)
Module Demo.
Definition pool0 : WritePool (option nat) := WRITE_POOL.
Definition script : list (ReticulumWriter -> ReticulumWriter) :=
  let job i w := default {| data := []; offset := 0; deadline := 0; at_ := Queued |} (started w !! i) in
  [fun w => fst (begin_call [x61; x62; x63] 0 1 w); fun w => fst (take_job w);
   fun w => fst (worker_check 0 (job 0%nat w) 2 w); fun w => fst (worker_wrote 0 (job 0%nat w) 2 (Ok 2) w);
   fun w => fst (poll 3 w);
   fun w => fst (worker_check 0 (job 0%nat w) 3 w); fun w => fst (worker_wrote 0 (job 0%nat w) 1 (Ok 1) w);
   fun w => fst (worker_check 0 (job 0%nat w) 4 w); fun w => fst (poll 5 w);
   fun w => fst (begin_call [x64; x65] 6 6 w); fun w => fst (take_job w);
   fun w => fst (worker_check 1 (job 1%nat w) 7 w); fun w => fst (worker_wrote 1 (job 1%nat w) 1 (Raise OSError) w);
   fun w => fst (poll 8 w)].
Definition states (k : nat) : ReticulumWriter := foldl (fun w f => f w) (new_writer pool0 10) (take k script).

Lemma script_runs : rtc step (states 0) (states 14).
Proof.
  apply (rtc_l _ _ (states 1)); [by apply Begins|]. apply (rtc_l _ _ (states 2)); [by apply Takes|].
  apply (rtc_l _ _ (states 3)); [by eapply Checks|].
  apply (rtc_l _ _ (states 4)); [eapply Wrote; [done|done|split; [vm_compute; lia|by intros k [= <-]]]|].
  apply (rtc_l _ _ (states 5)); [by apply Polls|]. apply (rtc_l _ _ (states 6)); [by eapply Checks|].
  apply (rtc_l _ _ (states 7)); [eapply Wrote; [done|done|split; [vm_compute; lia|by intros k [= <-]]]|].
  apply (rtc_l _ _ (states 8)); [by eapply Checks|]. apply (rtc_l _ _ (states 9)); [by apply Polls|].
  apply (rtc_l _ _ (states 10)); [by apply Begins|]. apply (rtc_l _ _ (states 11)); [by apply Takes|].
  apply (rtc_l _ _ (states 12)); [by eapply Checks|].
  apply (rtc_l _ _ (states 13)); [eapply Wrote; [done|done|split; [vm_compute; lia|done]]|].
  apply (rtc_l _ _ (states 14)); [by apply Polls|]. apply rtc_refl.
Qed.

Example first_call_returns : snd (poll 5 (states 8)) = Ok true.
Proof. reflexivity. Qed.

Example partial_frame_cancels : raw (states 14) = [x61; x62; x63; x64] /\ cancelled (states 14) = true.
Proof. done. Qed.

Lemma stream_frames_whole_witness :
  raw (states 14) `prefix_of` frames (started (states 14)).
Proof. refine (proj1 (stream_frames_whole pool0 10 (states 14) eq_refl _ script_runs)). cbn. lia. Defined.
End Demo.
End Writer.
