(* ===== verification/AppService.v ===== *)
(** * The reference application ([app/service.py])

    The handlers [install_reference_service] registers besides the call and
    file services.  Python's [str] of a value that is not a string and the
    float of the current time are parameters; a context with [reply] is one
    of the private transport. *)

From stdpp Require Import prelude strings list gmap.
From Stdlib Require Import ZArith Lia.
From S2P Require Import Prelude PyDict PyBytes PyValue Json Database Sessions SessionFacts Protocol Rpc Connection Server QortalIdentity QortalFacts GroupAccess AuthService AuthFacts PrivateService.

Module Reference.
Import Protocol Rpc Connection Server Auth PrivateTransport.

(** [_require_authenticated] *)
Definition _require_authenticated (session : option ApplicationSession) : res unit :=
  match session with
  | Some o => if provisional o || negb (has_user o) then Raise (ValueError "authenticated session required") else Ok tt
  | None => Raise (ValueError "authenticated session required")
  end.

Section handlers.
Context {A : Type} `{HasAuth A}.
Context (disconnect_handlers : list (nat -> M (Server A) unit)).
Context (reply : PrivateMessageContext -> pyval -> M (Server A) unit).
Context (str : pyval -> string) (float : Z -> pyval).

Abbreviation SrvM := (M (Server A)).

(** The part of [RpcContext] the handlers read. *)
Definition session_of (r : option nat) (s : Server A) : option ApplicationSession := (fun r => session_obj r s) <$> r.
Definition require (r : option nat) : SrvM unit := let! o := gets (session_of r) in lift (_require_authenticated o).

(** [/hello] and [/echo] *)
Definition hello (ctx : @RpcContext (option nat)) (payload : pyval) : SrvM pyval :=
  require (ctx_rest ctx) ;!
  let name := match payload with VDict d => default (VStr "world") (od_get "name" d) | _ => VStr "world" end in
  let text := match name with VStr n => n | v => str v end in
  ret (VDict [("message", VStr ("Hello, " +:+ text));
              ("requestId", match ctx_request_id ctx with Some i => VStr i | None => VNone end)]).
Definition echo (ctx : @RpcContext (option nat)) (payload : pyval) : SrvM pyval :=
  require (ctx_rest ctx) ;! ret payload.

(** A message on a link, or on the private transport. *)
Definition context : Type := MessageContext + PrivateMessageContext.
Definition context_session (c : context) : nat := match c with inl m => ctx_session m | inr p => pm_session p end.
Definition send_message (c : context) (v : pyval) : SrvM unit := session_send disconnect_handlers (context_session c) v.

(** The ["topic"] of a message. *)
Definition topic_of (message : pyval) (complaint : string) : res string :=
  match message with
  | VDict d => match dget "topic" d with VStr topic => Ok topic | _ => Raise (ValueError complaint) end
  | _ => Raise (ValueError complaint)
  end.

Definition realtime_echo (c : context) (message : pyval) : SrvM unit :=
  require (Some (context_session c)) ;!
  send_message c (VDict [("type", VStr "echo"); ("received", message)]).

Definition subscribe (c : context) (message : pyval) : SrvM unit :=
  require (Some (context_session c)) ;!
  let! topic := lift (topic_of message "subscribe payload requires topic") in
  on_session (context_session c) (Sessions.subscribe topic) ;!
  send_message c (VDict [("type", VStr "subscribed"); ("topic", VStr topic)]).

Definition unsubscribe (c : context) (message : pyval) : SrvM unit :=
  require (Some (context_session c)) ;!
  let! topic := lift (topic_of message "unsubscribe payload requires topic") in
  on_session (context_session c) (Sessions.unsubscribe topic) ;!
  send_message c (VDict [("type", VStr "unsubscribed"); ("topic", VStr topic)]).

Definition server_time (c : context) (payload : pyval) : SrvM unit :=
  require (Some (context_session c)) ;!
  let! now := gets wall in
  send_message c (VDict [("type", VStr "server_time"); ("payload", VDict [("unix", float now)])]).

Definition private_transport_echo (c : context) (payload : pyval) : SrvM unit :=
  require (Some (context_session c)) ;!
  let answer := VDict [("type", VStr "private_transport_echo"); ("received", payload)] in
  match c with inl _ => send_message c answer | inr p => reply p answer end.

(** [install_reference_service] *)
Definition message_table : gmap string (context -> pyval -> SrvM unit) :=
  list_to_map [("echo", realtime_echo); ("subscribe", subscribe); ("unsubscribe", unsubscribe); ("server_time", server_time);
               ("private_transport_echo", private_transport_echo)].
Definition rpc_table : gmap string (@RpcContext (option nat) -> pyval -> SrvM pyval) :=
  list_to_map [("/hello", hello); ("/echo", echo)].

(** ** Only authenticated sessions are served *)

Definition anonymous (o : option ApplicationSession) : Prop :=
  match o with Some o => provisional o = true \/ has_user o = false | None => True end.

Lemma require_anonymous r s : anonymous (session_of r s) -> require r s = (s, Raise (ValueError "authenticated session required")).
Proof.
  unfold require, anonymous, _require_authenticated. munfold. destruct (session_of r s) as [o|]; [|done].
  intros [->| ->]; [done|]. by rewrite orb_true_r.
Qed.

Lemma message_table_guarded name h c v s : message_table !! name = Some h -> anonymous (Some (session_obj (context_session c) s)) ->
  h c v s = (s, Raise (ValueError "authenticated session required")).
Proof.
  intros Hh Ha. apply elem_of_list_to_map_2 in Hh. set_unfold in Hh.
  pose proof (require_anonymous (Some (context_session c)) s Ha) as Hr.
  repeat (destruct Hh as [[= -> ->]|Hh]; [by apply (bind_raise _ _ s s _ Hr)|]). done.
Qed.

(** A well-formed subscription is recorded and then confirmed. *)
Lemma subscribe_effect c d topic s :
  topic ≠ "" -> py_len topic <= 256 -> od_get "topic" d = Some (VStr topic) ->
  provisional (session_obj (context_session c) s) = false -> has_user (session_obj (context_session c) s) = true ->
  subscribe c (VDict d) s =
    send_message c (VDict [("type", VStr "subscribed"); ("topic", VStr topic)])
      (fst (on_session (context_session c) (Sessions.subscribe topic) s)).
Proof.
  intros Hne Hlen Ht Hp Hu. unfold subscribe, require, _require_authenticated, session_of, topic_of, dget. munfold. cbn [fmap option_fmap option_map].
  rewrite Hp, Hu, Ht. cbn. unfold on_session, Sessions.subscribe. rewrite bool_decide_false by done.
  rewrite (proj2 (Z.ltb_ge _ _)) by done. done.
Qed.

Lemma rpc_table_guarded path h ctx v s : rpc_table !! path = Some h -> anonymous (session_of (ctx_rest ctx) s) ->
  h ctx v s = (s, Raise (ValueError "authenticated session required")).
Proof.
  intros Hh Ha. apply elem_of_list_to_map_2 in Hh. set_unfold in Hh. pose proof (require_anonymous _ s Ha) as Hr.
  repeat (destruct Hh as [[= -> ->]|Hh]; [by apply (bind_raise _ _ s s _ Hr)|]). done.
Qed.

(** nothing of the reference application runs for a session that is not
    authenticated: every message is refused before it has any effect, and
    every RPC request, however it is formed, is answered with an error and
    leaves the server as it was. *)
Theorem reference_service_guarded c name v s (router : @RpcRouter (Server A) (option nat)) path wire (ctx : @RpcContext (option nat))
    (Hrouter : handlers router = rpc_table) (Hrpc : anonymous (session_of (ctx_rest ctx) s))
    (Hmessage : anonymous (Some (session_obj (context_session c) s))) :
  (forall h, message_table !! name = Some h -> h c v s = (s, Raise (ValueError "authenticated session required"))) /\
  exists answer, dispatch router path wire ctx s = (s, Ok answer) /\ is_error_reply answer.
Proof.
  split; [intros h Hh; by apply (message_table_guarded name)|]. unfold dispatch.
  destruct (decode_rpc_request wire) as [envelope|e]; [|eexists; split; [reflexivity|apply error_reply_is]].
  destruct (_ <? _); [eexists; split; [reflexivity|by do 3 eexists]|].
  destruct (handlers router !! path) as [h|] eqn:Eh; [|eexists; split; [reflexivity|by do 3 eexists]]. unfold try_catch.
  match goal with |- context [bind ?c ?k s] => assert (exists e, bind c k s = (s, Raise e)) as [e ->] end; [|eexists; split; [reflexivity|apply error_reply_is]].
  unfold bind, lift. destruct (decode_rpc_payload envelope) as [payload|e]; [|by eexists].
  rewrite Hrouter in Eh. rewrite (rpc_table_guarded path h _ payload s Eh); [by eexists|done].
Qed.
End handlers.

(** A client that asks before it has authenticated. *)
Module Demo.
#[local] Existing Instances QortalThm.Demo.ascii_unicode QortalThm.Demo.toy_crypto AuthThm.Demo.world AuthThm.Demo.world_ok AuthThm.Demo.lens.
Definition str (v : pyval) : string := "value".
Definition time_value (now : Z) : pyval := VInt now.
Definition router : @RpcRouter (Server QAppAuthenticationService) (option nat) :=
  {| max_payload := 1024; max_response := 1024; handlers := rpc_table str |}.
Definition request : @RpcContext (option nat) := {| ctx_path := "/hello"; ctx_request_id := None; ctx_rest := None |}.
Definition message : context := inl {| ctx_connection := 0; ctx_session := 0; ctx_message_id := 1; ctx_logical_id := "conn-1" |}.

Lemma reference_service_guarded_witness : exists answer,
  dispatch router "/hello" (VDict []) request AuthThm.Demo.start = (AuthThm.Demo.start, Ok answer) /\ is_error_reply answer.
Proof.
  refine (proj2 (reference_service_guarded [] (fun _ _ => ret tt) str time_value message "echo" VNone AuthThm.Demo.start router "/hello" (VDict []) request eq_refl _ _)).
  - exact I.
  - left. vm_compute. reflexivity.
Defined.
End Demo.
End Reference.
