(* ===== verification/QuicServer.v ===== *)
(** * The QUIC listener of the private transport ([private_transport/quic_server.py])

    A [PrivateQuicProtocol] is one client connection: a first stream that must
    carry ATTACH and then lives as long as the connection, further streams with
    requests, datagrams, and the replies that are still owed.  All of it runs on
    the event loop of the listener; other threads reach it through scheduled
    callbacks.

    aioquic is not part of the sources: what the code calls of it is the class
    [QuicConnection], over an arbitrary state [Q] of a connection.  A protocol
    object is a number, under which sessions know it as their transport. *)

From stdpp Require Import prelude strings list gmap.
From Stdlib Require Import ZArith Lia.
From S2P Require Import Prelude PyDict PyBytes PyValue Json PrivateFraming Database Sessions Protocol Connection Authorization Server QortalIdentity GroupAccess AuthService PrivateService.

(** ** Metadata of frames ([private_transport/framing.py]) *)

Module PrivateMeta.
Import Private.

(** [Frame.metadata_json] *)
Definition metadata_json (f : Frame) : res pyval :=
  match (let? text := decode_utf8 (metadata f) in loads text) with
  | Raise UnicodeError | Raise JSONDecodeError => Raise (FramingError "invalid frame metadata")
  | x => x
  end.

(** [encode_metadata] *)
Definition encode_metadata (value : pyval) : res bytes :=
  let? text := dumps false value in
  let? encoded := encode_utf8 text in
  if blen encoded >? MAX_METADATA_BYTES then Raise (FramingError "frame metadata exceeds limit") else Ok encoded.
End PrivateMeta.

Module Quic.
Import Protocol Connection Server Auth PrivateTransport PrivateMeta.

Definition ALPN : string := "qortal-private/1".
Definition PROTOCOL_ERROR : Z := 0x100.
Definition ATTACH_REJECTED : Z := 0x101.
Definition UNAUTHENTICATED_CONNECTION_LIMIT : nat := 256.
Definition RETRY_THRESHOLD : nat := 64.
Definition ATTACH_DEADLINE_SECONDS : Z := 10 * SECOND.
Definition REPLY_SECONDS : Z := 30 * SECOND.
Definition REJECT_DELAY : Z := 50000.
Definition MAX_STREAMS : nat := 32.
Definition MAX_REPLIES : nat := 128.
Definition MAX_STREAM_REPLIES : nat := 16.
Definition PARTIAL_FRAME_BUDGET : Z := 4 * 1024 * 1024.
Definition CONNECTION_SEND_LIMIT : Z := 2 * 1024 * 1024.
Definition STREAM_SEND_LIMIT : Z := 256 * 1024.

(** What the code calls of [QuicConnection] and [QuicConnectionProtocol]:
    [send_buffers] has the streams with the bytes their senders hold. *)
Class QuicConnection (Q : Type) := {
  send_stream_data : Z -> bytes -> bool -> M Q unit;
  send_datagram_frame : bytes -> M Q unit;
  reset_stream : Z -> Z -> M Q unit;
  stop_stream : Z -> Z -> M Q unit;
  close : Z -> string -> M Q unit;
  transmit : M Q unit;
  send_buffers : Q -> list (Z * nat)
}.

(** The callbacks the loop runs later. *)
Inductive callback :=
| Failing (t : nat) (code : Z) (reason : string)
| DroppingStream (t : nat) (stream : Z)
| Sending (t : nat) (lane message_id : string) (payload : bytes).

(** [PrivateQuicProtocol]; a timer is the handle of a scheduled callback. *)
Record PrivateQuicProtocol (Q : Type) := {
  _quic : Q;
  parser : Private.FrameParser;
  stream_id : option Z;
  _parsers : odict Z Private.FrameParser;
  _ended : gset Z;
  _replies : odict string (Z * nat);
  proto_session : option nat;
  proto_peer : option string;
  _detached : bool;
  _attach_attempted : bool;
  _admission : bool;
  _auth_deadline : Z;
  _auth_timer : nat
}.
Arguments _quic {Q}. Arguments parser {Q}. Arguments stream_id {Q}. Arguments _parsers {Q}. Arguments _ended {Q}.
Arguments _replies {Q}. Arguments proto_session {Q}. Arguments proto_peer {Q}. Arguments _detached {Q}.
Arguments _attach_attempted {Q}. Arguments _admission {Q}. Arguments _auth_deadline {Q}. Arguments _auth_timer {Q}.

(** [AdmissionQuicServer] and the loop. *)
Record QuicServer (Q : Type) := {
  protocols : gmap nat (PrivateQuicProtocol Q);
  next_protocol : nat;
  pending : gset nat;
  scheduled : gmap nat (Z * callback);
  next_handle : nat
}.
Arguments protocols {Q}. Arguments next_protocol {Q}. Arguments pending {Q}. Arguments scheduled {Q}. Arguments next_handle {Q}.

Section setters.
Context {Q : Type}.
Implicit Types (p : PrivateQuicProtocol Q) (q : QuicServer Q).

Definition set_quic x p : PrivateQuicProtocol Q :=
  {| _quic := x; parser := parser p; stream_id := stream_id p; _parsers := _parsers p; _ended := _ended p; _replies := _replies p;
     proto_session := proto_session p; proto_peer := proto_peer p; _detached := _detached p; _attach_attempted := _attach_attempted p;
     _admission := _admission p; _auth_deadline := _auth_deadline p; _auth_timer := _auth_timer p |}.
Definition set_parser x p : PrivateQuicProtocol Q :=
  {| _quic := _quic p; parser := x; stream_id := stream_id p; _parsers := _parsers p; _ended := _ended p; _replies := _replies p;
     proto_session := proto_session p; proto_peer := proto_peer p; _detached := _detached p; _attach_attempted := _attach_attempted p;
     _admission := _admission p; _auth_deadline := _auth_deadline p; _auth_timer := _auth_timer p |}.
Definition set_stream_id x p : PrivateQuicProtocol Q :=
  {| _quic := _quic p; parser := parser p; stream_id := x; _parsers := _parsers p; _ended := _ended p; _replies := _replies p;
     proto_session := proto_session p; proto_peer := proto_peer p; _detached := _detached p; _attach_attempted := _attach_attempted p;
     _admission := _admission p; _auth_deadline := _auth_deadline p; _auth_timer := _auth_timer p |}.
Definition set_parsers x p : PrivateQuicProtocol Q :=
  {| _quic := _quic p; parser := parser p; stream_id := stream_id p; _parsers := x; _ended := _ended p; _replies := _replies p;
     proto_session := proto_session p; proto_peer := proto_peer p; _detached := _detached p; _attach_attempted := _attach_attempted p;
     _admission := _admission p; _auth_deadline := _auth_deadline p; _auth_timer := _auth_timer p |}.
Definition set_ended x p : PrivateQuicProtocol Q :=
  {| _quic := _quic p; parser := parser p; stream_id := stream_id p; _parsers := _parsers p; _ended := x; _replies := _replies p;
     proto_session := proto_session p; proto_peer := proto_peer p; _detached := _detached p; _attach_attempted := _attach_attempted p;
     _admission := _admission p; _auth_deadline := _auth_deadline p; _auth_timer := _auth_timer p |}.
Definition set_replies x p : PrivateQuicProtocol Q :=
  {| _quic := _quic p; parser := parser p; stream_id := stream_id p; _parsers := _parsers p; _ended := _ended p; _replies := x;
     proto_session := proto_session p; proto_peer := proto_peer p; _detached := _detached p; _attach_attempted := _attach_attempted p;
     _admission := _admission p; _auth_deadline := _auth_deadline p; _auth_timer := _auth_timer p |}.
Definition set_proto_session x p : PrivateQuicProtocol Q :=
  {| _quic := _quic p; parser := parser p; stream_id := stream_id p; _parsers := _parsers p; _ended := _ended p; _replies := _replies p;
     proto_session := x; proto_peer := proto_peer p; _detached := _detached p; _attach_attempted := _attach_attempted p;
     _admission := _admission p; _auth_deadline := _auth_deadline p; _auth_timer := _auth_timer p |}.
Definition set_proto_peer x p : PrivateQuicProtocol Q :=
  {| _quic := _quic p; parser := parser p; stream_id := stream_id p; _parsers := _parsers p; _ended := _ended p; _replies := _replies p;
     proto_session := proto_session p; proto_peer := x; _detached := _detached p; _attach_attempted := _attach_attempted p;
     _admission := _admission p; _auth_deadline := _auth_deadline p; _auth_timer := _auth_timer p |}.
Definition set_flags d a p : PrivateQuicProtocol Q :=
  {| _quic := _quic p; parser := parser p; stream_id := stream_id p; _parsers := _parsers p; _ended := _ended p; _replies := _replies p;
     proto_session := proto_session p; proto_peer := proto_peer p; _detached := d; _attach_attempted := a;
     _admission := _admission p; _auth_deadline := _auth_deadline p; _auth_timer := _auth_timer p |}.

Definition set_protocols x k q : QuicServer Q :=
  {| protocols := x; next_protocol := k; pending := pending q; scheduled := scheduled q; next_handle := next_handle q |}.
Definition set_pending x q : QuicServer Q :=
  {| protocols := protocols q; next_protocol := next_protocol q; pending := x; scheduled := scheduled q; next_handle := next_handle q |}.
Definition set_scheduled x k q : QuicServer Q :=
  {| protocols := protocols q; next_protocol := next_protocol q; pending := pending q; scheduled := x; next_handle := k |}.
End setters.

(** Where the listener's state is in the applications' state. *)
Class HasQuic (A Q : Type) := { quic_of : A -> QuicServer Q; put_quic : QuicServer Q -> A -> A }.
Class HasQuicLaws (A Q : Type) `{HasQuic A Q, HasAuth A, HasPrivate A} : Prop := {
  quic_of_put : forall x a, quic_of (put_quic x a) = x;
  quic_of_put_auth : forall x a, quic_of (put_auth x a) = quic_of a;
  quic_of_put_private : forall x a, quic_of (put_private x a) = quic_of a;
  private_of_put_quic : forall x a, private_of (put_quic x a) = private_of a;
  auth_of_put_quic : forall x a, auth_of (put_quic x a) = auth_of a
}.

(** The events of [aioquic.quic.events] the protocol looks at. *)
Inductive QuicEvent :=
| ProtocolNegotiated (alpn_protocol : option string)
| StreamDataReceived (stream : Z) (data : bytes) (end_stream : bool)
| StreamReset (stream : Z)
| DatagramFrameReceived (data : bytes)
| ConnectionTerminated.

Section server.
Context {A Q : Type} `{HasAuth A} `{HasPrivate A} `{HasQuic A Q} `{QuicConnection Q}.
Context (q0 : Q).
Context (message_handlers : gmap string (PrivateMessageContext -> pyval -> M (Server A) unit)).

Abbreviation SrvM := (M (Server A)).

(** What is read under a number that names no protocol. *)
Definition empty : PrivateQuicProtocol Q :=
  {| _quic := q0; parser := Private.mkParser [] (64 * 1024); stream_id := None; _parsers := []; _ended := ∅; _replies := [];
     proto_session := None; proto_peer := None; _detached := true; _attach_attempted := true; _admission := false;
     _auth_deadline := 0; _auth_timer := 0 |}.

Definition listener (s : Server A) : QuicServer Q := quic_of (app s).
Definition in_listener {B} (m : M (QuicServer Q) B) : SrvM B := zoom listener (fun x s => set_app (put_quic x (app s)) s) m.
Definition proto (t : nat) (s : Server A) : PrivateQuicProtocol Q := default empty (protocols (listener s) !! t).
Definition on_proto (t : nat) (f : PrivateQuicProtocol Q -> PrivateQuicProtocol Q) : SrvM unit :=
  in_listener (modify (fun q => set_protocols (<[t := f (default empty (protocols q !! t))]> (protocols q)) (next_protocol q) q)).
Definition in_quic {B} (t : nat) (m : M Q B) : SrvM B := fun s =>
  let '(x, r) := m (_quic (proto t s)) in (fst (on_proto t (set_quic x) s), r).

(** [loop.call_later] and [handle.cancel] *)
Definition call_later (delay : Z) (c : callback) : SrvM nat :=
  let! s := get in
  let h := next_handle (listener s) in
  in_listener (modify (fun q => set_scheduled (<[h := (mono s + delay, c)]> (scheduled q)) (S h) q)) ;!
  ret h.
Definition cancel (h : nat) : SrvM unit :=
  in_listener (modify (fun q => set_scheduled (delete h (scheduled q)) (next_handle q) q)).

(** [__init__] *)
Definition new_protocol (q : Q) (admission : bool) : SrvM nat :=
  let! s := get in
  let t := next_protocol (listener s) in
  (if admission then in_listener (modify (fun l => set_pending ({[t]} ∪ pending l) l)) else ret tt) ;!
  let! h := call_later ATTACH_DEADLINE_SECONDS (Failing t ATTACH_REJECTED "authentication deadline exceeded") in
  in_listener (modify (fun l => set_protocols (<[t :=
    {| _quic := q; parser := Private.mkParser [] (64 * 1024); stream_id := None; _parsers := []; _ended := ∅; _replies := [];
       proto_session := None; proto_peer := None; _detached := false; _attach_attempted := false;
       _admission := admission; _auth_deadline := mono s + ATTACH_DEADLINE_SECONDS; _auth_timer := h |}]> (protocols l)) (S t) l)) ;!
  ret t.

(** [_release_admission] *)
Definition _release_admission (t : nat) : SrvM unit :=
  let! p := gets (proto t) in
  cancel (_auth_timer p) ;!
  if _admission p then in_listener (modify (fun l => set_pending (pending l ∖ {[t]}) l)) else ret tt.

(** [PrivateQuicProtocol.datagram_received]; [received] is what aioquic makes
    of the packet. *)
Definition protocol_datagram_received (received : SrvM unit) (t : nat) (addr : string) : SrvM unit :=
  let! p := gets (proto t) in
  (if bool_decide (proto_peer p = None) then on_proto t (set_proto_peer (Some addr)) else ret tt) ;!
  received.

(** [_detach] *)
Definition _detach (t : nat) : SrvM unit :=
  let! p := gets (proto t) in
  if _detached p then ret tt else
  on_proto t (fun p => set_flags true (_attach_attempted p) p) ;!
  iterM (fun '(_, timer) => cancel timer) (od_values (_replies p)) ;!
  on_proto t (set_replies []) ;!
  on_proto t (set_parsers []) ;!
  match proto_session p with Some r => detach r t | None => ret tt end.

(** [_fail] *)
Definition _fail (t : nat) (code : Z) (reason : string) : SrvM unit :=
  in_quic t (close code reason) ;! _detach t.

(** [_finish_stream] *)
Definition _finish_stream (t : nat) (stream : Z) : SrvM unit :=
  let! p := gets (proto t) in
  if negb (bool_decide (stream ∈ _ended p)) || existsb (fun x => fst x =? stream) (od_values (_replies p)) then ret tt else
  on_proto t (fun p => set_ended (_ended p ∖ {[stream]}) p) ;!
  on_proto t (fun p => set_parsers (od_pop stream (_parsers p)) p) ;!
  in_quic t (send_stream_data stream [] true) ;!
  in_quic t transmit.

(** [_drop_stream] *)
Definition _drop_stream (t : nat) (stream : Z) : SrvM unit :=
  let! p := gets (proto t) in
  if bool_decide (stream_id p = Some stream) then _fail t PROTOCOL_ERROR "reliable request timed out" else
  on_proto t (fun p => set_parsers (od_pop stream (_parsers p)) p) ;!
  on_proto t (fun p => set_ended (_ended p ∖ {[stream]}) p) ;!
  iterM (fun '(message_id, (s, timer)) =>
    if s =? stream then cancel timer ;! on_proto t (fun p => set_replies (od_pop message_id (_replies p)) p) else ret tt) (_replies p) ;!
  in_quic t (reset_stream stream PROTOCOL_ERROR) ;!
  in_quic t (stop_stream stream PROTOCOL_ERROR) ;!
  in_quic t transmit.

(** [_send_frame] *)
Definition _send_frame (t : nat) (frame : Private.Frame) (stream : option Z) : SrvM unit :=
  let! p := gets (proto t) in
  match stream_id p with
  | None => raise (RuntimeError "private transport stream is unavailable")
  | Some first =>
    let target := default first stream in
    let! encoded := lift (Private.encode_frame frame) in
    let streams := send_buffers (_quic p) in
    let queued := foldr (fun x n => Z.of_nat (snd x) + n) 0 streams in
    if CONNECTION_SEND_LIMIT <? queued + Private.blen encoded then _fail t PROTOCOL_ERROR "connection send buffer limit exceeded" else
    if match od_get target streams with Some n => STREAM_SEND_LIMIT <? Z.of_nat n + Private.blen encoded | None => false end
    then _drop_stream t target else
    in_quic t (send_stream_data target encoded false) ;!
    in_quic t transmit
  end.

(** ** Attaching *)

Definition attach_answer (r : res string) (claimed : pyval) : pyval :=
  match r with
  | Ok sid =>
    VDict [("ok", VBool true); ("reliableStreams", VBool true); ("maxReliablePayloadBytes", VInt (1024 * 1024));
           ("logicalSessionId", VStr sid); ("transportGeneration", VInt 1); ("reliable", VBool true); ("datagrams", VBool true)]
  | Raise _ =>
    VDict [("ok", VBool false); ("logicalSessionId", claimed); ("transportGeneration", VInt 1); ("reliable", VBool true);
           ("datagrams", VBool true); ("code", VStr "ATTACH_TOKEN_REJECTED")]
  end.

(** [_attach] *)
Definition _attach (t : nat) (frame : Private.Frame) : SrvM unit :=
  let! s := get in
  if _auth_deadline (proto t s) <=? mono s then raise (FramingError "authentication deadline exceeded") else
  if negb (Private.frame_type frame =? Private.FRAME_ATTACH) || negb (bool_decide (Private.payload frame = []))
  then raise (FramingError "ATTACH must be the first frame") else
  let! metadata := lift (metadata_json frame) in
  let claimed := match metadata with VDict d => dget "logicalSessionId" d | _ => VStr "" end in
  let! attached := try_catch
    (let! r := attach t metadata in on_proto t (set_proto_session (Some r)) ;! ret (Some r))
    is_ValueError (fun _ => ret None) in
  match attached with
  | None =>
    let! encoded := lift (encode_metadata (attach_answer (Raise AttachRejected) claimed)) in
    _send_frame t (Private.mkFrame Private.FRAME_ATTACHED encoded []) None ;!
    let! _ := call_later REJECT_DELAY (Failing t ATTACH_REJECTED "attach rejected") in
    ret tt
  | Some r =>
    let! o := gets (session_obj r) in
    let! encoded := lift (encode_metadata (attach_answer (Ok (session_id o)) claimed)) in
    _send_frame t (Private.mkFrame Private.FRAME_ATTACHED encoded []) None ;!
    _release_admission t
  end.

(** ** Receiving *)

(** A reliable message on a stream. *)
Definition admit_request (t r : nat) (stream : Z) (frame : Private.Frame) : SrvM unit :=
  let! metadata := lift (metadata_json frame) in
  match (match metadata with VDict d => dget "messageId" d | _ => VNone end) with
  | VStr message_id =>
    if bool_decide (message_id = "") then raise (FramingError "reliable message ID is invalid") else
    let! p := gets (proto t) in
    if (128 <? py_len message_id) || od_mem message_id (_replies p) || (MAX_REPLIES <=? length (_replies p))%nat
    then raise (FramingError "reliable request limit exceeded") else
    if (MAX_STREAM_REPLIES <=? length (filter (fun x => fst x = stream) (od_values (_replies p))))%nat
    then raise (FramingError "stream request limit exceeded") else
    let! h := call_later REPLY_SECONDS (DroppingStream t stream) in
    on_proto t (fun p => set_replies (od_set message_id (stream, h) (_replies p)) p) ;!
    handle_application_message message_handlers t r "reliable" message_id (Private.payload frame)
  | _ => raise (FramingError "reliable message ID is invalid")
  end.

(** One turn of the loop over the frames; [false] for the early return. *)
Definition serve_frame (t : nat) (stream : Z) (frame : Private.Frame) : SrvM bool :=
  let! p := gets (proto t) in
  match proto_session p with
  | None =>
    if _attach_attempted p then raise (FramingError "only one ATTACH attempt is allowed") else
    on_proto t (fun p => set_flags (_detached p) true p) ;!
    _attach t frame ;!
    let! p := gets (proto t) in
    ret (bool_decide (is_Some (proto_session p)))
  | Some r =>
    if Private.frame_type frame =? Private.FRAME_RELIABLE then admit_request t r stream frame ;! ret true
    else raise (FramingError "unexpected reliable frame")
  end.
Fixpoint serve_frames (t : nat) (stream : Z) (frames : list Private.Frame) : SrvM bool :=
  match frames with
  | [] => ret true
  | f :: rest => let! more := serve_frame t stream f in if more then serve_frames t stream rest else ret false
  end.

(** [parser.feed(event.data)] with the bytes the parser keeps. *)
Definition stream_parser (primary : bool) (stream : Z) (p : PrivateQuicProtocol Q) : Private.FrameParser :=
  if primary then parser p else default (Private.mkParser [] Private.MAX_RELIABLE_PAYLOAD_BYTES) (od_get stream (_parsers p)).
Definition feed_stream (t : nat) (primary : bool) (stream : Z) (data : bytes) : SrvM (list Private.Frame * bytes) :=
  let! p := gets (proto t) in
  let '(x, r) := Private.feed data (stream_parser primary stream p) in
  on_proto t (fun p => if primary then set_parser x p else set_parsers (od_set stream x (_parsers p)) p) ;!
  let! frames := lift r in
  ret (frames, Private.buffer x).

(** The partial frames a connection retains. *)
Definition retained (d : odict Z Private.FrameParser) : Z := foldr (fun x n => Private.blen (Private.buffer (snd x)) + n) 0 d.

Definition stream_body (t : nat) (primary : bool) (stream : Z) (data : bytes) (end_stream : bool) : SrvM unit :=
  let! '(frames, rest) := feed_stream t primary stream data in
  let! more := serve_frames t stream frames in
  if negb more then ret tt else
  let! p := gets (proto t) in
  if PARTIAL_FRAME_BUDGET <? Private.blen (Private.buffer (parser p)) + retained (_parsers p)
  then raise (FramingError "connection partial frame budget exceeded") else
  if end_stream then
    if negb (bool_decide (rest = [])) then raise (FramingError "incomplete final frame") else
    on_proto t (fun p => set_ended ({[stream]} ∪ _ended p) p) ;!
    _finish_stream t stream
  else ret tt.

(** [_stream_data] *)
Definition _stream_data (t : nat) (stream : Z) (data : bytes) (end_stream : bool) : SrvM unit :=
  if negb (stream mod 4 =? 0) then _fail t PROTOCOL_ERROR "client bidirectional stream required" else
  on_proto t (fun p => match stream_id p with None => set_stream_id (Some stream) p | Some _ => p end) ;!
  let! p := gets (proto t) in
  let primary := bool_decide (stream_id p = Some stream) in
  if (negb primary && bool_decide (proto_session p = None)) || (primary && end_stream)
  then _fail t PROTOCOL_ERROR "persistent stream required" else
  let new := negb primary && negb (od_mem stream (_parsers p)) in
  if new && (MAX_STREAMS <=? length (_parsers p))%nat then _drop_stream t stream else
  (if new then on_proto t (fun p => set_parsers (od_set stream (Private.mkParser [] Private.MAX_RELIABLE_PAYLOAD_BYTES) (_parsers p)) p)
   else ret tt) ;!
  try_catch (stream_body t primary stream data end_stream) (fun _ => true)
    (fun _ => if primary then _fail t PROTOCOL_ERROR "invalid private transport frame" else _drop_stream t stream).

(** [_datagram] *)
Definition _datagram (t : nat) (data : bytes) : SrvM unit :=
  let! p := gets (proto t) in
  match proto_session p with
  | None => _fail t ATTACH_REJECTED "attach required"
  | Some r =>
    try_catch
      (let! '(message_id, payload) := lift (Private.decode_datagram data) in
       handle_application_message message_handlers t r "datagram" message_id payload)
      (fun _ => true) (fun _ => _fail t PROTOCOL_ERROR "invalid private transport datagram")
  end.

(** [quic_event_received] *)
Definition quic_event_received (t : nat) (event : QuicEvent) : SrvM unit :=
  match event with
  | ProtocolNegotiated alpn => if bool_decide (alpn = Some ALPN) then ret tt else in_quic t (close PROTOCOL_ERROR "unsupported protocol")
  | StreamDataReceived stream data end_stream => _stream_data t stream data end_stream
  | StreamReset stream => _drop_stream t stream
  | DatagramFrameReceived data => _datagram t data
  | ConnectionTerminated => _release_admission t ;! _detach t
  end.

(** ** Sending *)

(** [send_application] *)
Definition send_application (t : nat) (lane message_id : string) (payload : bytes) : SrvM unit :=
  let! p := gets (proto t) in
  if bool_decide (proto_session p = None) || bool_decide (stream_id p = None)
  then raise (RuntimeError "private transport is not attached") else
  if bool_decide (lane = "datagram") then
    let! encoded := lift (Private.encode_datagram message_id payload) in
    in_quic t (send_datagram_frame encoded) ;!
    in_quic t transmit
  else if bool_decide (lane = "reliable") then
    match od_get message_id (_replies p) with
    | None => ret tt
    | Some (stream, timer) =>
      on_proto t (fun p => set_replies (od_pop message_id (_replies p)) p) ;!
      cancel timer ;!
      let! encoded := lift (encode_metadata (VDict [("messageId", VStr message_id)])) in
      _send_frame t (Private.mkFrame Private.FRAME_RELIABLE encoded payload) (Some stream) ;!
      _finish_stream t stream
    end
  else raise (ValueError "unsupported private transport lane").

(** [send_json]; [on_loop] tells whether the caller runs on the loop. *)
Definition send_json (on_loop : bool) (t : nat) (lane message_id : string) (value : pyval) : SrvM unit :=
  let! payload := lift (encode_application_payload value) in
  if on_loop then send_application t lane message_id payload
  else let! _ := call_later 0 (Sending t lane message_id payload) in ret tt.

(** [PrivateMessageContext.reply] over such a transport *)
Definition context_reply (on_loop : bool) (c : PrivateMessageContext) (value : pyval) : SrvM unit :=
  send_json on_loop (pm_transport c) (pm_lane c) (pm_message_id c) value.

(** [request_close] *)
Definition request_close (t : nat) (code : Z) (reason : string) : SrvM unit :=
  let! _ := call_later 0 (Failing t code reason) in ret tt.

(** ** The loop *)

(** A scheduled callback that is due; the loop logs what it raises. *)
Definition run_callback (c : callback) : SrvM unit :=
  match c with
  | Failing t code reason => _fail t code reason
  | DroppingStream t stream => _drop_stream t stream
  | Sending t lane message_id payload => send_application t lane message_id payload
  end.
Definition run_scheduled (h : nat) : SrvM unit :=
  let! s := get in
  match scheduled (listener s) !! h with
  | Some (due, c) => if due <=? mono s then cancel h ;! run_callback c else ret tt
  | None => ret tt
  end.

(** [AdmissionQuicServer.datagram_received]: [header] is what
    [pull_quic_header] gives, [routed] tells which connection ids are known,
    [received] is the method of the base class, given whether it retries. *)
Definition datagram_received (header : option (bytes * bytes)) (routed : bytes -> bool) (received : bool -> SrvM unit) : SrvM unit :=
  match header with
  | None => ret tt
  | Some (destination_cid, token) =>
    let! l := gets listener in
    if negb (routed destination_cid) && (UNAUTHENTICATED_CONNECTION_LIMIT <=? size (pending l))%nat then ret tt else
    received ((RETRY_THRESHOLD <=? size (pending l))%nat || negb (bool_decide (token = [])))
  end.
End server.

(** ** The thread of the listener *)

(** What [run] reports before [ready] is set: the port, or a failure. *)
Inductive run_report := Listening (port : Z) | Failed.

(** [PrivateQuicServer]: the fields that [start] and [stop] read; a loop is
    open or closed. *)
Record PrivateQuicServer := { bound_port : option Z; _loop : option bool; _server : bool; _thread : bool }.
Definition new_server : PrivateQuicServer := {| bound_port := None; _loop := None; _server := false; _thread := false |}.

(** [run] up to [ready.set()], and then, if it failed, to its end. *)
Definition run_reports (x : run_report) (l : PrivateQuicServer) : PrivateQuicServer :=
  match x with
  | Listening port => {| bound_port := Some port; _loop := Some true; _server := true; _thread := _thread l |}
  | Failed => {| bound_port := bound_port l; _loop := Some false; _server := _server l; _thread := _thread l |}
  end.
Definition set_thread (b : bool) (l : PrivateQuicServer) : PrivateQuicServer :=
  {| bound_port := bound_port l; _loop := _loop l; _server := _server l; _thread := b |}.

(** [start]; [ready] is what the thread reports within ten seconds. *)
Definition start (ready : option run_report) : M PrivateQuicServer Z :=
  let! l := get in
  if _thread l then
    match bound_port l with
    | None => raise (RuntimeError "private QUIC server has not finished starting")
    | Some port => ret port
    end
  else
    modify (set_thread true) ;!
    match ready with
    | None => raise (TimeoutError "private QUIC server startup timed out")
    | Some x =>
      modify (run_reports x) ;!
      match x with
      | Failed => modify (set_thread false) ;! raise (RuntimeError "private QUIC server failed to start")
      | Listening _ =>
        let! l := get in
        match bound_port l with
        | None => raise (RuntimeError "private QUIC server did not report its port")
        | Some port => ret port
        end
      end
    end.

(** [stop]; [call_soon_threadsafe] of a closed loop raises. *)
Definition stop : M PrivateQuicServer unit :=
  let! l := get in
  match _loop l, _thread l with
  | Some open, true =>
    guard_or open (RuntimeError "Event loop is closed") ;!
    put {| bound_port := bound_port l; _loop := None; _server := false; _thread := false |}
  | _, _ => ret tt
  end.

(** A started listener answers with its port until it is stopped, and can be
    started again; a start that failed can be repeated. *)
Lemma start_idempotent port x :
  let l := fst (start (Some (Listening port)) new_server) in
  snd (start (Some (Listening port)) new_server) = Ok port /\ start x l = (l, Ok port) /\
  forall port', snd (start (Some (Listening port')) (fst (stop l))) = Ok port'.
Proof. by split; [|split]. Qed.

Lemma start_retries port :
  snd (start (Some (Listening port)) (fst (start (Some Failed) new_server))) = Ok port.
Proof. done. Qed.

(** A start that timed out after an earlier run answers with the port of
    that run. *)
Lemma stale_port port :
  let l := fst (stop (fst (start (Some (Listening port)) new_server))) in
  let l' := fst (start None l) in
  is_ok (snd (start None l)) = false /\ snd (start None l') = Ok port.
Proof. done. Qed.
End Quic.
