(* ===== verification/QuicFacts.v ===== *)
(** * What the QUIC listener guarantees

    A connection never holds more streams, owed replies or partial frames than
    its limits, no more connections than the limit wait unauthenticated, an
    attach attempt that was rejected is the last one, and a connection that was
    attached releases its session when it ends. *)

From stdpp Require Import prelude strings list gmap.
From Stdlib Require Import ZArith Lia.
From S2P Require Import Prelude PyDict PyBytes PyValue Json PrivateFraming Database Sessions SessionFacts Protocol Connection Authorization Server QortalIdentity QortalFacts GroupAccess GroupFacts AuthService AuthFacts PrivateService PrivateFacts NativePlane AppService QuicServer.

Module QuicThm.
Import Protocol Connection Server Auth PrivateTransport AuthThm PrivateThm PrivateMeta Quic.

(** ** Parsers *)

(** A parser keeps no more than one frame of its largest size. *)
Definition parser_bound (mpb : Z) : Z := 12 + Private.MAX_METADATA_BYTES + mpb.

Lemma feed_loop_bound n mpb buf rem :
  0 <= mpb -> Private.blen buf <= parser_bound mpb -> Private.blen (fst (Private.feed_loop n mpb buf rem)) <= parser_bound mpb.
Proof.
  intros Hm. revert buf rem. induction n as [|n IH]; intros buf rem Hb; [done|]. cbn [Private.feed_loop].
  destruct (0 <? length rem)%nat; [|done]. unfold parser_bound, Private.blen, Private.HEADER_size in *.
  set (buf1 := buf ++ take _ rem). assert (length buf1 <= Nat.max 12 (length buf))%nat as H1.
  { unfold buf1. rewrite length_app, length_take. lia. }
  destruct (length buf1 <? 12)%nat; [cbn [fst]; unfold Private.MAX_METADATA_BYTES in *; lia|].
  destruct (Private.check_header mpb buf1) as [[[t mlen] plen]|e] eqn:Ec; [|cbn [fst]; unfold Private.MAX_METADATA_BYTES in *; lia].
  assert (Z.of_nat mlen <= Private.MAX_METADATA_BYTES /\ Z.of_nat plen <= mpb) as [Hml Hpl].
  { revert Ec. unfold Private.check_header. destruct (Private.unpack buf1) as [[[[? ?] ?] ml] pl]. destruct (_ || _); [done|].
    destruct ((ml >? _) || _) eqn:E; [done|]. intros [= _ <- <-]. apply orb_false_iff in E as [E1 E2].
    rewrite Z.gtb_ltb in E1, E2. apply Z.ltb_ge in E1, E2. unfold Private.MAX_METADATA_BYTES in *. lia. }
  set (buf2 := buf1 ++ take _ _). assert (length buf2 <= Nat.max (12 + mlen + plen) (length buf1))%nat as H2.
  { unfold buf2. rewrite length_app, length_take. lia. }
  destruct (length buf2 <? _)%nat; [cbn [fst]; unfold Private.MAX_METADATA_BYTES in *; lia|].
  match goal with |- context [Private.feed_loop n mpb ?a ?b] => specialize (IH a b); destruct (Private.feed_loop n mpb a b) as [c [fs|e]] end;
    apply IH; rewrite length_drop; unfold Private.MAX_METADATA_BYTES in *; lia.
Qed.

Lemma feed_bound data p :
  0 <= Private.max_payload_bytes p -> Private.blen (Private.buffer p) <= parser_bound (Private.max_payload_bytes p) ->
  Private.blen (Private.buffer (fst (Private.feed data p))) <= parser_bound (Private.max_payload_bytes p) /\
  Private.max_payload_bytes (fst (Private.feed data p)) = Private.max_payload_bytes p.
Proof.
  intros Hm Hb. unfold Private.feed. pose proof (feed_loop_bound (S (length (Private.buffer p) + length data)) _ _ data Hm Hb) as Hl.
  by destruct (Private.feed_loop _ _ _ _).
Qed.

Lemma retained_nonneg d : 0 <= retained d.
Proof. unfold retained. induction d as [|[k x] d IH]; cbn [foldr]; unfold Private.blen in *; lia. Qed.

Lemma retained_sublist d1 d2 : d1 `sublist_of` d2 -> retained d1 <= retained d2.
Proof. unfold retained. induction 1 as [|x l1 l2 _ IH|x l1 l2 _ IH]; cbn [foldr]; unfold Private.blen in *; lia. Qed.

Lemma retained_cons k x d : retained ((k, x) :: d) = Private.blen (Private.buffer x) + retained d.
Proof. done. Qed.

Lemma retained_set k x d : od_wf d -> retained (od_set k x d) = Private.blen (Private.buffer x) + retained (od_pop k d).
Proof.
  unfold od_wf. induction d as [|[k' y] d IH]; [done|]. intros [Hni Hwf]%NoDup_cons. cbn [od_set od_pop]. case_decide as Hk.
  - subst k'. rewrite od_pop_not_mem; [done|]. by apply od_get_None.
  - rewrite !retained_cons, IH by done. lia.
Qed.

Lemma od_pop_sublist_mono {V} k (d1 d2 : odict Z V) : d1 `sublist_of` d2 -> od_pop k d1 `sublist_of` od_pop k d2.
Proof.
  induction 1 as [|[k' x] l1 l2 _ IH|[k' x] l1 l2 _ IH]; cbn [od_pop]; [done|case_decide; [done|by apply sublist_skip]|].
  case_decide; [done|by apply sublist_cons].
Qed.

Section facts.
Context {A Q : Type} `{HasAuth A} `{!HasAuthLaws A} `{HasPrivate A} `{!HasPrivateLaws A} `{HasQuic A Q} `{!HasQuicLaws A Q} `{QuicConnection Q}.
Context (q0 : Q).
Context (message_handlers : gmap string (PrivateMessageContext -> pyval -> M (Server A) unit)).

Abbreviation proto := (proto q0).
Definition attached_to (r : nat) (s : Server A) : option nat := private_transport (session_obj r s).

(** ** Steps that only give up

    Streams, replies and attachments can go, none comes; a connection that
    becomes detached lets go of its session. *)

Record shrinks (p p' : PrivateQuicProtocol Q) : Prop := {
  sh_parser : parser p' = parser p;
  sh_parsers : _parsers p' `sublist_of` _parsers p;
  sh_replies : _replies p' `sublist_of` _replies p;
  sh_session : proto_session p' = proto_session p;
  sh_stream : is_Some (stream_id p) -> stream_id p' = stream_id p;
  sh_detached : _detached p = true -> _detached p' = true;
  sh_attempted : _attach_attempted p' = _attach_attempted p;
  sh_admission : _admission p' = _admission p
}.
#[export] Instance shrinks_preorder : PreOrder shrinks.
Proof.
  split; [by intros p; split|]. intros p1 p2 p3 [A1 A2 A3 A4 A5 A6 A7 A8] [B1 B2 B3 B4 B5 B6 B7 B8].
  split; try congruence; [by etransitivity|by etransitivity| |auto].
  intros Hs. rewrite B5; [auto|]. by rewrite A5.
Qed.

Record calm (s s' : Server A) : Prop := {
  calm_proto : forall t, shrinks (proto t s) (proto t s');
  calm_pending : pending (listener (Q := Q) s') ⊆ pending (listener s);
  calm_next : next_protocol (listener (Q := Q) s') = next_protocol (listener s);
  calm_attached : forall r t, attached_to r s' = Some t -> attached_to r s = Some t;
  calm_closed : forall t r, _detached (proto t s) = false -> _detached (proto t s') = true ->
    proto_session (proto t s) = Some r -> attached_to r s' ≠ Some t
}.
#[export] Instance quic_calm_preorder : PreOrder calm.
Proof.
  split; [intros s; split; try done; congruence|]. intros s1 s2 s3 [A1 A2 A3 A4 A5] [B1 B2 B3 B4 B5]. split.
  - intros t. etransitivity; [apply A1|apply B1].
  - set_solver.
  - congruence.
  - auto.
  - intros t r Hd Hd' Hs Ha. destruct (_detached (proto t s2)) eqn:E.
    + apply (A5 t r Hd E Hs). by apply B4.
    + apply (B5 t r E Hd'); [|done]. by rewrite (sh_session _ _ (A1 t)).
Qed.

Lemma listener_set l (s : Server A) : listener (set_app (put_quic l (app s)) s) = l :> QuicServer Q.
Proof. unfold listener. cbn [app set_app]. apply quic_of_put. Qed.

Lemma proto_set l (s : Server A) t : proto t (set_app (put_quic l (app s)) s) = default (empty q0) (protocols l !! t).
Proof. unfold Quic.proto. by rewrite listener_set. Qed.

(** A change of the listener that spares the protocols. *)
Lemma calm_listener f (s : Server A) :
  protocols (f (listener s)) = protocols (listener s) -> next_protocol (f (listener s)) = next_protocol (listener s) ->
  pending (f (listener s)) ⊆ pending (listener s) -> calm s (fst (in_listener (Q := Q) (modify f) s)).
Proof.
  intros E1 E2 E3. unfold in_listener, zoom, modify. cbn [fst].
  assert (forall t, proto t (set_app (put_quic (f (listener s)) (app s)) s) = proto t s) as Ep by (intros t; rewrite proto_set, E1; done).
  split; rewrite ?listener_set; try done.
  - intros t. by rewrite Ep.
  - intros t r. rewrite Ep. congruence.
Qed.

Lemma on_proto_eq t f (s : Server A) t' :
  proto t' (fst (on_proto q0 t f s)) = if decide (t' = t) then f (proto t s) else proto t' s.
Proof.
  unfold on_proto, in_listener, zoom, modify. cbn [fst]. rewrite proto_set. cbn [protocols set_protocols].
  case_decide as Ht; [subst t'; by rewrite lookup_insert_eq|by rewrite lookup_insert_ne].
Qed.

Lemma on_proto_frame t f (s : Server A) :
  pending (listener (fst (on_proto q0 t f s))) = pending (listener s) /\
  next_protocol (listener (fst (on_proto q0 t f s))) = next_protocol (listener s) /\
  forall r, attached_to r (fst (on_proto q0 t f s)) = attached_to r s.
Proof. unfold on_proto, in_listener, zoom, modify. cbn [fst]. by rewrite listener_set. Qed.

(** A change of a protocol that neither attaches nor detaches. *)
Lemma calm_on_proto t f (s : Server A) :
  shrinks (proto t s) (f (proto t s)) -> _detached (f (proto t s)) = _detached (proto t s) -> calm s (fst (on_proto q0 t f s)).
Proof.
  intros Hsh Hd. destruct (on_proto_frame t f s) as (E1 & E2 & E3). split.
  - intros t'. rewrite on_proto_eq. case_decide; [by subst|done].
  - by rewrite E1.
  - done.
  - intros r t'. by rewrite E3.
  - intros t' r. rewrite on_proto_eq. case_decide; [subst|]; congruence.
Qed.

Lemma calm_in_quic {B} t (m : M Q B) : moves calm (in_quic (A := A) q0 t m).
Proof. intros s. unfold in_quic. destruct (m _) as [x r]. by apply calm_on_proto. Qed.

Lemma calm_cancel h : moves calm (cancel (A := A) (Q := Q) h).
Proof. intros s. by apply calm_listener. Qed.

Lemma calm_call_later d c : moves calm (call_later (A := A) (Q := Q) d c).
Proof. unfold call_later. repeat (moves_step || (intros ?; by apply calm_listener)). Qed.

(** ** Detaching *)

(** Nothing the invariants look at changes. *)
Record same (s s' : Server A) : Prop := {
  same_proto : forall t, proto t s' = proto t s;
  same_pending : pending (listener (Q := Q) s') = pending (listener s);
  same_next : next_protocol (listener (Q := Q) s') = next_protocol (listener s);
  same_attached : forall r, attached_to r s' = attached_to r s
}.

Lemma cancel_same h (s : Server A) : same s (fst (cancel (Q := Q) h s)).
Proof. unfold cancel, in_listener, zoom, modify. cbn [fst]. by split; intros; rewrite ?proto_set, ?listener_set. Qed.

Lemma cancel_all (l : list (Z * nat)) (s : Server A) :
  exists s1, iterM (fun '(_, timer) => cancel (Q := Q) timer) l s = (s1, Ok tt) /\ same s s1.
Proof.
  revert s. induction l as [|[k h] l IH]; intros s; cbn [iterM]; [by exists s|].
  rewrite (bind_ok (cancel h) _ s (fst (cancel h s)) tt eq_refl). destruct (IH (fst (cancel h s))) as (s1 & -> & [E1 E2 E3 E4]).
  destruct (cancel_same h s) as [F1 F2 F3 F4]. exists s1. split; [done|]. split; intros; etransitivity; eauto.
Qed.

Lemma detach_spec r t (s : Server A) :
  exists s', detach r t s = (s', Ok tt) /\ listener (Q := Q) s' = listener s /\
    forall x, attached_to x s' = if decide (x = r /\ attached_to x s = Some t) then None else attached_to x s.
Proof.
  unfold detach. rewrite (bind_ok (gets _) _ s s _ eq_refl). case_bool_decide as Hp.
  - unfold set_session. rewrite srv_in_sessions_eq. eexists. split; [reflexivity|]. split; [done|]. intros x.
    unfold attached_to, session_obj. cbn [sessions set_sessions fst modify]. rewrite obj_on_obj. case_decide as Hx.
    + subst x. by rewrite decide_True.
    + rewrite decide_False; [done|]. by intros [-> _].
  - exists s. split; [done|]. split; [done|]. intros x. case_decide as Hx; [|done]. destruct Hx as [-> Hx]. by destruct Hp.
Qed.

(** What [_detach] does to a connection that is not detached yet. *)
Lemma detach_proto_spec t (s : Server A) :
  _detached (proto t s) = false ->
  exists s', _detach q0 t s = (s', Ok tt) /\
    (forall t', proto t' s' = if decide (t' = t) then set_parsers [] (set_replies [] (set_flags true (_attach_attempted (proto t s)) (proto t s))) else proto t' s) /\
    pending (listener (Q := Q) s') = pending (listener s) /\ next_protocol (listener (Q := Q) s') = next_protocol (listener s) /\
    forall x, attached_to x s' = if decide (proto_session (proto t s) = Some x /\ attached_to x s = Some t) then None else attached_to x s.
Proof.
  intros Hd. unfold _detach. rewrite (bind_ok (gets _) _ s s _ eq_refl), Hd.
  match goal with |- context [on_proto q0 t ?f] => set (f1 := f) end. set (s1 := fst (on_proto q0 t f1 s)).
  rewrite (bind_ok (on_proto q0 t f1) _ s s1 tt eq_refl).
  destruct (cancel_all (od_values (_replies (proto t s))) s1) as (s2 & E2 & [P2 N2 X2 A2]). rewrite (bind_ok _ _ s1 s2 tt E2).
  set (s3 := fst (on_proto q0 t (set_replies []) s2)). rewrite (bind_ok (on_proto q0 t (set_replies [])) _ s2 s3 tt eq_refl).
  set (s4 := fst (on_proto q0 t (set_parsers []) s3)). rewrite (bind_ok (on_proto q0 t (set_parsers [])) _ s3 s4 tt eq_refl).
  destruct (on_proto_frame t f1 s) as (N1 & X1 & A1). destruct (on_proto_frame t (set_replies []) s2) as (N3 & X3 & A3).
  destruct (on_proto_frame t (set_parsers []) s3) as (N4 & X4 & A4).
  assert (forall t', proto t' s4 = if decide (t' = t) then set_parsers [] (set_replies [] (set_flags true (_attach_attempted (proto t s)) (proto t s))) else proto t' s) as P4.
  { intros t'. unfold s4. rewrite on_proto_eq. unfold s3. rewrite !on_proto_eq, !P2. unfold s1. rewrite !on_proto_eq.
    destruct (decide (t' = t)) as [->|Hne]; [by destruct (decide (t = t))|done]. }
  assert (forall x, attached_to x s4 = attached_to x s) as A5 by (intros x; exact (eq_trans (A4 x) (eq_trans (A3 x) (eq_trans (A2 x) (A1 x))))).
  assert (pending (listener (Q := Q) s4) = pending (listener s)) as N5 by exact (eq_trans N4 (eq_trans N3 (eq_trans N2 N1))).
  assert (next_protocol (listener (Q := Q) s4) = next_protocol (listener s)) as X5 by exact (eq_trans X4 (eq_trans X3 (eq_trans X2 X1))).
  destruct (proto_session (proto t s)) as [r|].
  - destruct (detach_spec r t s4) as (s5 & -> & El & Ea). exists s5. split; [done|]. split; [|split; [by rewrite El|split; [by rewrite El|]]].
    + intros t'. unfold Quic.proto in *. rewrite El. apply P4.
    + intros x. rewrite Ea, A5. apply decide_ext. naive_solver.
  - exists s4. repeat (split; [done|]). intros x. rewrite A5. rewrite decide_False by naive_solver. done.
Qed.

Lemma detached_shrinks (p : PrivateQuicProtocol Q) : shrinks p (set_parsers [] (set_replies [] (set_flags true (_attach_attempted p) p))).
Proof. split; cbn; try done; apply sublist_nil_l. Qed.

Lemma calm_detach t : moves calm (_detach (A := A) q0 t).
Proof.
  intros s. destruct (_detached (proto t s)) eqn:Hd.
  { unfold _detach. rewrite (bind_ok (gets _) _ s s _ eq_refl), Hd. done. }
  destruct (detach_proto_spec t s Hd) as (s' & -> & P & N & X & Ea). cbn [fst]. split.
  - intros t'. rewrite P. case_decide; [subst; apply detached_shrinks|done].
  - by rewrite N.
  - done.
  - intros r t'. rewrite Ea. by case_decide.
  - intros t' r Hd' Hd'' Hs. rewrite P in Hd''. case_decide; [subst|congruence]. rewrite Ea.
    case_decide as Hx; [done|]. intros Ha. by apply Hx.
Qed.

Lemma calm_fail t code reason : moves calm (_fail (A := A) q0 t code reason).
Proof. unfold _fail. repeat (moves_step || apply calm_in_quic || apply calm_detach). Qed.

Lemma calm_finish t k : moves calm (_finish_stream (A := A) q0 t k).
Proof.
  unfold _finish_stream. repeat (moves_step || apply calm_in_quic || (intros ?; apply calm_on_proto; [split|]; cbn; try done; apply od_pop_sublist)).
Qed.

Lemma calm_drop t k : moves calm (_drop_stream (A := A) q0 t k).
Proof.
  unfold _drop_stream. repeat (moves_step || apply calm_in_quic || apply calm_fail || apply calm_cancel
    || (intros ?; apply calm_on_proto; [split|]; cbn; try done; apply od_pop_sublist)).
Qed.

Lemma calm_send_frame t f k : moves calm (_send_frame (A := A) q0 t f k).
Proof. unfold _send_frame. repeat (moves_step || apply calm_in_quic || apply calm_fail || apply calm_drop). Qed.

Lemma quic_calm_release t : moves calm (_release_admission (A := A) q0 t).
Proof.
  unfold _release_admission. repeat (moves_step || apply calm_cancel). intros s. apply calm_listener; [done|done|]. cbn. set_solver.
Qed.

Lemma calm_send_application t lane m x : moves calm (send_application (A := A) q0 t lane m x).
Proof.
  unfold send_application. repeat (moves_step || apply calm_in_quic || apply calm_send_frame || apply calm_finish || apply calm_cancel).
  intros s. apply calm_on_proto; [split|]; cbn; try done. apply od_pop_sublist.
Qed.

Lemma calm_send_json on_loop t lane m v : moves calm (send_json (A := A) q0 on_loop t lane m v).
Proof. unfold send_json. repeat (moves_step || apply calm_send_application || apply calm_call_later). Qed.

Lemma calm_run_scheduled h : moves calm (run_scheduled (A := A) q0 h).
Proof.
  unfold run_scheduled, run_callback.
  repeat (moves_step || apply calm_cancel || apply calm_fail || apply calm_drop || apply calm_send_application).
Qed.

(** ** Limits *)

Record counts (p : PrivateQuicProtocol Q) : Prop := {
  co_wf : od_wf (_parsers p);
  co_streams : (length (_parsers p) <= MAX_STREAMS)%nat;
  co_replies : (length (_replies p) <= MAX_REPLIES)%nat;
  co_per_stream : forall k, (length (filter (fun x => fst x = k) (od_values (_replies p))) <= MAX_STREAM_REPLIES)%nat;
  co_size : Private.max_payload_bytes (parser p) = 64 * 1024;
  co_primary : Private.blen (Private.buffer (parser p)) <= parser_bound (64 * 1024);
  co_unattached : proto_session p = None -> _parsers p = []
}.

(** The partial frames of a connection stay in its budget; once it is detached
    its first stream no longer counts. *)
Definition budget (p : PrivateQuicProtocol Q) : Prop :=
  retained (_parsers p) <= PARTIAL_FRAME_BUDGET /\
  (_detached p = false -> Private.blen (Private.buffer (parser p)) + retained (_parsers p) <= PARTIAL_FRAME_BUDGET).

(** While data of a stream is taken in, its own parser is not counted yet. *)
Definition in_flux (primary : bool) (k : Z) (p : PrivateQuicProtocol Q) : Prop :=
  if primary then retained (_parsers p) <= PARTIAL_FRAME_BUDGET
  else retained (od_pop k (_parsers p)) <= PARTIAL_FRAME_BUDGET /\
       (_detached p = false -> Private.blen (Private.buffer (parser p)) + retained (od_pop k (_parsers p)) <= PARTIAL_FRAME_BUDGET).

(** Predicates on what is retained that survive giving up. *)
Definition stable (P : PrivateQuicProtocol Q -> Prop) : Prop :=
  forall p p', parser p' = parser p -> _parsers p' `sublist_of` _parsers p -> (_detached p = true -> _detached p' = true) -> P p -> P p'.

Lemma budget_stable : stable budget.
Proof.
  intros p p' Ep Hs Hd [Q1 Q2]. pose proof (retained_sublist _ _ Hs) as Hr. split; [lia|]. rewrite Ep. intros E.
  assert (_detached p = false) as E' by (destruct (_detached p); [by rewrite Hd in E|done]). specialize (Q2 E'). lia.
Qed.

Lemma in_flux_stable primary k : stable (in_flux primary k).
Proof.
  intros p p' Ep Hs Hd. unfold in_flux. pose proof (retained_sublist _ _ Hs) as Hr.
  pose proof (retained_sublist _ _ (od_pop_sublist_mono k _ _ Hs)) as Hk. destruct primary; [lia|]. intros [Q1 Q2]. split; [lia|].
  rewrite Ep. intros E. assert (_detached p = false) as E' by (destruct (_detached p); [by rewrite Hd in E|done]).
  specialize (Q2 E'). lia.
Qed.

Lemma budget_in_flux primary k p : budget p -> in_flux primary k p.
Proof.
  intros [Q1 Q2]. unfold in_flux. pose proof (retained_sublist _ _ (od_pop_sublist k (_parsers p))). destruct primary; [done|].
  split; [lia|]. intros E. specialize (Q2 E). lia.
Qed.

Lemma filter_values_sublist k (d1 d2 : odict string (Z * nat)) : d1 `sublist_of` d2 ->
  (length (filter (fun x => fst x = k) (od_values d1)) <= length (filter (fun x => fst x = k) (od_values d2)))%nat.
Proof.
  intros Hs. apply od_values_sublist in Hs. induction Hs as [|x l1 l2 _ IH|x l1 l2 _ IH]; [done|..]; rewrite ?filter_cons;
    destruct (decide (fst x = k)); cbn [length]; lia.
Qed.

Lemma counts_shrinks p p' : shrinks p p' -> counts p -> counts p'.
Proof.
  intros [S1 S2 S3 S4 S5 S6 S7 S8] [C1 C2 C3 C4 C5 C6 C7]. split.
  - by apply (od_wf_sublist _ (_parsers p)).
  - apply sublist_length in S2. lia.
  - apply sublist_length in S3. lia.
  - intros k. pose proof (filter_values_sublist k _ _ S3). specialize (C4 k). lia.
  - by rewrite S1.
  - by rewrite S1.
  - rewrite S4. intros E. rewrite (C7 E) in S2. by apply sublist_nil_r in S2.
Qed.

Record wires (s : Server A) : Prop := {
  wi_pending : (size (pending (listener (Q := Q) s)) <= UNAUTHENTICATED_CONNECTION_LIMIT)%nat;
  wi_attached : forall r t, attached_to r s = Some t -> proto_session (proto t s) = Some r;
  wi_admitted : forall t, t ∈ pending (listener (Q := Q) s) -> _admission (proto t s) = true /\ (t < next_protocol (listener (Q := Q) s))%nat;
  wi_beyond : forall t, (next_protocol (listener (Q := Q) s) <= t)%nat -> proto_session (proto t s) = None /\ _attach_attempted (proto t s) = true
}.

(** The invariant, with [P] in place of the budget for connection [t]. *)
Record inv_with (t : nat) (P : PrivateQuicProtocol Q -> Prop) (s : Server A) : Prop := {
  in_counts : forall t', counts (proto t' s);
  in_others : forall t', t' ≠ t -> budget (proto t' s);
  in_here : P (proto t s);
  in_wires : wires s
}.
Definition inv (s : Server A) : Prop := (forall t, counts (proto t s)) /\ (forall t, budget (proto t s)) /\ wires s.

Lemma inv_at t s : inv s <-> inv_with t budget s.
Proof.
  split; [intros (Q1 & Q2 & Q3); by split|]. intros [Q1 Q2 Q3 Q4]. split; [done|]. split; [|done].
  intros t'. destruct (decide (t' = t)) as [->|]; auto.
Qed.

Lemma inv_with_impl t (P P' : PrivateQuicProtocol Q -> Prop) s : (P (proto t s) -> P' (proto t s)) -> inv_with t P s -> inv_with t P' s.
Proof. intros Hi [Q1 Q2 Q3 Q4]. split; auto. Qed.

Lemma wires_calm s s' : calm s s' -> wires s -> wires s'.
Proof.
  intros [C1 C2 C3 C4 C5] [W1 W2 W3 W4]. split.
  - etransitivity; [|exact W1]. by apply subseteq_size.
  - intros r t Ha. rewrite (sh_session _ _ (C1 t)). auto.
  - intros t Ht. rewrite (sh_admission _ _ (C1 t)), C3. auto.
  - intros t. rewrite C3, (sh_session _ _ (C1 t)), (sh_attempted _ _ (C1 t)). auto.
Qed.

Lemma inv_with_calm t P s s' : stable P -> calm s s' -> inv_with t P s -> inv_with t P s'.
Proof.
  intros HP Hc [Q1 Q2 Q3 Q4]. pose proof (calm_proto _ _ Hc) as Hsh. split.
  - intros t'. eapply counts_shrinks; eauto.
  - intros t' Hne. specialize (Hsh t'). destruct Hsh. eapply budget_stable; eauto.
  - specialize (Hsh t). destruct Hsh. eapply HP; eauto.
  - by apply (wires_calm s).
Qed.

Lemma inv_calm s s' : calm s s' -> inv s -> inv s'.
Proof. intros Hc. rewrite !(inv_at 0). apply inv_with_calm; [apply budget_stable|done]. Qed.

Lemma quic_calm_preserves {B} t P (m : M (Server A) B) : stable P -> moves calm m -> preserves (inv_with t P) m.
Proof. intros HP Hm s. apply inv_with_calm; [done|apply Hm]. Qed.

Lemma bind_calm {B C} t P (c : M (Server A) B) (k : B -> M (Server A) C) s :
  stable P -> inv_with t P (fst (c s)) -> (forall a, moves calm (k a)) -> inv_with t P (fst (bind c k s)).
Proof. intros HP Hc Hk. unfold bind. destruct (c s) as [s1 [a|e]]; cbn [fst] in *; [|done]. by apply quic_calm_preserves. Qed.

Lemma try_calm {B} t P (c : M (Server A) B) p h s :
  stable P -> inv_with t P (fst (c s)) -> (forall e, moves calm (h e)) -> inv_with t P (fst (try_catch c p h s)).
Proof.
  intros HP Hc Hk. unfold try_catch. destruct (c s) as [s1 [a|e]]; cbn [fst] in *; [done|]. destruct (p e); [|done]. by apply quic_calm_preserves.
Qed.

(** A change of connection [t] that keeps its session. *)
Lemma inv_on_proto t P P' f s :
  inv_with t P s -> counts (f (proto t s)) -> P' (f (proto t s)) -> proto_session (f (proto t s)) = proto_session (proto t s) ->
  _admission (f (proto t s)) = _admission (proto t s) -> (_attach_attempted (proto t s) = true -> _attach_attempted (f (proto t s)) = true) ->
  inv_with t P' (fst (on_proto q0 t f s)).
Proof.
  intros [Q1 Q2 Q3 [W1 W2 W3 W4]] Hc HP Hs Ha Hat. destruct (on_proto_frame t f s) as (N & X & E). split.
  - intros t'. rewrite on_proto_eq. by case_decide.
  - intros t' Hne. rewrite on_proto_eq, decide_False by done. auto.
  - by rewrite on_proto_eq, decide_True.
  - split; rewrite ?N, ?X; [done|..].
    + intros r t'. rewrite E, on_proto_eq. case_decide; [subst; rewrite Hs|]; apply W2.
    + intros t' Ht. rewrite on_proto_eq. case_decide; [subst; rewrite Ha|]; auto.
    + intros t' Ht. rewrite on_proto_eq. case_decide; [subst|auto]. rewrite Hs. destruct (W4 t Ht). auto.
Qed.

(** The end of a connection in flux, by way of [close], which returns. *)
Section closing.
Context (Hclose : forall code reason q, snd (close (Q := Q) code reason q) = Ok tt).

Lemma fail_eq t code reason (s : Server A) : _fail q0 t code reason s = _detach q0 t (fst (in_quic q0 t (close code reason) s)).
Proof.
  unfold _fail, in_quic, bind. specialize (Hclose code reason (_quic (proto t s))).
  destruct (close code reason (_quic (proto t s))) as [x r]. cbn in Hclose. by subst r.
Qed.

Lemma fail_settles t k code reason s : inv_with t (in_flux true k) s -> inv (fst (_fail q0 t code reason s)).
Proof.
  intros Hs. rewrite fail_eq. assert (inv_with t (in_flux true k) (fst (in_quic q0 t (close code reason) s))) as H1'.
  { revert Hs. apply inv_with_calm; [apply in_flux_stable|apply calm_in_quic]. }
  revert H1'. generalize (fst (in_quic q0 t (close code reason) s)). clear s Hs. intros s Hs.
  apply (inv_at t). destruct (_detached (proto t s)) eqn:Hd.
  - unfold _detach. rewrite (bind_ok (gets _) _ s s _ eq_refl), Hd. revert Hs. apply inv_with_impl.
    intros Hf. split; [exact Hf|]. cbn. rewrite Hd. congruence.
  - pose proof (inv_with_calm t (in_flux true k) s _ (in_flux_stable true k) (calm_detach t s) Hs) as Hs'.
    pose proof (in_counts _ _ _ Hs t) as Hco. destruct (detach_proto_spec t s Hd) as (s' & E & P & _). rewrite E in Hs' |- *. cbn [fst] in *.
    revert Hs'. apply inv_with_impl. intros _. rewrite P, decide_True by done. split; cbn; [unfold PARTIAL_FRAME_BUDGET; lia|done].
Qed.

Lemma drop_settles t k s :
  stream_id (proto t s) ≠ Some k -> inv_with t (in_flux false k) s -> inv (fst (_drop_stream q0 t k s)).
Proof.
  intros Hk Hs. unfold _drop_stream. rewrite (bind_ok (gets _) _ s s _ eq_refl), bool_decide_false by done.
  match goal with |- context [on_proto q0 t ?f] => set (f1 := f) end. set (s1 := fst (on_proto q0 t f1 s)).
  rewrite (bind_ok (on_proto q0 t f1) _ s s1 tt eq_refl). apply (inv_at t).
  assert (inv_with t budget s1) as Hs1.
  { pose proof (in_here _ _ _ Hs) as [F1 F2]. apply (inv_on_proto t (in_flux false k)); [done| |by split|done..].
    apply (counts_shrinks (proto t s)); [|apply Hs]. split; cbn; try done. apply od_pop_sublist. }
  revert Hs1. apply inv_with_calm; [apply budget_stable|].
  match goal with |- calm _ (fst (?m _)) => cut (moves calm m); [by intros Hm|] end.
  repeat (moves_step || apply calm_in_quic || apply calm_cancel
    || (intros ?; apply calm_on_proto; [split|]; cbn; try done; apply od_pop_sublist)).
Qed.
End closing.

(** ** Attaching *)

Lemma attach_frame t m (s : Server A) :
  match attach t m s with
  | (s', Ok r) => listener (Q := Q) s' = listener s /\ forall x, attached_to x s' = if decide (x = r) then Some t else attached_to x s
  | (s', Raise _) => listener (Q := Q) s' = listener s /\ forall x, attached_to x s' = attached_to x s
  end.
Proof.
  destruct (attach_fields m) as [[[[[token sid] purpose] binding] nonce]|] eqn:Ef; [|by unfold attach; rewrite Ef].
  rewrite (attach_unfold t m s _ _ _ _ _ Ef). destruct (Attach.consume _ _ _ _ _ _ _ _ _) as [tk [[g o]|e]]; [|done].
  destruct (get_session _ _) as [r|]; [|done]. case_bool_decide; [done|]. cbv zeta. split.
  - unfold listener. cbn [app set_app]. by rewrite quic_of_put_private.
  - intros x. unfold attached_to, session_obj. cbn [sessions set_app set_sessions]. rewrite obj_on_obj. case_decide as Hx; [subst x; by rewrite decide_True|].
    by rewrite decide_False by congruence.
Qed.

Lemma inv_same_listener t P (s s' : Server A) :
  listener (Q := Q) s' = listener s -> (forall x, attached_to x s' = attached_to x s) -> inv_with t P s -> inv_with t P s'.
Proof.
  intros El Ea [Q1 Q2 Q3 [W1 W2 W3 W4]].
  assert (forall t, proto t s' = proto t s) as Ep by (intros t'; unfold Quic.proto; by rewrite El).
  split; [intros t'; rewrite Ep; auto|intros t' Ht; rewrite Ep; auto|by rewrite Ep|]. split; rewrite ?El; [done|..].
  - intros r t'. rewrite Ea, Ep. auto.
  - intros t'. rewrite Ep. auto.
  - intros t'. rewrite Ep. auto.
Qed.

(** The connection [t] may still attach. *)
Definition unattached (t : nat) (s : Server A) : Prop :=
  proto_session (proto t s) = None /\ (t < next_protocol (listener (Q := Q) s))%nat.

Lemma attach_session_inv t m P s : stable P -> unattached t s -> inv_with t P s ->
  inv_with t P (fst (bind (attach t m) (fun r => on_proto q0 t (set_proto_session (Some r)) ;! ret (Some r)) s)).
Proof.
  intros HP [Hn Hlt] Hs. pose proof (attach_frame t m s) as Hf. unfold bind at 1. destruct (attach t m s) as [s1 [r|e]]; destruct Hf as [El Ea];
    [|by apply (inv_same_listener t P s)].
  unfold bind, ret. cbn [fst]. set (s2 := fst (on_proto q0 t (set_proto_session (Some r)) s1)).
  assert (forall t', proto t' s1 = proto t' s) as Ep by (intros t'; unfold Quic.proto; by rewrite El).
  destruct (on_proto_frame t (set_proto_session (Some r)) s1) as (N & X & E). destruct Hs as [Q1 Q2 Q3 [W1 W2 W3 W4]].
  change (fst _) with s2. split.
  - intros t'. unfold s2. rewrite on_proto_eq, !Ep. case_decide; [|done]. destruct (Q1 t). by split.
  - intros t' Hne. unfold s2. rewrite on_proto_eq, decide_False, Ep by done. auto.
  - unfold s2. rewrite on_proto_eq, decide_True, Ep by done. by apply (HP (proto t s)).
  - split; unfold s2; rewrite ?N, ?X, ?El; [done|..].
    + intros x t'. rewrite E, Ea, on_proto_eq, !Ep. case_decide as Hx.
      * intros [= <-]. subst x. by rewrite decide_True.
      * intros Ha. destruct (decide (t' = t)) as [->|]; [|auto]. specialize (W2 x t Ha). congruence.
    + intros t' Ht. rewrite on_proto_eq, !Ep. case_decide; [subst|]; exact (W3 _ Ht).
    + intros t' Ht. rewrite on_proto_eq, !Ep, decide_False by lia. auto.
Qed.

Lemma attach_inv t f P s : stable P -> unattached t s -> inv_with t P s -> inv_with t P (fst (_attach q0 t f s)).
Proof.
  intros HP Hu Hs. unfold _attach. rewrite (bind_ok get _ s s s eq_refl). destruct (_ <=? _); [done|]. destruct (_ || _); [done|].
  destruct (metadata_json f) as [m|e]; [|done]. rewrite (bind_ok (lift (Ok m)) _ s s m eq_refl). cbv zeta. apply bind_calm; [done|apply try_calm; [done| |]|].
  - by apply attach_session_inv.
  - intros e. moves_step.
  - intros [r|]; repeat (moves_step || apply calm_send_frame || apply quic_calm_release || apply calm_call_later).
Qed.

(** ** Requests *)

Section requests.
Context (Hhandlers : forall name h, message_handlers !! name = Some h -> forall c v, moves calm (h c v)).

Lemma calm_message t r lane mid payload : moves calm (handle_application_message message_handlers t r lane mid payload).
Proof.
  intros s. destruct (NativePlane.message_cases message_handlers t r lane mid payload s) as [[e ->]|(name & h & c & v & Hh & ->)]; [done|].
  by apply (Hhandlers name).
Qed.

Lemma calm_datagram t data : moves calm (_datagram q0 message_handlers t data).
Proof. unfold _datagram. repeat (moves_step || apply calm_fail || apply calm_message). Qed.

Lemma admit_inv t r k f P s : stable P -> inv_with t P s -> inv_with t P (fst (admit_request q0 message_handlers t r k f s)).
Proof.
  intros HP Hs. unfold admit_request. destruct (metadata_json f) as [m|e]; [|done]. rewrite (bind_ok (lift (Ok m)) _ s s m eq_refl).
  destruct (match m with VDict d => dget "messageId" d | _ => VNone end) as [| | | |mid| | |]; try done.
  case_bool_decide; [done|]. rewrite (bind_ok (gets _) _ s s _ eq_refl). destruct (_ || _) eqn:Eb; [done|].
  apply orb_false_iff in Eb as [Eb Ec]. apply orb_false_iff in Eb as [_ Em]. apply Nat.leb_gt in Ec.
  destruct (_ <=? _)%nat eqn:Ek; [done|]. apply Nat.leb_gt in Ek.
  assert (calm s (fst (call_later (A := A) (Q := Q) REPLY_SECONDS (DroppingStream t k) s))) as Hcl by apply calm_call_later.
  unfold bind at 1. destruct (call_later _ _ s) as [s1 [h|e]] eqn:El; cbn [fst] in Hcl.
  2: { by apply (inv_with_calm t P s). }
  assert (proto t s1 = proto t s) as Ep.
  { revert El. unfold call_later. munfold. intros [= <- _]. unfold in_listener. by rewrite proto_set. }
  assert (inv_with t P s1) as Hs1 by by apply (inv_with_calm t P s).
  match goal with |- context [on_proto q0 t ?f] => set (f1 := f) end. set (s2 := fst (on_proto q0 t f1 s1)).
  rewrite (bind_ok (on_proto q0 t f1) _ s1 s2 tt eq_refl). assert (inv_with t P s2) as Hs2.
  { apply (inv_on_proto t P); [done|rewrite Ep| |done..].
    - pose proof (in_counts _ _ _ Hs t) as [C1 C2 C3 C4 C5 C6 C7]. unfold od_mem in Em. destruct (od_get mid _) eqn:Eg; [done|].
      split; cbn; try done; rewrite od_keys_set_new by done.
      + rewrite length_app. cbn. lia.
      + intros k'. unfold od_values in *. rewrite map_app, filter_app, length_app. specialize (C4 k').
        change (map snd [(mid, (k, h))]) with [(k, h)]. rewrite filter_cons. cbn [fst].
        destruct (decide (k = k')) as [<-|]; cbn [length filter list_filter]; lia.
    - pose proof (in_here _ _ _ Hs1). by apply (HP (proto t s1)). }
  revert Hs2. apply inv_with_calm; [done|]. apply calm_message.
Qed.

(** The first stream of a connection stays its first stream. *)
Definition keeps (t : nat) (s s' : Server A) : Prop :=
  is_Some (stream_id (proto t s)) -> stream_id (proto t s') = stream_id (proto t s).
#[export] Instance keeps_preorder t : PreOrder (keeps t).
Proof. split; [by intros s|]. intros s1 s2 s3 Q1 Q2 Hs. rewrite Q2; [auto|]. by rewrite Q1. Qed.

Lemma calm_keeps {B} t (m : M (Server A) B) : moves calm m -> moves (keeps t) m.
Proof. intros Hm s. exact (sh_stream _ _ (calm_proto _ _ (Hm s) t)). Qed.

Lemma on_proto_keeps t t' f : (forall p, stream_id (f p) = stream_id p) -> moves (keeps t) (on_proto (A := A) q0 t' f).
Proof. intros Hf s _. rewrite on_proto_eq. case_decide; [subst; apply Hf|done]. Qed.

Lemma attach_keeps t f : moves (keeps t) (_attach (A := A) q0 t f).
Proof.
  unfold _attach. repeat (moves_step || (apply on_proto_keeps; done) || (apply calm_keeps; apply calm_send_frame)
    || (apply calm_keeps; apply quic_calm_release) || (apply calm_keeps; apply calm_call_later)).
  intros s _. pose proof (attach_frame t a0 s) as Hf. destruct (attach t a0 s) as [s1 [r|e]]; destruct Hf as [El _]; cbn [fst]; unfold Quic.proto; by rewrite El.
Qed.

Lemma serve_keeps t k fs : moves (keeps t) (serve_frames q0 message_handlers t k fs).
Proof.
  induction fs as [|f fs IH]; cbn [serve_frames]; [moves_step|]. moves_step; [|by destruct a; [|moves_step]].
  unfold serve_frame, admit_request. repeat (moves_step || (apply on_proto_keeps; done) || apply attach_keeps
    || (apply calm_keeps; apply calm_call_later) || (apply calm_keeps; apply calm_message)).
Qed.

Lemma body_keeps t primary k data e : moves (keeps t) (stream_body q0 message_handlers t primary k data e).
Proof.
  unfold stream_body, feed_stream. repeat (moves_step || (apply on_proto_keeps; by intros; destruct primary) || apply serve_keeps
    || (apply calm_keeps; apply calm_finish)).
Qed.

Lemma serve_frame_inv t k f P s : stable P -> inv_with t P s ->
  inv_with t P (fst (serve_frame q0 message_handlers t k f s)) /\
  (snd (serve_frame q0 message_handlers t k f s) = Ok false -> proto_session (proto t (fst (serve_frame q0 message_handlers t k f s))) = None).
Proof.
  intros HP Hs. unfold serve_frame. rewrite (bind_ok (gets _) _ s s _ eq_refl). destruct (proto_session (proto t s)) as [r|] eqn:Er.
  - destruct (_ =? _); [|done]. unfold bind, ret. pose proof (admit_inv t r k f P s HP Hs) as Ha.
    by destruct (admit_request _ _ _ _ _ _ s) as [s1 [[]|e]].
  - destruct (_attach_attempted (proto t s)) eqn:Eat; [done|].
    match goal with |- context [on_proto q0 t ?g] => set (f1 := g) end. set (s1 := fst (on_proto q0 t f1 s)).
    rewrite (bind_ok (on_proto q0 t f1) _ s s1 tt eq_refl).
    assert (inv_with t P s1) as Hs1.
    { apply (inv_on_proto t P); [done| |by refine (HP (proto t s) _ _ _ _ (in_here _ _ _ Hs))|done..]. by destruct (in_counts _ _ _ Hs t). }
    assert (unattached t s1) as Hu.
    { split; [unfold s1; by rewrite on_proto_eq, decide_True|]. unfold s1. destruct (on_proto_frame t f1 s) as (_ & -> & _).
      destruct (decide (t < next_protocol (listener (Q := Q) s))%nat) as [|Hge]; [done|]. exfalso.
      destruct (wi_beyond _ (in_wires _ _ _ Hs) t) as [_ E]; [lia|]. congruence. }
    pose proof (attach_inv t f P s1 HP Hu Hs1) as Ha. unfold bind at 1 3 5. destruct (_attach q0 t f s1) as [s2 [[]|e]]; [|done].
    cbn [fst] in Ha. rewrite !(bind_ok (gets _) _ s2 s2 _ eq_refl). split; [done|]. cbn. intros [= E].
    apply bool_decide_eq_false in E. by apply eq_None_not_Some.
Qed.

Lemma serve_frames_inv t k fs P s : stable P -> inv_with t P s ->
  inv_with t P (fst (serve_frames q0 message_handlers t k fs s)) /\
  (snd (serve_frames q0 message_handlers t k fs s) = Ok false -> proto_session (proto t (fst (serve_frames q0 message_handlers t k fs s))) = None).
Proof.
  intros HP. revert s. induction fs as [|f fs IH]; intros s Hs; [done|]. cbn [serve_frames].
  destruct (serve_frame_inv t k f P s HP Hs) as [Hi Hn]. unfold bind. destruct (serve_frame _ _ _ _ _ s) as [s1 [[]|e]]; cbn [fst snd] in *; [by apply IH|auto|done].
Qed.

(** A parser takes in data; from here on the connection is in flux. *)
Lemma feed_flux t primary k data x s : inv s ->
  (primary = false -> proto_session (proto t s) ≠ None /\ is_Some (od_get k (_parsers (proto t s)))) ->
  x = fst (Private.feed data (stream_parser primary k (proto t s))) ->
  inv_with t (in_flux primary k) (fst (on_proto q0 t (fun p => if primary then set_parser x p else set_parsers (od_set k x (_parsers p)) p) s)).
Proof.
  intros Hs Hn ->. apply (inv_at t) in Hs. pose proof (in_counts _ _ _ Hs t) as [C1 C2 C3 C4 C5 C6 C7]. pose proof (in_here _ _ _ Hs) as [B1 B2].
  unfold stream_parser. destruct primary; apply (inv_on_proto t budget); try done.
  - destruct (feed_bound data (parser (proto t s))) as [Fb Fm]; rewrite ?C5; [lia|done|]. rewrite C5 in Fb, Fm. by split.
  - destruct (Hn eq_refl) as [Hse Hk]. split; cbn; try done; [by apply od_wf_set|by rewrite od_length_set_mem].
  - cbn. by rewrite od_pop_set; apply (budget_in_flux false).
Qed.

(** A connection without a session retains one frame of its first stream. *)
Lemma unattached_budget (p : PrivateQuicProtocol Q) : counts p -> proto_session p = None -> budget p.
Proof.
  intros [C1 C2 C3 C4 C5 C6 C7] Hn. unfold budget. rewrite (C7 Hn). cbn. unfold parser_bound, Private.MAX_METADATA_BYTES, PARTIAL_FRAME_BUDGET in *. lia.
Qed.

Lemma body_inv t primary k data e s : inv s ->
  (primary = false -> proto_session (proto t s) ≠ None /\ is_Some (od_get k (_parsers (proto t s)))) ->
  let '(s', r) := stream_body q0 message_handlers t primary k data e s in
  match r with Ok _ => inv s' | Raise _ => inv_with t (in_flux primary k) s' end.
Proof.
  intros Hs Hn. unfold stream_body, feed_stream. unfold bind at 1. rewrite (bind_ok (gets _) _ s s _ eq_refl).
  pose proof (feed_flux t primary k data _ s Hs Hn eq_refl) as Hf. destruct (Private.feed _ _) as [x r]. cbn [fst] in Hf.
  match type of Hf with inv_with _ _ (fst (on_proto q0 t ?g s)) => set (f1 := g) in * end. set (s1 := fst (on_proto q0 t f1 s)) in *.
  rewrite (bind_ok (on_proto q0 t f1) _ s s1 tt eq_refl). destruct r as [fs|er]; [|done].
  rewrite (bind_ok (lift (Ok fs)) _ s1 s1 fs eq_refl). cbn [ret]. unfold ret at 1. unfold bind at 1.
  destruct (serve_frames_inv t k fs _ s1 (in_flux_stable primary k) Hf) as [Hi Hno].
  destruct (serve_frames _ _ _ _ _ s1) as [s2 [more|er]]; cbn [fst snd] in *; [|done]. destruct more; cbn [negb].
  2: { apply (inv_at t). pose proof (in_counts _ _ _ Hi t). revert Hi. apply inv_with_impl. intros _. apply unattached_budget; auto. }
  rewrite (bind_ok (gets _) _ s2 s2 _ eq_refl). destruct (_ <? _) eqn:Eb; [done|]. apply Z.ltb_ge in Eb.
  assert (inv s2) as Hs2.
  { apply (inv_at t). revert Hi. apply inv_with_impl. intros _. split; [|done]. unfold Private.blen in Eb. lia. }
  destruct e; [|done]. destruct (bool_decide (_ = [])); cbn [negb]; [|by apply (inv_with_impl t budget); [apply budget_in_flux|apply inv_at]].
  match goal with |- context [bind ?c ?k] => pose proof (bind_calm t budget c k s2) as Hb end.
  destruct (bind _ _ s2) as [s3 r3]. assert (inv s3) as Hs3.
  { apply (inv_at t). apply Hb; [apply budget_stable| |intros _; apply calm_finish].
    apply (inv_at t) in Hs2. revert Hs2. apply inv_with_calm; [apply budget_stable|]. by apply calm_on_proto. }
  destruct r3; [done|]. by apply (inv_with_impl t budget); [apply budget_in_flux|apply inv_at].
Qed.

Section events.
Context (Hclose : forall code reason q, snd (close (Q := Q) code reason q) = Ok tt).

Lemma stream_data_inv t k data e s : inv s -> inv (fst (_stream_data q0 message_handlers t k data e s)).
Proof.
  intros Hs. unfold _stream_data. destruct (negb _); [by apply (inv_calm s); [apply calm_fail|]|].
  match goal with |- context [on_proto q0 t ?g] => set (f1 := g) end. set (s1 := fst (on_proto q0 t f1 s)).
  rewrite (bind_ok (on_proto q0 t f1) _ s s1 tt eq_refl). assert (inv s1) as Hs1.
  { apply (inv_calm s); [|done]. apply calm_on_proto; unfold f1; destruct (stream_id (proto t s)) eqn:E; try done. split; try done. cbn. rewrite E. by intros []. }
  assert (is_Some (stream_id (proto t s1))) as Hst.
  { unfold s1. rewrite on_proto_eq, decide_True by done. unfold f1. destruct (stream_id (proto t s)) eqn:E; [by rewrite E|by eexists]. }
  rewrite (bind_ok (gets _) _ s1 s1 _ eq_refl). cbv zeta. set (primary := bool_decide (stream_id (proto t s1) = Some k)).
  destruct (negb primary && _ || _) eqn:Eg; [by apply (inv_calm s1); [apply calm_fail|]|]. apply orb_false_iff in Eg as [Eg _].
  destruct (negb primary && negb _) eqn:En; cbn [andb].
  - apply andb_true_iff in En as [Ep Em]. destruct (_ <=? _)%nat eqn:El; [by apply (inv_calm s1); [apply calm_drop|]|]. apply Nat.leb_gt in El.
    match goal with |- context [on_proto q0 t ?g] => set (f2 := g) end. set (s2 := fst (on_proto q0 t f2 s1)).
    rewrite (bind_ok (on_proto q0 t f2) _ s1 s2 tt eq_refl). rewrite Ep in Eg. cbn [andb] in Eg. apply bool_decide_eq_false in Eg.
    assert (od_get k (_parsers (proto t s1)) = None) as Ek by (unfold od_mem in Em; by destruct (od_get k _)).
    assert (proto t s2 = f2 (proto t s1)) as E2 by (unfold s2; by rewrite on_proto_eq, decide_True).
    assert (inv s2) as Hs2.
    { apply (inv_at t) in Hs1. apply (inv_at t), (inv_on_proto t budget); try done.
      - destruct (in_counts _ _ _ Hs1 t). split; unfold f2; cbn [_parsers _replies set_parsers parser proto_session]; try done; [by apply od_wf_set|].
        rewrite od_length_set_new by done. exact El.
      - pose proof (in_here _ _ _ Hs1) as [B1 B2]. destruct (in_counts _ _ _ Hs1 t) as [Hwf _ _ _ _ _ _].
        unfold budget, f2. cbn. rewrite retained_set, od_pop_not_mem by done. done. }
    assert (primary = false) as Epr by (by destruct primary). rewrite Epr.
    pose proof (body_inv t false k data e s2 Hs2) as Hb. pose proof (body_keeps t false k data e s2) as Hk.
    unfold try_catch. destruct (stream_body _ _ _ _ _ _ _ s2) as [s3 [[]|er]]; cbn [fst] in *.
    + apply Hb. intros _. rewrite E2. cbn. by rewrite od_get_set_eq.
    + apply (drop_settles t k s3); [|apply Hb; intros _; rewrite E2; cbn; by rewrite od_get_set_eq].
      unfold keeps in Hk. rewrite E2 in Hk. cbn in Hk. rewrite Hk by done. by apply bool_decide_eq_false in Epr.
  - rewrite (bind_ok (ret tt) _ s1 s1 tt eq_refl). pose proof (body_inv t primary k data e s1 Hs1) as Hb.
    pose proof (body_keeps t primary k data e s1) as Hk. unfold try_catch.
    assert (primary = false -> proto_session (proto t s1) ≠ None /\ is_Some (od_get k (_parsers (proto t s1)))) as Hpre.
    { intros E. rewrite E in En, Eg. cbn [negb andb] in En, Eg. apply negb_false_iff, od_mem_spec in En. apply bool_decide_eq_false in Eg. done. }
    destruct (stream_body _ _ _ _ _ _ _ s1) as [s3 [[]|er]]; cbn [fst] in *; [by apply Hb|]. specialize (Hb Hpre).
    destruct primary eqn:Epr; [by eapply fail_settles|]. apply drop_settles; [|done]. rewrite Hk by done. by apply bool_decide_eq_false in Epr.
Qed.

Lemma quic_event_inv t ev s : inv s -> inv (fst (quic_event_received q0 message_handlers t ev s)).
Proof.
  intros Hs. destruct ev; cbn [quic_event_received]; [|by apply stream_data_inv|..]; apply (inv_calm s); try done.
  - revert s Hs. cut (moves calm (if bool_decide (alpn_protocol = Some ALPN) then ret tt else in_quic (A := A) q0 t (close PROTOCOL_ERROR "unsupported protocol"))).
    { auto. } repeat (moves_step || apply calm_in_quic).
  - apply calm_drop.
  - apply calm_datagram.
  - revert s Hs. cut (moves calm (_release_admission (A := A) q0 t ;! _detach q0 t)); [auto|].
    repeat (moves_step || apply quic_calm_release || apply calm_detach).
Qed.

(** ** Interleavings *)

(** What the base class makes of a datagram: it serves a known connection, by
    the events below, or it may create one protocol for an unknown one. *)
Definition creates (known : bool) (m : M (Server A) unit) : Prop :=
  forall s, calm s (fst (m s)) \/ known = false /\ exists q, fst (m s) = fst (new_protocol (A := A) q true s).

Inductive step (s : Server A) : Server A -> Prop :=
| Receives t ev : step s (fst (quic_event_received q0 message_handlers t ev s))
| Arrives header routed received :
    (forall cid token retry, header = Some (cid, token) -> creates (routed cid) (received retry)) ->
    step s (fst (datagram_received (Q := Q) header routed received s))
| Replies on_loop t lane m v : step s (fst (send_json q0 on_loop t lane m v s))
| Closes t code reason : step s (fst (request_close (Q := Q) t code reason s))
| Runs h : step s (fst (run_scheduled q0 h s))
| Elsewhere s' : calm s s' -> step s s'.

Definition fresh (s : Server A) : Prop :=
  listener s = {| protocols := ∅; next_protocol := 0; pending := ∅; scheduled := ∅; next_handle := 0 |} :> QuicServer Q /\
  forall r, attached_to r s = None.

Lemma empty_counts : counts (empty q0) /\ budget (empty q0).
Proof.
  split; [|by split]. split; cbn; try done; [apply od_wf_nil|unfold MAX_STREAMS; lia|unfold MAX_REPLIES; lia|intros _; unfold MAX_STREAM_REPLIES; lia].
Qed.

Lemma quic_fresh_inv s : fresh s -> inv s.
Proof.
  intros [El Ha]. assert (forall t, proto t s = empty q0) as Ep by (intros t; unfold Quic.proto; by rewrite El).
  split; [intros t; rewrite Ep; apply empty_counts|]. split; [intros t; rewrite Ep; apply empty_counts|]. split.
  - rewrite El. cbn. rewrite size_empty. lia.
  - intros r t. by rewrite Ha.
  - intros t. rewrite El. cbn. set_solver.
  - intros t _. by rewrite Ep.
Qed.

Definition protocol_of (q : Q) (admission : bool) (due : Z) (h : nat) : PrivateQuicProtocol Q :=
  {| _quic := q; parser := Private.mkParser [] (64 * 1024); stream_id := None; _parsers := []; _ended := ∅; _replies := [];
     proto_session := None; proto_peer := None; _detached := false; _attach_attempted := false;
     _admission := admission; _auth_deadline := due; _auth_timer := h |}.

Lemma new_protocol_spec q s : exists s' due h, fst (new_protocol (A := A) q true s) = s' /\
  (forall t, proto t s' = if decide (t = next_protocol (listener (Q := Q) s)) then protocol_of q true due h else proto t s) /\
  pending (listener (Q := Q) s') = {[next_protocol (listener (Q := Q) s)]} ∪ pending (listener (Q := Q) s) /\
  next_protocol (listener (Q := Q) s') = S (next_protocol (listener (Q := Q) s)) /\ (forall r, attached_to r s' = attached_to r s).
Proof.
  do 3 eexists. split; [reflexivity|]. unfold new_protocol, call_later, in_listener. munfold. cbn [fst]. rewrite !listener_set.
  split; [|split; [done|split; [done|done]]]. intros t. rewrite proto_set. cbn [protocols set_protocols set_scheduled set_pending].
  destruct (decide (t = _)) as [->|Hne]; [by rewrite lookup_insert_eq|by rewrite lookup_insert_ne].
Qed.

Lemma new_protocol_inv q s : (size (pending (listener (Q := Q) s)) < UNAUTHENTICATED_CONNECTION_LIMIT)%nat -> inv s ->
  inv (fst (new_protocol (A := A) q true s)).
Proof.
  intros Hlt (Q1 & Q2 & [W1 W2 W3 W4]). destruct (new_protocol_spec q s) as (s' & due & h & -> & P & N & X & E).
  assert (counts (protocol_of q true due h) /\ budget (protocol_of q true due h)) as [Hc Hb].
  { destruct empty_counts as [[] _]. split; [by split|]. by split; [|intros _]. }
  split; [intros t; rewrite P; by case_decide|]. split; [intros t; rewrite P; by case_decide|]. split; rewrite ?N, ?X.
  - rewrite size_union; [rewrite size_singleton; lia|]. intros x Hx%elem_of_singleton Hp. subst x. destruct (W3 _ Hp). lia.
  - intros r t. rewrite E, P. intros Ha. specialize (W2 r t Ha). case_decide as Ht; [|done]. subst t. destruct (W4 _ (le_n _)). congruence.
  - intros t Ht. rewrite P. case_decide as Hd; [split; [done|lia]|]. destruct (W3 t) as [? ?]; [set_solver|]. split; [done|lia].
  - intros t Ht. rewrite P, decide_False by lia. apply W4. lia.
Qed.

Lemma quic_step_inv s s' : step s s' -> inv s -> inv s'.
Proof.
  intros Hst Hs. destruct Hst as [t ev|header routed received Hr|on_loop t lane m v|t code reason|h|s' Hc].
  - by apply quic_event_inv.
  - unfold datagram_received. destruct header as [[cid token]|]; [|done]. rewrite (bind_ok (gets _) _ s s _ eq_refl).
    destruct (negb (routed cid) && _) eqn:Eg; [done|].
    match goal with |- context [received ?b] => destruct (Hr cid token b eq_refl s) as [Hc|(Hk & q & ->)] end; [by apply (inv_calm s)|].
    rewrite Hk in Eg. apply Nat.leb_gt in Eg. by apply new_protocol_inv.
  - apply (inv_calm s); [apply calm_send_json|done].
  - apply (inv_calm s); [|done]. revert s Hs. cut (moves calm (request_close (A := A) (Q := Q) t code reason)); [auto|].
    unfold request_close. repeat (moves_step || apply calm_call_later).
  - apply (inv_calm s); [apply calm_run_scheduled|done].
  - by apply (inv_calm s).
Qed.

Lemma quic_reachable s0 s : fresh s0 -> rtc step s0 s -> inv s.
Proof. intros Hf Hr. apply quic_fresh_inv in Hf. induction Hr; eauto using quic_step_inv. Qed.

(** C31: In every state the listener reaches, whatever its clients send and in
    whatever order, a connection has at most 32 request streams, owes at most
    128 replies and at most 16 per stream, and retains at most 4 MiB of partial
    frames (as long as it is not detached, its first stream included); and at
    most 256 connections wait for authentication. *)
Theorem quic_limits s0 s (Hfresh : fresh s0) (Hreach : rtc step s0 s) :
  (forall t,
    (length (_parsers (proto t s)) <= 32)%nat /\ (length (_replies (proto t s)) <= 128)%nat /\
    (forall k, length (filter (fun x => fst x = k) (od_values (_replies (proto t s)))) <= 16)%nat /\
    retained (_parsers (proto t s)) <= 4 * 1024 * 1024 /\
    Private.blen (Private.buffer (parser (proto t s))) <= 64 * 1024 + 4 * 1024 + 12 /\
    (_detached (proto t s) = false -> Private.blen (Private.buffer (parser (proto t s))) + retained (_parsers (proto t s)) <= 4 * 1024 * 1024)) /\
  (size (pending (listener (Q := Q) s)) <= 256)%nat.
Proof.
  destruct (quic_reachable s0 s Hfresh Hreach) as (Q1 & Q2 & [W1 _ _ _]). split; [|done]. intros t.
  destruct (Q1 t) as [C1 C2 C3 C4 C5 C6 C7], (Q2 t) as [B1 B2]. by repeat (split; [done|]).
Qed.

(** ** Attached connections let go of their session *)

(** For a connection that has session [r]. *)
Definition faithful (t r : nat) (s s' : Server A) : Prop :=
  proto_session (proto t s) = Some r ->
  proto_session (proto t s') = Some r /\ (_detached (proto t s) = true -> _detached (proto t s') = true) /\
  (forall x, attached_to x s' = Some t -> attached_to x s = Some t) /\
  (_detached (proto t s) = false -> _detached (proto t s') = true -> attached_to r s' ≠ Some t).
#[export] Instance faithful_preorder t r : PreOrder (faithful t r).
Proof.
  split; [intros s Hs; repeat split; try done; congruence|]. intros s1 s2 s3 F G Hs. destruct (F Hs) as (F1 & F2 & F3 & F4).
  destruct (G F1) as (G1 & G2 & G3 & G4). split; [done|]. split; [auto|]. split; [auto|]. intros Hd Hd' Ha.
  destruct (_detached (proto t s2)) eqn:E; [by apply F4, G3|by apply G4].
Qed.

Lemma calm_step_faithful t r s s' : calm s s' -> faithful t r s s'.
Proof.
  intros [C1 C2 C3 C4 C5] Hs. destruct (C1 t). split; [congruence|]. split; [done|]. split; [auto|]. eauto.
Qed.
Lemma calm_faithful {B} t r (m : M (Server A) B) : moves calm m -> moves (faithful t r) m.
Proof. intros Hm s. apply calm_step_faithful, Hm. Qed.

Lemma on_proto_faithful t r t' f :
  (forall p, proto_session (f p) = proto_session p /\ _detached (f p) = _detached p) -> moves (faithful t r) (on_proto (A := A) q0 t' f).
Proof.
  intros Hf s Hs. destruct (on_proto_frame t' f s) as (_ & _ & E). rewrite on_proto_eq. destruct (Hf (proto t' s)) as [E1 E2].
  case_decide; [subst; rewrite E1, E2|]; (split; [done|]; split; [done|]; split; [intros x; by rewrite E|congruence]).
Qed.

Lemma attach_faithful t r t' f : t' ≠ t -> moves (faithful t r) (_attach (A := A) q0 t' f).
Proof.
  intros Hne. unfold _attach. repeat (moves_step || (apply calm_faithful; apply calm_send_frame)
    || (apply calm_faithful; apply quic_calm_release) || (apply calm_faithful; apply calm_call_later)).
  - intros s Hs. pose proof (attach_frame t' a0 s) as Hf. destruct (attach t' a0 s) as [s1 [r'|e]]; destruct Hf as [El Ea]; cbn [fst]; unfold Quic.proto in *; rewrite El.
    all: split; [done|]; split; [done|]; split; [|congruence]; intros x; rewrite Ea; try case_decide; congruence.
  - intros s Hs. destruct (on_proto_frame t' (set_proto_session (Some a1)) s) as (_ & _ & E). rewrite on_proto_eq, decide_False by done.
    split; [done|]; split; [done|]; split; [intros x; by rewrite E|congruence].
Qed.

Lemma serve_frame_faithful t r t' k f : moves (faithful t r) (serve_frame q0 message_handlers t' k f).
Proof.
  intros s. unfold serve_frame. rewrite (bind_ok (gets _) _ s s _ eq_refl). destruct (proto_session (proto t' s)) as [r'|] eqn:Er.
  - revert s Er. cut (moves (faithful t r) (if Private.frame_type f =? Private.FRAME_RELIABLE
      then admit_request q0 message_handlers t' r' k f ;! ret true else raise (FramingError "unexpected reliable frame"))); [auto|].
    unfold admit_request. repeat (moves_step || (apply on_proto_faithful; done) || (apply calm_faithful; apply calm_call_later) || (apply calm_faithful; apply calm_message)).
  - destruct (decide (t' = t)) as [->|Hne]; [intros E; congruence|]. destruct (_attach_attempted (proto t' s)); [reflexivity|]. clear Er. revert s.
    match goal with |- forall s, faithful t r s (fst (?m s)) => change (moves (faithful t r) m) end.
    repeat (moves_step || (apply on_proto_faithful; done) || (apply attach_faithful; done)).
Qed.

Lemma event_faithful t r t' ev : moves (faithful t r) (quic_event_received q0 message_handlers t' ev).
Proof.
  assert (forall k fs, moves (faithful t r) (serve_frames q0 message_handlers t' k fs)) as Hfs.
  { intros k fs. induction fs as [|f fs IH]; cbn [serve_frames]; [moves_step|]. moves_step; [apply serve_frame_faithful|by destruct a; [|moves_step]]. }
  destruct ev; cbn [quic_event_received].
  2: { unfold _stream_data, stream_body, feed_stream.
       repeat (moves_step || apply Hfs || (apply calm_faithful; apply calm_fail) || (apply calm_faithful; apply calm_drop) || (apply calm_faithful; apply calm_finish)
         || (apply on_proto_faithful; intros ?; repeat case_match; done)). }
  all: repeat (moves_step || (apply calm_faithful; first [apply calm_in_quic | apply calm_drop | apply calm_datagram | apply quic_calm_release | apply calm_detach])).
Qed.

(** The end of a connection. *)
Lemma terminated_spec t s : inv s -> let s' := fst (quic_event_received q0 message_handlers t ConnectionTerminated s) in
  _detached (proto t s') = true /\ t ∉ pending (listener (Q := Q) s').
Proof.
  intros (_ & _ & [_ _ W3 _]). cbn [quic_event_received].
  assert (exists s1, _release_admission q0 t s = (s1, Ok tt) /\ t ∉ pending (listener (Q := Q) s1)) as (s1 & Er & Hp).
  { unfold _release_admission. rewrite (bind_ok (gets _) _ s s _ eq_refl). set (s1 := fst (cancel (_auth_timer (proto t s)) s)).
    rewrite (bind_ok (cancel _) _ s s1 tt eq_refl). destruct (cancel_same (_auth_timer (proto t s)) s) as [_ N _ _]. fold s1 in N.
    destruct (_admission (proto t s)) eqn:Ea.
    - eexists. split; [reflexivity|]. rewrite listener_set. cbn. set_solver.
    - exists s1. split; [done|]. rewrite N. intros Ht. destruct (W3 t Ht). congruence. }
  cbv zeta. rewrite (bind_ok _ _ s s1 tt Er). destruct (_detached (proto t s1)) eqn:Hd.
  - unfold _detach. rewrite (bind_ok (gets _) _ s1 s1 _ eq_refl), Hd. exact (conj Hd Hp).
  - destruct (detach_proto_spec t s1 Hd) as (s2 & -> & P & N & _). cbn [fst]. rewrite P, decide_True, N by done. done.
Qed.

Lemma step_faithful t r s s' : step s s' -> inv s -> faithful t r s s'.
Proof.
  intros Hst Hs. destruct Hst as [t' ev|header routed received Hr|on_loop t' lane m v|t' code reason|h|s' Hc].
  - apply event_faithful.
  - unfold datagram_received. destruct header as [[cid token]|]; [|reflexivity]. rewrite (bind_ok (gets _) _ s s _ eq_refl).
    destruct (negb (routed cid) && _) eqn:Eg; [reflexivity|].
    match goal with |- context [received ?b] => destruct (Hr cid token b eq_refl s) as [Hc|(Hk & q & ->)] end.
    { by apply calm_step_faithful. }
    destruct (new_protocol_spec q s) as (s' & due & h & -> & P & _ & _ & E). destruct Hs as (_ & _ & [_ _ _ W4]). intros Hse.
    rewrite P, decide_False; [split; [done|]; split; [done|]; split; [intros x; by rewrite E|congruence]|].
    intros ->. destruct (W4 _ (le_n _)). congruence.
  - apply (calm_faithful t r _ (calm_send_json on_loop t' lane m v)).
  - apply calm_faithful. unfold request_close. repeat (moves_step || apply calm_call_later).
  - apply (calm_faithful t r _ (calm_run_scheduled h)).
  - by apply calm_step_faithful.
Qed.

(** a connection that was attached while it was open releases its session
    whichever way it ends, and keeps it released: in every state reached
    later in which it is detached, no session has it as its transport; and
    the end of the connection always detaches it and gives its admission
    slot back. *)
Theorem attached_connection_released s0 s s' t r (Hfresh : fresh s0) (Hreach : rtc step s0 s) (Hopen : _detached (proto t s) = false)
    (Hsession : proto_session (proto t s) = Some r) (Hlater : rtc step s s') :
  (_detached (proto t s') = true -> forall x, attached_to x s' ≠ Some t) /\
  let s'' := fst (quic_event_received q0 message_handlers t ConnectionTerminated s') in
  _detached (proto t s'') = true /\ t ∉ pending (listener (Q := Q) s'') /\ forall x, attached_to x s'' ≠ Some t.
Proof.
  assert (forall s1, rtc step s s1 -> inv s1 /\ proto_session (proto t s1) = Some r /\ (_detached (proto t s1) = true -> forall x, attached_to x s1 ≠ Some t)) as Hall.
  { apply rtc_ind_r; [split; [by apply (quic_reachable s0)|split; [done|congruence]]|]. intros s1 s2 _ Hst (Hi & Hse & Hd).
    destruct (step_faithful t r s1 s2 Hst Hi Hse) as (F1 & F2 & F3 & F4). pose proof (quic_step_inv s1 s2 Hst Hi) as Hi2. split; [done|]. split; [done|].
    intros Hd2 x Ha. destruct (_detached (proto t s1)) eqn:E; [by apply (Hd eq_refl x), F3|].
    assert (x = r) as ->; [|by apply F4]. destruct Hi2 as (_ & _ & [_ W2 _ _]). specialize (W2 x t Ha). congruence. }
  split; [by apply Hall|]. cbv zeta.
  assert (rtc step s (fst (quic_event_received q0 message_handlers t ConnectionTerminated s'))) as Hr by (eapply rtc_r; [exact Hlater|constructor]).
  destruct (Hall _ Hr) as (_ & _ & Hno). destruct (Hall _ Hlater) as (Hi & _ & _).
  destruct (terminated_spec t s' Hi) as [Hd Hp]. auto.
Qed.
End events.
End requests.

(** ** Rejected connections *)

(** Only the listener's state changes. *)
Definition inert (s s' : Server A) : Prop :=
  exists a, s' = set_app a s /\ auth_of a = auth_of (app s) /\ private_of a = private_of (app s).
#[export] Instance inert_preorder : PreOrder inert.
Proof.
  split; [intros s; exists (app s); by destruct s|].
  intros s1 s2 s3 (a & -> & E1 & E2) (b & -> & F1 & F2). exists b. split; [by destruct s1|]. cbn in *. split; congruence.
Qed.

(** For a connection that has no session and used up its attempt. *)
Definition rejected (t : nat) (s : Server A) : Prop := proto_session (proto t s) = None /\ _attach_attempted (proto t s) = true.
Definition dead (t : nat) (s s' : Server A) : Prop := rejected t s -> rejected t s' /\ inert s s'.
#[export] Instance dead_preorder t : PreOrder (dead t).
Proof.
  split; [by intros s Hs|]. intros s1 s2 s3 F G Hs. destruct (F Hs) as [F1 F2]. destruct (G F1) as [G1 G2]. split; [done|]. by etransitivity.
Qed.

Lemma inert_listener l (s : Server A) : inert s (set_app (put_quic l (app s)) s).
Proof. exists (put_quic l (app s)). split; [done|]. split; [apply auth_of_put_quic|apply private_of_put_quic]. Qed.

Lemma dead_on_proto t f : (forall p, proto_session (f p) = proto_session p /\ (_attach_attempted p = true -> _attach_attempted (f p) = true)) ->
  moves (dead t) (on_proto (A := A) q0 t f).
Proof.
  intros Hf s [Hn Ha]. split; [|apply inert_listener]. unfold rejected. rewrite on_proto_eq, decide_True by done.
  destruct (Hf (proto t s)) as [-> Hat]. auto.
Qed.

Lemma dead_in_quic {B} t (m : M Q B) : moves (dead t) (in_quic (A := A) q0 t m).
Proof. intros s. unfold in_quic. destruct (m _) as [x r]. cbn [fst]. by apply dead_on_proto. Qed.

Lemma dead_in_listener t f : (forall l, protocols (f l) = protocols l) -> moves (dead t) (in_listener (A := A) (Q := Q) (modify f)).
Proof. intros Hf s Hs. split; [|apply inert_listener]. unfold rejected, in_listener, zoom, modify. cbn [fst]. rewrite proto_set, Hf. exact Hs. Qed.

Lemma dead_detach t : moves (dead t) (_detach (A := A) q0 t).
Proof.
  intros s Hs. revert Hs. unfold _detach. rewrite (bind_ok (gets _) _ s s _ eq_refl). intros Hs. pose proof Hs as [Hn _]. rewrite Hn. revert Hs.
  match goal with |- rejected t s -> rejected t (fst (?m s)) /\ _ => cut (moves (dead t) m); [intros Hm; apply (Hm s)|] end.
  repeat (moves_step || (apply dead_on_proto; done) || (apply dead_in_listener; done)).
Qed.

Lemma dead_fail t code reason : moves (dead t) (_fail (A := A) q0 t code reason).
Proof. unfold _fail. repeat (moves_step || apply dead_in_quic || apply dead_detach). Qed.

Lemma dead_finish t k : moves (dead t) (_finish_stream (A := A) q0 t k).
Proof. unfold _finish_stream. repeat (moves_step || apply dead_in_quic || (apply dead_on_proto; done)). Qed.

Lemma dead_drop t k : moves (dead t) (_drop_stream (A := A) q0 t k).
Proof.
  unfold _drop_stream. repeat (moves_step || apply dead_in_quic || apply dead_fail || (apply dead_on_proto; done) || (apply dead_in_listener; done)).
Qed.

Lemma dead_serve t k fs : moves (dead t) (serve_frames q0 message_handlers t k fs).
Proof.
  destruct fs as [|f fs]; cbn [serve_frames]; [moves_step|]. intros s Hs. pose proof Hs as [Hn Ha].
  assert (serve_frame q0 message_handlers t k f s = (s, Raise (FramingError "only one ATTACH attempt is allowed"))) as E.
  { unfold serve_frame. by rewrite (bind_ok (gets _) _ s s _ eq_refl), Hn, Ha. }
  by rewrite (bind_raise _ _ s s _ E).
Qed.

Lemma dead_datagram t data : moves (dead t) (_datagram q0 message_handlers t data).
Proof.
  intros s Hs. pose proof Hs as [Hn _]. unfold _datagram. rewrite (bind_ok (gets _) _ s s _ eq_refl), Hn. by apply dead_fail.
Qed.

Lemma dead_event t ev : moves (dead t) (quic_event_received q0 message_handlers t ev).
Proof.
  destruct ev; cbn [quic_event_received]; unfold _stream_data, stream_body, feed_stream, _release_admission.
  all: repeat (moves_step || apply dead_in_quic || apply dead_fail || apply dead_drop || apply dead_detach || apply dead_finish || apply dead_serve
    || apply dead_datagram || (apply dead_on_proto; intros ?; repeat case_match; done) || (apply dead_in_listener; done)).
Qed.

(** a connection whose one attach attempt failed can do nothing any more:
    whatever it sends, on whichever streams and in datagrams, only the
    listener's own state changes: no session, no token, no other part of the
    server; no handler runs; and it stays without a session. *)
Theorem rejected_connection_inert t (evs : list QuicEvent) s (Hs : rejected t s) :
  let s' := foldl (fun s ev => fst (quic_event_received q0 message_handlers t ev s)) s evs in
  rejected t s' /\ inert s s'.
Proof.
  cbv zeta. revert s Hs. induction evs as [|ev evs IH]; intros s Hs; [by split|]. cbn [foldl].
  destruct (dead_event t ev s Hs) as [H1' H2']. destruct (IH _ H1') as [H3' H4']. split; [done|]. by etransitivity.
Qed.

(** ** The application's handlers

    The echo handler of the reference application and the file handler answer
    through the transport only. *)

Lemma calm_reply on_loop c v : moves calm (context_reply (A := A) q0 on_loop c v).
Proof. apply calm_send_json. Qed.

Lemma calm_require r : moves calm (Reference.require (A := A) r).
Proof. unfold Reference.require. repeat moves_step. Qed.

Lemma calm_echo disconnect on_loop c v : moves calm (Reference.private_transport_echo disconnect (context_reply q0 on_loop) (inr c) v).
Proof. unfold Reference.private_transport_echo. repeat (moves_step || apply calm_require || apply calm_reply). Qed.
End facts.

(** ** Examples *)

Module Demo.
#[local] Existing Instances QortalThm.Demo.ascii_unicode QortalThm.Demo.toy_crypto AuthThm.Demo.world AuthThm.Demo.world_ok.

(** A connection that records what was sent on its streams and whether it was
    closed. *)
Record Wire := { streams : list (Z * bytes); closed_with : option Z }.
#[local] Instance wire_connection : QuicConnection Wire := {|
  send_stream_data k data _ := modify (fun w => {| streams := streams w ++ [(k, data)]; closed_with := closed_with w |});
  send_datagram_frame _ := ret tt;
  reset_stream _ _ := ret tt;
  stop_stream _ _ := ret tt;
  close code _ := modify (fun w => {| streams := streams w; closed_with := Some code |});
  transmit := ret tt;
  send_buffers _ := []
|}.
Definition wire : Wire := {| streams := []; closed_with := None |}.

Record App := { the_auth : QAppAuthenticationService; the_private : PrivateTransportService; the_quic : QuicServer Wire }.
#[local] Instance auth_lens : HasAuth App :=
  {| auth_of := the_auth; put_auth := fun x a => {| the_auth := x; the_private := the_private a; the_quic := the_quic a |} |}.
#[local] Instance private_lens : HasPrivate App :=
  {| private_of := the_private; put_private := fun x a => {| the_auth := the_auth a; the_private := x; the_quic := the_quic a |} |}.
#[local] Instance quic_lens : HasQuic App Wire :=
  {| quic_of := the_quic; put_quic := fun x a => {| the_auth := the_auth a; the_private := the_private a; the_quic := x |} |}.
#[local] Instance auth_laws : HasAuthLaws App.
Proof. by split. Qed.
#[local] Instance private_laws : HasPrivateLaws App.
Proof. by split. Qed.
#[local] Instance quic_laws : HasQuicLaws App Wire.
Proof. by split. Qed.

Definition handlers : gmap string (PrivateMessageContext -> pyval -> M (Server App) unit) :=
  {["private_transport_echo" := (fun c v => Reference.private_transport_echo [] (context_reply wire true) (inr c) v)]}.
Lemma handlers_calm name h : handlers !! name = Some h -> forall c v, moves (calm wire) (h c v).
Proof.
  unfold handlers. intros Hh. apply lookup_singleton_Some in Hh as [<- <-]. intros c v. apply calm_echo.
Qed.
Lemma closes_ok code reason q : snd (close (Q := Wire) code reason q) = Ok tt.
Proof. done. Qed.

(** The state after the bootstrap of [PrivateThm.Demo], with a listener. *)
Definition idle : QuicServer Wire := {| protocols := ∅; next_protocol := 0; pending := ∅; scheduled := ∅; next_handle := 0 |}.
Definition start : Server App := Eval vm_compute in
  let s := PrivateThm.Demo.after "game" in
  {| max_unauthenticated_sessions := max_unauthenticated_sessions s; max_logical_sessions_per_link := max_logical_sessions_per_link s;
     max_new_sessions_per_link_per_minute := max_new_sessions_per_link_per_minute s; idle_connection_timeout := idle_connection_timeout s;
     srv_ack_timeout := srv_ack_timeout s; sessions := sessions s; logical_sessions := logical_sessions s; connections := connections s;
     conns := conns s; tokens := tokens s; _media_grant_files := _media_grant_files s; media_files := media_files s;
     revocations := revocations s; closed_transports := closed_transports s; io_failures := io_failures s; wall := 1010; mono := 1;
     entropy := entropy s; drawn := drawn s; shutting_down := shutting_down s;
     app := {| the_auth := fst (app s); the_private := snd (app s); the_quic := idle |} |}.

Definition frame_bytes (kind : Z) (metadata : pyval) (payload : bytes) : bytes :=
  match encode_metadata metadata with
  | Ok m => match Private.encode_frame (Private.mkFrame kind m payload) with Ok b => b | Raise _ => [] end
  | Raise _ => []
  end.
Definition attach_data : bytes := Eval vm_compute in frame_bytes Private.FRAME_ATTACH PrivateThm.Demo.presented [].
Definition ping_data : bytes := Eval vm_compute in
  frame_bytes Private.FRAME_RELIABLE (VDict [("messageId", VStr "m1")])
    (match encode_application_payload (VDict [("type", VStr "private_transport_echo")]) with Ok b => b | Raise _ => [] end).

Definition arrived : Server App := fst (datagram_received (Q := Wire) (Some ([], [])) (fun _ => false) (fun _ => new_protocol wire true ;! ret tt) start).
Definition on_event (ev : QuicEvent) (s : Server App) : Server App := fst (quic_event_received wire handlers 0 ev s).
Definition attached : Server App := on_event (StreamDataReceived 0 attach_data false) arrived.
Definition answered : Server App := on_event (StreamDataReceived 4 ping_data true) attached.

Example attach_works : attached_to 0 attached = Some 0%nat /\ proto_session (proto wire 0 attached) = Some 0%nat /\ pending (listener (Q := Wire) attached) = ∅.
Proof. vm_compute. done. Qed.
Example ping_answered : map fst (streams (_quic (proto wire 0 answered))) = [0; 4; 4] /\ _replies (proto wire 0 answered) = [] /\ _parsers (proto wire 0 answered) = [].
Proof. vm_compute. done. Qed.

Lemma start_fresh : fresh (Q := Wire) start.
Proof.
  split; [done|]. intros r. apply NativePlane.Demo.unattached_heap. vm_compute. reflexivity.
Qed.
Lemma arrives : step wire handlers start arrived.
Proof.
  apply Arrives. intros cid token retry _ s. right. split; [done|]. exists wire. unfold bind. by destruct (new_protocol wire true s) as [s' [t|e]].
Qed.
Lemma runs : rtc (step wire handlers) start answered.
Proof.
  apply (rtc_l _ _ arrived); [apply arrives|]. apply (rtc_l _ _ attached); [apply Receives|]. apply (rtc_l _ _ answered); [apply Receives|]. apply rtc_refl.
Qed.
Lemma runs_attached : rtc (step wire handlers) start attached.
Proof. apply (rtc_l _ _ arrived); [apply arrives|]. apply (rtc_l _ _ attached); [apply Receives|]. apply rtc_refl. Qed.
Lemma runs_on : rtc (step wire handlers) attached answered.
Proof. apply (rtc_l _ _ answered); [apply Receives|apply rtc_refl]. Qed.

Lemma quic_limits_witness : (size (pending (listener (Q := Wire) answered)) <= 256)%nat.
Proof. exact (proj2 (quic_limits wire handlers handlers_calm closes_ok start answered start_fresh runs)). Defined.

Lemma attached_connection_released_witness :
  attached_to 0 answered = Some 0%nat /\ forall x, attached_to x (on_event ConnectionTerminated answered) ≠ Some 0%nat.
Proof.
  split; [vm_compute; reflexivity|].
  assert (_detached (proto wire 0 attached) = false) as Hopen by (vm_compute; reflexivity).
  assert (proto_session (proto wire 0 attached) = Some 0%nat) as Hsession by (vm_compute; reflexivity).
  exact (proj2 (proj2 (proj2 (attached_connection_released wire handlers handlers_calm closes_ok start attached answered 0 0 start_fresh runs_attached Hopen Hsession runs_on)))).
Defined.

(** A second attempt after a rejected one. *)
Definition refused : Server App := on_event (StreamDataReceived 0 (frame_bytes Private.FRAME_ATTACH (VDict []) []) false) arrived.
Lemma rejected_connection_inert_witness :
  inert refused (foldl (fun s ev => fst (quic_event_received wire handlers 0 ev s)) refused [StreamDataReceived 0 attach_data false]).
Proof.
  assert (rejected wire 0 refused) as Hs by (split; vm_compute; reflexivity).
  exact (proj2 (rejected_connection_inert wire handlers 0 [StreamDataReceived 0 attach_data false] refused Hs)).
Defined.

(** ** A defect: a connection that failed can still attach *)

(** A datagram before the attachment fails the connection; an ATTACH that
    arrived in the same packet is processed after that. *)
Definition late : Server App := on_event (StreamDataReceived 0 attach_data false) (on_event (DatagramFrameReceived []) arrived).

(** [_fail] marks a connection as detached even when it has no session, and
    an ATTACH in an event that follows is still accepted: the session is then
    attached to a closed connection, and the end of that connection does not
    release it, since [_detach] returns at once.  Then the session cannot be
    attached again. *)
Theorem failed_connection_attaches :
  closed_with (_quic (proto wire 0 late)) = Some ATTACH_REJECTED /\ _detached (proto wire 0 late) = true /\
  attached_to 0 late = Some 0%nat /\ attached_to 0 (on_event ConnectionTerminated late) = Some 0%nat /\
  attached_to 0 (on_event ConnectionTerminated attached) = None.
Proof. vm_compute. done. Qed.
End Demo.
End QuicThm.
