(* ===== verification/Backup.v ===== *)
(** * Snapshots of the database ([storage/backup.py])

    [create_sqlite_backup] copies the live database into a temporary file,
    verifies the copy and only then links it under its final name.

    The file system is a map from resolved paths to contents, with a script of
    the system calls that fail; what other processes create meanwhile is an
    argument.  SQLite is a parameter: what it reads in a file of given
    contents, and what it writes when it copies a database. *)

From stdpp Require Import prelude strings list gmap.
From Stdlib Require Import ZArith Lia.
From S2P Require Import Prelude PyBytes Sha256 Database.

Module Backup.

Abbreviation path := (list string).

(** What SQLite finds in a file; [None] stands for a [sqlite3.Error].  [backup]
    gives what a copy of a database has written when it ended, and whether it
    ended without an error. *)
Class Sqlite := {
  integrity_check : bytes -> option (list string);
  foreign_key_check : bytes -> option (list string);
  user_version : bytes -> option Z;
  table_names : bytes -> option (list string);
  backup : bytes -> bytes * bool
}.

Definition _TABLES_BY_SCHEMA_VERSION : list (Z * list string) := [(1, ["sessions"])].

Record BackupReport := { report_path : path; size_bytes : Z; sha256_of : string; schema_version : Z }.

Record FS := { files : gmap path bytes; failures : list bool }.
Definition set_files (f : gmap path bytes) (s : FS) : FS := {| files := f; failures := failures s |}.
Definition set_failures (l : list bool) (s : FS) : FS := {| files := files s; failures := l |}.

Abbreviation FM := (M FS).

(** A system call that may fail. *)
Definition syscall : FM unit :=
  let! s := get in
  match failures s with
  | [] => ret tt
  | fails :: rest => modify (set_failures rest) ;! if (fails : bool) then raise OSError else ret tt
  end.

Section backup.
Context `{Sqlite}.

Definition sqlite {A} (x : option A) : res A := match x with Some a => Ok a | None => Raise (RuntimeError "unable to verify SQLite backup") end.

(** The tables a database of this schema version has. *)
Definition expected_tables (version : Z) : list string :=
  concat (map (fun x => if fst x <=? version then snd x else []) _TABLES_BY_SCHEMA_VERSION).

(** [_verify_connection] *)
Definition _verify_connection (content : bytes) : res Z :=
  let? rows := sqlite (integrity_check content) in
  if negb (bool_decide (rows = ["ok"])) then Raise (RuntimeError "SQLite integrity check failed") else
  let? foreign_key_errors := sqlite (foreign_key_check content) in
  if negb (bool_decide (foreign_key_errors = [])) then Raise (RuntimeError "SQLite foreign-key check failed") else
  let? version := sqlite (user_version content) in
  if negb ((1 <=? version) && (version <=? SCHEMA_VERSION)) then Raise (RuntimeError "unsupported backend database schema") else
  let? actual := sqlite (table_names content) in
  if negb (forallb (fun t => bool_decide (t ∈ actual)) (expected_tables version))
  then Raise (RuntimeError "backup is not a complete backend database") else
  Ok version.

(** [verify_sqlite_backup] *)
Definition verify_sqlite_backup (p : path) : FM BackupReport :=
  let! s := get in
  match files s !! p with
  | None => raise OSError
  | Some content =>
    try_catch syscall (fun _ => true) (fun _ => raise (RuntimeError "unable to open SQLite backup")) ;!
    let! version := lift (_verify_connection content) in
    syscall ;!
    ret {| report_path := p; size_bytes := Z.of_nat (length content); sha256_of := sha256_hex content; schema_version := version |}
  end.

(** [_default_backup_name] *)
Definition _default_backup_name (timestamp token : string) : string := "backend-" +:+ timestamp +:+ "-" +:+ token +:+ ".sqlite3".

(** [Path(name).name == name and name not in {"", ".", ".."}] *)
Definition single_name (name : string) : bool :=
  negb (existsb (is_char "/") (str_bytes name)) && negb (bool_decide (name ∈ [""; "."; ".."])).

(** [tempfile.mkstemp] *)
Definition mkstemp (temporary : path) : FM unit :=
  syscall ;!
  let! s := get in
  if bool_decide (is_Some (files s !! temporary)) then raise OSError else modify (set_files (<[temporary := []]> (files s))).

Definition unlink (p : path) : FM unit := syscall ;! modify (fun s => set_files (delete p (files s)) s).

(** [os.link] never replaces a file. *)
Definition link (from to : path) : FM unit :=
  syscall ;!
  let! s := get in
  match files s !! from with
  | None => raise OSError
  | Some content => if bool_decide (is_Some (files s !! to)) then raise OSError else modify (set_files (<[to := content]> (files s)))
  end.

(** From the temporary file to the published one; [created] are the files other
    processes create until then. *)
Definition publish (source temporary final : path) (created : gmap path bytes) : FM BackupReport :=
  let! s := get in
  try_catch syscall (fun _ => true) (fun _ => raise (RuntimeError "unable to open backend database")) ;!
  let '(copied, complete) := backup (default [] (files s !! source)) in
  modify (fun s => set_files (<[temporary := copied]> (files s)) s) ;!
  guard_or complete (RuntimeError "unable to create SQLite backup") ;!
  let! report := verify_sqlite_backup temporary in
  syscall ;!
  modify (fun s => set_files (files s ∪ created) s) ;!
  link temporary final ;!
  unlink temporary ;!
  syscall ;!
  ret {| report_path := final; size_bytes := size_bytes report; sha256_of := sha256_of report; schema_version := schema_version report |}.

(** [create_sqlite_backup] *)
Definition create_sqlite_backup (source output : path) (filename : option string) (timestamp token temporary_name : string)
    (created : gmap path bytes) : FM BackupReport :=
  let! s := get in
  if negb (bool_decide (is_Some (files s !! source))) then raise OSError else
  syscall ;!
  let name := match filename with Some n => if bool_decide (n = "") then _default_backup_name timestamp token else n
              | None => _default_backup_name timestamp token end in
  if negb (single_name name) then raise (ValueError "backup filename must be a single file name") else
  let final := output ++ [name] in
  let! s := get in
  if bool_decide (is_Some (files s !! final)) then raise OSError else
  if bool_decide (final = source) then raise (ValueError "backup destination must differ from the live database") else
  let temporary := output ++ [temporary_name] in
  mkstemp temporary ;!
  finally (publish source temporary final created)
    (let! s := get in if bool_decide (is_Some (files s !! temporary)) then unlink temporary else ret tt).

(** ** Only verified snapshots become visible, and nothing is overwritten *)

Lemma wp_syscall (Q : res unit -> FS -> Prop) s :
  (forall l, (failures s = [] -> l = []) -> Q (Ok tt) (set_failures l s)) ->
  (forall l, failures s ≠ [] -> Q (Raise OSError) (set_failures l s)) -> wp syscall Q s.
Proof.
  intros Hok Hbad. unfold wp, syscall. munfold. destruct (failures s) as [|f l] eqn:Ef.
  - cbn. specialize (Hok [] (fun _ => eq_refl)). unfold set_failures in Hok. rewrite <- Ef in Hok. by destruct s.
  - destruct f; cbn; [by apply Hbad|by apply Hok].
Qed.

(** What a run may have done to the files [f], with the temporary file apart. *)
Record kept (f : gmap path bytes) (temporary final : path) (s : FS) : Prop := {
  kept_others : forall p, p ≠ temporary -> p ≠ final -> files s !! p = f !! p;
  kept_final : forall content, f !! final = Some content -> files s !! final = Some content;
  kept_verified : forall content, f !! final = None -> files s !! final = Some content -> is_ok (_verify_connection content) = true
}.

Definition described (s : FS) (r : BackupReport) : Prop :=
  exists content, files s !! report_path r = Some content /\ size_bytes r = Z.of_nat (length content) /\
    sha256_of r = sha256_hex content /\ _verify_connection content = Ok (schema_version r).

(** How a run that has its temporary file may end. *)
Definition ended (f0 created : gmap path bytes) (temporary final : path) (r : res BackupReport) (s : FS) : Prop :=
  exists f, (f = f0 \/ f = f0 ∪ created) /\ kept f temporary final s /\
    match r with
    | Ok report => f !! final = None /\ files s !! temporary = None /\ report_path report = final /\ described s report
    | Raise _ => True
    end.

Section run.
Context (f0 created : gmap path bytes) (source temporary final : path).
Context (Hne : temporary ≠ final).

(** Before the link, only the temporary file differs. *)
Lemma ended_before f (c : bytes) e l : f = f0 \/ f = f0 ∪ created -> ended f0 created temporary final (Raise e) {| files := <[temporary := c]> f; failures := l |}.
Proof.
  intros Hf. exists f. split; [done|]. split; [|done]. split; cbn [files].
  - intros p Hp _. by rewrite lookup_insert_ne.
  - intros content. by rewrite lookup_insert_ne.
  - intros content Hn. rewrite lookup_insert_ne by done. congruence.
Qed.

Lemma kept_published f (c : bytes) version s : f !! final = None -> _verify_connection c = Ok version ->
  (forall p, p ≠ temporary -> files s !! p = (<[final := c]> f) !! p) -> kept f temporary final s.
Proof.
  intros Hf Hv Hs. split.
  - intros p Hp Hp'. by rewrite Hs, lookup_insert_ne.
  - congruence.
  - intros content _. rewrite Hs, lookup_insert_eq by done. intros [= <-]. by rewrite Hv.
Qed.

Lemma verify_spec c l (Q : res BackupReport -> FS -> Prop) f :
  f !! temporary = Some c ->
  (forall l' version, (l = [] -> l' = []) -> _verify_connection c = Ok version ->
    Q (Ok {| report_path := temporary; size_bytes := Z.of_nat (length c); sha256_of := sha256_hex c; schema_version := version |}) {| files := f; failures := l' |}) ->
  (forall l' e, (l = [] -> l' = []) -> Q (Raise e) {| files := f; failures := l' |}) ->
  wp (verify_sqlite_backup temporary) Q {| files := f; failures := l |}.
Proof.
  intros Hc Hok Hbad. unfold verify_sqlite_backup. autorewrite with wp. cbn [files]. rewrite Hc. autorewrite with wp.
  apply wp_syscall; intros l1 Hl1; autorewrite with wp; [|by apply Hbad]. cbn in Hl1.
  destruct (_verify_connection c) as [version|e] eqn:Ev; [|by apply Hbad]. autorewrite with wp.
  apply wp_syscall; intros l2 Hl2; autorewrite with wp; cbn in Hl2; unfold set_failures; cbn [files failures]; [apply Hok; auto|apply Hbad].
  intros ->. by destruct Hl2; apply Hl1.
Qed.

Lemma publish_spec l :
  wp (publish source temporary final created)
    (fun r s => ended f0 created temporary final r s /\ (l = [] -> failures s = [])) {| files := <[temporary := []]> f0; failures := l |}.
Proof.
  unfold publish. autorewrite with wp. apply wp_syscall; intros l1 Hl1; cbn in Hl1; autorewrite with wp.
  2: { split; [apply ended_before; auto|done]. }
  cbn [files set_failures]. destruct (backup _) as [c complete]. autorewrite with wp. unfold set_files. cbn [files failures set_failures].
  rewrite insert_insert_eq. destruct complete; [|split; [apply ended_before; auto|done]]. autorewrite with wp.
  apply (verify_spec c); [by rewrite lookup_insert_eq| |].
  2: { intros l2 e Hl2. split; [apply ended_before; auto|auto]. }
  intros l2 version Hl2 Hv. autorewrite with wp. apply wp_syscall; intros l3 Hl3; cbn in Hl3; autorewrite with wp.
  2: { split; [apply ended_before; auto|]. intros ->. by destruct Hl3; apply Hl2, Hl1. }
  cbn [files failures set_failures]. rewrite <- (insert_union_l f0 created). unfold link. autorewrite with wp.
  apply wp_syscall; intros l4 Hl4; cbn in Hl4; autorewrite with wp.
  2: { split; [apply ended_before; auto|]. intros ->. destruct Hl4. auto. }
  cbn [files set_failures]. rewrite lookup_insert_eq. case_bool_decide as Hex; autorewrite with wp.
  { split; [apply ended_before; auto|cbn; auto]. }
  rewrite lookup_insert_ne in Hex by done. apply eq_None_not_Some in Hex. unfold unlink. autorewrite with wp. cbn [files failures set_files set_failures].
  assert (forall p, p ≠ temporary -> (<[final := c]> (<[temporary := c]> (f0 ∪ created))) !! p = (<[final := c]> (f0 ∪ created)) !! p) as Hpub.
  { intros p Hp. destruct (decide (p = final)) as [->|]; [by rewrite !lookup_insert_eq|by rewrite !lookup_insert_ne]. }
  apply wp_syscall; intros l5 Hl5; cbn in Hl5; autorewrite with wp.
  2: { split; [|cbn; intros ->; destruct Hl5; auto]. exists (f0 ∪ created). split; [auto|]. split; [|done]. by apply (kept_published _ c version). }
  cbn [files failures set_files set_failures].
  assert (forall p, p ≠ temporary -> delete temporary (<[final := c]> (<[temporary := c]> (f0 ∪ created))) !! p = (<[final := c]> (f0 ∪ created)) !! p) as Hdel.
  { intros p Hp. rewrite lookup_delete_ne by done. auto. }
  apply wp_syscall; intros l6 Hl6; cbn in Hl6; autorewrite with wp.
  2: { split; [|cbn; intros ->; destruct Hl6; auto 10]. exists (f0 ∪ created). split; [auto|]. split; [|done]. by apply (kept_published _ c version). }
  split; [|cbn; auto 10]. exists (f0 ∪ created). split; [auto|]. split; [by apply (kept_published _ c version)|].
  split; [done|]. split; [cbn; by rewrite lookup_delete_eq|]. split; [done|]. exists c. cbn. rewrite Hdel, lookup_insert_eq by done. done.
Qed.

Lemma ended_unlinked r s l : ended f0 created temporary final r s -> ended f0 created temporary final r {| files := delete temporary (files s); failures := l |}.
Proof.
  intros (f & Hf & [K1 K2 K3] & Hr). exists f. split; [done|]. assert (forall p, p ≠ temporary -> delete temporary (files s) !! p = files s !! p) as Hd
    by (intros p Hp; by rewrite lookup_delete_ne). split.
  - split; cbn [files]; [intros p Hp Hp'; rewrite Hd by done; auto|intros c Hc; rewrite Hd by done; auto|intros c Hc; rewrite Hd by done; auto].
  - destruct r as [report|e]; [|done]. destruct Hr as (Hn & _ & Hp & (c & Hc & Hrest)). split; [done|]. split; [cbn; by rewrite lookup_delete_eq|].
    split; [done|]. exists c. cbn. rewrite Hp in *. by rewrite Hd.
Qed.

(** With the temporary file removed in the end. *)
Lemma publish_and_clean l :
  wp (finally (publish source temporary final created)
       (let! s := get in if bool_decide (is_Some (files s !! temporary)) then unlink temporary else ret tt))
    (fun r s => ended f0 created temporary final r s /\ (l = [] -> files s !! temporary = None)) {| files := <[temporary := []]> f0; failures := l |}.
Proof.
  pose proof (publish_spec l) as Hp. unfold wp, finally in *. destruct (publish _ _ _ _ _) as [s1 r]. cbn [fst snd] in Hp. destruct Hp as [He Hl].
  rewrite (bind_ok get _ s1 s1 s1 eq_refl). case_bool_decide as Hex; [|split; [done|]; intros _; by apply eq_None_not_Some].
  assert (wp (unlink temporary) (fun x s => match x with Ok _ => s = {| files := delete temporary (files s1); failures := failures s |}
    | Raise e => failures s1 ≠ [] /\ s = set_failures (failures s) s1 end) s1) as Hu.
  { unfold unlink. autorewrite with wp. apply wp_syscall; intros l' Hl'; autorewrite with wp; [done|]. by split. }
  unfold wp in Hu. destruct (unlink temporary s1) as [s2 [[]|e]]; cbn [fst snd] in *.
  - rewrite Hu. split; [by apply ended_unlinked|]. intros _. cbn. by rewrite lookup_delete_eq.
  - destruct Hu as [Hf ->]. split; [|intros E; by rewrite Hl in Hf]. destruct He as (f & ? & [K1 K2 K3] & _). exists f. split; [done|]. split; [by split|done].
Qed.
End run.

(** C33: whatever system calls fail and whatever files other processes create
    meanwhile, a backup changes no file but its own two: it never overwrites
    a file under the final name, and what it publishes there passed the
    integrity, foreign-key, schema and table checks; a run that returns has
    published such a snapshot, whose size and digest are the reported ones,
    and removed its temporary file, which only a failing system call can leave
    behind. *)
Theorem backup_publishes_verified source output filename timestamp token temporary_name created s
    (Hname : temporary_name ≠ match filename with Some n => if bool_decide (n = "") then _default_backup_name timestamp token else n
             | None => _default_backup_name timestamp token end) :
  let name := match filename with Some n => if bool_decide (n = "") then _default_backup_name timestamp token else n
              | None => _default_backup_name timestamp token end in
  let final := output ++ [name] in
  let temporary := output ++ [temporary_name] in
  let '(s', r) := create_sqlite_backup source output filename timestamp token temporary_name created s in
  ended (files s) created temporary final r s' /\ (failures s = [] -> files s' !! temporary = files s !! temporary).
Proof.
  cbv zeta. set (name := match filename with Some n => _ | None => _ end) in *. set (final := output ++ [name]). set (temporary := output ++ [temporary_name]) in *.
  assert (temporary ≠ final) as Hne by (intros E; apply app_inv_head in E; by injection E).
  assert (forall e l, ended (files s) created temporary final (Raise e) {| files := files s; failures := l |}) as Hsame.
  { intros e l. exists (files s). split; [auto|]. split; [|done]. by split; [|done|intros c E1 E2; cbn in *; congruence]. }
  assert (wp (create_sqlite_backup source output filename timestamp token temporary_name created)
    (fun r s' => ended (files s) created temporary final r s' /\ (failures s = [] -> files s' !! temporary = files s !! temporary)) s) as Hwp.
  { unfold create_sqlite_backup. fold name final temporary. autorewrite with wp. case_bool_decide; cbn [negb]; autorewrite with wp; [|by destruct s; split; [apply Hsame|]].
    apply wp_syscall; intros l1 Hl1; autorewrite with wp; [|by split; [apply Hsame|]]. cbv zeta. fold name final temporary.
    destruct (single_name name); cbn [negb]; autorewrite with wp; [|by split; [apply Hsame|]]. cbn [files set_failures].
    case_bool_decide as Hf; autorewrite with wp; [by split; [apply Hsame|]|]. case_bool_decide; autorewrite with wp; [by split; [apply Hsame|]|].
    unfold mkstemp. autorewrite with wp. apply wp_syscall; intros l2 Hl2; autorewrite with wp; [|by split; [apply Hsame|]]. cbn [files set_failures] in *.
    case_bool_decide as Ht; autorewrite with wp; [by split; [apply Hsame|]|]. apply eq_None_not_Some in Hf, Ht.
    apply (wp_mono _ _ _ _ (publish_and_clean (files s) created source temporary final Hne l2)).
    intros r s' [He Hl]. split; [done|]. intros E. rewrite Ht. auto. }
  unfold wp in Hwp. by destruct (create_sqlite_backup _ _ _ _ _ _ _ s).
Qed.

End backup.

(** Databases as text, and a backup with a file that appears meanwhile. *)
Module Demo.
#[local] Instance text_sqlite : Sqlite := {|
  integrity_check c := if bool_decide (c = []) then None else Some ["ok"];
  foreign_key_check _ := Some [];
  user_version _ := Some 1;
  table_names c := Some (if bool_decide (c = str_bytes "db") then ["sessions"] else []);
  backup c := (c, true)
|}.
Definition disk : FS := {| files := {[["data"; "live"] := str_bytes "db"]}; failures := [] |}.
Definition run (created : gmap path bytes) : FS * res BackupReport :=
  create_sqlite_backup ["data"; "live"] ["backups"] (Some "b1") "t" "0" ".qapp-backup-1" created disk.

Example published : files (fst (run ∅)) !! ["backups"; "b1"] = Some (str_bytes "db") /\ is_ok (snd (run ∅)) = true.
Proof. by vm_compute. Qed.
Example not_overwritten : files (fst (run {[["backups"; "b1"] := str_bytes "other"]})) !! ["backups"; "b1"] = Some (str_bytes "other").
Proof. by vm_compute. Qed.

Lemma backup_publishes_verified_witness :
  ended (files disk) ∅ ["backups"; ".qapp-backup-1"] ["backups"; "b1"] (snd (run ∅)) (fst (run ∅)).
Proof.
  assert (".qapp-backup-1" ≠ "b1") as Hname by done.
  pose proof (backup_publishes_verified ["data"; "live"] ["backups"] (Some "b1") "t" "0" ".qapp-backup-1" ∅ disk Hname) as Hb. cbv zeta in Hb.
  unfold run. destruct (create_sqlite_backup ["data"; "live"] ["backups"] (Some "b1") "t" "0" ".qapp-backup-1" ∅ disk) as [s' r]. exact (proj1 Hb).
Defined.
End Demo.
End Backup.
