(* ===== verification/Deployment.v ===== *)
(** * Which storage a process may use ([deployment.py])

    An installation that runs in Docker reserves its storage by a [config.toml]
    that says so.  A process started outside must not use storage that
    overlaps it, whichever configuration it was given.

    A resolved path is the list of its components.  The file system is a
    parameter: [realpath] follows links and removes [..], [reservation] is
    what [config.toml] of a directory holds, if there is one. *)

From stdpp Require Import prelude strings list gmap sorting.
From Stdlib Require Import ZArith Lia.
From S2P Require Import Prelude PyDict PyBytes PyValue Config.

Module Deployment.
Import Config.

Abbreviation path := (list string).

(** ** Paths *)

(** The components between slashes, without empty ones and [.]. *)
Fixpoint components (current l : bytes) : list string :=
  match l with
  | [] => [bytes_str current]
  | b :: rest => if is_char "/" b then bytes_str current :: components [] rest else components (current ++ [b]) rest
  end.
Record PurePath := { absolute : bool; parts : path }.
#[export] Instance pure_path_eq_dec : EqDecision PurePath.
Proof. solve_decision. Defined.
Definition parse_path (text : string) : PurePath :=
  {| absolute := match str_bytes text with b :: _ => is_char "/" b | [] => false end;
     parts := filter (fun c => c ≠ "" /\ c ≠ ".") (components [] (str_bytes text)) |}.

(** [root / value] *)
Definition join (root : path) (p : PurePath) : path := if absolute p then parts p else root ++ parts p.

(** [p.parents]: the proper prefixes, the longest first. *)
Fixpoint inits (p : path) : list path := match p with [] => [] | c :: rest => [] :: map (cons c) (inits rest) end.
Definition parents (p : path) : list path := reverse (inits p).

(** The order of paths. *)
Fixpoint path_le (a b : path) : bool :=
  match a, b with
  | [], _ => true
  | _ :: _, [] => false
  | x :: a', y :: b' => if bool_decide (x = y) then path_le a' b' else bool_decide (String.le x y)
  end.

(** [a == b or a in b.parents or b in a.parents] *)
Definition overlaps (a b : path) : bool := bool_decide (a = b) || bool_decide (a ∈ parents b) || bool_decide (b ∈ parents a).

Class FileSystem := {
  realpath : path -> path;
  reservation : path -> option (res pyval);
  cwd : path;
  is_container : bool
}.

Section deployment.
Context `{FileSystem}.

Definition fields : list string := ["data_dir"; "database_path"; "identity_path"; "rns_config_dir"].
Definition path_field (config : odict string fval) (field : string) : string := match od_get field config with Some (FPath p) => p | _ => "" end.
Definition resolved (config : odict string fval) (field : string) : path := realpath (join cwd (parse_path (path_field config field))).

(** A configuration file that reserves its storage: its section. *)
Definition docker_section (document : pyval) : option (odict string pyval) :=
  match document with
  | VDict d =>
    match default (VDict d) (od_get "backend" d) with
    | VDict section => if eq_str (dget "production_deployment" section) "docker" then Some section else None
    | _ => None
    end
  | _ => None
  end.

(** [(root / section.get(field, default)).resolve()] *)
Definition protected_path (root : path) (section : odict string pyval) (field : string) : res path :=
  match od_get field section with
  | None => Ok (realpath (join root (parse_path (path_field DEFAULTS field))))
  | Some (VStr p) => Ok (realpath (join root (parse_path p)))
  | Some _ => Raise (TypeError "unsupported operand type(s) for /")
  end.
Fixpoint protected_paths (root : path) (section : odict string pyval) (fs : list string) : res (list path) :=
  match fs with
  | [] => Ok []
  | f :: rest => let? p := protected_path root section f in let? ps := protected_paths root section rest in Ok (p :: ps)
  end.

(** One turn of the loop over the directories. *)
Definition check_root (selected : list path) (root : path) : res unit :=
  match reservation root with
  | None => Ok tt
  | Some loaded =>
    let? document := loaded in
    match docker_section document with
    | None => Ok tt
    | Some section =>
      let? protected := protected_paths root section fields in
      if existsb (fun a => existsb (overlaps a) protected) selected
      then Raise (ValueError "Local storage overlaps the Docker installation") else Ok tt
    end
  end.
Fixpoint check_roots (selected roots : list path) : res unit :=
  match roots with
  | [] => Ok tt
  | root :: rest => let? _ := check_root selected root in check_roots selected rest
  end.

(** The directories whose reservations count. *)
Definition roots_of (selected : list path) : list path := remove_dups (cwd :: parents cwd ++ concat (map parents selected)).

(** [_require_separate_local_storage] *)
Definition _require_separate_local_storage (config : odict string fval) (backup_only : bool) : res unit :=
  let selected := map (resolved config) (if backup_only then ["database_path"] else fields) in
  check_roots selected (merge_sort path_le (roots_of selected)).

(** [config.production_deployment == "docker"] *)
Definition is_docker (config : odict string fval) : bool :=
  match od_get "production_deployment" config with Some (FStr m) => bool_decide (m = "docker") | _ => false end.

(** [require_deployment] *)
Definition require_deployment (config : odict string fval) (local_launcher backup_only : bool) : res unit :=
  if negb (is_docker config)
  then _require_separate_local_storage config backup_only
  else if local_launcher || negb is_container then Raise (ValueError "This configuration uses Docker production storage.")
  else if negb (bool_decide (parse_path (path_field config "database_path") = parse_path "/data/backend/backend.sqlite3"))
          || negb (bool_decide (parse_path (path_field config "identity_path") = parse_path "/data/backend/identity"))
  then Raise (ValueError "Docker production requires the configured Compose storage mounts")
  else Ok tt.

(** ** Separation *)

Lemma elem_inits (a b : path) : a ∈ inits b <-> exists c rest, b = a ++ c :: rest.
Proof.
  revert a. induction b as [|x b IH]; intros a; cbn [inits].
  - split; [by intros ?%elem_of_nil|]. intros (c & rest & E). by destruct a.
  - rewrite elem_of_cons, list_elem_of_fmap. split.
    + intros [->|(a' & -> & Ha)]; [by exists x, b|]. apply IH in Ha as (c & rest & ->). by exists c, rest.
    + intros (c & rest & E). destruct a as [|y a]; [by left|]. right. injection E as <- E. exists a. split; [done|]. apply IH. eauto.
Qed.

Lemma overlaps_spec a b : overlaps a b = true <-> exists p, a `prefix_of` p /\ b `prefix_of` p.
Proof.
  unfold overlaps, parents. rewrite !orb_true_iff, !bool_decide_eq_true, !elem_of_reverse, !elem_inits. split.
  - intros [[->|(c & rest & ->)]|(c & rest & ->)]; [by exists b|eexists; split; [by eexists|done]|eexists; split; [done|by eexists]].
  - intros (p & Ha & Hb). destruct (prefix_weak_total a b p Ha Hb) as [[k E]|[k E]]; destruct k as [|c rest]; subst; rewrite ?app_nil_r; eauto.
Qed.

Lemma is_docker_spec config : is_docker config = true <-> od_get "production_deployment" config = Some (FStr "docker").
Proof.
  unfold is_docker. destruct (od_get _ config) as [[]|]; try by split. rewrite bool_decide_eq_true. split; [by intros ->|by intros [= ->]].
Qed.

Lemma check_roots_ok selected roots : check_roots selected roots = Ok tt <-> Forall (fun root => check_root selected root = Ok tt) roots.
Proof.
  induction roots as [|root roots IH]; [by split|]. cbn [check_roots]. rewrite Forall_cons, <- IH. unfold rbind.
  destruct (check_root selected root) as [[]|e]; naive_solver.
Qed.

Lemma protected_paths_elem root section fs ps : protected_paths root section fs = Ok ps ->
  forall f, f ∈ fs -> exists p, protected_path root section f = Ok p /\ p ∈ ps.
Proof.
  revert ps. induction fs as [|g fs IH]; intros ps E f Hf; [by apply elem_of_nil in Hf|]. cbn [protected_paths] in E.
  destruct (protected_path root section g) as [p|] eqn:Ep; [|done]. cbn in E. destruct (protected_paths root section fs) as [ps'|]; [|done].
  injection E as <-. apply elem_of_cons in Hf as [->|Hf]; [exists p; split; [done|by left]|].
  destruct (IH ps' eq_refl f Hf) as (q & Hq & Hin). exists q. split; [done|by right].
Qed.

Lemma check_root_ok selected root document section : check_root selected root = Ok tt -> reservation root = Some (Ok document) ->
  docker_section document = Some section -> forall a f, a ∈ selected -> f ∈ fields -> exists b, protected_path root section f = Ok b /\ overlaps a b = false.
Proof.
  unfold check_root. intros E Hr Hd a f Ha Hf. rewrite Hr in E. cbn [rbind] in E. rewrite Hd in E. destruct (protected_paths root section fields) as [ps|] eqn:Ep; [|done]. cbn [rbind] in E.
  destruct (existsb _ selected) eqn:Eo; [done|]. destruct (protected_paths_elem _ _ _ _ Ep f Hf) as (b & Hb & Hin). exists b. split; [done|].
  destruct (overlaps a b) eqn:Eab; [|done]. exfalso. apply not_true_iff_false in Eo. apply Eo. apply existsb_exists. exists a.
  split; [by apply list_elem_of_In|]. apply existsb_exists. exists b. split; [by apply list_elem_of_In|done].
Qed.

End deployment.

(** An installation under ["/srv/app"], and a development tree beside it. *)
Module Demo.
Definition installed : pyval := VDict [("backend", VDict [("production_deployment", VStr "docker")])].
#[local] Instance disk : FileSystem := {|
  realpath p := p;
  reservation p := if bool_decide (p = ["srv"; "app"]) then Some (Ok installed) else None;
  cwd := ["srv"; "app"; "dev"];
  is_container := false
|}.

Example default_paths_separate : require_deployment DEFAULTS false false = Ok tt.
Proof. vm_compute. reflexivity. Qed.
Example reserved_database_refused :
  is_ok (require_deployment (od_set "database_path" (FPath "/srv/app/data/backend/copy.sqlite3") DEFAULTS) false true) = false.
Proof. vm_compute. reflexivity. Qed.

End Demo.
End Deployment.
