(* ===== verification/Locks.v ===== *)
(** * The locks of shared files ([files.py], [FileStore.file_lock])

    Every operation on one file runs inside [file_lock]: a re-entrant lock of
    the process, kept in a table with a count of its holders and waiters, and a
    lock of one of 256 files shared with the native data plane.  Threads are
    interleaved at every point at which the code may wait or lose the
    processor; a call of [file_lock] in progress is a frame, and only the
    innermost frame of a thread runs.  Entries are mutable lists, hence
    addresses into a heap: the table may forget an entry a frame still uses. *)

From Stdlib Require Import ZArith Lia String.
From stdpp Require Import prelude strings list gmap.
From S2P Require Import Prelude PyBytes FileStore.

Import Files.

Module Locks.

(** What callers pass as [file_id]: strings, other hashable values up to the
    equality of dictionary keys, and values a dictionary refuses. *)
Inductive Key := Str (s : string) | Hashable (n : Z) | Unhashable.

#[export] Instance Key_eq_dec : EqDecision Key.
Proof. solve_decision. Defined.

#[export] Instance Key_countable : Countable Key.
Proof.
  refine (inj_countable' (fun k => match k with Str s => inl s | Hashable n => inr (inl n) | Unhashable => inr (inr tt) end)
    (fun x => match x with inl s => Str s | inr (inl n) => Hashable n | inr (inr tt) => Unhashable end) _).
  by intros [].
Defined.

(** [isinstance(file_id, str) and ID.fullmatch(file_id)] *)
Definition valid (k : Key) : bool := match k with Str s => ID s | _ => false end.

(** [file_id\[:2\]], the name of the lock file. *)
Definition lock_file (k : Key) : string := match k with Str s => String.substring 0 2 s | _ => "" end.

(** [\[threading.RLock(), 0\]]: the thread that owns the lock, how often it
    acquired it, and the reference count. *)
Record Entry := { owner : option nat; depth : nat; refs : Z }.

(** How far a call has come; [d] is the open file description it locks. *)
Inductive Phase :=
| Counted
| Locked
| Opened (d : nat)
| Held (d : nat)
| Unlocked (d : nat)
| Leaving
| Released.

Record Frame := { thread : nat; key : Key; entry : nat; phase : Phase; outcome : option exn }.

Inductive Holder := Description (d : nat) | Foreign.

#[export] Instance Holder_eq_dec : EqDecision Holder.
Proof. solve_decision. Defined.

Record Store := {
  file_locks : gmap Key nat;
  entries : gmap nat Entry;
  next_entry : nat;
  next_description : nat;
  flocks : gmap string Holder;
  frames : list Frame;
  results : list (nat * Key * option exn)
}.

Definition empty_store : Store :=
  {| file_locks := ∅; entries := ∅; next_entry := 0; next_description := 0; flocks := ∅; frames := []; results := [] |}.

Definition set_frames (l : list Frame) (s : Store) : Store :=
  {| file_locks := file_locks s; entries := entries s; next_entry := next_entry s; next_description := next_description s;
     flocks := flocks s; frames := l; results := results s |}.
Definition set_entry (a : nat) (e : Entry) (s : Store) : Store :=
  {| file_locks := file_locks s; entries := <[a := e]> (entries s); next_entry := next_entry s; next_description := next_description s;
     flocks := flocks s; frames := frames s; results := results s |}.
Definition set_table (m : gmap Key nat) (s : Store) : Store :=
  {| file_locks := m; entries := entries s; next_entry := next_entry s; next_description := next_description s;
     flocks := flocks s; frames := frames s; results := results s |}.
Definition set_flocks (m : gmap string Holder) (s : Store) : Store :=
  {| file_locks := file_locks s; entries := entries s; next_entry := next_entry s; next_description := next_description s;
     flocks := m; frames := frames s; results := results s |}.
Definition set_next_entry (a : nat) (s : Store) : Store :=
  {| file_locks := file_locks s; entries := entries s; next_entry := a; next_description := next_description s;
     flocks := flocks s; frames := frames s; results := results s |}.
Definition set_next_description (d : nat) (s : Store) : Store :=
  {| file_locks := file_locks s; entries := entries s; next_entry := next_entry s; next_description := d;
     flocks := flocks s; frames := frames s; results := results s |}.
Definition add_result (r : nat * Key * option exn) (s : Store) : Store :=
  {| file_locks := file_locks s; entries := entries s; next_entry := next_entry s; next_description := next_description s;
     flocks := flocks s; frames := frames s; results := results s ++ [r] |}.

Definition in_phase (p : Phase) (f : Frame) : Frame :=
  {| thread := thread f; key := key f; entry := entry f; phase := p; outcome := outcome f |}.
Definition with_outcome (o : option exn) (f : Frame) : Frame :=
  {| thread := thread f; key := key f; entry := entry f; phase := phase f; outcome := o |}.

(** ** The steps of [file_lock] *)

(** [entry = self.file_locks.setdefault(file_id, ...); entry\[1\] += 1], under
    [self.lock]; an unhashable key raises before anything is counted. *)
Definition enter_lock (t : nat) (k : Key) (s : Store) : Store :=
  let push a s := set_frames (frames s ++ [{| thread := t; key := k; entry := a; phase := Counted; outcome := None |}]) s in
  match k with
  | Unhashable => add_result (t, k, Some (TypeError "unhashable type")) s
  | _ =>
    match file_locks s !! k with
    | Some a =>
      let e := default {| owner := None; depth := 0; refs := 0 |} (entries s !! a) in
      push a (set_entry a {| owner := owner e; depth := depth e; refs := refs e + 1 |} s)
    | None =>
      let a := next_entry s in
      push a (set_table (<[k := a]> (file_locks s))
        (set_next_entry (S a) (set_entry a {| owner := None; depth := 0; refs := 0 + 1 |} s)))
    end
  end.

(** Only the innermost call of a thread runs. *)
Definition innermost (i : nat) (f : Frame) (s : Store) : bool :=
  forallb (fun g => negb (thread g =? thread f)%nat) (drop (S i) (frames s)).

Definition update (i : nat) (f : Frame) (s : Store) : Store := set_frames (<[i := f]> (frames s)) s.

(** [with entry\[0\]]: waits while another thread owns the lock. *)
Definition acquire (i : nat) (f : Frame) (s : Store) : option Store :=
  match phase f, entries s !! entry f with
  | Counted, Some e =>
    if bool_decide (owner e = None) || bool_decide (owner e = Some (thread f))
    then Some (update i (in_phase Locked f) (set_entry (entry f) {| owner := Some (thread f); depth := S (depth e); refs := refs e |} s))
    else None
  | _, _ => None
  end.

(** The check of the id, then [open('a+b')], which fails when [ok] is false. *)
Definition open_lock (ok : bool) (i : nat) (f : Frame) (s : Store) : option Store :=
  match phase f with
  | Locked =>
    Some (if negb (valid (key f)) then update i (in_phase Leaving (with_outcome (Some (FileError "NOT_AVAILABLE")) f)) s
          else if ok then update i (in_phase (Opened (next_description s)) f) (set_next_description (S (next_description s)) s)
          else update i (in_phase Leaving (with_outcome (Some OSError) f)) s)
  | _ => None
  end.

(** [fcntl.flock(lock, LOCK_EX)]: waits while another description holds the
    file; when it fails the [with] closes the description. *)
Definition flock (ok : bool) (i : nat) (f : Frame) (s : Store) : option Store :=
  match phase f with
  | Opened d =>
    if negb ok then Some (update i (in_phase Leaving (with_outcome (Some OSError) f)) s) else
    match flocks s !! lock_file (key f) with
    | None => Some (update i (in_phase (Held d) f) (set_flocks (<[lock_file (key f) := Description d]> (flocks s)) s))
    | Some _ => None
    end
  | _ => None
  end.

(** What a description releases. *)
Definition unlock (d : nat) (name : string) (m : gmap string Holder) : gmap string Holder :=
  if bool_decide (m !! name = Some (Description d)) then delete name m else m.

(** The body ends with [out]; [LOCK_UN] may itself fail. *)
Definition finish_body (out : option exn) (ok : bool) (i : nat) (f : Frame) (s : Store) : option Store :=
  match phase f with
  | Held d =>
    Some (if ok then update i (in_phase (Unlocked d) (with_outcome out f)) (set_flocks (unlock d (lock_file (key f)) (flocks s)) s)
          else update i (in_phase (Unlocked d) (with_outcome (Some OSError) f)) s)
  | _ => None
  end.

(** The [with] of the lock file closes it, which releases what it still holds. *)
Definition close (i : nat) (f : Frame) (s : Store) : option Store :=
  match phase f with
  | Unlocked d => Some (update i (in_phase Leaving f) (set_flocks (unlock d (lock_file (key f)) (flocks s)) s))
  | _ => None
  end.

(** The [with] of the re-entrant lock releases it. *)
Definition release (i : nat) (f : Frame) (s : Store) : option Store :=
  match phase f, entries s !! entry f with
  | Leaving, Some e =>
    let e' := {| owner := if (depth e =? 1)%nat then None else owner e; depth := pred (depth e); refs := refs e |} in
    Some (update i (in_phase Released f) (set_entry (entry f) e' s))
  | _, _ => None
  end.

(** The outer [finally], under [self.lock]: [entry\[1\] -= 1], and the entry is
    deleted at zero; [del] of a missing key raises. *)
Definition leave_lock (i : nat) (f : Frame) (s : Store) : option Store :=
  match phase f, entries s !! entry f with
  | Released, Some e =>
    let s1 := set_frames (delete i (frames s)) (set_entry (entry f) {| owner := owner e; depth := depth e; refs := refs e - 1 |} s) in
    Some (if refs e - 1 =? 0 then
            match file_locks s !! key f with
            | Some _ => add_result (thread f, key f, outcome f) (set_table (delete (key f) (file_locks s)) s1)
            | None => add_result (thread f, key f, Some (KeyError "file_id")) s1
            end
          else add_result (thread f, key f, outcome f) s1)
  | _, _ => None
  end.

Inductive event :=
| Enter (t : nat) (k : Key)
| Acquire (i : nat)
| Open (i : nat) (ok : bool)
| Flock (i : nat) (ok : bool)
| Finish (i : nat) (out : option exn) (ok : bool)
| Close (i : nat)
| Release (i : nat)
| Leave (i : nat)
| ForeignLock (name : string)
| ForeignUnlock (name : string).

Definition at_frame (i : nat) (k : nat -> Frame -> Store -> option Store) (s : Store) : option Store :=
  match frames s !! i with
  | Some f => if innermost i f s then k i f s else None
  | None => None
  end.

(** One step; [None] when the thread cannot take it. *)
Definition step (s : Store) (e : event) : option Store :=
  match e with
  | Enter t k => Some (enter_lock t k s)
  | Acquire i => at_frame i acquire s
  | Open i ok => at_frame i (open_lock ok) s
  | Flock i ok => at_frame i (flock ok) s
  | Finish i out ok => at_frame i (finish_body out ok) s
  | Close i => at_frame i close s
  | Release i => at_frame i release s
  | Leave i => at_frame i leave_lock s
  | ForeignLock p => match flocks s !! p with None => Some (set_flocks (<[p := Foreign]> (flocks s)) s) | Some _ => None end
  | ForeignUnlock p => match flocks s !! p with Some Foreign => Some (set_flocks (delete p (flocks s)) s) | _ => None end
  end.

Fixpoint run (l : list event) (s : Store) : option Store :=
  match l with
  | [] => Some s
  | e :: l' => match step s e with Some s' => run l' s' | None => None end
  end.

(** ** The invariant

    What the three layers rely on is a view of the frames each: who counts an
    entry, who holds its lock, who has the lock file open. *)

Definition uses (l : list Frame) : list (Key * nat) := map (fun f => (key f, entry f)) l.

Definition holds (f : Frame) : bool := match phase f with Counted | Released => false | _ => true end.
Definition holding (l : list Frame) : list (nat * nat) := omap (fun f => if holds f then Some (thread f, entry f) else None) l.

Definition description (f : Frame) : option nat := match phase f with Opened d | Held d | Unlocked d => Some d | _ => None end.
Definition opens (l : list Frame) : list (nat * (Key * Phase)) :=
  omap (fun f => d ← description f; Some (d, (key f, phase f))) l.

(** The table has exactly the entries in use, each with its number of users. *)
Record counted (T : gmap Key nat) (E : gmap nat Entry) (n : nat) (u : list (Key * nat)) : Prop := {
  c_table : forall k a, T !! k = Some a -> (k, a) ∈ u /\ exists e, E !! a = Some e /\ refs e = Z.of_nat (length (filter (fun x => x.1 = k) u));
  c_uses : forall k a, (k, a) ∈ u -> T !! k = Some a;
  c_inj : forall k k' a, T !! k = Some a -> T !! k' = Some a -> k = k';
  c_fresh : forall a, is_Some (E !! a) -> (a < n)%nat
}.

(** The lock of an entry belongs to the one thread whose calls hold it. *)
Record owned (E : gmap nat Entry) (h : list (nat * nat)) : Prop := {
  o_depth : forall a e, E !! a = Some e -> depth e = length (filter (fun x => x.2 = a) h);
  o_owner : forall t a, (t, a) ∈ h -> exists e, E !! a = Some e /\ owner e = Some t;
  o_idle : forall a e, E !! a = Some e -> depth e = 0%nat -> owner e = None
}.

(** Descriptions are not shared, and the lock of a file belongs to the call that
    is in its body. *)
Record opened (F : gmap string Holder) (n : nat) (o : list (nat * (Key * Phase))) : Prop := {
  p_nodup : NoDup o.*1;
  p_fresh : forall d x, (d, x) ∈ o -> (d < n)%nat;
  p_held : forall d k d', (d, (k, Held d')) ∈ o -> F !! lock_file k = Some (Description d);
  p_holder : forall name d, F !! name = Some (Description d) -> exists k p, (d, (k, p)) ∈ o /\ lock_file k = name /\ p <> Opened d;
  p_valid : forall d k p, (d, (k, p)) ∈ o -> valid k = true
}.

#[export] Instance counted_proper T E n : Proper ((≡ₚ) ==> impl) (counted T E n).
Proof.
  intros u u' P [H1 H2 H3 H4]. split; [|setoid_rewrite <- P; done|done|done].
  intros k a Hk. destruct (H1 k a Hk) as [Hin [e [He Hr]]]. rewrite <- P. split; [done|]. exists e. split; [done|]. by rewrite Hr, P.
Qed.

#[export] Instance owned_proper E : Proper ((≡ₚ) ==> impl) (owned E).
Proof.
  intros h h' P [H1 H2 H3]. split; [|setoid_rewrite <- P; done|done].
  intros a e He. by rewrite (H1 a e He), P.
Qed.

#[export] Instance opened_proper F n : Proper ((≡ₚ) ==> impl) (opened F n).
Proof. intros o o' P [H1 H2 H3 H4 H5]. split; setoid_rewrite <- P; done. Qed.

Record inv (s : Store) : Prop := {
  i_counted : counted (file_locks s) (entries s) (next_entry s) (uses (frames s));
  i_owned : owned (entries s) (holding (frames s));
  i_opened : opened (flocks s) (next_description s) (opens (frames s))
}.

(** *** Changes of the table *)

Lemma filter_none {A} (P : A -> Prop) `{forall x, Decision (P x)} (l : list A) : (forall x, x ∈ l -> ~ P x) -> filter P l = [].
Proof.
  induction l as [|x l IH]; intros Hn; [done|]. rewrite filter_cons_False by (apply Hn; left).
  apply IH. intros y Hy. apply Hn. by right.
Qed.

Lemma counted_new T E n u k e :
  counted T E n u -> T !! k = None -> refs e = 1 -> counted (<[k := n]> T) (<[n := e]> E) (S n) ((k, n) :: u).
Proof.
  intros [H1 H2 H3 H4] Hk He.
  assert (Hn : forall k' a, T !! k' = Some a -> a <> n).
  { intros k' a Ha ->. destruct (H1 k' n Ha) as [_ [e' [E' _]]]. specialize (H4 n (mk_is_Some _ _ E')). lia. }
  assert (H0 : filter (fun x => x.1 = k) u = []).
  { apply filter_none. intros [k' a] E' E2. cbn in E2. subst k'. by rewrite (H2 k a E') in Hk. }
  split.
  - intros k' a Ha. destruct (decide (k' = k)) as [->|Hne].
    + rewrite lookup_insert_eq in Ha. injection Ha as <-. split; [left|]. exists e. rewrite lookup_insert_eq, filter_cons_True, H0 by done. done.
    + rewrite lookup_insert_ne in Ha by done. destruct (H1 k' a Ha) as [Hin [e' [E' Hr]]]. split; [by right|].
      exists e'. rewrite lookup_insert_ne by (intros ->; by apply (Hn k' a)). by rewrite filter_cons_False by (cbn; congruence).
  - intros k' a [[= -> ->]|Hin]%elem_of_cons; [by rewrite lookup_insert_eq|].
    apply H2 in Hin. rewrite lookup_insert_ne; [done|]. intros ->. congruence.
  - intros k1 k2 a. rewrite !lookup_insert_Some. intros [[-> <-]|[_ Ha]] [[-> E2]|[_ Hb]]; [done| | |by eapply H3].
    + by destruct (Hn _ _ Hb).
    + by destruct (Hn _ _ Ha).
  - intros a [e' Ha]. destruct (decide (a = n)) as [->|Hne]; [lia|]. rewrite lookup_insert_ne in Ha by done.
    specialize (H4 a (mk_is_Some _ _ Ha)). lia.
Qed.

(** A change of one entry that changes its count as it changes the users of its key. *)
Lemma counted_entry T E n u u' k a e e' :
  counted T E n u -> T !! k = Some a -> E !! a = Some e ->
  (forall k' a', (k', a') ∈ u' -> (k', a') ∈ u \/ (k' = k /\ a' = a)) ->
  (forall k' a', (k', a') ∈ u -> k' <> k -> (k', a') ∈ u') -> (k, a) ∈ u' ->
  (forall k', k' <> k -> length (filter (fun x => x.1 = k') u') = length (filter (fun x => x.1 = k') u)) ->
  refs e' = Z.of_nat (length (filter (fun x => x.1 = k) u')) ->
  counted T (<[a := e']> E) n u'.
Proof.
  intros [H1 H2 H3 H4] Hk He Hsub Hsup Hin Hlen Hr. split.
  - intros k' b Hb. destruct (decide (k' = k)) as [->|Hne].
    + assert (b = a) as -> by congruence. split; [done|]. exists e'. by rewrite lookup_insert_eq.
    + destruct (H1 k' b Hb) as [Hin' [f [Hf Hrf]]]. split; [by apply Hsup|]. exists f.
      rewrite lookup_insert_ne by (intros ->; by apply Hne, (H3 _ _ b)). rewrite Hlen by done. done.
  - intros k' b Hb. destruct (Hsub k' b Hb) as [Hb'|[-> ->]]; [by apply H2|done].
  - done.
  - intros b Hb. apply H4. destruct (decide (b = a)) as [->|Hne]; [by eexists|]. by rewrite lookup_insert_ne in Hb.
Qed.

Lemma counted_again T E n u k a e e' :
  counted T E n u -> T !! k = Some a -> E !! a = Some e -> refs e' = refs e + 1 -> counted T (<[a := e']> E) n ((k, a) :: u).
Proof.
  intros Hc Hk He Hr. destruct (c_table _ _ _ _ Hc k a Hk) as [_ [e0 [E0 Hr0]]]. assert (e0 = e) as -> by congruence.
  eapply (counted_entry _ _ _ u); try done.
  - intros k' b [[= -> ->]|Hb]%elem_of_cons; auto.
  - intros k' b Hb _. by right.
  - left.
  - intros k' Hne. by rewrite filter_cons_False by (cbn; congruence).
  - rewrite filter_cons_True by done. cbn [length]. lia.
Qed.

Lemma counted_same T E n u k a e e' :
  counted T E n u -> T !! k = Some a -> E !! a = Some e -> refs e' = refs e -> counted T (<[a := e']> E) n u.
Proof.
  intros Hc Hk He Hr. destruct (c_table _ _ _ _ Hc k a Hk) as [Hin [e0 [E0 Hr0]]]. assert (e0 = e) as -> by congruence.
  eapply (counted_entry _ _ _ u); try done; [by auto|congruence].
Qed.

(** One user fewer: another remains, or the entry goes. *)
Lemma counted_less T E n u k a e e' :
  counted T E n ((k, a) :: u) -> E !! a = Some e -> refs e' = refs e - 1 ->
  counted (if refs e - 1 =? 0 then delete k T else T) (<[a := e']> E) n u.
Proof.
  intros Hc He Hr. assert (Hk : T !! k = Some a) by (apply (c_uses _ _ _ _ Hc); left).
  destruct (c_table _ _ _ _ Hc k a Hk) as [_ [e0 [E0 Hr0]]]. assert (e0 = e) as -> by congruence.
  rewrite filter_cons_True in Hr0 by done. cbn [length] in Hr0.
  assert (Hlen : forall k', k' <> k -> filter (fun x => x.1 = k') u = filter (fun x => x.1 = k') ((k, a) :: u)).
  { intros k' Hne. by rewrite filter_cons_False by (cbn; congruence). }
  destruct (Z.eqb_spec (refs e - 1) 0) as [H0|H0].
  - assert (Hnil : filter (fun x => x.1 = k) u = []) by (apply nil_length_inv; lia).
    assert (Hno : forall b, (k, b) ∉ u).
    { intros b Hb. assert (Hf : (k, b) ∈ filter (fun x => x.1 = k) u) by (by apply list_elem_of_filter). rewrite Hnil in Hf. by apply elem_of_nil in Hf. }
    destruct Hc as [H1 H2 H3 H4]. split.
    + intros k' b. rewrite lookup_delete_Some. intros [Hne Hb]. destruct (H1 k' b Hb) as [Hin [f [Hf Hrf]]].
      split; [apply elem_of_cons in Hin as [[= -> ->]|Hin]; done|]. exists f.
      rewrite lookup_insert_ne by (intros ->; by apply Hne, (H3 _ _ b)). rewrite Hlen by done. done.
    + intros k' b Hb. rewrite lookup_delete_ne by (intros ->; by apply (Hno b)). apply H2. by right.
    + intros k1 k2 b. rewrite !lookup_delete_Some. intros [_ Ha] [_ Hb]. by eapply H3.
    + intros b Hb. apply H4. destruct (decide (b = a)) as [->|Hne]; [by eexists|]. by rewrite lookup_insert_ne in Hb.
  - eapply (counted_entry _ _ _ ((k, a) :: u)); try done.
    + intros k' b Hb. left. by right.
    + intros k' b [[= -> ->]|Hb]%elem_of_cons Hne; done.
    + destruct (filter (fun x => x.1 = k) u) as [|[k' b] l] eqn:Ef; [cbn in Hr0; lia|].
      assert (Hb : (k', b) ∈ filter (fun x => x.1 = k) u) by (rewrite Ef; left).
      apply list_elem_of_filter in Hb as [E1 Hb]. cbn in E1. subst k'.
      assert (T !! k = Some b) as Hkb by (apply (c_uses _ _ _ _ Hc); by right). congruence.
    + intros k' Hne. by rewrite (Hlen k').
    + lia.
Qed.

(** *** Changes of an entry's lock *)

Lemma owned_entry E h h' a e' :
  owned E h ->
  (forall b, b <> a -> length (filter (fun x => x.2 = b) h') = length (filter (fun x => x.2 = b) h)) ->
  (forall t b, (t, b) ∈ h' -> b <> a -> (t, b) ∈ h) ->
  depth e' = length (filter (fun x => x.2 = a) h') -> (forall t, (t, a) ∈ h' -> owner e' = Some t) ->
  (depth e' = 0%nat -> owner e' = None) -> owned (<[a := e']> E) h'.
Proof.
  intros [H1 H2 H3] Hlen Hsub Hd Ho Hi. split.
  - intros b f Hf. destruct (decide (b = a)) as [->|Hne].
    + rewrite lookup_insert_eq in Hf. by injection Hf as <-.
    + rewrite lookup_insert_ne in Hf by done. rewrite Hlen by done. by apply H1.
  - intros t b Hin. destruct (decide (b = a)) as [->|Hne].
    + exists e'. rewrite lookup_insert_eq. auto.
    + rewrite lookup_insert_ne by done. auto.
  - intros b f Hf. destruct (decide (b = a)) as [->|Hne].
    + rewrite lookup_insert_eq in Hf. by injection Hf as <-.
    + rewrite lookup_insert_ne in Hf by done. by apply (H3 b).
Qed.

Lemma owned_take E h t a e e' :
  owned E h -> E !! a = Some e -> owner e = None \/ owner e = Some t ->
  owner e' = Some t -> depth e' = S (depth e) -> owned (<[a := e']> E) ((t, a) :: h).
Proof.
  intros Ho He Hfree Hown Hd. apply (owned_entry E h); [done| | | | |lia].
  - intros b Hne. by rewrite filter_cons_False by (cbn; congruence).
  - intros t' b [[= -> ->]|Hin]%elem_of_cons Hne; done.
  - rewrite filter_cons_True by done. cbn [length]. by rewrite Hd, (o_depth _ _ Ho a e He).
  - intros t' [[= ->]|Hin]%elem_of_cons; [done|]. destruct (o_owner _ _ Ho t' a Hin) as [e0 [E0 O0]].
    assert (e0 = e) as -> by congruence. destruct Hfree; congruence.
Qed.

Lemma owned_give E h t a e e' :
  owned E ((t, a) :: h) -> E !! a = Some e ->
  owner e' = (if (depth e =? 1)%nat then None else owner e) -> depth e' = pred (depth e) -> owned (<[a := e']> E) h.
Proof.
  intros Ho He Hown Hd. assert (Hde := o_depth _ _ Ho a e He). rewrite filter_cons_True in Hde by done. cbn [length] in Hde.
  apply (owned_entry E ((t, a) :: h)); [done| | | | |].
  - intros b Hne. by rewrite filter_cons_False by (cbn; congruence).
  - intros t' b Hin _. by right.
  - lia.
  - intros t' Hin. assert (Hf : (t', a) ∈ filter (fun x => x.2 = a) h) by (by apply list_elem_of_filter).
    destruct (filter (fun x => x.2 = a) h) eqn:Ef; [by apply elem_of_nil in Hf|]. cbn [length] in Hde.
    rewrite Hown, (proj2 (Nat.eqb_neq _ _)) by lia.
    destruct (o_owner _ _ Ho t' a) as [e0 [E0 O0]]; [by right|]. congruence.
  - intros H0. rewrite Hown, (proj2 (Nat.eqb_eq _ _)) by lia. done.
Qed.

Lemma owned_same E h a e e' :
  owned E h -> E !! a = Some e -> owner e' = owner e -> depth e' = depth e -> owned (<[a := e']> E) h.
Proof.
  intros Ho He Hown Hd. apply (owned_entry E h); [done|done|done| | |].
  - by rewrite Hd, (o_depth _ _ Ho a e He).
  - intros t Hin. destruct (o_owner _ _ Ho t a Hin) as [e0 [E0 O0]]. congruence.
  - rewrite Hd, Hown. by apply (o_idle _ _ Ho a e He).
Qed.

Lemma owned_new E h a e' : owned E h -> E !! a = None -> owner e' = None -> depth e' = 0%nat -> owned (<[a := e']> E) h.
Proof.
  intros Ho He Hown Hd.
  assert (Hno : forall t, (t, a) ∉ h) by (intros t Hin; destruct (o_owner _ _ Ho t a Hin) as [e0 [E0 _]]; congruence).
  apply (owned_entry E h); [done|done|done| | |done].
  - rewrite filter_none; [done|]. intros [t b] Hin E0. cbn in E0. subst b. by apply (Hno t).
  - intros t Hin. by destruct (Hno t).
Qed.

(** *** Changes of a lock file *)

Lemma unlock_other d name name' m : name' <> name -> unlock d name m !! name' = m !! name'.
Proof. intros Hne. unfold unlock. case_bool_decide; [by rewrite lookup_delete_ne|done]. Qed.

Lemma unlock_own d name m d' : unlock d name m !! name = Some (Description d') -> d' <> d /\ m !! name = Some (Description d').
Proof. unfold unlock. case_bool_decide as Hd; [by rewrite lookup_delete_eq|]. intros H. split; [congruence|done]. Qed.

Lemma unlock_not d name m h : m !! name = Some h -> h <> Description d -> unlock d name m = m.
Proof. intros H1 H2. unfold unlock. by rewrite bool_decide_false by congruence. Qed.

Lemma unlock_Some d name name' m h : unlock d name m !! name' = Some h -> m !! name' = Some h /\ (name' = name -> h <> Description d).
Proof.
  unfold unlock. case_bool_decide as Hd.
  - rewrite lookup_delete_Some. intros [Hne Hm]. split; [done|]. congruence.
  - intros Hm. split; [done|]. intros -> ->. done.
Qed.

Lemma opened_open F n o k : opened F n o -> valid k = true -> opened F (S n) ((n, (k, Opened n)) :: o).
Proof.
  intros [H1 H2 H3 H4 H5] Hv. split.
  - cbn. constructor; [|done]. intros [[d x] [-> Hin]]%list_elem_of_fmap. specialize (H2 _ _ Hin). cbn in H2. lia.
  - intros d x [[= -> ->]|Hin]%elem_of_cons; [lia|]. specialize (H2 _ _ Hin). lia.
  - intros d k' d' [[=]|Hin]%elem_of_cons. by eapply H3.
  - intros name d Hd. destruct (H4 name d Hd) as [k' [p [Hin Hp]]]. exists k', p. split; [by right|done].
  - intros d k' p [[= -> -> ->]|Hin]%elem_of_cons; [done|]. by eapply H5.
Qed.

Lemma opened_lock F n o k d :
  opened F n ((d, (k, Opened d)) :: o) -> F !! lock_file k = None ->
  opened (<[lock_file k := Description d]> F) n ((d, (k, Held d)) :: o).
Proof.
  intros [H1 H2 H3 H4 H5] Hf. split.
  - done.
  - intros d' x [[= -> ->]|Hin]%elem_of_cons; eapply H2; [left|right; done].
  - intros d' k' d'' [[= -> -> ->]|Hin]%elem_of_cons; [by rewrite lookup_insert_eq|].
    specialize (H3 d' k' d'' ltac:(by right)). rewrite lookup_insert_ne; [done|]. congruence.
  - intros name d'. rewrite lookup_insert_Some. intros [[<- [= <-]]|[Hne Hd]]; [by exists k, (Held d); repeat split; [left|]|].
    destruct (H4 name d' Hd) as [k' [p [Hin [Hn Hp]]]]. apply elem_of_cons in Hin as [[= -> -> ->]|Hin]; [done|].
    exists k', p. split; [by right|done].
  - intros d' k' p [[= -> -> ->]|Hin]%elem_of_cons; eapply H5; [left|right; done].
Qed.

Lemma opened_drop F n o k d p : opened F n ((d, (k, p)) :: o) -> opened (unlock d (lock_file k) F) n o.
Proof.
  intros [H1 H2 H3 H4 H5]. apply NoDup_cons in H1 as [Hd H1].
  assert (Hne : forall d' x, (d', x) ∈ o -> d' <> d) by (intros d' x Hin ->; apply Hd, list_elem_of_fmap; by exists (d, x)).
  split; [done|intros d' x Hin; eapply H2; by right| | |intros d' k' p' Hin; eapply H5; by right].
  - intros d' k' d'' Hin. assert (Hh := H3 d' k' d'' ltac:(by right)).
    destruct (decide (lock_file k' = lock_file k)) as [E|E]; [|by rewrite unlock_other].
    rewrite E in *. rewrite (unlock_not _ _ _ _ Hh); [done|]. intros [= ->]. by apply (Hne _ _ Hin).
  - intros name d' [Hm Hx]%unlock_Some. destruct (H4 name d' Hm) as [k' [p' [Hin [Hn Hp]]]].
    apply elem_of_cons in Hin as [[= -> -> ->]|Hin]; [by destruct Hx|]. exists k', p'. done.
Qed.

Lemma opened_waiting F n o k d : opened F n ((d, (k, Opened d)) :: o) -> opened F n o.
Proof.
  intros Ho. assert (Hd := opened_drop _ _ _ _ _ _ Ho). enough (E : unlock d (lock_file k) F = F) by (by rewrite E in Hd).
  unfold unlock. case_bool_decide as Hf; [|done]. exfalso.
  destruct (p_holder _ _ _ Ho _ _ Hf) as [k' [p [Hin [Hn Hp]]]]. apply elem_of_cons in Hin as [[= -> ->]|Hin]; [done|].
  assert (H1 := p_nodup _ _ _ Ho). apply NoDup_cons in H1 as [H1 _]. apply H1, list_elem_of_fmap. by exists (d, (k', p)).
Qed.

Lemma opened_finished F n o k d F' :
  opened F n ((d, (k, Held d)) :: o) -> F' = F \/ F' = unlock d (lock_file k) F -> opened F' n ((d, (k, Unlocked d)) :: o).
Proof.
  intros Ho HF.
  assert (Hsame : opened F n ((d, (k, Unlocked d)) :: o)).
  { destruct Ho as [H1 H2 H3 H4 H5]. split; [done|..].
    - intros d' x [[= -> ->]|Hin]%elem_of_cons; eapply H2; [left|right; done].
    - intros d' k' d'' [[=]|Hin]%elem_of_cons. eapply H3. by right.
    - intros name d' Hd. destruct (H4 name d' Hd) as [k' [p [Hin Hp]]].
      apply elem_of_cons in Hin as [[= -> -> ->]|Hin]; [exists k, (Unlocked d); repeat split; [left|tauto|done]|].
      exists k', p. split; [by right|done].
    - intros d' k' p [[= -> -> ->]|Hin]%elem_of_cons; eapply H5; [left|right; done]. }
  destruct HF as [->| ->]; [done|]. assert (Hd := opened_drop _ _ _ _ _ _ Ho).
  destruct Hsame as [H1 H2 H3 H4 H5]. destruct Hd as [_ _ H6 H7 _]. split; [done|done| |intros name d' Hh|done].
  - intros d' k' d'' [[=]|Hin]%elem_of_cons. by eapply H6.
  - destruct (H7 name d' Hh) as [k' [p [Hin Hp]]]. exists k', p. split; [by right|done].
Qed.

Lemma opened_foreign F n o name : opened F n o -> F !! name = None -> opened (<[name := Foreign]> F) n o.
Proof.
  intros [H1 H2 H3 H4 H5] Hf. split; [done|done| | |done].
  - intros d k d' Hin. specialize (H3 d k d' Hin). rewrite lookup_insert_ne; [done|]. congruence.
  - intros name' d. rewrite lookup_insert_Some. intros [[_ [=]]|[_ Hd]]. by apply H4.
Qed.

Lemma opened_gone F n o name : opened F n o -> F !! name = Some Foreign -> opened (delete name F) n o.
Proof.
  intros [H1 H2 H3 H4 H5] Hf. split; [done|done| | |done].
  - intros d k d' Hin. specialize (H3 d k d' Hin). rewrite lookup_delete_ne; [done|]. congruence.
  - intros name' d. rewrite lookup_delete_Some. intros [_ Hd]. by apply H4.
Qed.

(** *** Steps *)

#[export] Instance uses_proper : Proper ((≡ₚ) ==> (≡ₚ)) uses.
Proof. intros l l' P. by apply Permutation_map. Qed.

Lemma omap_perm {A B} (g : A -> option B) l l' : l ≡ₚ l' -> omap g l ≡ₚ omap g l'.
Proof.
  induction 1 as [|x l l' _ IH|x y l|l l' l'' _ IH1 _ IH2]; [done| | |by etrans].
  - cbn. destruct (g x); [by constructor|done].
  - cbn. destruct (g x), (g y); [apply perm_swap|done..].
Qed.

#[export] Instance holding_proper : Proper ((≡ₚ) ==> (≡ₚ)) holding.
Proof. intros l l' P. by apply omap_perm. Qed.

#[export] Instance opens_proper : Proper ((≡ₚ) ==> (≡ₚ)) opens.
Proof. intros l l' P. by apply omap_perm. Qed.

Lemma frame_perm i (l : list Frame) f : l !! i = Some f -> l ≡ₚ f :: delete i l.
Proof. apply delete_Permutation. Qed.

Lemma update_perm i (l : list Frame) f f' : l !! i = Some f -> <[i := f']> l ≡ₚ f' :: delete i l.
Proof.
  intros Hi. rewrite (insert_take_drop l i f') by (by eapply lookup_lt_Some).
  rewrite <- Permutation_middle. by rewrite delete_take_drop.
Qed.

Lemma inv_of_views s u h o :
  uses (frames s) ≡ₚ u -> holding (frames s) ≡ₚ h -> opens (frames s) ≡ₚ o ->
  inv s <-> counted (file_locks s) (entries s) (next_entry s) u /\ owned (entries s) h /\ opened (flocks s) (next_description s) o.
Proof.
  intros P1 P2 P3. split.
  - intros [H1 H2 H3]. by rewrite P1 in H1; rewrite P2 in H2; rewrite P3 in H3.
  - intros (H1 & H2 & H3). rewrite <- P1 in H1; rewrite <- P2 in H2; rewrite <- P3 in H3. by split.
Qed.

(** The invariant with one frame singled out. *)
Definition inv_at (s : Store) (g rest : list Frame) : Prop :=
  counted (file_locks s) (entries s) (next_entry s) (uses g ++ uses rest) /\
  owned (entries s) (holding g ++ holding rest) /\ opened (flocks s) (next_description s) (opens g ++ opens rest).

Lemma views_app g rest l : l ≡ₚ g ++ rest ->
  uses l ≡ₚ uses g ++ uses rest /\ holding l ≡ₚ holding g ++ holding rest /\ opens l ≡ₚ opens g ++ opens rest.
Proof.
  intros ->. unfold uses, holding, opens. rewrite map_app, !omap_app. done.
Qed.

Lemma inv_split s g rest : frames s ≡ₚ g ++ rest -> inv s <-> inv_at s g rest.
Proof. intros P. destruct (views_app _ _ _ P) as (P1 & P2 & P3). by apply inv_of_views. Qed.

Lemma inv_lookup i s f : frames s !! i = Some f -> inv s -> inv_at s [f] (delete i (frames s)).
Proof. intros Hi. by apply inv_split, frame_perm. Qed.

Lemma inv_update i s f s' f' : frames s !! i = Some f -> frames s' = frames s ->
  inv_at s' [f'] (delete i (frames s)) -> inv (update i f' s').
Proof.
  intros Hi E. intros H0. apply (inv_split _ [f'] (delete i (frames s))); [|done].
  cbn. rewrite E. by apply (update_perm i (frames s) f f').
Qed.

Lemma enter_lock_inv t k s : inv s -> inv (enter_lock t k s).
Proof.
  intros Hinv. unfold enter_lock. destruct (decide (k = Unhashable)) as [->|Hk]; [by destruct Hinv|].
  assert (Hpush : forall a s1, inv_at s1 [{| thread := t; key := k; entry := a; phase := Counted; outcome := None |}] (frames s1) ->
    inv (set_frames (frames s1 ++ [{| thread := t; key := k; entry := a; phase := Counted; outcome := None |}]) s1)).
  { intros a s1 H1. eapply inv_split; [|exact H1]. cbn. by rewrite Permutation_app_comm. }
  assert (Hgoal : inv (match file_locks s !! k with
    | Some a =>
      let e := default {| owner := None; depth := 0; refs := 0 |} (entries s !! a) in
      set_frames (frames s ++ [{| thread := t; key := k; entry := a; phase := Counted; outcome := None |}])
        (set_entry a {| owner := owner e; depth := depth e; refs := refs e + 1 |} s)
    | None =>
      let a := next_entry s in
      set_frames (frames s ++ [{| thread := t; key := k; entry := a; phase := Counted; outcome := None |}])
        (set_table (<[k := a]> (file_locks s)) (set_next_entry (S a) (set_entry a {| owner := None; depth := 0; refs := 0 + 1 |} s)))
    end)); [|by destruct k].
  destruct Hinv as [H1 H2 H3]. destruct (file_locks s !! k) as [a|] eqn:Ek.
  - destruct (c_table _ _ _ _ H1 k a Ek) as [_ [e [Ee _]]]. rewrite Ee. cbn [default].
    apply (Hpush a (set_entry a _ s)). split; [|split].
    + by eapply counted_again.
    + by eapply owned_same.
    + done.
  - apply (Hpush (next_entry s) (set_table _ (set_next_entry _ (set_entry _ _ s)))). split; [|split].
    + by apply counted_new.
    + apply owned_new; [done| |done|done]. destruct (entries s !! next_entry s) eqn:En; [|done].
      assert (Hlt := c_fresh _ _ _ _ H1 _ (mk_is_Some _ _ En)). lia.
    + done.
Qed.

Lemma at_frame_Some i k s s' : at_frame i k s = Some s' -> exists f, frames s !! i = Some f /\ innermost i f s = true /\ k i f s = Some s'.
Proof.
  unfold at_frame. destruct (frames s !! i) as [f|]; [|done]. destruct (innermost i f s) eqn:E; [|done].
  intros Hk. by exists f.
Qed.

(** A frame's entry is the one the table has for its key. *)
Lemma frame_entry i s f : inv s -> frames s !! i = Some f -> file_locks s !! key f = Some (entry f).
Proof.
  intros [H1 _ _] Hi. apply (c_uses _ _ _ _ H1), list_elem_of_fmap. exists f. split; [done|]. by eapply list_elem_of_lookup_2.
Qed.

Section moves.
Variables (i : nat) (s s' : Store) (f : Frame).
Hypothesis Hinv : inv s.
Hypothesis Hi : frames s !! i = Some f.

Lemma acquire_inv : acquire i f s = Some s' -> inv s'.
Proof using Hinv Hi.
  destruct (inv_lookup _ _ _ Hi Hinv) as (V1 & V2 & V3). assert (Hk := frame_entry _ _ _ Hinv Hi).
  unfold acquire. destruct (phase f) eqn:Ep; try done. destruct (entries s !! entry f) as [e|] eqn:Ee; [|done].
  destruct (bool_decide _ || bool_decide _) eqn:Ef; [|done]. intros [= <-].
  apply orb_true_iff in Ef. rewrite !bool_decide_eq_true in Ef.
  apply (inv_update i s f); [done|done|]. unfold inv_at, holding, opens, holds, description in *. cbn in *. rewrite Ep in *. cbn in *.
  split; [by eapply counted_same|split; [by eapply owned_take|done]].
Qed.

Lemma open_lock_inv ok : open_lock ok i f s = Some s' -> inv s'.
Proof using Hinv Hi.
  destruct (inv_lookup _ _ _ Hi Hinv) as (V1 & V2 & V3).
  unfold open_lock. destruct (phase f) eqn:Ep; try done. intros [= <-].
  destruct (valid (key f)) eqn:Ev; [destruct ok|]; cbn [negb]; apply (inv_update i s f); try done;
    unfold inv_at, holding, opens, holds, description in *; cbn in *; rewrite Ep in *; cbn in *; split_and!; try done.
  by apply opened_open.
Qed.

Lemma flock_inv ok : flock ok i f s = Some s' -> inv s'.
Proof using Hinv Hi.
  destruct (inv_lookup _ _ _ Hi Hinv) as (V1 & V2 & V3).
  unfold flock. destruct (phase f) as [| |d| | | |] eqn:Ep; try done. destruct ok; cbn [negb].
  - destruct (flocks s !! lock_file (key f)) eqn:Ef; [done|]. intros [= <-].
    apply (inv_update i s f); [done|done|]. unfold inv_at, holding, opens, holds, description in *. cbn in *. rewrite Ep in *. cbn in *.
    split_and!; [done|done|by apply opened_lock].
  - intros [= <-]. apply (inv_update i s f); [done|done|].
    unfold inv_at, holding, opens, holds, description in *. cbn in *. rewrite Ep in *. cbn in *.
    split_and!; [done|done|by eapply opened_waiting].
Qed.

Lemma finish_body_inv out ok : finish_body out ok i f s = Some s' -> inv s'.
Proof using Hinv Hi.
  destruct (inv_lookup _ _ _ Hi Hinv) as (V1 & V2 & V3).
  unfold finish_body. destruct (phase f) as [| | |d| | |] eqn:Ep; try done. intros [= <-].
  destruct ok; apply (inv_update i s f); try done; unfold inv_at, holding, opens, holds, description in *; cbn in *; rewrite Ep in *; cbn in *;
    split_and!; try done; eapply opened_finished; eauto.
Qed.

Lemma close_inv : close i f s = Some s' -> inv s'.
Proof using Hinv Hi.
  destruct (inv_lookup _ _ _ Hi Hinv) as (V1 & V2 & V3).
  unfold close. destruct (phase f) as [| | | |d| |] eqn:Ep; try done. intros [= <-].
  apply (inv_update i s f); try done. unfold inv_at, holding, opens, holds, description in *. cbn in *. rewrite Ep in *. cbn in *.
  split_and!; [done|done|by eapply opened_drop].
Qed.

Lemma release_inv : release i f s = Some s' -> inv s'.
Proof using Hinv Hi.
  destruct (inv_lookup _ _ _ Hi Hinv) as (V1 & V2 & V3). assert (Hk := frame_entry _ _ _ Hinv Hi).
  unfold release. destruct (phase f) eqn:Ep; try done. destruct (entries s !! entry f) as [e|] eqn:Ee; [|done]. intros [= <-].
  apply (inv_update i s f); try done. unfold inv_at, holding, opens, holds, description in *. cbn in *. rewrite Ep in *. cbn in *.
  split_and!; [by eapply counted_same|by eapply owned_give|done].
Qed.

Lemma leave_lock_inv : leave_lock i f s = Some s' -> inv s'.
Proof using Hinv Hi.
  destruct (inv_lookup _ _ _ Hi Hinv) as (V1 & V2 & V3). assert (Hk := frame_entry _ _ _ Hinv Hi).
  unfold leave_lock. destruct (phase f) eqn:Ep; try done. destruct (entries s !! entry f) as [e|] eqn:Ee; [|done]. intros [= <-].
  rewrite Hk. unfold inv_at, holding, opens, holds, description in *. cbn in V1, V2, V3. rewrite Ep in V2, V3. cbn in V2, V3.
  assert (C1 := counted_less _ _ _ _ _ _ _ {| owner := owner e; depth := depth e; refs := refs e - 1 |} V1 Ee eq_refl).
  destruct (refs e - 1 =? 0); split; try done; by eapply owned_same.
Qed.

End moves.

Lemma lock_step_inv s e s' : inv s -> step s e = Some s' -> inv s'.
Proof.
  intros Hinv. destruct e as [t k|i|i ok|i ok|i out ok|i|i|i|name|name]; cbn [step].
  - intros [= <-]. by apply enter_lock_inv.
  - intros (f & Hf & _ & Hk)%at_frame_Some. by eapply acquire_inv.
  - intros (f & Hf & _ & Hk)%at_frame_Some. by eapply open_lock_inv.
  - intros (f & Hf & _ & Hk)%at_frame_Some. by eapply flock_inv.
  - intros (f & Hf & _ & Hk)%at_frame_Some. by eapply finish_body_inv.
  - intros (f & Hf & _ & Hk)%at_frame_Some. by eapply close_inv.
  - intros (f & Hf & _ & Hk)%at_frame_Some. by eapply release_inv.
  - intros (f & Hf & _ & Hk)%at_frame_Some. by eapply leave_lock_inv.
  - destruct (flocks s !! name) eqn:Ef; [done|]. intros [= <-]. destruct Hinv. split; try done. by apply opened_foreign.
  - destruct (flocks s !! name) as [[|]|] eqn:Ef; try done. intros [= <-]. destruct Hinv. split; try done. by apply opened_gone.
Qed.

Lemma lock_run_inv l : forall s s', inv s -> run l s = Some s' -> inv s'.
Proof.
  induction l as [|e l IH]; intros s s' Hinv; cbn [run]; [by intros [= <-]|].
  destruct (step s e) as [s1|] eqn:E; [|done]. apply IH. by eapply lock_step_inv.
Qed.

Lemma empty_store_inv : inv empty_store.
Proof.
  split; cbn.
  - split; cbn; try done; [by intros k a []%elem_of_nil|by intros a [e He]].
  - split; cbn; try done. by intros t a []%elem_of_nil.
  - split; cbn; try done; [by constructor|by intros d x []%elem_of_nil|by intros d k d' []%elem_of_nil|by intros d k p []%elem_of_nil].
Qed.

Lemma locks_reachable_inv l s : run l empty_store = Some s -> inv s.
Proof. apply lock_run_inv, empty_store_inv. Qed.

(** ** Every call that is let run comes to its end *)

Definition rank (p : Phase) : nat :=
  match p with Counted => 7 | Locked => 6 | Opened _ => 5 | Held _ => 4 | Unlocked _ => 3 | Leaving => 2 | Released => 1 end.

Definition weight (s : Store) : nat := sum_list_with (fun f => rank (phase f)) (frames s).

(** No thread is inside two calls, and no other process holds a lock file. *)
Definition quiet (s : Store) : Prop := NoDup (thread <$> frames s) /\ forall name, flocks s !! name <> Some Foreign.

(** The step a call takes next, when its body returns and nothing fails. *)
Definition proceed (i : nat) (f : Frame) : event :=
  match phase f with
  | Counted => Acquire i | Locked => Open i true | Opened _ => Flock i true | Held _ => Finish i None true
  | Unlocked _ => Close i | Leaving => Release i | Released => Leave i
  end.

Definition unblocked (s : Store) (f : Frame) : Prop :=
  match phase f with
  | Counted => forall e, entries s !! entry f = Some e -> owner e = None
  | Opened _ => flocks s !! lock_file (key f) = None
  | _ => True
  end.

Lemma innermost_quiet i f s : quiet s -> frames s !! i = Some f -> innermost i f s = true.
Proof.
  intros [Hn _] Hi. apply forallb_forall. intros g Hg. apply list_elem_of_In in Hg. apply negb_true_iff, Nat.eqb_neq. intros E.
  rewrite <- (take_drop_middle _ _ _ Hi) in Hn. rewrite fmap_app in Hn. apply NoDup_app in Hn as (_ & _ & Hn). cbn in Hn.
  apply NoDup_cons in Hn as [Hn _]. apply Hn, list_elem_of_fmap. by exists g.
Qed.

Lemma weight_perm i s f : frames s !! i = Some f ->
  weight s = (rank (phase f) + sum_list_with (fun f => rank (phase f)) (delete i (frames s)))%nat.
Proof. intros Hi. unfold weight. by rewrite (frame_perm i _ f Hi) at 1. Qed.

Lemma unlock_no_foreign d name m : (forall n, m !! n <> Some Foreign) -> forall n, unlock d name m !! n <> Some Foreign.
Proof. intros Hm n [Hn _]%unlock_Some. by apply (Hm n). Qed.

Lemma quiet_update i s f s' f' : quiet s -> frames s !! i = Some f -> frames s' = frames s -> thread f' = thread f ->
  (rank (phase f') < rank (phase f))%nat -> (forall n, flocks s' !! n <> Some Foreign) ->
  quiet (update i f' s') /\ (weight (update i f' s') < weight s)%nat.
Proof.
  intros [Hn _] Hi E Ht Hr Hf. split; [split; [|done]|].
  - cbn. rewrite E. rewrite (list_fmap_insert thread (frames s) i f'), Ht, list_insert_id; [done|]. by rewrite list_lookup_fmap, Hi.
  - rewrite (weight_perm i s f Hi). unfold weight. cbn. rewrite E, (update_perm i (frames s) f f' Hi). cbn. lia.
Qed.

Lemma proceed_moves i f s : inv s -> quiet s -> frames s !! i = Some f -> unblocked s f ->
  exists s', step s (proceed i f) = Some s' /\ quiet s' /\ (weight s' < weight s)%nat.
Proof.
  intros Hinv Hq Hi Hu. assert (Hk := frame_entry _ _ _ Hinv Hi). destruct (c_table _ _ _ _ (i_counted _ Hinv) _ _ Hk) as [_ [e [Ee _]]].
  assert (Hat : forall k, at_frame i k s = k i f s) by (intros k; unfold at_frame; by rewrite Hi, (innermost_quiet i f s Hq Hi)).
  assert (Hf := proj2 Hq). unfold proceed, unblocked in *. destruct (phase f) as [| |d|d|d| |] eqn:Ep; cbn [step]; rewrite Hat.
  - unfold acquire. rewrite Ep, Ee, (Hu e Ee). rewrite bool_decide_true by done. cbn [orb]. eexists. split; [reflexivity|].
    apply (quiet_update i s f); rewrite ?Ep; cbn; auto; try lia.
  - unfold open_lock. rewrite Ep. eexists. split; [reflexivity|].
    destruct (valid (key f)); cbn [negb]; apply (quiet_update i s f); rewrite ?Ep; cbn; auto; try lia.
  - unfold flock. rewrite Ep, Hu. cbn [negb]. eexists. split; [reflexivity|].
    apply (quiet_update i s f); rewrite ?Ep; cbn; auto; try lia. intros n. rewrite lookup_insert_Some. intros [[_ [=]]|[_ Hn]]. by apply (Hf n).
  - unfold finish_body. rewrite Ep. eexists. split; [reflexivity|].
    apply (quiet_update i s f); rewrite ?Ep; cbn; auto; try lia. by apply unlock_no_foreign.
  - unfold close. rewrite Ep. eexists. split; [reflexivity|].
    apply (quiet_update i s f); rewrite ?Ep; cbn; auto; try lia. by apply unlock_no_foreign.
  - unfold release. rewrite Ep, Ee. eexists. split; [reflexivity|].
    apply (quiet_update i s f); rewrite ?Ep; cbn; auto; try lia.
  - unfold leave_lock. rewrite Ep, Ee, Hk. eexists. split; [reflexivity|].
    assert (Hd : NoDup (thread <$> (delete i (frames s)))).
    { assert (Hn := proj1 Hq). rewrite (frame_perm i _ f Hi) in Hn. by apply NoDup_cons in Hn as [_ Hn]. }
    assert (Hw := weight_perm i s f Hi). rewrite Ep in Hw. unfold weight in *.
    destruct (refs e - 1 =? 0); (split; [by split|]); cbn [frames add_result set_frames set_entry set_table rank] in *; lia.
Qed.

(** Some call can go on: a lock somebody waits for is held by a call that runs. *)
Lemma some_unblocked s : inv s -> quiet s -> frames s <> [] -> exists i f, frames s !! i = Some f /\ unblocked s f.
Proof.
  intros Hinv Hq Hne.
  destruct (decide (Exists (fun f => (rank (phase f) <> 7 /\ rank (phase f) <> 5)%nat) (frames s))) as [Hx|Hx].
  { apply Exists_exists in Hx as [f [Hin [H7 H5]]]. apply list_elem_of_lookup in Hin as [i Hi]. exists i, f. split; [done|].
    unfold unblocked. by destruct (phase f). }
  assert (Hwait : forall f, f ∈ frames s -> (rank (phase f) = 7 \/ rank (phase f) = 5)%nat).
  { intros f Hin. destruct (decide (rank (phase f) = 7%nat)); [by left|]. destruct (decide (rank (phase f) = 5%nat)); [by right|].
    exfalso. apply Hx, Exists_exists. by exists f. }
  destruct (decide (Exists (fun f => rank (phase f) = 5%nat) (frames s))) as [Ho|Ho].
  - apply Exists_exists in Ho as [f [Hin H5]]. apply list_elem_of_lookup in Hin as [i Hi]. exists i, f. split; [done|].
    unfold unblocked. destruct (phase f) eqn:Ep; try done. destruct (flocks s !! lock_file (key f)) as [[d'|]|] eqn:Ef; [|by apply (proj2 Hq) in Ef|done].
    exfalso. destruct (p_holder _ _ _ (i_opened _ Hinv) _ _ Ef) as [k [p [Hin [_ Hp]]]].
    apply list_elem_of_omap in Hin as [g [Hg Eg]]. destruct (Hwait g Hg) as [H7|H7]; unfold description in Eg; destruct (phase g); cbn in *; try done.
    injection Eg as E1 E2 E3. by rewrite E1 in E3.
  - destruct (frames s) as [|f l] eqn:El; [done|]. exists 0%nat, f. split; [done|].
    unfold unblocked. destruct (phase f) eqn:Ep; try done; [|exfalso; destruct (Hwait f ltac:(left)) as [H7|H7]; rewrite Ep in H7; cbn in H7; [done|]; apply Ho; left; by rewrite Ep].
    intros e Ee. apply (o_idle _ _ (i_owned _ Hinv) (entry f) e Ee). rewrite (o_depth _ _ (i_owned _ Hinv) _ _ Ee).
    rewrite filter_none; [done|]. intros [t a] Hin _. apply list_elem_of_omap in Hin as [g [Hg Eg]]. rewrite El in Hg.
    destruct (Hwait g Hg) as [H7|H7]; [unfold holds in Eg; by destruct (phase g)|]. apply Ho, Exists_exists. by exists g.
Qed.

Lemma drain_from n : forall s, (weight s < n)%nat -> inv s -> quiet s ->
  exists l s', Forall (fun e => match e with Enter _ _ | ForeignLock _ | ForeignUnlock _ => False | _ => True end) l /\
    run l s = Some s' /\ frames s' = [] /\ inv s' /\ quiet s'.
Proof.
  induction n as [|n IH]; intros s Hw Hinv Hq; [lia|].
  destruct (decide (frames s = [])) as [E|Hne]; [by exists [], s|].
  destruct (some_unblocked s Hinv Hq Hne) as [i [f [Hi Hu]]].
  destruct (proceed_moves i f s Hinv Hq Hi Hu) as [s1 [E1 [Q1 W1]]].
  destruct (IH s1) as [l [s' [Hl [Hr H']]]]; [lia|by eapply lock_step_inv|done|].
  exists (proceed i f :: l), s'. cbn [run]. rewrite E1. split; [|done]. constructor; [|done]. unfold proceed. by destruct (phase f).
Qed.

(** ** What [file_lock] promises *)

Definition in_body (f : Frame) : bool := match phase f with Held _ => true | _ => false end.

Lemma in_opens i s f d : frames s !! i = Some f -> description f = Some d -> (d, (key f, phase f)) ∈ opens (frames s).
Proof. intros Hi Hd. apply list_elem_of_omap. exists f. split; [by eapply list_elem_of_lookup_2|]. by rewrite Hd. Qed.

Lemma elem_of_other i j (l : list Frame) g : i <> j -> l !! j = Some g -> g ∈ delete i l.
Proof.
  intros Hne Hj. destruct (decide (j < i)%nat).
  - apply (list_elem_of_lookup_2 _ j). by rewrite list_lookup_delete_lt.
  - apply (list_elem_of_lookup_2 _ (pred j)). rewrite list_lookup_delete_ge by lia. by replace (S (pred j)) with j by lia.
Qed.

(** A description belongs to one call. *)
Lemma description_unique i j s f g d :
  inv s -> frames s !! i = Some f -> frames s !! j = Some g -> description f = Some d -> description g = Some d -> i = j.
Proof.
  intros Hinv Hi Hj Hf Hg. destruct (decide (i = j)) as [|Hne]; [done|]. exfalso.
  destruct (inv_lookup _ _ _ Hi Hinv) as (_ & _ & V3). assert (Hn := p_nodup _ _ _ V3).
  unfold opens in Hn at 1. cbn in Hn. rewrite Hf in Hn. cbn in Hn. apply NoDup_cons in Hn as [Hn _]. apply Hn.
  apply list_elem_of_fmap. exists (d, (key g, phase g)). split; [done|].
  apply list_elem_of_omap. exists g. split; [|by rewrite Hg]. by apply (elem_of_other i j).
Qed.

(** C35: at every moment of every interleaving of threads, failing calls and
    foreign processes, at most one call is in its body for each lock file, so at
    most one for each file id; it has a valid id and no other process holds the
    lock file.  The calls that hold the lock of one id's entry belong to one thread. *)
Theorem file_lock_exclusive (l : list event) (s : Store) :
  run l empty_store = Some s ->
  (forall i j f g, frames s !! i = Some f -> frames s !! j = Some g -> in_body f = true -> in_body g = true ->
    lock_file (key f) = lock_file (key g) -> i = j) /\
  (forall i f, frames s !! i = Some f -> in_body f = true ->
    valid (key f) = true /\ exists d, flocks s !! lock_file (key f) = Some (Description d)) /\
  (forall i j f g, frames s !! i = Some f -> frames s !! j = Some g -> holds f = true -> holds g = true ->
    key f = key g -> thread f = thread g).
Proof.
  intros Hrun. assert (Hinv := locks_reachable_inv _ _ Hrun).
  assert (Hbody : forall i f, frames s !! i = Some f -> in_body f = true -> exists d, phase f = Held d /\
    (d, (key f, Held d)) ∈ opens (frames s) /\ flocks s !! lock_file (key f) = Some (Description d)).
  { intros i f Hi Hb. unfold in_body in Hb. destruct (phase f) as [| | |d| | |] eqn:Ep; try done. exists d. split; [done|].
    assert (Hin := in_opens i s f d Hi). unfold description in Hin. rewrite Ep in Hin. specialize (Hin eq_refl).
    split; [done|]. by apply (p_held _ _ _ (i_opened _ Hinv) d (key f) d). }
  split_and!.
  - intros i j f g Hi Hj Hf Hg E. destruct (Hbody i f Hi Hf) as (d & Pd & _ & Fd). destruct (Hbody j g Hj Hg) as (d' & Pd' & _ & Fd').
    rewrite E, Fd' in Fd. injection Fd as <-.
    apply (description_unique i j s f g d'); [done|done|done|..]; unfold description; [by rewrite Pd|by rewrite Pd'].
  - intros i f Hi Hf. destruct (Hbody i f Hi Hf) as (d & Pd & Hin & Fd). split; [|by exists d]. by apply (p_valid _ _ _ (i_opened _ Hinv) d _ (Held d)).
  - intros i j f g Hi Hj Hf Hg E.
    assert (Hown : forall n h, frames s !! n = Some h -> holds h = true -> exists e, entries s !! entry h = Some e /\ owner e = Some (thread h)).
    { intros n h Hn Hh. apply (o_owner _ _ (i_owned _ Hinv)), list_elem_of_omap. exists h. rewrite Hh.
      split; [by eapply list_elem_of_lookup_2|done]. }
    destruct (Hown i f Hi Hf) as [e [Ee Oe]]. destruct (Hown j g Hj Hg) as [e' [Ee' Oe']].
    assert (K1 := frame_entry _ _ _ Hinv Hi). assert (K2 := frame_entry _ _ _ Hinv Hj). congruence.
Qed.

(** the table of locks has exactly the ids somebody holds or waits for: an
    entry's count is the number of calls on its id, all of which use that same
    entry, so an active lock is never replaced; an id without calls has no
    entry, and the removal of an entry never fails, so a call ends as its body did. *)
Theorem file_lock_entries (l : list event) (s : Store) :
  run l empty_store = Some s ->
  (forall k, match file_locks s !! k with
    | Some a => (forall f, f ∈ frames s -> key f = k -> entry f = a) /\
        exists e, entries s !! a = Some e /\ refs e = Z.of_nat (length (filter (fun f => key f = k) (frames s))) /\ 0 < refs e
    | None => forall f, f ∈ frames s -> key f <> k
    end) /\
  (forall i f s', frames s !! i = Some f -> step s (Leave i) = Some s' -> results s' = results s ++ [(thread f, key f, outcome f)]).
Proof.
  intros Hrun. assert (Hinv := locks_reachable_inv _ _ Hrun). destruct (i_counted _ Hinv) as [H1 H2 _ _].
  assert (Hin : forall f, f ∈ frames s -> file_locks s !! key f = Some (entry f)).
  { intros f Hf. apply H2, list_elem_of_fmap. by exists f. }
  split.
  - intros k. destruct (file_locks s !! k) as [a|] eqn:Ek; [|intros f Hf <-; by rewrite (Hin f Hf) in Ek].
    split; [intros f Hf <-; specialize (Hin f Hf); congruence|]. destruct (H1 k a Ek) as [Hu [e [Ee Hr]]]. exists e. split; [done|].
    assert (El : length (filter (fun x => x.1 = k) (uses (frames s))) = length (filter (fun f => key f = k) (frames s))).
    { clear. unfold uses. induction (frames s) as [|f l IH]; [done|]. cbn [map]. destruct (decide (key f = k)).
      - rewrite !filter_cons_True by done. cbn [length]. by rewrite IH.
      - rewrite !filter_cons_False by done. done. }
    rewrite <- El. split; [done|]. assert (Hf : (k, a) ∈ filter (fun x => x.1 = k) (uses (frames s))) by (by apply list_elem_of_filter).
    destruct (filter _ (uses (frames s))); [by apply elem_of_nil in Hf|]. cbn [length] in Hr. lia.
  - intros i f s' Hi (g & Hg & _ & Hl)%at_frame_Some. assert (g = f) as -> by congruence.
    unfold leave_lock in Hl. destruct (phase f); try done. destruct (entries s !! entry f) as [e|]; [|done].
    rewrite (frame_entry _ _ _ Hinv Hi) in Hl. injection Hl as <-. by destruct (refs e - 1 =? 0).
Qed.

(** calls do not block each other for ever: from any state in which no
    thread nests two calls and no other process holds a lock file, the calls
    under way can all run to their end, and then the table of locks is empty and
    every lock file is free. *)
Theorem file_locks_drain (l : list event) (s : Store) :
  run l empty_store = Some s -> quiet s ->
  exists l' s', Forall (fun e => match e with Enter _ _ | ForeignLock _ | ForeignUnlock _ => False | _ => True end) l' /\
    run l' s = Some s' /\ frames s' = [] /\ file_locks s' = ∅ /\ flocks s' = ∅.
Proof.
  intros Hrun Hq. assert (Hinv := locks_reachable_inv _ _ Hrun).
  destruct (drain_from (S (weight s)) s) as (l' & s' & Hl & Hr & Hf & Hi & Hq'); [lia|done|done|].
  exists l', s'. split_and!; try done.
  - apply map_empty. intros k. destruct (file_locks s' !! k) as [a|] eqn:Ek; [|done].
    destruct (c_table _ _ _ _ (i_counted _ Hi) k a Ek) as [Hin _]. rewrite Hf in Hin. by apply elem_of_nil in Hin.
  - apply map_empty. intros n. destruct (flocks s' !! n) as [[d|]|] eqn:En; [|by apply (proj2 Hq') in En|done].
    destruct (p_holder _ _ _ (i_opened _ Hi) _ _ En) as (k & p & Hin & _). rewrite Hf in Hin. by apply elem_of_nil in Hin.
Qed.

Module Demo.

Definition file_id : Key := Str "00112233445566778899aabbccddeeff".

(** Two threads at one file, one in its body; a third passed a value that is no id. *)
Definition contended : list event :=
  [Enter 1 file_id; Enter 2 file_id; Acquire 0; Enter 3 (Hashable 5); Open 0 true; Flock 0 true; Acquire 2; Open 2 true].

Definition contended_store : Store := default empty_store (run contended empty_store).

Lemma contended_run : run contended empty_store = Some contended_store.
Proof. vm_compute. reflexivity. Qed.

(** The second thread waits; the third leaves with an error. *)
Example second_waits : step contended_store (Acquire 1) = None.
Proof. vm_compute. reflexivity. Qed.

Lemma file_lock_exclusive_witness : in_body <$> frames contended_store !! 0%nat = Some true /\
  (exists d, flocks contended_store !! "00" = Some (Description d)).
Proof.
  split; [vm_compute; reflexivity|].
  destruct (file_lock_exclusive contended contended_store contended_run) as (_ & H & _).
  destruct (frames contended_store !! 0%nat) as [f|] eqn:E; [|vm_compute in E; discriminate E].
  destruct (H 0%nat f E) as [_ Hd]; vm_compute in E; injection E as <-; [reflexivity|exact Hd].
Defined.

Lemma file_lock_entries_witness : exists e, (a ← file_locks contended_store !! file_id; entries contended_store !! a) = Some e /\ 0 < refs e.
Proof.
  destruct (file_lock_entries contended contended_store contended_run) as [H _]. specialize (H file_id).
  destruct (file_locks contended_store !! file_id) as [a|] eqn:E; [|vm_compute in E; discriminate E].
  destruct H as [_ [e [He [_ Hr]]]]. exists e. split; [exact He|exact Hr].
Defined.

Lemma file_locks_drain_witness : exists l' s', run l' contended_store = Some s' /\ frames s' = [] /\ file_locks s' = ∅.
Proof.
  destruct (file_locks_drain contended contended_store contended_run) as (l' & s' & _ & H1 & H2 & H3 & _).
  - split; [apply (bool_decide_unpack _); vm_compute; exact I|].
    assert (E : flocks contended_store = {["00" := Description 0]}) by (vm_compute; reflexivity). rewrite E.
    intros name. destruct (decide (name = "00")) as [->|Hn]; [rewrite lookup_singleton_eq; discriminate|rewrite lookup_singleton_ne by auto; discriminate].
  - exists l', s'. auto.
Defined.

End Demo.

End Locks.
