(* ===== verification/Readiness.v ===== *)
(** * Readiness markers ([readiness.py])

    A running backend leaves a marker that names its process; the health check
    of the container accepts it only while that very process lives.  The
    operating system is a record: which processes can be signalled, the text of
    their [/proc/<pid>/stat] and the boot id; files and failing calls are those
    of the snapshots. *)

From stdpp Require Import prelude strings list gmap.
From Stdlib Require Import ZArith Lia.
From S2P Require Import Prelude PyDict PyBytes PyValue Json JsonFacts Backup.

Import Backup.

Module Readiness.

Record Linux := {
  has_proc : bool;
  self : Z;
  signalled : Z -> bool;
  proc_stat : Z -> option bytes;
  boot_text : option bytes
}.

(** ** [str.rsplit], [str.split] and [str.strip] *)

(** ASCII white space. *)
Definition is_space : byte -> bool := fun b =>
  let v := byte_val b in (v =? 32) || ((9 <=? v) && (v <=? 13)) || ((28 <=? v) && (v <=? 31)).

(** The text after the last [)]; [None] when there is none. *)
Fixpoint after_last (c : byte) (l : bytes) : option bytes :=
  match l with
  | [] => None
  | b :: l' => match after_last c l' with
    | Some r => Some r
    | None => if bool_decide (b = c) then Some l' else None
    end
  end.

(** [split()]: [word] is the word being read, in reverse. *)
Fixpoint split_words (l word : bytes) : list bytes :=
  match l with
  | [] => if bool_decide (word = []) then [] else [reverse word]
  | b :: l' =>
    if is_space b then (if bool_decide (word = []) then split_words l' [] else reverse word :: split_words l' [])
    else split_words l' (b :: word)
  end.

Fixpoint lstrip (l : bytes) : bytes :=
  match l with b :: l' => if is_space b then lstrip l' else l | [] => [] end.
Definition strip (l : bytes) : bytes := reverse (lstrip (reverse (lstrip l))).

(** ** [process_identity] *)

Definition text {A} (x : option bytes) (k : bytes -> res A) : res A :=
  match x with
  | None => Raise OSError
  | Some l => let? s := decode_utf8 l in k (str_bytes s)
  end.

(** [os.kill(pid, 0)] and the name of the directory under [/proc]: a boolean is
    an integer for the first and has no directory; a process id has 32 bits. *)
Definition process_identity (os : Linux) (pid : pyval) : res string :=
  match pid with
  | VBool _ => Raise OSError
  | VInt n =>
    if negb ((- 2 ^ 31 <=? n) && (n <? 2 ^ 31)) then Raise OverflowError else
    if negb (signalled os n) then Raise OSError else
    text (proc_stat os n) (fun l =>
      match after_last Byte.x29 l with
      | None => Raise IndexError
      | Some r =>
        let stat := split_words r [] in
        text (boot_text os) (fun boot =>
          match stat !! 19%nat with
          | None => Raise IndexError
          | Some ticks => Ok (bytes_str (strip boot ++ Byte.x3a :: ticks))
          end)
      end)
  | _ => Raise (TypeError "an integer is required")
  end.

(** ** Writing *)

(** [json.dumps] with its default separators. *)
Fixpoint join_spaced (ls : list bytes) : bytes :=
  match ls with
  | [] => []
  | [x] => x
  | x :: ls' => x ++ COMMA :: Byte.x20 :: join_spaced ls'
  end.

Fixpoint print_default (v : pyval) : bytes :=
  match v with
  | VList l => Byte.x5b :: join_spaced (map print_default l) ++ [Byte.x5d]
  | VDict d => Byte.x7b :: join_spaced (map (fun kv => print_string true (fst kv) ++ COLON :: Byte.x20 :: print_default (snd kv)) d) ++ [Byte.x7d]
  | _ => print true v
  end.

Definition json_dumps (v : pyval) : res bytes :=
  if serialisable v then Ok (print_default v) else Raise (TypeError "Object of type bytes is not JSON serializable").

Definition marker_dir (data_dir : path) : path := data_dir ++ [".readiness"].
Definition marker_path (data_dir : path) (kind : string) : path := marker_dir data_dir ++ [kind +:+ ".json"].
Definition marker_temp (data_dir : path) (kind : string) : path := marker_dir data_dir ++ [kind +:+ ".tmp"].

(** [Path.write_text]: opening truncates. *)
Definition write_text (p : path) (content : bytes) : FM unit :=
  syscall ;!
  modify (fun s => set_files (<[p := []]> (files s)) s) ;!
  syscall ;!
  modify (fun s => set_files (<[p := content]> (files s)) s).

(** [Path.replace] *)
Definition replace (from to : path) : FM unit :=
  syscall ;!
  let! s := get in
  match files s !! from with
  | None => raise OSError
  | Some content => modify (set_files (<[to := content]> (delete from (files s))))
  end.

(** [{"pid": ..., "process": ..., **details}] *)
Definition marker_payload (pid : Z) (process : string) (details : odict string pyval) : odict string pyval :=
  foldl (fun d kv => od_set (fst kv) (snd kv) d) [("pid", VInt pid); ("process", VStr process)] details.

Definition write_marker (os : Linux) (data_dir : path) (kind : string) (details : odict string pyval) : FM unit :=
  if negb (has_proc os) then ret tt else
  syscall ;!
  let! process := lift (process_identity os (VInt (self os))) in
  let! content := lift (json_dumps (VDict (marker_payload (self os) process details))) in
  write_text (marker_temp data_dir kind) content ;!
  replace (marker_temp data_dir kind) (marker_path data_dir kind).

(** ** Reading *)

(** [value\[key\]] of what [json.loads] returned. *)
Definition subscript (k : string) (v : pyval) : res pyval :=
  match v with
  | VDict d => match od_get k d with Some x => Ok x | None => Raise (KeyError k) end
  | _ => Raise (TypeError "not subscriptable with a string")
  end.

(** [bool(v)]; a float literal is zero when its digits are. *)
Definition truthy (v : pyval) : bool :=
  match v with
  | VNone => false
  | VBool b => b
  | VInt n => negb (n =? 0)
  | VFloat s => negb (eq_int (VFloat s) 0)
  | VStr s => negb (bool_decide (s = ""))
  | VBytes l => negb (bool_decide (l = []))
  | VList l => match l with [] => false | _ => true end
  | VDict d => match d with [] => false | _ => true end
  end.

Definition _marker (os : Linux) (data_dir : path) (kind : string) (s : FS) : res pyval :=
  text (files s !! marker_path data_dir kind) (fun l =>
    let? value := loads_bytes l in
    let? process := subscript "process" value in
    let? pid := subscript "pid" value in
    let? identity := process_identity os pid in
    if negb (eq_str process identity) then Raise (ValueError "startup checks belong to an earlier backend process") else
    Ok value).

Definition check_readiness (os : Linux) (data_dir : path) (s : FS) : res unit :=
  let checked :=
    let? server := _marker os data_dir "server" s in
    let? running := subscript "running" server in
    if negb (truthy running) then Raise (ValueError "backend is shutting down") else Ok tt in
  match checked with
  | Raise (KeyError _) | Raise (TypeError _) => Raise (ValueError "startup checks incomplete")
  | r => r
  end.

(** ** What is written is read back *)

Definition scalar (v : pyval) : bool := match v with VList _ | VDict _ => false | _ => true end.

Definition member_ok (kv : string * pyval) : Prop := scalar (snd kv) = true /\ json_ok true (snd kv) /\ str_ok true (fst kv).

Definition spaced_member (kv : string * pyval) : bytes := print_string true (fst kv) ++ COLON :: Byte.x20 :: print_default (snd kv).

Lemma print_scalar v : scalar v = true -> print_default v = print true v.
Proof. by destruct v. Qed.

Lemma join_spaced_cons x y l : join_spaced (x :: y :: l) = x ++ COMMA :: Byte.x20 :: join_spaced (y :: l).
Proof. done. Qed.

Lemma join_spaced_starts kv l : starts_value (join_spaced (spaced_member kv :: l)).
Proof. destruct l; [|rewrite join_spaced_cons]; unfold spaced_member; repeat apply starts_app; done. Qed.

(** One member and what follows it. *)
Lemma parse_member k v f tail : member_ok (k, v) -> delim tail -> (length (spaced_member (k, v)) <= S f)%nat ->
  parse_members (S f) (spaced_member (k, v) ++ tail) =
    match skip_ws tail with
    | [] => Raise JSONDecodeError
    | c :: r =>
      if bool_decide (c = Byte.x7d) then Ok ([(k, v)], r)
      else if bool_decide (c = COMMA) then let? '(kvs, r') := parse_members f (skip_ws r) in Ok ((k, v) :: kvs, r')
      else Raise JSONDecodeError
    end.
Proof.
  intros (Hs & Hok & Hk) Hd Hf. cbn [fst snd] in *. unfold spaced_member in *. cbn [fst snd] in *. rewrite (print_scalar v Hs) in *.
  destruct (scan_print_string true k (COLON :: Byte.x20 :: print true v ++ tail) Hk) as (body & E & Hscan).
  rewrite <- app_assoc. cbn [app]. rewrite E in *. cbn [app parse_members]. rewrite bool_decide_eq_true_2 by done. cbn [negb].
  rewrite Hscan. change (skip_ws (COLON :: ?r)) with (COLON :: r). cbv beta iota. rewrite bool_decide_eq_true_2 by done. cbn [negb].
  change (skip_ws (Byte.x20 :: ?r)) with (skip_ws r). rewrite skip_ws_starts by (by apply starts_app, print_starts).
  rewrite (parses_ok true v Hok tail f Hd); [|rewrite length_app in Hf; cbn [length] in Hf; lia].
  cbn [rbind]. by rewrite bytes_str_bytes.
Qed.

Lemma parse_spaced d : Forall member_ok d -> d <> [] -> forall rest fuel, (length (join_spaced (map spaced_member d)) < fuel)%nat ->
  parse_members fuel (join_spaced (map spaced_member d) ++ Byte.x7d :: rest) = Ok (d, rest).
Proof.
  induction 1 as [|[k v] d Hm Hd IH]; intros Hne rest fuel Hf; [done|]. clear Hne. destruct fuel as [|f]; [lia|].
  destruct d as [|kv d]; cbn [map] in *.
  - cbn [join_spaced] in *. rewrite parse_member; [done|done|by right; right|lia].
  - rewrite join_spaced_cons in *. rewrite length_app in Hf. cbn [length] in Hf. rewrite <- app_assoc. cbn [app].
    rewrite parse_member; [|done|by left|lia]. change (skip_ws (COMMA :: ?r)) with (COMMA :: r). cbv iota.
    change (bool_decide (COMMA = Byte.x7d)) with false. change (bool_decide (COMMA = COMMA)) with true. cbv iota.
    change (skip_ws (Byte.x20 :: ?r)) with (skip_ws r). rewrite skip_ws_starts by (apply starts_app, join_spaced_starts).
    rewrite IH by (done || lia). done.
Qed.

Lemma loads_print_default d : Forall member_ok d -> NoDup (map fst d) -> d <> [] -> loads_bytes (print_default (VDict d)) = Ok (VDict d).
Proof.
  intros Hm Hn Hne. unfold loads_bytes. cbn [print_default].
  change (fun kv : string * pyval => print_string true kv.1 ++ COLON :: Byte.x20 :: print_default kv.2) with spaced_member.
  change (skip_ws (Byte.x7b :: ?r)) with (Byte.x7b :: r). cbn [length parse_value]. rewrite !bool_decide_eq_false_2, bool_decide_eq_true_2 by done.
  destruct d as [|kv d]; [done|].
  assert (Hst : starts_value (join_spaced (map spaced_member (kv :: d)) ++ [Byte.x7d])) by apply starts_app, join_spaced_starts.
  assert (Hp := parse_spaced (kv :: d) Hm Hne [] (S (length (join_spaced (map spaced_member (kv :: d)) ++ [Byte.x7d]))) ltac:(rewrite length_app; cbn; lia)).
  rewrite skip_ws_starts by done. destruct (join_spaced _ ++ _) as [|c r]; [done|]. rewrite bool_decide_eq_false_2 by apply Hst.
  rewrite Hp. cbn [rbind skip_ws]. by rewrite dict_of_pairs_wf.
Qed.

Abbreviation ascii l := (forallb (fun b => byte_val b <? 128) l = true).

Lemma ascii_app l r : ascii l -> ascii r -> ascii (l ++ r).
Proof. intros H1 H2. by rewrite forallb_app, H1, H2. Qed.

Lemma ascii_escape l : ascii l -> ascii (escape_ascii (length l) l).
Proof.
  induction l as [|b l IH]; [done|]. cbn [forallb length]. intros [Hb Hl]%andb_true_iff.
  rewrite escape_ascii_cons by done. apply ascii_app; [|by apply IH]. destruct b; try discriminate Hb; reflexivity.
Qed.

Lemma ascii_print_string s : ascii_string s -> ascii (print_string true s).
Proof. intros Hs. unfold print_string. cbn [forallb]. apply andb_true_iff. split; [done|]. apply ascii_app; [by apply ascii_escape|done]. Qed.

Lemma ascii_digits l : forallb is_digit l = true -> ascii l.
Proof.
  intros Hl. apply forallb_forall. intros b Hb. rewrite forallb_forall in Hl. specialize (Hl b Hb).
  unfold is_digit, in_range in Hl. apply andb_true_iff in Hl as [_ H1%Z.leb_le]. apply Z.ltb_lt. lia.
Qed.

Lemma ascii_dec n : ascii (dec n).
Proof.
  unfold dec. destruct (Z.ltb_spec n 0) as [Hn|Hn]; [cbn [forallb]; apply andb_true_iff; split; [done|]|].
  - destruct (dec_nat_spec (- n)) as (_ & Hd & _); [lia|]. by apply ascii_digits.
  - destruct (dec_nat_spec n Hn) as (_ & Hd & _). by apply ascii_digits.
Qed.

Lemma decode_ascii l : ascii l -> decode_utf8 l = Ok (bytes_str l).
Proof. intros Hl. unfold decode_utf8. rewrite utf8_valid_ascii; [done|lia|done]. Qed.

(** The marker of a server. *)
Definition server_marker (pid : Z) (process : string) (running : bool) : odict string pyval :=
  [("pid", VInt pid); ("process", VStr process); ("running", VBool running)].

Lemma marker_payload_running pid process b : marker_payload pid process [("running", VBool b)] = server_marker pid process b.
Proof. done. Qed.

Lemma server_marker_ascii pid process b : ascii_string process -> ascii (print_default (VDict (server_marker pid process b))).
Proof.
  intros Hp. cbn [print_default map server_marker fst snd join_spaced]. change (Byte.x7b :: ?r) with ([Byte.x7b] ++ r).
  change (COLON :: Byte.x20 :: ?r) with ([COLON; Byte.x20] ++ r). change (COMMA :: Byte.x20 :: ?r) with ([COMMA; Byte.x20] ++ r).
  repeat apply ascii_app; try done; [apply ascii_dec|by apply ascii_escape|by destruct b].
Qed.

Lemma loads_server_marker pid process b : ascii_string process -> - 2 ^ 31 <= pid < 2 ^ 31 ->
  loads_bytes (print_default (VDict (server_marker pid process b))) = Ok (VDict (server_marker pid process b)).
Proof.
  intros Hp Hpid.
  assert (Hlen : forall f n, (length (dec_loop f n) <= f)%nat).
  { induction f as [|f IH]; intros n; [done|]. cbn [dec_loop]. destruct (n <? 10); [cbn; lia|]. rewrite length_app. cbn [length]. specialize (IH (n / 10)). lia. }
  assert (Hdig : json_ok true (VInt pid)).
  { cbn [json_ok]. etransitivity; [apply Hlen|].
    assert (Z.log2 (Z.abs pid) <= Z.log2 (2 ^ 31)) as Hlog by (apply Z.log2_le_mono; lia). rewrite Z.log2_pow2 in Hlog by lia.
    pose proof (Z.log2_nonneg (Z.abs pid)). lia. }
  apply loads_print_default; [|apply (bool_decide_unpack _); exact I|done].
  repeat apply Forall_cons_2; [..|by apply Forall_nil]; unfold member_ok; cbn [fst snd]; split_and!; try done; intros _; done.
Qed.

(** ** What a marker proves *)

(** The boot and the start of a process: no two processes share both. *)
Definition incarnation (os : Linux) (n : Z) : option (bytes * bytes) :=
  l ← proc_stat os n;
  s ← match decode_utf8 l with Ok s => Some s | Raise _ => None end;
  r ← after_last Byte.x29 (str_bytes s);
  boot ← boot_text os;
  b ← match decode_utf8 boot with Ok s => Some s | Raise _ => None end;
  ticks ← split_words r [] !! 19%nat;
  Some (strip (str_bytes b), ticks).

Lemma process_identity_ok os n i : process_identity os (VInt n) = Ok i <->
  - 2 ^ 31 <= n < 2 ^ 31 /\ signalled os n = true /\
  exists boot ticks, incarnation os n = Some (boot, ticks) /\ i = bytes_str (boot ++ Byte.x3a :: ticks).
Proof.
  unfold process_identity, incarnation, text. cbn [negb].
  destruct ((- 2 ^ 31 <=? n) && (n <? 2 ^ 31)) eqn:Hr; cbn [negb].
  2: { split; [done|]. intros [Hn _]. apply andb_false_iff in Hr as [Hr|Hr]; lia. }
  apply andb_true_iff in Hr as [H1%Z.leb_le H2%Z.ltb_lt].
  destruct (signalled os n); cbn [negb]; [|split; [done|by intros (_ & ? & _)]].
  destruct (proc_stat os n) as [l|]; cbn; [|split; [done|by intros (_ & _ & ? & ? & ? & _)]].
  destruct (decode_utf8 l) as [s|]; cbn; [|split; [done|by intros (_ & _ & ? & ? & ? & _)]].
  destruct (after_last _ _) as [r|]; cbn; [|split; [done|by intros (_ & _ & ? & ? & ? & _)]].
  destruct (boot_text os) as [boot|]; cbn; [|split; [done|by intros (_ & _ & ? & ? & ? & _)]].
  destruct (decode_utf8 boot) as [b|]; cbn; [|split; [done|by intros (_ & _ & ? & ? & ? & _)]].
  destruct (split_words r [] !! 19%nat) as [ticks|]; cbn; [|split; [done|by intros (_ & _ & ? & ? & ? & _)]].
  split.
  - intros [= <-]. split_and!; [done|done|done|]. eexists _, _. done.
  - intros (_ & _ & boot' & ticks' & [= <- <-] & ->). done.
Qed.

Lemma colon_split (a a' t t' : bytes) : forallb is_digit t = true -> forallb is_digit t' = true ->
  a ++ Byte.x3a :: t = a' ++ Byte.x3a :: t' -> a = a' /\ t = t'.
Proof.
  assert (Hno : forall l r, forallb is_digit (l ++ Byte.x3a :: r) = true -> False).
  { intros l r H0. rewrite forallb_app in H0. apply andb_true_iff in H0 as [_ H0]. discriminate H0. }
  intros Ht Ht'. revert a'. induction a as [|x a IH]; intros [|y a'] E; cbn [app] in E.
  - by injection E as ->.
  - injection E as _ ->. by apply Hno in Ht.
  - injection E as _ <-. by apply Hno in Ht'.
  - injection E as E1 E2. destruct (IH a' E2) as [-> ->]. by subst y.
Qed.

(** What a call of [write_marker] can have done, however it ended. *)
Lemma write_marker_spec os dir kind details s :
  wp (write_marker os dir kind details) (fun r s' =>
    (forall p, p <> marker_temp dir kind -> p <> marker_path dir kind -> files s' !! p = files s !! p) /\
    match r with
    | Ok _ => if has_proc os then exists i, process_identity os (VInt (self os)) = Ok i /\
        files s' !! marker_path dir kind = Some (print_default (VDict (marker_payload (self os) i details))) else s' = s
    | Raise _ => files s' !! marker_path dir kind = files s !! marker_path dir kind
    end) s.
Proof.
  assert (Hpt : marker_path dir kind <> marker_temp dir kind).
  { unfold marker_path, marker_temp. intros E%app_inv_head. injection E as E. clear - E.
    induction kind as [|c kind IH]; [discriminate E|]. injection E as E. by apply IH. }
  unfold write_marker. destruct (has_proc os); cbn [negb]; [|autorewrite with wp; done].
  autorewrite with wp. apply wp_syscall; intros l1 _; autorewrite with wp; [|done].
  destruct (process_identity os _) as [i|e] eqn:Ei; [|done]. autorewrite with wp.
  unfold json_dumps. destruct (serialisable _); [|done]. unfold write_text, replace. autorewrite with wp.
  apply wp_syscall; intros l2 _; autorewrite with wp; [|done].
  apply wp_syscall; intros l3 _; autorewrite with wp; cbn [files set_files set_failures].
  2: { split; [intros p H1 H2; by rewrite lookup_insert_ne|by rewrite lookup_insert_ne]. }
  apply wp_syscall; intros l4 _; autorewrite with wp; cbn [files set_files set_failures].
  2: { split; [intros p H1 H2; by rewrite !lookup_insert_ne|by rewrite !lookup_insert_ne]. }
  rewrite lookup_insert_eq. autorewrite with wp. cbn [files set_files set_failures]. split.
  - intros p H1 H2. by rewrite lookup_insert_ne, lookup_delete_ne, !lookup_insert_ne.
  - exists i. by rewrite lookup_insert_eq.
Qed.

(** Without failing calls a marker is written. *)
Lemma write_marker_succeeds os dir kind details f i :
  has_proc os = true -> process_identity os (VInt (self os)) = Ok i -> serialisable (VDict (marker_payload (self os) i details)) = true ->
  exists s', write_marker os dir kind details {| files := f; failures := [] |} = (s', Ok tt).
Proof.
  intros Hp Hi Hs. unfold write_marker, write_text, replace, json_dumps, syscall. rewrite Hp. cbn [negb]. munfold. cbn [failures]. rewrite Hi, Hs.
  cbn [files failures set_files]. rewrite lookup_insert_eq. by eexists.
Qed.

(** The check depends on the marker file alone. *)
Lemma check_readiness_kept os dir s s' : files s' !! marker_path dir "server" = files s !! marker_path dir "server" ->
  check_readiness os dir s' = check_readiness os dir s.
Proof. intros E. unfold check_readiness, _marker. by rewrite E. Qed.

(** How the health check reads the marker of a server. *)
Lemma check_server_marker os dir s pid process b :
  ascii_string process -> - 2 ^ 31 <= pid < 2 ^ 31 ->
  files s !! marker_path dir "server" = Some (print_default (VDict (server_marker pid process b))) ->
  check_readiness os dir s = Ok tt <-> b = true /\ process_identity os (VInt pid) = Ok process.
Proof.
  intros Hp Hpid Hf. unfold check_readiness, _marker, text. rewrite Hf, decode_ascii by (by apply server_marker_ascii).
  cbn [rbind]. rewrite str_bytes_str, loads_server_marker by done.
  cbn [rbind]. change (subscript "process" _) with (Ok (VStr process)). change (subscript "pid" _) with (Ok (VInt pid)). cbn [rbind].
  destruct (process_identity os (VInt pid)) as [i|e] eqn:Ei; cbn [rbind].
  2: { split; [by destruct e|by intros [_ ?]]. }
  cbn [eq_str]. case_bool_decide as E; cbn [negb rbind]; [|split; [done|]; intros [_ [= ->]]; done].
  change (subscript "running" _) with (Ok (VBool b)). cbn [rbind truthy].
  subst i. destruct b; cbn; split; try done. by intros [? _].
Qed.

Lemma process_identity_ascii os n boot ticks : incarnation os n = Some (boot, ticks) -> ascii boot -> forallb is_digit ticks = true ->
  ascii_string (bytes_str (boot ++ Byte.x3a :: ticks)).
Proof.
  intros _ Hb Ht. unfold ascii_string. rewrite str_bytes_str. apply ascii_app; [done|]. cbn [forallb]. apply andb_true_iff.
  split; [done|]. by apply ascii_digits.
Qed.

(** C36: the health check accepts the marker a server wrote exactly when it was
    written as running and its process is still the one that wrote it: a process
    that got the same id in another boot or at another time, a process that
    ended, and a server that is shutting down are refused. *)
Theorem marker_names_live_process (os os' : Linux) (dir : path) (s s' : FS) (running : bool) (boot ticks : bytes) :
  has_proc os = true -> incarnation os (self os) = Some (boot, ticks) -> ascii boot -> forallb is_digit ticks = true ->
  (forall boot' ticks', incarnation os' (self os) = Some (boot', ticks') -> forallb is_digit ticks' = true) ->
  write_marker os dir "server" [("running", VBool running)] s = (s', Ok tt) ->
  check_readiness os' dir s' = Ok tt <->
    running = true /\ signalled os' (self os) = true /\ incarnation os' (self os) = Some (boot, ticks).
Proof.
  intros Hproc Hinc Hb Ht Ht' Hw. assert (Hspec := write_marker_spec os dir "server" [("running", VBool running)] s).
  unfold wp in Hspec. rewrite Hw, Hproc in Hspec. destruct Hspec as [_ [i [Hi Hf]]]. rewrite marker_payload_running in Hf.
  apply process_identity_ok in Hi as (Hpid & _ & boot0 & ticks0 & E0 & ->). rewrite Hinc in E0. injection E0 as <- <-.
  rewrite (check_server_marker os' dir s' _ _ _ (process_identity_ascii _ _ _ _ Hinc Hb Ht) Hpid Hf), process_identity_ok.
  split.
  - intros (-> & _ & Hs & boot' & ticks' & E & Eq). split_and!; [done|done|].
    apply (f_equal str_bytes) in Eq. rewrite !str_bytes_str in Eq.
    destruct (colon_split _ _ _ _ Ht (Ht' _ _ E) Eq) as [-> ->]. done.
  - intros (-> & Hs & E). split_and!; try lia; try done. by exists boot, ticks.
Qed.

Module Demo.

Definition stat_of (ticks : string) : bytes :=
  str_bytes ("7 (python 3) S 1 7 7 0 -1 4194560 1 0 0 0 0 0 0 0 20 0 1 0 " +:+ ticks +:+ " 0 0").

(** Process 7 of a boot, started at [ticks]. *)
Definition host (ticks : string) : Linux :=
  {| has_proc := true; self := 7; signalled := fun n => n =? 7; proc_stat := fun n => if n =? 7 then Some (stat_of ticks) else None;
     boot_text := Some (str_bytes "2f1c-77") |}.

Definition disk : FS := {| files := ∅; failures := [] |}.
Definition marked : FS := fst (write_marker (host "8812") ["data"] "server" [("running", VBool true)] disk).

Example identity : process_identity (host "8812") (VInt 7) = Ok "2f1c-77:8812".
Proof. vm_compute. reflexivity. Qed.

(** The process that wrote the marker is ready; another one with its id is not. *)
Lemma marker_names_live_process_witness :
  check_readiness (host "8812") ["data"] marked = Ok tt /\ check_readiness (host "9000") ["data"] marked <> Ok tt.
Proof.
  split.
  - apply (marker_names_live_process (host "8812") (host "8812") ["data"] disk marked true (str_bytes "2f1c-77") (str_bytes "8812"));
      try (vm_compute; reflexivity); [|split; [|split]; vm_compute; reflexivity].
    intros b t E. vm_compute in E. injection E as <- <-. vm_compute. reflexivity.
  - intros H. apply (marker_names_live_process (host "8812") (host "9000") ["data"] disk marked true (str_bytes "2f1c-77") (str_bytes "8812")) in H;
      try (vm_compute; reflexivity); [|intros b t E; vm_compute in E; injection E as <- <-; vm_compute; reflexivity].
    destruct H as (_ & _ & E). vm_compute in E. discriminate E.
Defined.

End Demo.

End Readiness.
