(* ===== verification/Certificates.v ===== *)
(** * The certificate of the private transport ([private_transport/service.py])

    [ensure_transport_certificate] loads the pair an operator provisioned, or
    writes a self-signed one for local development, and checks it.  X.509 and
    the key formats belong to the cryptography package and are a parameter;
    files and failing calls are those of the snapshots, without access modes.
    What other processes create while a pair is generated is an argument. *)

From stdpp Require Import prelude strings list gmap.
From Stdlib Require Import ZArith Lia.
From S2P Require Import Prelude PyBytes Backup.

Import Backup.

Module Certificates.

(** What the cryptography package reads in PEM files and writes; times are in
    microseconds, a certificate without a subject alternative name has no
    [dns_names]. *)
Class X509 := {
  certificate : Type;
  private_key : Type;
  load_pem_x509_certificate : bytes -> res certificate;
  load_pem_private_key : bytes -> res private_key;
  key_spki : private_key -> bytes;
  certificate_spki : certificate -> bytes;
  not_valid_before_utc : certificate -> Z;
  not_valid_after_utc : certificate -> Z;
  dns_names : certificate -> option (list string);
  private_bytes : private_key -> bytes;
  self_signed : private_key -> string -> Z -> Z -> res bytes
}.

Record Settings := {
  cert_path : path;
  key_path : path;
  production_deployment : string;
  server_name : string
}.

Section certificates.
Context `{X : X509}.

Definition exists_file (p : path) : FM bool := gets (fun s => bool_decide (is_Some (files s !! p))).

(** [os.open(path, O_WRONLY | O_CREAT | O_EXCL)], then the write. *)
Definition create_exclusive (p : path) : FM unit :=
  syscall ;!
  let! exists_already := exists_file p in
  if (exists_already : bool) then raise OSError else modify (fun s => set_files (<[p := []]> (files s)) s).

Definition write_stream (p : path) (content : bytes) : FM unit :=
  syscall ;! modify (fun s => set_files (<[p := content]> (files s)) s).

Definition read_bytes (p : path) : FM bytes :=
  syscall ;!
  let! s := get in
  match files s !! p with Some content => ret content | None => raise OSError end.

(** Other processes at work: they create, they do not overwrite. *)
Definition meanwhile (created : gmap path bytes) : FM unit := modify (fun s => set_files (files s ∪ created) s).

Definition minute : Z := 60000000.
Definition day : Z := 86400000000.

(** The clean-up: [except BaseException] unlinks both paths and raises again. *)
Definition abandon (certificate_path key_path : path) (e : exn) : FM unit :=
  unlink key_path ;! unlink certificate_path ;! raise e.

(** [_generate_development_certificate]; [key] is the generated key, [before]
    and [during] what other processes create before the key is opened and
    before the certificate is. *)
Definition _generate_development_certificate (certificate_path key_path : path) (server_name : string)
    (key : private_key) (now : Z) (before during : gmap path bytes) : FM unit :=
  syscall ;!
  syscall ;!
  let! certificate_bytes := lift (self_signed key server_name (now - minute) (now + 30 * day)) in
  let key_bytes := private_bytes key in
  meanwhile before ;!
  create_exclusive key_path ;!
  try_catch
    (write_stream key_path key_bytes ;!
     meanwhile during ;!
     create_exclusive certificate_path ;!
     write_stream certificate_path certificate_bytes)
    (fun _ => true)
    (abandon certificate_path key_path).

Definition is_load_error (e : exn) : bool := match e with OSError => true | _ => is_ValueError e end.

(** The checks on a pair that was loaded. *)
Definition check_certificate (server_name : string) (now : Z) (c : certificate) (k : private_key) : res unit :=
  if negb (bool_decide (key_spki k = certificate_spki c)) then Raise (RuntimeError "private transport certificate key mismatch") else
  if (now <? not_valid_before_utc c) || (not_valid_after_utc c <=? now)
  then Raise (RuntimeError "private transport certificate is outside its validity period") else
  match dns_names c with
  | None => Raise (RuntimeError "private transport certificate has no DNS identity")
  | Some names =>
    if negb (bool_decide (server_name ∈ names)) then Raise (RuntimeError "private transport certificate identity mismatch") else Ok tt
  end.

(** Loading the pair, and the checks on it; the key is then made private. *)
Definition load_pair (c : Settings) : FM (certificate * private_key) :=
  try_catch
    (let! content := read_bytes (cert_path c) in
     let! crt := lift (load_pem_x509_certificate content) in
     let! content := read_bytes (key_path c) in
     let! k := lift (load_pem_private_key content) in
     ret (crt, k)) is_load_error (fun _ => raise (RuntimeError "invalid private transport certificate/key")).

Definition load_checked (c : Settings) (later : Z) : FM certificate :=
  let! '(crt, k) := load_pair c in
  lift (check_certificate (server_name c) later crt k) ;!
  syscall ;!
  ret crt.

(** [ensure_transport_certificate]; [now] is the time of the generation, [later]
    that of the check. *)
Definition ensure_transport_certificate (c : Settings) (key : private_key) (now later : Z) (before during : gmap path bytes) : FM certificate :=
  let! has_certificate := exists_file (cert_path c) in
  let! has_key := exists_file (key_path c) in
  if negb (Bool.eqb has_certificate has_key) then raise (RuntimeError "private transport certificate/key pair is incomplete") else
  let! has_certificate := exists_file (cert_path c) in
  (if negb has_certificate then
    if negb (bool_decide (production_deployment c = "local"))
    then raise (RuntimeError "production private transport requires an operator-provisioned certificate")
    else _generate_development_certificate (cert_path c) (key_path c) (server_name c) key now before during
  else ret tt) ;!
  load_checked c later.

(** ** System calls that fail *)

(** How many calls are still to fail. *)
Definition budget (s : FS) : nat := length (filter (fun b => b = true) (failures s)).

Lemma wp_call (Q : res unit -> FS -> Prop) s :
  (forall l, (budget (set_failures l s) <= budget s)%nat -> Q (Ok tt) (set_failures l s)) ->
  (forall l, (S (budget (set_failures l s)) = budget s)%nat -> Q (Raise OSError) (set_failures l s)) -> wp syscall Q s.
Proof.
  intros Hok Hbad. unfold wp, syscall, budget in *. munfold. destruct (failures s) as [|f l] eqn:Ef.
  - cbn. specialize (Hok [] ltac:(cbn; lia)). unfold set_failures in Hok. rewrite <- Ef in Hok. by destruct s.
  - destruct f; cbn.
    + apply Hbad. rewrite filter_cons_True by done. done.
    + apply Hok. by rewrite filter_cons_False by done.
Qed.

(** A call none of whose outcomes touches the files [Q] looks at. *)
Lemma wp_call_files (Q : res unit -> FS -> Prop) s :
  (forall r s', files s' = files s -> Q r s') -> wp syscall Q s.
Proof. intros HQ. apply wp_call; intros l _; by apply HQ. Qed.

(** ** Only a checked pair is used *)

Definition checked (name : string) (later : Z) (crt : certificate) (k : private_key) : Prop :=
  key_spki k = certificate_spki crt /\ not_valid_before_utc crt <= later < not_valid_after_utc crt /\
  exists names, dns_names crt = Some names /\ name ∈ names.

Lemma check_certificate_ok name later crt k : check_certificate name later crt k = Ok tt <-> checked name later crt k.
Proof.
  unfold check_certificate, checked. case_bool_decide as H1; cbn [negb]; [|split; [done|tauto]].
  destruct (Z.ltb_spec later (not_valid_before_utc crt)) as [L1|L1]; cbn [orb]; [split; [done|lia]|].
  destruct (Z.leb_spec (not_valid_after_utc crt) later) as [L2|L2]; [split; [done|lia]|].
  destruct (dns_names crt) as [names|]; [|split; [done|by intros (_ & _ & ? & ? & _)]].
  case_bool_decide as H2; cbn [negb].
  - split; [|done]. intros _. split_and!; [done|lia|lia|]. by exists names.
  - split; [done|]. intros (_ & _ & ? & [= <-] & ?). done.
Qed.

(** The pair as it stands in the files. *)
Definition pair_of (c : Settings) (s : FS) (crt : certificate) (k : private_key) : Prop :=
  exists cc kc, files s !! cert_path c = Some cc /\ load_pem_x509_certificate cc = Ok crt /\
    files s !! key_path c = Some kc /\ load_pem_private_key kc = Ok k.

Lemma wp_read p (Q : res bytes -> FS -> Prop) s :
  (forall s' content, files s' = files s -> files s !! p = Some content -> Q (Ok content) s') ->
  (forall s', files s' = files s -> Q (Raise OSError) s') -> wp (read_bytes p) Q s.
Proof.
  intros Hok Hbad. unfold read_bytes. autorewrite with wp. apply wp_call; intros l _; autorewrite with wp; [|by apply Hbad].
  cbn [files set_failures]. destruct (files s !! p) eqn:E; autorewrite with wp; [by apply Hok|by apply Hbad].
Qed.

Lemma load_pair_spec c s :
  wp (load_pair c) (fun r s' => files s' = files s /\ match r with Ok (crt, k) => pair_of c s crt k | Raise _ => True end) s.
Proof.
  unfold load_pair. rewrite wp_try.
  eapply (wp_mono _ (fun r s' => files s' = files s /\ match r with Ok (crt, k) => pair_of c s crt k | Raise _ => True end)).
  2: { intros [[crt k]|e] s'; [done|]. intros [E _]. by destruct (is_load_error e). }
  autorewrite with wp. apply wp_read; [intros s1 cc E1 H1|done]. autorewrite with wp.
  destruct (load_pem_x509_certificate cc) as [crt|] eqn:Ec; [|done]. autorewrite with wp.
  apply wp_read; [intros s2 kc E2 H2|intros s2 E2; split; [congruence|done]]. autorewrite with wp.
  destruct (load_pem_private_key kc) as [k|] eqn:Ek; autorewrite with wp; (split; [congruence|]); [|done].
  rewrite E1 in H2. by exists cc, kc.
Qed.

Lemma load_checked_spec c later s :
  wp (load_checked c later) (fun r s' => files s' = files s /\
    match r with Ok crt => exists k, pair_of c s crt k /\ checked (server_name c) later crt k | Raise _ => True end) s.
Proof.
  unfold load_checked. rewrite wp_bind. eapply wp_mono; [apply load_pair_spec|].
  intros [[crt k]|e] s1 [E1 H1]; [|done]. autorewrite with wp.
  destruct (check_certificate _ _ _ _) as [[]|] eqn:Ec; [|done]. apply check_certificate_ok in Ec. autorewrite with wp.
  apply wp_call; intros l _; autorewrite with wp; cbn [files set_failures]; [|done]. split; [done|]. by exists k.
Qed.

(** ** A pair is written whole or not at all *)

Section generation.
Context (c : Settings) (Hpaths : cert_path c <> key_path c).

(** Both files or neither. *)
Definition whole (s : FS) : Prop := is_Some (files s !! cert_path c) <-> is_Some (files s !! key_path c).

Definition absent (s : FS) : Prop := files s !! cert_path c = None /\ files s !! key_path c = None.

(** How a clean-up ends that has no failing call before it. *)
Lemma abandon_spec e s : budget s = 0%nat ->
  wp (abandon (cert_path c) (key_path c) e) (fun r s' => r = Raise e /\ absent s' /\
    forall p, p <> key_path c -> p <> cert_path c -> files s' !! p = files s !! p) s.
Proof.
  intros Hb. unfold abandon, unlink. autorewrite with wp. apply wp_call; intros l1 Hl1; autorewrite with wp; [|lia].
  apply wp_call; intros l2 Hl2; autorewrite with wp; cbn [files set_files set_failures] in *; unfold budget, set_files, set_failures in *; cbn [failures] in *; [|lia].
  split; [done|]. unfold absent. cbn [files]. split.
  - by rewrite lookup_delete_eq, lookup_delete_ne, lookup_delete_eq.
  - intros p H1 H2. by rewrite !lookup_delete_ne.
Qed.

Lemma meanwhile_nothing s : fst (meanwhile ∅ s) = s.
Proof. unfold meanwhile, modify, set_files. cbn. rewrite map_union_empty. by destruct s. Qed.

Lemma wp_meanwhile_nothing (Q : res unit -> FS -> Prop) s : Q (Ok tt) s -> wp (meanwhile ∅) Q s.
Proof. intros HQ. unfold wp. change (Q (Ok tt) (fst (meanwhile ∅ s))). by rewrite meanwhile_nothing. Qed.

(** Nobody else writes, and at most one call fails. *)
Lemma generate_spec key now s : absent s -> (budget s <= 1)%nat ->
  wp (_generate_development_certificate (cert_path c) (key_path c) (server_name c) key now ∅ ∅) (fun r s' =>
    match r with
    | Ok _ => exists pem, self_signed key (server_name c) (now - minute) (now + 30 * day) = Ok pem /\
        files s' !! cert_path c = Some pem /\ files s' !! key_path c = Some (private_bytes key)
    | Raise _ => absent s'
    end) s.
Proof.
  intros Ha Hb. unfold _generate_development_certificate. rewrite wp_bind.
  apply wp_call; intros l1 Hl1; cbn iota; [|done]. rewrite wp_bind.
  apply wp_call; intros l2 Hl2; cbn iota; [|done]. rewrite wp_bind, wp_lift.
  destruct (self_signed _ _ _ _) as [pem|] eqn:Ep; [|done]. rewrite wp_bind. apply wp_meanwhile_nothing.
  unfold create_exclusive, exists_file. autorewrite with wp. cbn [set_failures set_files files failures] in *.
  apply wp_call; intros l3 Hl3; autorewrite with wp; [|done]. cbn [set_failures set_files files failures] in *.
  rewrite (proj2 Ha), bool_decide_false by (by intros [? ?]). autorewrite with wp.
  assert (Hclean : forall e s1, budget s1 = 0%nat -> wp (abandon (cert_path c) (key_path c) e)
    (fun r s' => match r with Ok _ => exists pem', Ok pem = Ok pem' /\ files s' !! cert_path c = Some pem' /\ files s' !! key_path c = Some (private_bytes key)
      | Raise _ => absent s' end) s1).
  { intros e s1 H1. eapply wp_mono; [by apply abandon_spec|]. by intros [] s2 (? & ? & _). }
  unfold write_stream. autorewrite with wp.
  apply wp_call; intros l4 Hl4; autorewrite with wp; unfold budget, set_failures, set_files in *; cbn [files failures] in *; [|apply Hclean; cbn; lia].
  apply wp_meanwhile_nothing. autorewrite with wp.
  apply wp_call; intros l5 Hl5; autorewrite with wp; unfold budget, set_failures, set_files in *; cbn [files failures] in *; [|apply Hclean; cbn; lia].
  rewrite lookup_insert_ne, lookup_insert_ne, (proj1 Ha), bool_decide_false by (done || by intros [? ?]). autorewrite with wp.
  apply wp_call; intros l6 Hl6; autorewrite with wp; unfold budget, set_failures, set_files in *; cbn [files failures] in *; [|apply Hclean; cbn; lia].
  exists pem. split; [done|]. rewrite lookup_insert_eq. split; [done|]. rewrite !(lookup_insert_ne _ (cert_path c)) by done. by rewrite lookup_insert_eq.
Qed.

End generation.

(** How [ensure_transport_certificate] goes on from what it finds. *)
Lemma ensure_eq c key now later before during s :
  ensure_transport_certificate c key now later before during s =
    if negb (Bool.eqb (bool_decide (is_Some (files s !! cert_path c))) (bool_decide (is_Some (files s !! key_path c))))
    then (s, Raise (RuntimeError "private transport certificate/key pair is incomplete")) else
    if bool_decide (is_Some (files s !! cert_path c)) then load_checked c later s else
    if negb (bool_decide (production_deployment c = "local"))
    then (s, Raise (RuntimeError "production private transport requires an operator-provisioned certificate"))
    else (_generate_development_certificate (cert_path c) (key_path c) (server_name c) key now before during ;! load_checked c later) s.
Proof.
  unfold ensure_transport_certificate, exists_file, gets. unfold bind at 1 2. destruct (negb (Bool.eqb _ _)); [done|].
  unfold bind at 1. destruct (bool_decide (is_Some (files s !! cert_path c))); [done|]. cbn [negb].
  by destruct (negb (bool_decide (production_deployment c = "local"))).
Qed.

(** C38: a certificate is only ever used with its key: the two files on disk hold
    it and the key to its public key, it is valid at the time of the check and
    names the server.  Nothing is written when a pair or half of one is there, nor
    outside a local deployment. *)
Theorem certificate_sound (c : Settings) (key : private_key) (now later : Z) (before during : gmap path bytes) (s : FS) :
  let '(s', r) := ensure_transport_certificate c key now later before during s in
  match r with
  | Ok crt => exists k, pair_of c s' crt k /\ key_spki k = certificate_spki crt /\
      not_valid_before_utc crt <= later < not_valid_after_utc crt /\
      exists names, dns_names crt = Some names /\ server_name c ∈ names
  | Raise _ => True
  end /\
  (production_deployment c <> "local" \/ is_Some (files s !! cert_path c) \/ is_Some (files s !! key_path c) -> files s' = files s).
Proof.
  assert (Hload : forall s1, wp (load_checked c later) (fun r s' => files s' = files s1 /\
    match r with Ok crt => exists k, pair_of c s' crt k /\ checked (server_name c) later crt k | Raise _ => True end) s1).
  { intros s1. eapply wp_mono; [apply load_checked_spec|]. intros [crt|e] s' [E Hr]; [|done]. split; [done|].
    unfold pair_of in *. by rewrite E. }
  rewrite ensure_eq. destruct (Bool.eqb _ _) eqn:Eq; cbn [negb]; [|done].
  case_bool_decide as Hc.
  { specialize (Hload s). unfold wp in Hload. destruct (load_checked c later s) as [s' r]. cbn [fst snd] in Hload. tauto. }
  apply eqb_prop in Eq. symmetry in Eq. apply bool_decide_eq_false in Eq.
  case_bool_decide as Hl; cbn [negb]; [|split; [done|by intros _]].
  destruct ((_generate_development_certificate _ _ _ _ _ _ _ ;! load_checked c later) s) as [s' r] eqn:E. split; [|tauto]. unfold bind in E.
  destruct (_generate_development_certificate _ _ _ _ _ _ _ s) as [s1 [u|e]]; [|by injection E as <- <-].
  specialize (Hload s1). unfold wp in Hload. rewrite E in Hload. destruct r; [|done]. apply Hload.
Qed.

(** a pair is written whole or not at all: if no other process writes the
    files and at most one system call fails, then whatever happens there are
    afterwards both files or neither, if there were before. *)
Theorem certificate_pair_whole (c : Settings) (key : private_key) (now later : Z) (s : FS) :
  cert_path c <> key_path c -> (budget s <= 1)%nat -> whole c s ->
  whole c (fst (ensure_transport_certificate c key now later ∅ ∅ s)).
Proof.
  intros Hp Hb Hw. assert (Hload : forall s1, files (fst (load_checked c later s1)) = files s1) by (intros s1; apply load_checked_spec).
  assert (Hsame : forall s1, whole c s1 -> whole c (fst (load_checked c later s1))) by (intros s1; unfold whole; by rewrite Hload).
  rewrite ensure_eq. destruct (negb (Bool.eqb _ _)); [done|]. case_bool_decide as Hc; [by apply Hsame|].
  destruct (negb (bool_decide (production_deployment c = "local"))); [done|].
  assert (Ha : absent c s) by (split; apply eq_None_not_Some; [done|intros Hk; by apply Hc, Hw]).
  assert (Hg := generate_spec c Hp key now s Ha Hb). unfold wp in Hg. unfold bind.
  destruct (_generate_development_certificate _ _ _ _ _ _ _ s) as [s1 [u|e]]; cbn [fst snd] in Hg.
  - apply Hsame. destruct Hg as (pem & _ & H1 & H2). unfold whole. rewrite H1, H2. split; by eexists.
  - destruct Hg as [H1 H2]. cbn [fst]. unfold whole. rewrite H1, H2. split; intros [? ?]; done.
Qed.

(** What the cryptography package documents of the certificates it signs:
    times lose their fraction of a second. *)
Record signing_laws : Prop := {
  key_round_trip : forall k, load_pem_private_key (private_bytes k) = Ok k;
  signed : forall k name nb na pem, self_signed k name nb na = Ok pem -> exists crt, load_pem_x509_certificate pem = Ok crt /\
    certificate_spki crt = key_spki k /\ not_valid_before_utc crt <= nb /\ na - 1000000 < not_valid_after_utc crt /\ dns_names crt = Some [name]
}.

(** A development server that starts without a pair has one that passes its own
    checks for thirty days. *)
Theorem development_certificate_accepted (c : Settings) (key : private_key) (now later : Z) (files0 : gmap path bytes) (pem : bytes) :
  signing_laws -> cert_path c <> key_path c -> production_deployment c = "local" ->
  files0 !! cert_path c = None -> files0 !! key_path c = None ->
  self_signed key (server_name c) (now - minute) (now + 30 * day) = Ok pem ->
  now <= later <= now + 30 * day - 1000000 ->
  exists crt, load_pem_x509_certificate pem = Ok crt /\ ensure_transport_certificate c key now later ∅ ∅ {| files := files0; failures := [] |} =
    ({| files := <[cert_path c := pem]> (<[key_path c := private_bytes key]> files0); failures := [] |}, Ok crt).
Proof.
  intros [Hk Hs] Hp Hl Hc Hkey Epem Hlater. destruct (Hs _ _ _ _ _ Epem) as (crt & Ecrt & H1 & H2 & H3 & H4).
  exists crt. split; [done|]. rewrite ensure_eq. cbn [files]. rewrite Hc, Hkey. rewrite !bool_decide_false by (by intros [? ?]).
  rewrite Hl, bool_decide_true by done. cbn [Bool.eqb negb].
  assert (Hok : check_certificate (server_name c) later crt key = Ok tt).
  { apply check_certificate_ok. unfold minute, day in *. split_and!; [done|lia|lia|]. exists [server_name c]. split; [done|]. left. }
  unfold _generate_development_certificate, create_exclusive, exists_file, write_stream, meanwhile, syscall, load_checked, load_pair, read_bytes, syscall.
  munfold. cbn [files failures set_files set_failures]. rewrite Epem. cbn [files failures set_files set_failures].
  rewrite !map_union_empty, Hkey, (bool_decide_false (is_Some None)) by (by intros [? ?]).
  cbn [files failures set_files set_failures]. rewrite !map_union_empty, insert_insert_eq, lookup_insert_ne, Hc by done.
  rewrite (bool_decide_false (is_Some None)) by (by intros [? ?]). cbn [files failures set_files set_failures].
  unfold set_files. cbn [files failures]. rewrite !insert_insert_eq, lookup_insert_eq. cbn [files failures]. rewrite Ecrt. cbn [files failures].
  rewrite (lookup_insert_ne _ (cert_path c)), lookup_insert_eq, Hk by done. by rewrite Hok.
Qed.

End certificates.

Module Demo.

(** A toy format: the first byte stands for the key, the rest is the name; every
    certificate is valid from 0 to [horizon]. *)
Definition horizon : Z := 10 ^ 18.

#[export] Instance toy : X509 := {
  certificate := byte * string;
  private_key := byte;
  load_pem_x509_certificate := fun l => match l with b :: name => Ok (b, bytes_str name) | [] => Raise (ValueError "no certificate") end;
  load_pem_private_key := fun l => match l with [b] => Ok b | _ => Raise (ValueError "no key") end;
  key_spki := fun b => [b];
  certificate_spki := fun c => [fst c];
  not_valid_before_utc := fun _ => 0;
  not_valid_after_utc := fun _ => horizon;
  dns_names := fun c => Some [snd c];
  private_bytes := fun b => [b];
  self_signed := fun b name nb na => if (0 <=? nb) && (na <=? horizon) then Ok (b :: str_bytes name) else Raise (ValueError "times")
}.

Lemma toy_laws : signing_laws (X := toy).
Proof.
  split; [done|]. intros k name nb na pem. cbn. destruct (Z.leb_spec 0 nb); [|done]. destruct (Z.leb_spec na horizon); [|done].
  intros [= <-]. eexists. split; [reflexivity|]. cbn. rewrite bytes_str_bytes. split_and!; [done|done|lia|done].
Qed.

Definition settings : Settings := {| cert_path := ["data"; "cert.pem"]; key_path := ["data"; "key.pem"]; production_deployment := "local"; server_name := "relay" |}.
Definition noon : Z := 1700000000000000.

(** The write of the certificate fails: neither file remains. *)
Definition failing : FS := {| files := ∅; failures := [false; false; false; false; false; true] |}.

Lemma certificate_pair_whole_witness :
  whole settings (fst (ensure_transport_certificate (X := toy) settings Byte.x07 noon noon ∅ ∅ failing)) /\
  files (fst (ensure_transport_certificate (X := toy) settings Byte.x07 noon noon ∅ ∅ failing)) !! key_path settings = None.
Proof.
  split; [|vm_compute; reflexivity].
  apply (certificate_pair_whole (X := toy) settings Byte.x07 noon noon failing); [discriminate|apply (bool_decide_unpack _); vm_compute; exact I|].
  split; intros [x Hx]; vm_compute in Hx; discriminate Hx.
Defined.

Lemma development_certificate_accepted_witness : exists s crt,
  ensure_transport_certificate (X := toy) settings Byte.x07 noon noon ∅ ∅ {| files := ∅; failures := [] |} = (s, Ok crt) /\ dns_names (X509 := toy) crt = Some ["relay"].
Proof.
  destruct (development_certificate_accepted (X := toy) settings Byte.x07 noon noon ∅ (Byte.x07 :: str_bytes "relay") toy_laws) as [crt [E1 E2]];
    try reflexivity; [discriminate|split; apply (bool_decide_unpack _); vm_compute; exact I|].
  eexists _, crt. split; [exact E2|]. cbn in E1. injection E1 as <-. vm_compute. reflexivity.
Defined.

(** Another process writes its certificate between the two exclusive opens: the
    clean-up removes that certificate too. *)
Example foreign_certificate_removed :
  let other := {[ cert_path settings := str_bytes "another certificate" ]} in
  let '(s, r) := ensure_transport_certificate (X := toy) settings Byte.x07 noon noon ∅ other {| files := ∅; failures := [] |} in
  r = Raise OSError /\ files s !! cert_path settings = None.
Proof. vm_compute. split; reflexivity. Qed.

End Demo.

End Certificates.
