(* ===== verification/Lifecycle.v ===== *)
(** * The life of the server ([reticulum/server.py]: [initialize], [run], [shutdown])

    Start-up composes the deployment checks, the directories, the database, the
    stored sessions, the applications' start-up handlers, the Reticulum
    identity and destination, the private transport, the announce and
    maintenance timers and, last, the readiness marker; [shutdown] undoes it.

    A [Node] is the server with what only its life concerns: the files, the
    Reticulum objects, the timers.  Reticulum is a parameter: how an identity is
    stored, and a script of the calls that raise.  The applications' handlers
    and the private transport are procedures on the server. *)

From stdpp Require Import prelude strings list gmap.
From Stdlib Require Import ZArith Lia.
From S2P Require Import Prelude PyDict PyBytes PyValue Database Sessions Authorization Connection Server Config Backup Readiness.

Import Backup.

Module Lifecycle.
Import Connection Server.

(** ** The identity of the node *)

Class Reticulum := {
  Identity : Type;
  from_file : bytes -> option Identity;
  get_private_key : Identity -> bytes;
  hash_of : Identity -> string
}.

Section identity.
Context `{R : Reticulum}.

(** [os.open(path, O_WRONLY | O_CREAT | O_EXCL)]: whether the file is new. *)
Definition open_exclusive (p : path) : FM bool :=
  syscall ;!
  let! s := get in
  if bool_decide (is_Some (files s !! p)) then ret false else modify (set_files (<[p := []]> (files s))) ;! ret true.

Definition write_open (p : path) (content : bytes) : FM unit :=
  syscall ;! modify (fun s => set_files (<[p := content]> (files s)) s).

(** [RNS.Identity.from_file] of the file as it is now. *)
Definition identity_at (p : path) (message : string) : FM Identity :=
  let! s := get in
  match files s !! p ≫= from_file with Some i => ret i | None => raise (RuntimeError message) end.

(** [_load_or_create_identity]; [fresh] is [RNS.Identity()], [meanwhile] what other
    processes create between the look and the open. *)
Definition _load_or_create_identity (p : path) (fresh : Identity) (meanwhile : gmap path bytes) : FM Identity :=
  let! s := get in
  if bool_decide (is_Some (files s !! p)) then
    let! i := identity_at p "invalid Reticulum identity file" in
    syscall ;! ret i
  else
    modify (fun s => set_files (files s ∪ meanwhile) s) ;!
    let! created := open_exclusive p in
    let! i := if (created : bool) then write_open p (get_private_key fresh) ;! ret fresh
              else identity_at p "invalid concurrently-created Reticulum identity" in
    syscall ;! ret i.

(** The files are left as they were, or the identity's key is there. *)
Definition identity_stored (p : path) (before : gmap path bytes) (i : Identity) (after : gmap path bytes) : Prop :=
  exists content, after !! p = Some content /\ from_file content = Some i /\
    (forall q, q <> p -> after !! q = before !! q) /\ (forall c, before !! p = Some c -> content = c).

Lemma load_or_create_spec p fresh meanwhile s :
  (forall i, from_file (get_private_key i) = Some i) ->
  wp (_load_or_create_identity p fresh meanwhile) (fun r s' =>
    match r with
    | Ok i => exists before, (before = files s \/ before = files s ∪ meanwhile) /\ identity_stored p before i (files s')
    | Raise _ => True
    end) s.
Proof.
  intros Hlaw. unfold _load_or_create_identity, identity_at. rewrite wp_bind, wp_get. case_bool_decide as Hex; autorewrite with wp.
  - destruct Hex as [content Hc]. rewrite Hc. cbn [mbind option_bind].
    destruct (from_file content) as [i|] eqn:Ei; autorewrite with wp; [|done].
    apply wp_syscall; intros l _; autorewrite with wp; [|done]. exists (files s). split; [by left|].
    exists content. cbn [files set_failures]. split_and!; try done. intros c E. congruence.
  - unfold open_exclusive, write_open. autorewrite with wp. apply wp_syscall; intros l1 _; autorewrite with wp; [|done].
    cbn [files set_files set_failures]. case_bool_decide as Hex2; autorewrite with wp.
    + destruct Hex2 as [content Hc]. cbn [files set_files set_failures]. rewrite Hc. cbn [mbind option_bind].
      destruct (from_file content) as [i|] eqn:Ei; autorewrite with wp; [|done].
      apply wp_syscall; intros l _; autorewrite with wp; [|done]. exists (files s ∪ meanwhile). split; [by right|].
      exists content. cbn [files set_files set_failures]. split_and!; try done. intros c E. congruence.
    + apply wp_syscall; intros l2 _; autorewrite with wp; [|done].
      apply wp_syscall; intros l3 _; autorewrite with wp; [|done]. exists (files s ∪ meanwhile). split; [by right|].
      exists (get_private_key fresh). cbn [files set_files set_failures]. rewrite lookup_insert_eq. split_and!; try done.
      * intros q Hq. by rewrite !lookup_insert_ne.
      * intros c E. exfalso. apply Hex2. by exists c.
Qed.

(** An identity file that is valid is the identity of every later start, and of
    the loser of a race. *)
Lemma load_existing p fresh meanwhile s content i :
  files s !! p = Some content -> from_file content = Some i -> failures s = [] ->
  _load_or_create_identity p fresh meanwhile s = (s, Ok i).
Proof.
  intros Hc Hi Hf. unfold _load_or_create_identity. rewrite (bind_ok get _ s s s eq_refl), Hc, bool_decide_true by (by eexists).
  assert (E : identity_at p "invalid Reticulum identity file" s = (s, Ok i)).
  { unfold identity_at. rewrite (bind_ok get _ s s s eq_refl), Hc. cbn [mbind option_bind]. by rewrite Hi. }
  rewrite (bind_ok _ _ _ _ _ E). unfold syscall. munfold. by rewrite Hf.

Qed.

End identity.

(** ** Registration *)

(** What [on_message], [on_startup] and the like fill. *)
Record Registry (H U : Type) := {
  message_handlers : gmap string H;
  startup_handlers : list U;
  shutdown_handlers : list U;
  maintenance_handlers : list U;
  disconnect_handlers : list H
}.
Arguments message_handlers {H U}.
Arguments startup_handlers {H U}.
Arguments shutdown_handlers {H U}.
Arguments maintenance_handlers {H U}.
Arguments disconnect_handlers {H U}.

Section registry.
Context {H U : Type}.

Definition set_message_handlers (m : gmap string H) (r : Registry H U) : Registry H U :=
  {| message_handlers := m; startup_handlers := startup_handlers r; shutdown_handlers := shutdown_handlers r;
     maintenance_handlers := maintenance_handlers r; disconnect_handlers := disconnect_handlers r |}.

(** [on_message(handler)]: the handler of last resort *)
Definition on_any_message (h : H) : M (Registry H U) unit := modify (fun r => set_message_handlers (<["*" := h]> (message_handlers r)) r).

(** [on_message("type")(handler)] *)
Definition on_message (message_type : string) (h : H) : M (Registry H U) unit :=
  let! r := get in
  match message_handlers r !! message_type with
  | Some _ => raise (ValueError "handler already registered")
  | None => modify (fun r => set_message_handlers (<[message_type := h]> (message_handlers r)) r)
  end.

Definition on_startup (h : U) : M (Registry H U) unit := modify (fun r =>
  {| message_handlers := message_handlers r; startup_handlers := startup_handlers r ++ [h]; shutdown_handlers := shutdown_handlers r;
     maintenance_handlers := maintenance_handlers r; disconnect_handlers := disconnect_handlers r |}).
Definition on_shutdown (h : U) : M (Registry H U) unit := modify (fun r =>
  {| message_handlers := message_handlers r; startup_handlers := startup_handlers r; shutdown_handlers := shutdown_handlers r ++ [h];
     maintenance_handlers := maintenance_handlers r; disconnect_handlers := disconnect_handlers r |}).
Definition on_maintenance (h : U) : M (Registry H U) unit := modify (fun r =>
  {| message_handlers := message_handlers r; startup_handlers := startup_handlers r; shutdown_handlers := shutdown_handlers r;
     maintenance_handlers := maintenance_handlers r ++ [h]; disconnect_handlers := disconnect_handlers r |}).
Definition on_session_disconnect (h : H) : M (Registry H U) unit := modify (fun r =>
  {| message_handlers := message_handlers r; startup_handlers := startup_handlers r; shutdown_handlers := shutdown_handlers r;
     maintenance_handlers := maintenance_handlers r; disconnect_handlers := disconnect_handlers r ++ [h] |}).

Inductive registration :=
| OnAny (h : H) | OnMessage (t : string) (h : H) | OnStartup (h : U) | OnShutdown (h : U) | OnMaintenance (h : U) | OnDisconnect (h : H).

Definition register_one (x : registration) : M (Registry H U) unit :=
  match x with
  | OnAny h => on_any_message h | OnMessage t h => on_message t h | OnStartup h => on_startup h
  | OnShutdown h => on_shutdown h | OnMaintenance h => on_maintenance h | OnDisconnect h => on_session_disconnect h
  end.

Fixpoint register_all (l : list registration) (r : Registry H U) : Registry H U :=
  match l with [] => r | x :: l' => register_all l' (fst (register_one x r)) end.

(** Once a type has a handler no later registration takes it away; only the
    handler of last resort can be replaced. *)
Lemma registered_kept l : forall r t h, t <> "*" -> message_handlers r !! t = Some h -> message_handlers (register_all l r) !! t = Some h.
Proof.
  induction l as [|x l IH]; intros r t h Ht Hr; cbn [register_all]; [done|]. apply IH; [done|].
  destruct x as [h'|t' h'|h'|h'|h'|h']; cbn; try done.
  - by rewrite lookup_insert_ne.
  - unfold on_message. munfold. destruct (message_handlers r !! t') eqn:E; [done|]. cbn. rewrite lookup_insert_ne; [done|]. intros ->. congruence.
Qed.

End registry.

(** ** How a link ended *)

(** The attributes [_reticulum_close_reason] reads; a missing one equals nothing. *)
Record LinkEnd := { teardown_reason : option Z; TIMEOUT : option Z; INITIATOR_CLOSED : option Z; DESTINATION_CLOSED : option Z; initiator : bool }.

Definition same (a b : option Z) : bool := match a, b with Some x, Some y => x =? y | _, _ => false end.

Definition _reticulum_close_reason (l : LinkEnd) : string :=
  if same (teardown_reason l) (TIMEOUT l) then "reticulum_timeout" else
  let initiator_closed := same (teardown_reason l) (INITIATOR_CLOSED l) in
  let destination_closed := same (teardown_reason l) (DESTINATION_CLOSED l) in
  if initiator_closed || destination_closed then
    let local_initiated := (initiator_closed && initiator l) || (destination_closed && negb (initiator l)) in
    if local_initiated then "local_reticulum_close" else "remote_reticulum_close"
  else "reticulum_link_closed".

(** With the constants of Reticulum, a server's link (it never initiates one) is
    closed locally exactly when the destination closed it. *)
Lemma server_close_reason l : TIMEOUT l = Some 1 -> INITIATOR_CLOSED l = Some 2 -> DESTINATION_CLOSED l = Some 3 -> initiator l = false ->
  _reticulum_close_reason l = match teardown_reason l with
    | Some 1 => "reticulum_timeout" | Some 2 => "remote_reticulum_close" | Some 3 => "local_reticulum_close" | _ => "reticulum_link_closed" end.
Proof.
  intros H1 H2 H3 H4. unfold _reticulum_close_reason, same. rewrite H1, H2, H3, H4.
  destruct (teardown_reason l) as [z|]; [|done].
  destruct (Z.eqb_spec z 1) as [->|]; [done|]. destruct (Z.eqb_spec z 2) as [->|]; [done|]. destruct (Z.eqb_spec z 3) as [->|]; [done|].
  cbn. destruct z as [|p|p]; try done. repeat (destruct p as [p|p|]; try done).
Qed.

(** ** The node *)

Record Settings := {
  data_dir : path;
  identity_path : path;
  rns_config_dir : path;
  announce_interval : Z
}.

(** A [threading.Timer] that was started; it is over once it fired or was cancelled. *)
Record Timer := { interval : Z; pending : bool }.

Section node.
Context {A : Type} `{R : Reticulum}.

(** [self._loop]: none yet, running with what handlers scheduled on it, closed. *)
Inductive Loop := NoLoop | Running (scheduled : list (M (Server A) unit)) | Closed.

Record Node := {
  server : Server A;
  disk : FS;
  rns_calls : list (option exn);
  reticulum : bool;
  identity : option Identity;
  destination_hash : option string;
  link_callback : bool;
  request_handlers : list string;
  announces : nat;
  announce_timer : option Timer;
  maintenance_timer : option Timer;
  event_loop : Loop
}.

Definition set_server x (n : Node) : Node :=
  {| server := x; disk := disk n; rns_calls := rns_calls n; reticulum := reticulum n; identity := identity n; destination_hash := destination_hash n; link_callback := link_callback n; request_handlers := request_handlers n; announces := announces n; announce_timer := announce_timer n; maintenance_timer := maintenance_timer n; event_loop := event_loop n |}.
Definition set_disk x (n : Node) : Node :=
  {| server := server n; disk := x; rns_calls := rns_calls n; reticulum := reticulum n; identity := identity n; destination_hash := destination_hash n; link_callback := link_callback n; request_handlers := request_handlers n; announces := announces n; announce_timer := announce_timer n; maintenance_timer := maintenance_timer n; event_loop := event_loop n |}.
Definition set_rns_calls x (n : Node) : Node :=
  {| server := server n; disk := disk n; rns_calls := x; reticulum := reticulum n; identity := identity n; destination_hash := destination_hash n; link_callback := link_callback n; request_handlers := request_handlers n; announces := announces n; announce_timer := announce_timer n; maintenance_timer := maintenance_timer n; event_loop := event_loop n |}.
Definition set_reticulum x (n : Node) : Node :=
  {| server := server n; disk := disk n; rns_calls := rns_calls n; reticulum := x; identity := identity n; destination_hash := destination_hash n; link_callback := link_callback n; request_handlers := request_handlers n; announces := announces n; announce_timer := announce_timer n; maintenance_timer := maintenance_timer n; event_loop := event_loop n |}.
Definition set_identity x (n : Node) : Node :=
  {| server := server n; disk := disk n; rns_calls := rns_calls n; reticulum := reticulum n; identity := x; destination_hash := destination_hash n; link_callback := link_callback n; request_handlers := request_handlers n; announces := announces n; announce_timer := announce_timer n; maintenance_timer := maintenance_timer n; event_loop := event_loop n |}.
Definition set_destination_hash x (n : Node) : Node :=
  {| server := server n; disk := disk n; rns_calls := rns_calls n; reticulum := reticulum n; identity := identity n; destination_hash := x; link_callback := link_callback n; request_handlers := request_handlers n; announces := announces n; announce_timer := announce_timer n; maintenance_timer := maintenance_timer n; event_loop := event_loop n |}.
Definition set_link_callback x (n : Node) : Node :=
  {| server := server n; disk := disk n; rns_calls := rns_calls n; reticulum := reticulum n; identity := identity n; destination_hash := destination_hash n; link_callback := x; request_handlers := request_handlers n; announces := announces n; announce_timer := announce_timer n; maintenance_timer := maintenance_timer n; event_loop := event_loop n |}.
Definition set_request_handlers x (n : Node) : Node :=
  {| server := server n; disk := disk n; rns_calls := rns_calls n; reticulum := reticulum n; identity := identity n; destination_hash := destination_hash n; link_callback := link_callback n; request_handlers := x; announces := announces n; announce_timer := announce_timer n; maintenance_timer := maintenance_timer n; event_loop := event_loop n |}.
Definition set_announces x (n : Node) : Node :=
  {| server := server n; disk := disk n; rns_calls := rns_calls n; reticulum := reticulum n; identity := identity n; destination_hash := destination_hash n; link_callback := link_callback n; request_handlers := request_handlers n; announces := x; announce_timer := announce_timer n; maintenance_timer := maintenance_timer n; event_loop := event_loop n |}.
Definition set_announce_timer x (n : Node) : Node :=
  {| server := server n; disk := disk n; rns_calls := rns_calls n; reticulum := reticulum n; identity := identity n; destination_hash := destination_hash n; link_callback := link_callback n; request_handlers := request_handlers n; announces := announces n; announce_timer := x; maintenance_timer := maintenance_timer n; event_loop := event_loop n |}.
Definition set_maintenance_timer x (n : Node) : Node :=
  {| server := server n; disk := disk n; rns_calls := rns_calls n; reticulum := reticulum n; identity := identity n; destination_hash := destination_hash n; link_callback := link_callback n; request_handlers := request_handlers n; announces := announces n; announce_timer := announce_timer n; maintenance_timer := x; event_loop := event_loop n |}.
Definition set_event_loop x (n : Node) : Node :=
  {| server := server n; disk := disk n; rns_calls := rns_calls n; reticulum := reticulum n; identity := identity n; destination_hash := destination_hash n; link_callback := link_callback n; request_handlers := request_handlers n; announces := announces n; announce_timer := announce_timer n; maintenance_timer := maintenance_timer n; event_loop := x |}.

Abbreviation NM := (M Node).
Abbreviation SrvM := (M (Server A)).

Definition on_server {B} (m : SrvM B) : NM B := zoom server set_server m.
Definition on_disk {B} (m : FM B) : NM B := zoom disk set_disk m.

(** A call into Reticulum. *)
Definition rns_call : NM unit :=
  let! n := get in
  match rns_calls n with
  | [] => ret tt
  | outcome :: rest => modify (set_rns_calls rest) ;! match outcome with Some e => raise e | None => ret tt end
  end.

(** [Config.ensure_directories]: directories are not files; only the default
    Reticulum configuration is written, when there is none. *)
Definition ensure_directories (c : Settings) : FM unit :=
  syscall ;!
  let! created := open_exclusive (rns_config_dir c ++ ["config"]) in
  (if (created : bool) then write_open (rns_config_dir c ++ ["config"]) (str_bytes Config.DEFAULT_RNS_CONFIG) else ret tt) ;!
  syscall ;! syscall ;! syscall ;! syscall ;! syscall ;! syscall ;! syscall ;! syscall.

Definition announce : NM unit := rns_call ;! modify (fun n => set_announces (S (announces n)) n).

Section handlers.
Context (c : Settings) (os : Readiness.Linux).
(** [startup_handlers], [shutdown_handlers] and [maintenance_handlers] with
    [disconnect_handlers], as registered; the paths of [rpc_router.handlers];
    [private_transport.start] and [stop]. *)
Context (startup_handlers shutdown_handlers maintenance_handlers : list (SrvM unit)).
Context (disconnect_handlers : list (nat -> SrvM unit)).
Context (rpc_paths : list string).
Context (transport_start transport_stop : SrvM unit).

(** [_schedule_announce] *)
Definition _schedule_announce : NM unit :=
  let! n := get in
  if shutting_down (server n) then ret tt else
  modify (set_announce_timer (Some {| interval := announce_interval c; pending := true |})).

(** [_announce]: the timer fired *)
Definition _announce : NM unit :=
  let! n := get in
  if negb (shutting_down (server n)) && bool_decide (is_Some (destination_hash n)) then
    announce ;!
    _schedule_announce
  else ret tt.

Definition SECOND : Z := 1000000.

(** [_schedule_maintenance]; times are in microseconds *)
Definition _schedule_maintenance : NM unit :=
  let! n := get in
  if shutting_down (server n) then ret tt else
  let interval := Z.max (1 * SECOND) (Z.min (30 * SECOND) (idle_connection_timeout (server n) / 2)) in
  modify (set_maintenance_timer (Some {| interval := interval; pending := true |})).

(** [_maintain]: the timer fired; what is done is [Server._maintain] *)
Definition _maintain : NM unit :=
  let! n := get in
  if shutting_down (server n) then ret tt else
  on_server (Server._maintain disconnect_handlers maintenance_handlers) ;!
  _schedule_maintenance.

(** [initialize] up to the marker. *)
Definition bring_up (deployment : res unit) (fresh : Identity) (meanwhile : gmap path bytes) : NM unit :=
  lift deployment ;!
  on_disk (ensure_directories c) ;!
  on_server (in_sessions (in_db Db.open)) ;!
  on_server (let! s := get in in_sessions (load (wall s))) ;!
  on_server (modify (set_logical_sessions ∅)) ;!
  on_server (iterM id startup_handlers) ;!
  rns_call ;!
  modify (set_reticulum true) ;!
  let! i := on_disk (_load_or_create_identity (identity_path c) fresh meanwhile) in
  modify (set_identity (Some i)) ;!
  rns_call ;!
  modify (set_destination_hash (Some (hash_of i))) ;!
  on_server transport_start ;!
  rns_call ;!
  modify (set_link_callback true) ;!
  iterM (fun path => rns_call ;! modify (fun n => set_request_handlers (request_handlers n ++ [path]) n)) rpc_paths ;!
  announce ;!
  _schedule_announce ;!
  _schedule_maintenance.

Definition mark (running : bool) : NM unit := on_disk (Readiness.write_marker os (data_dir c) "server" [("running", VBool running)]).

(** [initialize]; [deployment] is what [require_deployment] gives. *)
Definition initialize (deployment : res unit) (fresh : Identity) (meanwhile : gmap path bytes) : NM unit :=
  bring_up deployment fresh meanwhile ;!
  mark true.

Definition cancel (t : Timer) : Timer := {| interval := interval t; pending := false |}.
Definition is_OSError (e : exn) : bool := match e with OSError => true | _ => false end.

(** [shutdown], from the closing of the connections on. *)
Definition bring_down : SrvM unit :=
  let! s := get in
  iterM (fun k => close (closing disconnect_handlers) k "server_shutdown") (connections s) ;!
  let! s := get in
  iterM (fun r => in_sessions (persist r)) (all (sessions s)) ;!
  transport_stop ;!
  run_handlers shutdown_handlers ;!
  in_sessions (in_db Db.close).

(** [shutdown] *)
Definition shutdown : NM unit :=
  let! n := get in
  if shutting_down (server n) then ret tt else
  on_server (modify (set_shutting_down true)) ;!
  try_catch (mark false) is_OSError (fun _ => ret tt) ;!
  modify (fun n => set_announce_timer (cancel <$> announce_timer n) n) ;!
  modify (fun n => set_maintenance_timer (cancel <$> maintenance_timer n) n) ;!
  on_server bring_down ;!
  modify (fun n => set_event_loop (match event_loop n with NoLoop => NoLoop | _ => Closed end) n).

(** [run]; [serving] is what happens until the process is told to stop. *)
Definition run (deployment : res unit) (fresh : Identity) (meanwhile : gmap path bytes) (serving : NM unit) : NM unit :=
  modify (set_event_loop (Running [])) ;!
  initialize deployment fresh meanwhile ;!
  finally serving shutdown.

(** [invoke_message_handler]: a handler may return a coroutine. *)
Definition invoke_message_handler (handler : MessageContext -> pyval -> SrvM (option (SrvM unit))) (ctx : MessageContext) (message : pyval) : NM unit :=
  let! result := on_server (handler ctx message) in
  match result with
  | None => ret tt
  | Some coroutine =>
    let! n := get in
    match event_loop n with
    | NoLoop => raise (RuntimeError "async handler used before server event loop started")
    | Closed => raise (RuntimeError "Event loop is closed")
    | Running scheduled => modify (set_event_loop (Running (scheduled ++ [coroutine])))
    end
  end.

(** ** What other paths see of it *)

Definition kept_at (q : path) (s : FS) : option bytes := files s !! q.

Lemma syscall_kept q : moves (stays (kept_at q)) syscall.
Proof. unfold syscall. repeat moves_step; done. Qed.

Lemma write_kept p q content : q <> p -> moves (stays (kept_at q)) (write_open p content).
Proof.
  intros Hq. unfold write_open. repeat (moves_step || apply syscall_kept). unfold stays, kept_at. cbn. by rewrite lookup_insert_ne.
Qed.

Lemma exclusive_kept p q : q <> p -> moves (stays (kept_at q)) (open_exclusive p).
Proof.
  intros Hq. unfold open_exclusive. apply moves_bind; [apply _|apply syscall_kept|intros _].
  intros s. unfold stays, kept_at. munfold. case_bool_decide; cbn; [done|by rewrite lookup_insert_ne].
Qed.

Lemma ensure_directories_kept q : q <> rns_config_dir c ++ ["config"] -> moves (stays (kept_at q)) (ensure_directories c).
Proof. intros Hq. unfold ensure_directories. repeat (apply syscall_kept || (apply exclusive_kept; done) || (apply write_kept; done) || moves_step). Qed.

Lemma identity_kept q fresh meanwhile : q <> identity_path c -> meanwhile !! q = None ->
  moves (stays (kept_at q)) (_load_or_create_identity (identity_path c) fresh meanwhile).
Proof.
  intros Hq Hm. unfold _load_or_create_identity, identity_at.
  repeat (apply syscall_kept || (apply exclusive_kept; done) || (apply write_kept; done) || moves_step).
  unfold stays, kept_at. cbn. destruct (files _ !! q) eqn:E; [by apply lookup_union_Some_l|]. by rewrite lookup_union_None.
Qed.

Definition node_kept (q : path) (n : Node) : option bytes := kept_at q (disk n).

Lemma on_server_kept {B} q (m : SrvM B) : moves (stays (node_kept q)) (on_server m).
Proof. intros n. unfold on_server, zoom, stays, node_kept. by destruct (m (server n)). Qed.

Lemma on_disk_kept {B} q (m : FM B) : moves (stays (kept_at q)) m -> moves (stays (node_kept q)) (on_disk m).
Proof. intros Hm n. specialize (Hm (disk n)). unfold on_disk, zoom, stays, node_kept in *. by destruct (m (disk n)). Qed.

Lemma rns_call_kept q : moves (stays (node_kept q)) rns_call.
Proof. unfold rns_call. repeat moves_step; done. Qed.

Lemma schedules_kept q : moves (stays (node_kept q)) _schedule_announce /\ moves (stays (node_kept q)) _schedule_maintenance.
Proof. unfold _schedule_announce, _schedule_maintenance. split; repeat moves_step; done. Qed.

(** Start-up writes the default Reticulum configuration and the identity, and
    nothing else until the marker. *)
Lemma bring_up_kept q deployment fresh meanwhile :
  q <> rns_config_dir c ++ ["config"] -> q <> identity_path c -> meanwhile !! q = None ->
  moves (stays (node_kept q)) (bring_up deployment fresh meanwhile).
Proof.
  intros H1 H2 H3. destruct (schedules_kept q) as [S1 S2]. unfold bring_up, announce.
  repeat (apply on_server_kept || (apply on_disk_kept, ensure_directories_kept; done) || (apply on_disk_kept, identity_kept; done)
    || apply rns_call_kept || done || moves_step).
Qed.

(** ** What start-up establishes *)

Lemma wp_server {B} (m : SrvM B) (Q : res B -> Node -> Prop) n : (forall r s', Q r (set_server s' n)) -> wp (on_server m) Q n.
Proof. intros HQ. unfold wp, on_server, zoom. destruct (m (server n)). apply HQ. Qed.

Lemma wp_server_of {B} (m : SrvM B) (Q : res B -> Node -> Prop) n :
  wp m (fun r s' => Q r (set_server s' n)) (server n) -> wp (on_server m) Q n.
Proof. unfold wp, on_server, zoom. by destruct (m (server n)). Qed.

Lemma wp_rns (Q : res unit -> Node -> Prop) n : (forall r l, Q r (set_rns_calls l n)) -> wp rns_call Q n.
Proof.
  intros HQ. unfold wp, rns_call. munfold. destruct (rns_calls n) as [|o l] eqn:E.
  - cbn. specialize (HQ (Ok tt) []). rewrite <- E in HQ. by destruct n.
  - destruct o; apply HQ.
Qed.

Lemma wp_disk {B} (m : FM B) (Q : res B -> Node -> Prop) n : (forall r d, Q r (set_disk d n)) -> wp (on_disk m) Q n.
Proof. intros HQ. unfold wp, on_disk, zoom. destruct (m (disk n)). apply HQ. Qed.

(** The database is open and no logical connection survived. *)
Definition loaded (s : Server A) : Prop := is_open (database (sessions s)) = true /\ logical_sessions s = ∅.

(** Everything that makes the node reachable is in place. *)
Record started (n : Node) : Prop := {
  st_reticulum : reticulum n = true;
  st_identity : exists i, identity n = Some i /\ destination_hash n = Some (hash_of i);
  st_callback : link_callback n = true;
  st_requests : forall path, path ∈ rpc_paths -> path ∈ request_handlers n;
  st_announced : (0 < announces n)%nat;
  st_timers : shutting_down (server n) = false -> exists t t', announce_timer n = Some t /\ maintenance_timer n = Some t' /\
    pending t = true /\ pending t' = true /\ 1 * SECOND <= interval t' <= 30 * SECOND
}.

Lemma load_keeps_database now : moves (stays database) (load now).
Proof.
  unfold load, in_db, Db.load_sessions, Db.connection. apply moves_bind; [apply _| |intros rows].
  - intros m. unfold stays, zoom. munfold. by destruct (is_open (database m)), m.
  - apply moves_iterM; [apply _|]. intros st. unfold load_one, alloc. repeat moves_step; done.
Qed.

Lemma opened_loaded n (Q : res unit -> Node -> Prop) (k : NM unit) :
  (forall e s', Q (Raise e) (set_server s' n)) ->
  (forall s', loaded s' -> shutting_down s' = shutting_down (server n) -> wp k Q (set_server s' n)) ->
  wp (on_server (in_sessions (in_db Db.open)) ;!
      on_server (let! s := get in in_sessions (load (wall s))) ;!
      on_server (modify (set_logical_sessions ∅)) ;! k) Q n.
Proof.
  intros Hbad Hok. rewrite wp_bind. apply wp_server_of. unfold in_sessions, in_db. autorewrite with wp.
  unfold Db.open. autorewrite with wp.
  assert (Hrest : forall d, is_open d = true -> wp (on_server (let! s := get in in_sessions (load (wall s))) ;!
    on_server (modify (set_logical_sessions ∅)) ;! k) Q (set_server (set_sessions (set_database d (sessions (server n))) (server n)) n)).
  { intros d Hd. rewrite wp_bind. apply wp_server_of. autorewrite with wp. cbn [server set_server].
    unfold in_sessions. autorewrite with wp. change (sessions (set_sessions ?x _)) with x. unfold wp at 1.
    set (now := wall _). set (m0 := set_database d (sessions (server n))). assert (Hdb := load_keeps_database now m0). unfold stays in Hdb.
    destruct (load now m0) as [m1 [u|e]]; cbn [fst snd] in *; [|by apply Hbad].
    rewrite wp_bind. apply wp_server_of. autorewrite with wp. cbn [server set_server]. apply Hok; [|done].
    split; [|done]. cbn. by rewrite Hdb. }
  destruct (SCHEMA_VERSION <? _); autorewrite with wp; [by apply Hbad|].
  destruct (_ =? 0); autorewrite with wp; by apply Hrest.
Qed.

Lemma wp_requests l : forall n (Q : res unit -> Node -> Prop),
  (forall e l' k, Q (Raise e) (set_rns_calls l' (set_request_handlers (request_handlers n ++ k) n))) ->
  (forall l', Q (Ok tt) (set_rns_calls l' (set_request_handlers (request_handlers n ++ l) n))) ->
  wp (iterM (fun path => rns_call ;! modify (fun n => set_request_handlers (request_handlers n ++ [path]) n)) l) Q n.
Proof.
  induction l as [|p l IH]; intros n Q Hbad Hok; cbn [iterM].
  - rewrite wp_ret. specialize (Hok (rns_calls n)). rewrite app_nil_r in Hok. by destruct n.
  - rewrite !wp_bind. apply wp_rns. intros [[]|e] l'.
    + rewrite wp_modify. apply IH; intros; cbn [request_handlers set_rns_calls set_request_handlers].
      * rewrite <- app_assoc. apply (Hbad e l'0 ([p] ++ k)).
      * rewrite <- app_assoc. apply (Hok l'0).
    + specialize (Hbad e l' []). rewrite app_nil_r in Hbad. by destruct n.
Qed.

Lemma preserves_handlers (I : Server A -> Prop) hs : Forall (preserves I) hs -> preserves I (iterM id hs).
Proof.
  induction 1 as [|h hs Hh Hs IH]; intros s Hi; [done|]. cbn [iterM]. unfold bind. specialize (Hh s Hi).
  unfold id at 1. destruct (h s) as [s1 [u|e]]; cbn [fst] in *; [by apply IH|done].
Qed.

Lemma bring_up_spec (I : Server A -> Prop) deployment fresh meanwhile n :
  (forall s, loaded s -> I s) -> Forall (preserves I) startup_handlers -> preserves I transport_start ->
  wp (bring_up deployment fresh meanwhile) (fun r n' => match r with Ok _ => started n' /\ I (server n') /\ deployment = Ok tt | Raise _ => True end) n.
Proof.
  intros HI Hstart Htrans. unfold bring_up. rewrite wp_bind, wp_lift. destruct deployment as [[]|e]; [|done].
  rewrite wp_bind. apply wp_disk. intros [[]|e] d; [|done]. apply opened_loaded; [done|]. intros s1 Hs1 _. apply HI in Hs1. clear HI.
  rewrite wp_bind. apply wp_server_of. cbn [server set_server]. assert (Hs2 := preserves_handlers I _ Hstart s1 Hs1). unfold wp at 1.
  destruct (iterM id startup_handlers s1) as [s2 [[]|e]]; cbn [fst snd] in *; [|done].
  rewrite wp_bind. apply wp_rns. intros [[]|e] l1; [|done]. rewrite wp_bind, wp_modify.
  rewrite wp_bind. apply wp_disk. intros [i|e] d2; [|done]. rewrite wp_bind, wp_modify.
  rewrite wp_bind. apply wp_rns. intros [[]|e] l2; [|done]. rewrite wp_bind, wp_modify.
  rewrite wp_bind. apply wp_server_of. specialize (Htrans s2 Hs2). unfold wp at 1. cbn [server set_server set_rns_calls set_disk set_identity set_reticulum set_destination_hash].
  destruct (transport_start s2) as [s3 [[]|e]]; cbn [fst snd] in *; [|done].
  rewrite wp_bind. apply wp_rns. intros [[]|e] l3; [|done]. rewrite wp_bind, wp_modify.
  rewrite wp_bind. apply wp_requests; [done|]. intros l4. unfold announce. rewrite !wp_bind. apply wp_rns. intros [[]|e] l5; [|done].
  rewrite wp_modify. unfold _schedule_announce, _schedule_maintenance. rewrite !wp_bind, wp_get.
  cbn [server set_server set_rns_calls set_disk set_identity set_reticulum set_destination_hash set_link_callback set_request_handlers set_announces].
  destruct (shutting_down s3) eqn:Esd; rewrite ?wp_modify, ?wp_ret, ?wp_bind, ?wp_get.
  - cbn [server set_server set_rns_calls set_disk set_identity set_reticulum set_destination_hash set_link_callback set_request_handlers set_announces]. rewrite Esd, wp_ret.
    split; [|done]. split; cbn; try done; [by exists i| |lia|congruence]. intros q Hq. apply elem_of_app. by right.
  - cbn [server set_server set_rns_calls set_disk set_identity set_reticulum set_destination_hash set_link_callback set_request_handlers set_announces set_announce_timer].
    rewrite Esd, wp_modify. split; [|done]. split; cbn; try done; [by exists i| |lia|].
    + intros q Hq. apply elem_of_app. by right.
    + intros _. eexists _, _. split_and!; try reflexivity; cbn [interval]; unfold SECOND; lia.
Qed.

(** ** Health *)

(** What the operating system gives a process: an identity that can be printed. *)
Definition own_identity (boot ticks : bytes) : Prop :=
  Readiness.has_proc os = true /\ Readiness.signalled os (Readiness.self os) = true /\ - 2 ^ 31 <= Readiness.self os < 2 ^ 31 /\
  Readiness.incarnation os (Readiness.self os) = Some (boot, ticks) /\
  forallb (fun b => byte_val b <? 128) boot = true /\ forallb is_digit ticks = true.

Lemma own_process_identity boot ticks : own_identity boot ticks ->
  Readiness.process_identity os (VInt (Readiness.self os)) = Ok (bytes_str (boot ++ Byte.x3a :: ticks)) /\
  JsonFacts.ascii_string (bytes_str (boot ++ Byte.x3a :: ticks)).
Proof.
  intros (H1 & H2 & H3 & H4 & H5 & H6). split.
  - apply Readiness.process_identity_ok. split_and!; [lia|lia|done|]. by exists boot, ticks.
  - by apply (Readiness.process_identity_ascii os (Readiness.self os)).
Qed.

Lemma mark_spec b boot ticks n : own_identity boot ticks ->
  wp (mark b) (fun r n' => (exists d, n' = set_disk d n) /\
    match r with
    | Ok _ => forall os', Readiness.check_readiness os' (data_dir c) (disk n') = Ok tt <->
        b = true /\ Readiness.process_identity os' (VInt (Readiness.self os)) = Ok (bytes_str (boot ++ Byte.x3a :: ticks))
    | Raise _ => forall os', Readiness.check_readiness os' (data_dir c) (disk n') = Readiness.check_readiness os' (data_dir c) (disk n)
    end) n.
Proof.
  intros Ho. destruct (own_process_identity _ _ Ho) as [Hi Ha]. unfold mark, on_disk. rewrite wp_zoom.
  eapply wp_mono; [apply Readiness.write_marker_spec|]. rewrite (proj1 Ho). intros [[]|e] d [_ Hr]; (split; [by exists d|]); intros os'.
  - destruct Hr as (i & Ei & Ef). rewrite Ei in Hi. injection Hi as ->. rewrite Readiness.marker_payload_running in Ef.
    destruct Ho as (_ & _ & Hpid & _). by apply Readiness.check_server_marker.
  - by apply Readiness.check_readiness_kept.
Qed.


(** The files a shut-down node leaves are those its marker was written to. *)
Lemma shutdown_disk n : shutting_down (server n) = false ->
  disk (fst (shutdown n)) = disk (fst (mark false (set_server (set_shutting_down true (server n)) n))).
Proof.
  intros Hs. unfold shutdown. rewrite (bind_ok get _ n n n eq_refl), Hs.
  rewrite (bind_ok (on_server (modify (set_shutting_down true))) _ n (set_server (set_shutting_down true (server n)) n) tt eq_refl).
  set (n0 := set_server _ n).
  assert (Hrest : forall n1, disk (fst ((modify (fun n => set_announce_timer (cancel <$> announce_timer n) n) ;!
    modify (fun n => set_maintenance_timer (cancel <$> maintenance_timer n) n) ;! on_server bring_down ;!
    modify (fun n => set_event_loop (match event_loop n with NoLoop => NoLoop | _ => Closed end) n)) n1)) = disk n1).
  { intros n1. unfold on_server, zoom. munfold. cbn [server set_announce_timer set_maintenance_timer].
    destruct (bring_down (server n1)) as [s1 [u|e]]; done. }
  destruct (mark false n0) as [n1 [[]|e]] eqn:Em; cbn [fst].
  - rewrite (bind_ok _ _ n0 n1 tt); [apply Hrest|]. unfold try_catch. by rewrite Em.
  - destruct (is_OSError e) eqn:Ee.
    + rewrite (bind_ok _ _ n0 n1 tt); [apply Hrest|]. unfold try_catch. by rewrite Em, Ee.
    + rewrite (bind_raise _ _ n0 n1 e); [done|]. unfold try_catch. by rewrite Em, Ee.
Qed.

(** a server that shuts down is not ready, for any later health check and
    whatever process then has its id, unless its marker could not be written. *)
Theorem shutdown_is_not_ready (boot ticks : bytes) (n : Node) (os' : Readiness.Linux) :
  own_identity boot ticks -> shutting_down (server n) = false -> failures (disk n) = [] ->
  Readiness.check_readiness os' (data_dir c) (disk (fst (shutdown n))) <> Ok tt.
Proof.
  intros Ho Hs Hf. rewrite shutdown_disk by done. set (n0 := set_server _ n). assert (Hmark := mark_spec false boot ticks n0 Ho).
  destruct (own_process_identity _ _ Ho) as [Hi _].
  destruct (Readiness.write_marker_succeeds os (data_dir c) "server" [("running", VBool false)] (files (disk n)) _ (proj1 Ho) Hi eq_refl) as [d Hd].
  assert (Em : mark false n0 = (set_disk d n0, Ok tt)).
  { unfold mark, on_disk, zoom. cbn [disk n0 set_server]. replace (disk n) with {| files := files (disk n); failures := [] |}; [by rewrite Hd|].
    rewrite <- Hf. by destruct (disk n). }
  unfold wp in Hmark. rewrite Em in Hmark. rewrite Em. destruct Hmark as [_ Hmark]. cbn [fst]. intros E. by apply Hmark in E as [? _].
Qed.

(** ** The destination survives restarts *)

Section restart.
Hypothesis Hlaw : forall i, from_file (get_private_key i) = Some i.
Hypothesis Hconfig : identity_path c <> rns_config_dir c ++ ["config"].

(** The node answers under the identity its file holds; a file that was there stays. *)
Definition identity_settled (before : FS) (n : Node) : Prop :=
  exists i content, destination_hash n = Some (hash_of i) /\ files (disk n) !! identity_path c = Some content /\
    from_file content = Some i /\ forall c0, files before !! identity_path c = Some c0 -> content = c0.

Lemma bring_up_identity deployment fresh meanwhile n :
  wp (bring_up deployment fresh meanwhile) (fun r n' => match r with Ok _ => identity_settled (disk n) n' | Raise _ => True end) n.
Proof using Hlaw Hconfig.
  assert (Hdir := ensure_directories_kept (identity_path c) Hconfig (disk n)). unfold stays, kept_at in Hdir.
  unfold bring_up. rewrite wp_bind, wp_lift. destruct deployment as [[]|e]; [|done].
  rewrite wp_bind. unfold on_disk at 1. rewrite wp_zoom. unfold wp at 1.
  destruct (ensure_directories c (disk n)) as [d [[]|e]]; cbn [fst snd] in *; [|done].
  do 4 (rewrite wp_bind; apply wp_server; intros [[]|e] ?; [|done]).
  rewrite wp_bind. apply wp_rns. intros [[]|e] l1; [|done]. rewrite wp_bind, wp_modify.
  rewrite wp_bind. unfold on_disk. rewrite wp_zoom. cbn [disk set_server set_rns_calls set_reticulum set_disk].
  eapply wp_mono; [by apply load_or_create_spec|]. intros [i|e] d2; [|done].
  intros (before & Hbefore & content & Hc & Hi & _ & Hold).
  assert (Hset : forall n', destination_hash n' = Some (hash_of i) -> disk n' = d2 -> identity_settled (disk n) n').
  { intros n' H1 H2. exists i, content. rewrite H2. split_and!; try done. intros c0 E. apply Hold. rewrite <- Hdir in E.
    destruct Hbefore as [->| ->]; [done|]. by apply lookup_union_Some_l. }
  rewrite wp_bind, wp_modify. rewrite wp_bind. apply wp_rns. intros [[]|e] l2; [|done]. rewrite wp_bind, wp_modify.
  rewrite wp_bind. apply wp_server. intros [[]|e] s5; [|done].
  rewrite wp_bind. apply wp_rns. intros [[]|e] l3; [|done]. rewrite wp_bind, wp_modify.
  rewrite wp_bind. apply wp_requests; [done|]. intros l4. unfold announce. rewrite !wp_bind. apply wp_rns. intros [[]|e] l5; [|done].
  rewrite wp_modify. unfold _schedule_announce, _schedule_maintenance. rewrite !wp_bind, wp_get.
  destruct (shutting_down _) eqn:E1; rewrite ?wp_modify, ?wp_ret, ?wp_bind, ?wp_get; (destruct (shutting_down _); rewrite ?wp_modify, ?wp_ret; by apply Hset).
Qed.

Lemma initialize_identity deployment fresh meanwhile n :
  identity_path c <> Readiness.marker_path (data_dir c) "server" -> identity_path c <> Readiness.marker_temp (data_dir c) "server" ->
  wp (initialize deployment fresh meanwhile) (fun r n' => match r with Ok _ => identity_settled (disk n) n' | Raise _ => True end) n.
Proof using Hlaw Hconfig.
  intros Hp Ht. unfold initialize. rewrite wp_bind. eapply wp_mono; [apply bring_up_identity|]. intros [[]|e] n1; [|done].
  intros (i & content & H1 & H2 & H3 & H4). unfold mark, on_disk. rewrite wp_zoom.
  eapply wp_mono; [apply Readiness.write_marker_spec|]. intros [[]|e] d [Hd _]; [|done].
  exists i, content. cbn [disk set_disk destination_hash]. rewrite Hd by done. done.
Qed.

End restart.

End handlers.

(** a node keeps its destination: once a start-up has succeeded, every later
    start-up that finds the identity file as it was left, with whatever handlers,
    fresh identity and other processes, has the same destination hash. *)
Theorem restart_keeps_destination (c : Settings) (os os' : Readiness.Linux) (up up' : list (SrvM unit)) (paths paths' : list string)
    (tr tr' : SrvM unit) (dep dep' : res unit) (fresh fresh' : Identity) (mw mw' : gmap path bytes) (n n' m m' : Node) :
  (forall i, from_file (get_private_key i) = Some i) ->
  identity_path c <> rns_config_dir c ++ ["config"] ->
  identity_path c <> Readiness.marker_path (data_dir c) "server" -> identity_path c <> Readiness.marker_temp (data_dir c) "server" ->
  initialize c os up paths tr dep fresh mw n = (n', Ok tt) ->
  files (disk m) !! identity_path c = files (disk n') !! identity_path c ->
  initialize c os' up' paths' tr' dep' fresh' mw' m = (m', Ok tt) ->
  destination_hash m' = destination_hash n'.
Proof.
  intros Hlaw Hc Hp Ht E1 Em E2.
  assert (H1 := initialize_identity c os up paths tr Hlaw Hc dep fresh mw n Hp Ht). unfold wp in H1. rewrite E1 in H1.
  assert (H2 := initialize_identity c os' up' paths' tr' Hlaw Hc dep' fresh' mw' m Hp Ht). unfold wp in H2. rewrite E2 in H2.
  destruct H1 as (i & content & D1 & F1 & I1 & _). destruct H2 as (i' & content' & D2 & F2 & I2 & K2).
  specialize (K2 content ltac:(by rewrite Em)). subst content'. cbn [fst snd] in *. assert (i' = i) as -> by congruence. congruence.
Qed.

End node.

Module Demo.

(** A toy Reticulum: a key is two bytes. *)
#[export] Instance toy : Reticulum := {
  Identity := byte * byte;
  from_file := fun l => match l with [a; b] => Some (a, b) | _ => None end;
  get_private_key := fun i => [fst i; snd i];
  hash_of := fun i => hex_of [snd i; fst i]
}.

Definition host : Readiness.Linux := Readiness.Demo.host "8812".
Definition nothing : FS := {| files := ∅; failures := [] |}.

Definition settings : Settings :=
  {| data_dir := ["data"]; identity_path := ["data"; "identity"]; rns_config_dir := ["rns"]; announce_interval := 600 * SECOND |}.

Definition new_database : Database := {| Database.user_version := 0; rows := []; is_open := false |}.

Definition new_server : Server unit :=
  {| max_unauthenticated_sessions := 8; max_logical_sessions_per_link := 4; max_new_sessions_per_link_per_minute := 4;
     idle_connection_timeout := 300 * SECOND; srv_ack_timeout := 120; logical_sessions := ∅; connections := [];
     sessions := {| database := new_database; ttl := 1000; sm_dedup_limit := 4; provisional_ttl := 100; persist_interval := 60; index := []; heap := ∅; next_ref := 0 |};
     conns := ∅; tokens := Attach.init 30 4 4 4 16; _media_grant_files := ∅; media_files := ∅; revocations := [];
     closed_transports := []; io_failures := []; wall := 1000; mono := 1; entropy := fun _ => ("session-1", "token-1");
     drawn := 0; shutting_down := false; app := tt |}.

Definition new_node (d : FS) : Node (R := toy) :=
  {| server := new_server; disk := d; rns_calls := []; reticulum := false; identity := None; destination_hash := None; link_callback := false;
     request_handlers := []; announces := 0; announce_timer := None; maintenance_timer := None; event_loop := NoLoop |}.

Definition start (fresh : byte * byte) (d : FS) : Node (R := toy) * res unit :=
  initialize (R := toy) settings host [] ["/ping"] (ret tt) (Ok tt) fresh ∅ (new_node d).

Lemma host_identity : own_identity host (str_bytes "2f1c-77") (str_bytes "8812").
Proof. repeat split; try (vm_compute; reflexivity); cbn; lia. Qed.


Definition up : Node (R := toy) := fst (start (Byte.x01, Byte.x02) nothing).

Lemma shutdown_is_not_ready_witness :
  Readiness.check_readiness host ["data"] (disk (fst (shutdown (R := toy) settings host [] [] (ret tt) up))) <> Ok tt.
Proof.
  apply (shutdown_is_not_ready (R := toy) settings host [] [] (ret tt) (str_bytes "2f1c-77") (str_bytes "8812") up host host_identity).
  - vm_compute. reflexivity.
  - vm_compute. reflexivity.
Defined.

Definition again : Node (R := toy) := fst (start (Byte.x07, Byte.x08) (disk up)).

Lemma restart_keeps_destination_witness : destination_hash again = Some "0201".
Proof.
  rewrite (restart_keeps_destination (R := toy) settings host host [] [] ["/ping"] ["/ping"] (ret tt) (ret tt) (Ok tt) (Ok tt)
    (Byte.x01, Byte.x02) (Byte.x07, Byte.x08) ∅ ∅ (new_node nothing) up (new_node (disk up)) again).
  - vm_compute. reflexivity.
  - intros [a b]. reflexivity.
  - discriminate.
  - discriminate.
  - discriminate.
  - vm_compute. reflexivity.
  - reflexivity.
  - vm_compute. reflexivity.
Defined.

(** The write of a new identity fails: the empty file that remains refuses every
    later start. *)
Example unwritten_identity_is_fatal :
  let s1 := fst (_load_or_create_identity (R := toy) ["data"; "identity"] (Byte.x01, Byte.x02) ∅ {| files := ∅; failures := [false; true] |}) in
  snd (_load_or_create_identity (R := toy) ["data"; "identity"] (Byte.x01, Byte.x02) ∅ {| files := files s1; failures := [] |}) =
    Raise (RuntimeError "invalid Reticulum identity file").
Proof. vm_compute. reflexivity. Qed.

(** The timer fired; maintenance meets one error of the database (here, of a
    closed one) and is never scheduled again. *)
Definition fired : Node (R := toy) := set_maintenance_timer (Some {| interval := 30 * SECOND; pending := false |}) (new_node nothing).

Example failed_maintenance_is_the_last :
  let '(n, r) := _maintain [] [] fired in r = Raise (RuntimeError "database is not open") /\ maintenance_timer n = maintenance_timer fired.
Proof. vm_compute. split; reflexivity. Qed.

End Demo.

End Lifecycle.
