(* ===== verification/Main.v ===== *)
(** * The process ([main.py], [instance_lock.py], [logging.py])

    One invocation of the backend: it verifies or makes a snapshot, checks the
    configuration or the health of a running backend, or runs the server while
    it holds the deployment's lock.  The parts are those of the other files:
    configuration, deployment checks, snapshots, readiness markers and the life
    of the server.

    The lock file is a record of its own with the descriptors of this process;
    another process that holds the lock does so for the whole invocation.
    [argparse] is a parameter: its result is an argument.  Of what is printed
    the model keeps the fixed part of each line. *)

From stdpp Require Import prelude strings list gmap.
From Stdlib Require Import ZArith Lia.
From S2P Require Import Prelude PyDict PyBytes PyValue Json QortalIdentity QortalFacts PrivateService Sessions Server Config ConfigFacts Deployment Backup Readiness Lifecycle.

(** ** The deployment's lock *)

Module InstanceLock.

(** The lock file; a holder is an open file description, [descriptors] are the
    ones this process has open.  [lock_calls] says which system calls fail. *)
Record LockFile := {
  present : bool;
  holder : option nat;
  descriptors : list nat;
  next_descriptor : nat;
  lock_calls : list bool
}.

Definition lock_call : M LockFile unit :=
  let! l := get in
  match lock_calls l with
  | [] => ret tt
  | fails :: rest =>
    put {| present := present l; holder := holder l; descriptors := descriptors l; next_descriptor := next_descriptor l; lock_calls := rest |} ;!
    if (fails : bool) then raise OSError else ret tt
  end.

Definition new_descriptor : M LockFile nat :=
  let! l := get in
  put {| present := present l; holder := holder l; descriptors := next_descriptor l :: descriptors l;
         next_descriptor := S (next_descriptor l); lock_calls := lock_calls l |} ;!
  ret (next_descriptor l).

(** [mkdir], then [os.open] for reading, or with [O_CREAT] when there is no file. *)
Definition open_lock_file : M LockFile nat :=
  lock_call ;!
  lock_call ;!
  let! l := get in
  (if present l then ret tt else
     lock_call ;!
     modify (fun l => {| present := true; holder := holder l; descriptors := descriptors l; next_descriptor := next_descriptor l; lock_calls := lock_calls l |})) ;!
  new_descriptor.

(** [fcntl.flock(descriptor, LOCK_EX | LOCK_NB)] with its two handlers. *)
Definition flock_exclusive (d : nat) : M LockFile unit :=
  try_catch lock_call (fun e => match e with OSError => true | _ => false end) (fun _ => raise InstanceLockError) ;!
  let! l := get in
  match holder l with
  | Some _ => raise InstanceAlreadyRunningError
  | None => put {| present := present l; holder := Some d; descriptors := descriptors l; next_descriptor := next_descriptor l; lock_calls := lock_calls l |}
  end.

(** [os.close]: closing the description releases its lock. *)
Definition close_descriptor (d : nat) : M LockFile unit :=
  modify (fun l => {| present := present l; holder := if bool_decide (holder l = Some d) then None else holder l;
    descriptors := filter (fun x => x <> d) (descriptors l); next_descriptor := next_descriptor l; lock_calls := lock_calls l |}).

Section lens.
Context {S : Type} (lock : S -> LockFile) (set_lock : LockFile -> S -> S).

(** [with acquire_instance_lock(path): body] *)
Definition acquire_instance_lock {B} (body : M S B) : M S B :=
  let! d := try_catch (zoom lock set_lock open_lock_file) (fun e => match e with OSError => true | _ => false end) (fun _ => raise InstanceLockError) in
  finally (zoom lock set_lock (flock_exclusive d) ;! body) (zoom lock set_lock (close_descriptor d)).

End lens.

(** ** What the lock guarantees *)

(** The descriptors that are open are older than the next one. *)
Definition lock_wf (l : LockFile) : Prop :=
  (forall d, d ∈ descriptors l -> (d < next_descriptor l)%nat) /\ (forall d, holder l = Some d -> (d < next_descriptor l)%nat).

(** As far as others can see. *)
Definition same_lock (l l' : LockFile) : Prop := holder l' = holder l /\ descriptors l' = descriptors l.

Lemma wp_lock_call (Q : res unit -> LockFile -> Prop) l :
  (forall r cs, r = Ok tt \/ r = Raise OSError -> Q r {| present := present l; holder := holder l; descriptors := descriptors l;
    next_descriptor := next_descriptor l; lock_calls := cs |}) -> wp lock_call Q l.
Proof.
  intros HQ. unfold wp, lock_call. munfold. destruct (lock_calls l) as [|b cs] eqn:E.
  - cbn. specialize (HQ (Ok tt) [] (or_introl eq_refl)). rewrite <- E in HQ. by destruct l.
  - destruct b; apply HQ; auto.
Qed.

Lemma open_lock_file_spec l :
  wp open_lock_file (fun r l' => holder l' = holder l /\
    match r with
    | Ok d => d = next_descriptor l /\ descriptors l' = d :: descriptors l /\ next_descriptor l' = S d
    | Raise e => e = OSError /\ descriptors l' = descriptors l /\ next_descriptor l' = next_descriptor l
    end) l.
Proof.
  unfold open_lock_file, new_descriptor. rewrite wp_bind. apply wp_lock_call. intros r cs [->| ->]; [|done].
  rewrite wp_bind. apply wp_lock_call. intros r cs1 [->| ->]; [|done]. rewrite wp_bind, wp_get. cbn [present holder descriptors next_descriptor].
  destruct (present l); autorewrite with wp; [done|].
  apply wp_lock_call. intros r cs2 [->| ->]; [|done]. autorewrite with wp. done.
Qed.

Lemma flock_exclusive_spec d l :
  wp (flock_exclusive d) (fun r l' => descriptors l' = descriptors l /\ next_descriptor l' = next_descriptor l /\
    match r with
    | Ok _ => holder l = None /\ holder l' = Some d
    | Raise e => holder l' = holder l /\ (e = InstanceLockError \/ e = InstanceAlreadyRunningError)
    end) l.
Proof.
  unfold flock_exclusive. rewrite wp_bind, wp_try. apply wp_lock_call. intros r cs [->| ->]; autorewrite with wp.
  - cbn [holder]. destruct (holder l) eqn:E; autorewrite with wp; [cbn; by auto|]. done.
  - cbn. auto.
Qed.

Section guarantee.
Context {S B : Type} (lock : S -> LockFile) (set_lock : LockFile -> S -> S) (body : M S B).
Hypothesis get_set : forall l s, lock (set_lock l s) = l.
Hypothesis set_set : forall l l' s, set_lock l' (set_lock l s) = set_lock l' s.
Hypothesis body_keeps : moves (stays lock) body.

(** The body ran with the lock held, which nobody held before. *)
Definition ran_locked (s : S) (r : res B) (s' : S) : Prop :=
  holder (lock s) = None /\ exists l d s2 l2, holder l = Some d /\ d ∈ descriptors l /\ body (set_lock l s) = (s2, r) /\ s' = set_lock l2 s2.

Definition refused (s : S) (r : res B) (s' : S) : Prop :=
  (r = Raise InstanceLockError \/ r = Raise InstanceAlreadyRunningError) /\ exists l, s' = set_lock l s.

Lemma filter_fresh (d : nat) (l : list nat) : (forall x, x ∈ l -> (x < d)%nat) -> filter (fun x => x <> d) l = l.
Proof.
  induction l as [|x l IH]; intros Hl; [done|]. assert (x <> d) by (specialize (Hl x ltac:(left)); lia).
  rewrite filter_cons_True by done. f_equal. apply IH. intros y Hy. apply Hl. by right.
Qed.

Lemma acquire_instance_lock_spec s : lock_wf (lock s) ->
  wp (acquire_instance_lock lock set_lock body) (fun r s' => same_lock (lock s) (lock s') /\ (refused s r s' \/ ran_locked s r s')) s.
Proof using get_set set_set body_keeps.
  intros [W1 W2]. unfold acquire_instance_lock. rewrite wp_bind, wp_try, wp_zoom.
  eapply wp_mono; [apply open_lock_file_spec|]. intros [d|e] l1 [Hh H1].
  2: { destruct H1 as (-> & Hd & _). autorewrite with wp. rewrite get_set. split; [by split|]. left. split; [by left|]. by exists l1. }
  destruct H1 as (-> & Hd & Hn). set (d := next_descriptor (lock s)) in *.
  assert (Hlock := flock_exclusive_spec d l1). unfold wp in Hlock. unfold wp, finally, bind, zoom. rewrite get_set.
  destruct (flock_exclusive d l1) as [l2 [[]|e]]; cbn [fst snd] in *; rewrite set_set.
  - destruct Hlock as (Hd2 & _ & Hnone & Hsome). assert (Hkeep := body_keeps (set_lock l2 s)). unfold stays in Hkeep. rewrite get_set in Hkeep.
    destruct (body (set_lock l2 s)) as [s2 r] eqn:Eb. cbn [fst] in Hkeep. rewrite Hkeep. unfold close_descriptor, modify. cbn [fst snd]. rewrite get_set.
    split.
    + split; cbn; [by rewrite Hsome, bool_decide_true, <- Hh|]. rewrite Hd2, Hd, filter_cons_False by tauto. by apply filter_fresh.
    + right. split; [congruence|]. eexists l2, d, s2, _. split_and!; [done| |done|reflexivity]. rewrite Hd2, Hd. left.
  - destruct Hlock as (Hd2 & _ & Hsame & He). unfold close_descriptor, modify. cbn [fst snd]. rewrite set_set, !get_set. split.
    + split; cbn.
      * rewrite Hsame, Hh. case_bool_decide as Hx; [|done]. specialize (W2 d Hx). unfold d in W2. lia.
      * rewrite Hd2, Hd, filter_cons_False by tauto. by apply filter_fresh.
    + left. split; [destruct He as [->| ->]; auto|]. by eexists.
Qed.

End guarantee.

End InstanceLock.

(** ** [main] *)

Module Main.
Import Backup Config Server InstanceLock.

(** What [argparse] leaves. *)
Record Args := {
  arg_config : option string;
  check_config : bool;
  health : bool;
  print_destination : bool;
  backup : option string;
  verify_backup : option string
}.

Section main.
Context {A : Type} `{R : Lifecycle.Reticulum} `{Qortal.Unicode} `{PrivateTransport.IpAddress} `{UrlParse} `{Repr}
  `{Deployment.FileSystem} `{Sqlite}.

(** [build_server]: a new server with the handlers its services registered. *)
Record Application := {
  build_server : Config -> FS -> Lifecycle.Node (A := A);
  startup : list (M (Server A) unit);
  on_stop : list (M (Server A) unit);
  on_disconnect : list (nat -> M (Server A) unit);
  rpc_paths : list string;
  transport_start : M (Server A) unit;
  transport_stop : M (Server A) unit;
  announce_every : Config -> Z
}.

(** The surroundings of one invocation: the process, the order of the fields, the
    TOML files, the environment, the new identity, what other processes create,
    what happens while the server runs, and the names of a snapshot. *)
Record Surroundings := {
  linux : Readiness.Linux;
  order : list string;
  toml : string -> res pyval;
  getenv : string -> option string;
  fresh_identity : Lifecycle.Identity;
  created : gmap path bytes;
  serving : M (Lifecycle.Node (A := A)) unit;
  timestamp : string;
  token : string;
  temporary_name : string
}.

Context (app : Application) (env : Surroundings).

(** [served] is the server this invocation built, if it built one. *)
Record World := { disk : FS; lock : LockFile; served : option (Lifecycle.Node (A := A)); output : list (bool * string) }.

Definition set_disk (d : FS) (w : World) : World := {| disk := d; lock := lock w; served := served w; output := output w |}.
Definition set_lock (l : LockFile) (w : World) : World := {| disk := disk w; lock := l; served := served w; output := output w |}.
Definition set_served (n : Lifecycle.Node (A := A)) (w : World) : World :=
  {| disk := Lifecycle.disk n; lock := lock w; served := Some n; output := output w |}.
Definition add_output (line : bool * string) (w : World) : World := {| disk := disk w; lock := lock w; served := served w; output := output w ++ [line] |}.

Abbreviation WM := (M World).

Definition print (line : string) : WM unit := modify (add_output (false, line)).
Definition print_error (line : string) : WM unit := modify (add_output (true, line)).

Definition is_RuntimeError (e : exn) : bool :=
  match e with RuntimeError _ | ReachabilityUnavailable | InstanceLockError | InstanceAlreadyRunningError => true | _ => false end.
Definition is_OSError (e : exn) : bool := match e with OSError | TimeoutError _ | ConnectionError _ => true | _ => false end.
Definition is_config_error (e : exn) : bool := is_OSError e || is_ValueError e.
Definition is_command_error (e : exn) : bool := is_OSError e || is_RuntimeError e || is_ValueError e.
Definition is_InstanceLockError (e : exn) : bool := match e with InstanceLockError | InstanceAlreadyRunningError => true | _ => false end.

(** [try: c except <matching>: print(line, file=sys.stderr); return code]: what
    follows is [k]. *)
Definition or_exit {B} (c : WM B) (matching : exn -> bool) (line : string) (code : Z) (k : B -> WM Z) : WM Z :=
  let! x := try_catch (let! b := c in ret (inl b)) matching (fun _ => print_error line ;! ret (inr code)) in
  match x with inl b => k b | inr code => ret code end.

(** [_print_backup_report] *)
Definition _print_backup_report (prefix : string) : WM unit :=
  print prefix ;! print "schema version" ;! print "size bytes" ;! print "sha256".

(** [configure_logging]: [Logger.setLevel] knows the names of the standard library. *)
Definition level_names : list string := ["CRITICAL"; "FATAL"; "ERROR"; "WARN"; "WARNING"; "INFO"; "DEBUG"; "NOTSET"].
Definition configure_logging (level : string) : res unit :=
  if bool_decide (Qortal.upper level ∈ level_names) then Ok tt else Raise (ValueError "Unknown level").

(** An argument that is given and not empty. *)
Definition given (x : option string) : option string := match x with Some s => if bool_decide (s = "") then None else Some s | None => None end.

Definition load_configuration (args : Args) : res Config := load_config (order env) (toml env <$> given (arg_config args)) (getenv env).

(** [require_deployment(config, backup_only=...)] *)
Definition deployment (config : Config) (backup_only : bool) : res unit := Deployment.require_deployment (map_to_list config) false backup_only.

(** Where a path of the configuration or of the command line leads. *)
Definition located (config : Config) (field : string) : path := Deployment.resolved (map_to_list config) field.
Definition argument_path (text : string) : path := Deployment.realpath (Deployment.join Deployment.cwd (Deployment.parse_path text)).

Definition settings (config : Config) : Lifecycle.Settings :=
  {| Lifecycle.data_dir := located config "data_dir"; Lifecycle.identity_path := located config "identity_path";
     Lifecycle.rns_config_dir := located config "rns_config_dir"; Lifecycle.announce_interval := announce_every app config |}.

(** [server = build_server(config)], and the methods called on it. *)
Definition new_server (config : Config) : WM unit := modify (fun w => set_served (build_server app config (disk w)) w).
Definition on_served {B} (m : M (Lifecycle.Node (A := A)) B) : WM B := fun w =>
  match served w with
  | Some n => let '(n', r) := m n in (set_served n' w, r)
  | None => (w, Raise (RuntimeError "no server"))
  end.

Definition initialize (config : Config) : M (Lifecycle.Node (A := A)) unit :=
  Lifecycle.initialize (settings config) (linux env) (startup app) (rpc_paths app) (transport_start app) (deployment config false)
    (fresh_identity env) (created env).

Definition shutdown (config : Config) : M (Lifecycle.Node (A := A)) unit :=
  Lifecycle.shutdown (settings config) (linux env) (on_stop app) (on_disconnect app) (transport_stop app).

(** What runs while the lock is held. *)
Definition server_session (config : Config) (args : Args) : WM unit :=
  new_server config ;!
  if print_destination args then
    finally
      (on_served (initialize config) ;!
       let! hash := on_served (gets Lifecycle.destination_hash) in
       print (default "None" hash))
      (on_served (shutdown config))
  else
    on_served (Lifecycle.run (settings config) (linux env) (startup app) (on_stop app) (on_disconnect app) (rpc_paths app)
      (transport_start app) (transport_stop app) (deployment config false) (fresh_identity env) (created env) (serving env)).

(** [main]: its exit status *)
Definition main (args : Args) : WM Z :=
  match given (verify_backup args) with
  | Some file =>
    or_exit (zoom disk set_disk (verify_sqlite_backup (argument_path file))) is_command_error "backup verification failed" 1 (fun _ =>
    _print_backup_report "backup valid" ;!
    ret 0)
  | None =>
    or_exit (lift (load_configuration args)) is_config_error "configuration error" 2 (fun config =>
    if check_config args then print "configuration valid" ;! ret 0 else
    or_exit (lift (deployment config (bool_decide (is_Some (backup args))))) is_config_error "deployment refused" 2 (fun _ =>
    if health args then
      or_exit (let! w := get in lift (Readiness.check_readiness (linux env) (located config "data_dir") (disk w))) is_command_error "backend not ready" 1 (fun _ =>
      print "backend ready: startup checks passed" ;!
      ret 0)
    else match backup args with
    | Some directory =>
      let backup_path := match given (Some directory) with Some d => argument_path d | None => located config "backup_path" end in
      or_exit (zoom disk set_disk (create_sqlite_backup (located config "database_path") backup_path None (timestamp env) (token env)
        (temporary_name env) (created env))) is_command_error "backup failed" 1 (fun _ =>
      _print_backup_report "backup created" ;!
      ret 0)
    | None =>
      lift (configure_logging (str_field config "log_level")) ;!
      try_catch (acquire_instance_lock lock set_lock (server_session config args) ;! ret 0) is_InstanceLockError
        (fun _ => print_error "backend startup failed" ;! ret 2)
    end))
  end.

(** ** The server only runs alone, with valid settings and allowed storage *)

(** A command that ends without a server. *)
Definition harmless (w : World) (r : res Z) (w' : World) : Prop :=
  lock w' = lock w /\ served w' = served w /\ match r with Ok code => code = 0 \/ code = 1 \/ code = 2 | Raise _ => True end.

Lemma or_exit_spec {B} (c : WM B) (matching : exn -> bool) line code k (Q : res Z -> World -> Prop) w :
  wp c (fun r w' => match r with
    | Ok b => wp (k b) Q w'
    | Raise e => if matching e then Q (Ok code) (add_output (true, line) w') else Q (Raise e) w'
    end) w -> wp (or_exit c matching line code k) Q w.
Proof.
  intros Hc. unfold or_exit, print_error. rewrite wp_bind, wp_try, wp_bind. eapply wp_mono; [exact Hc|].
  intros [b|e] w' Hr; autorewrite with wp; [done|]. destruct (matching e); autorewrite with wp; done.
Qed.

Lemma wp_on_disk {B} (m : FM B) (Q : res B -> World -> Prop) w : (forall r d, Q r (set_disk d w)) -> wp (zoom disk set_disk m) Q w.
Proof. intros HQ. unfold wp, zoom. destruct (m (disk w)). apply HQ. Qed.

Lemma on_served_keeps_lock {B} (m : M (Lifecycle.Node (A := A)) B) : moves (stays lock) (on_served m).
Proof. intros w. unfold on_served, stays. destruct (served w) as [n|]; [|done]. by destruct (m n). Qed.

Lemma session_keeps_lock config args : moves (stays lock) (server_session config args).
Proof.
  unfold server_session, new_server, print. repeat (apply on_served_keeps_lock || moves_step); done.
Qed.

(** What an invocation may have done. *)
Definition guarded (args : Args) (w : World) (r : res Z) (w' : World) : Prop :=
  same_lock (lock w) (lock w') /\
  match r with Ok code => code = 0 \/ code = 1 \/ code = 2 | Raise _ => True end /\
  (is_Some (served w') -> holder (lock w) = None /\ given (verify_backup args) = None /\ check_config args = false /\ health args = false /\
    backup args = None /\ exists config, load_configuration args = Ok config /\ deployment config false = Ok tt).

Lemma harmless_guarded args w r w' : served w = None -> harmless w r w' -> guarded args w r w'.
Proof. intros Hs (Q1 & Q2 & Q3). unfold guarded, same_lock. rewrite Q1, Q2, Hs. split; [done|]. split; [done|]. by intros [? ?]. Qed.

(** The part that runs the server. *)
Lemma locked_part_spec config args w :
  lock_wf (lock w) -> served w = None -> given (verify_backup args) = None -> check_config args = false -> health args = false ->
  backup args = None -> load_configuration args = Ok config -> deployment config false = Ok tt ->
  wp (try_catch (acquire_instance_lock lock set_lock (server_session config args) ;! ret 0) is_InstanceLockError
        (fun _ => print_error "backend startup failed" ;! ret 2)) (guarded args w) w.
Proof.
  intros Hwf Hs Q1 Q2 Q3 Q4 Q5 Q6. rewrite wp_try, wp_bind.
  eapply wp_mono; [apply acquire_instance_lock_spec; [done|done|apply session_keeps_lock|done]|].
  intros r w' [Hlock Hr].
  assert (Hg : forall r' out, match r' with Ok code => code = 0 \/ code = 1 \/ code = 2 | Raise _ => True end ->
    guarded args w r' {| disk := disk w'; lock := lock w'; served := served w'; output := out |}).
  { intros r' out Hcode. split; [done|]. split; [done|]. cbn [served]. intros Hserved. split_and!; try done; [|by exists config].
    destruct Hr as [[_ [l ->]]|[Hn _]]; [|done]. cbn in Hserved. rewrite Hs in Hserved. by destruct Hserved. }
  assert (Ew : w' = {| disk := disk w'; lock := lock w'; served := served w'; output := output w' |}) by (by destruct w').
  destruct r as [[]|e]; [rewrite wp_ret, Ew; apply Hg; by left|]. destruct (is_InstanceLockError e).
  - unfold print_error. autorewrite with wp. apply Hg. auto.
  - rewrite Ew. by apply Hg.
Qed.

(** C39: one invocation of the backend: it builds a server only when it was asked
    to run one, its configuration loaded and passed validation, its storage is
    not reserved by another installation, and no process held the deployment's
    lock; whatever happens, the lock and the descriptors are afterwards as they
    were before.  The exit status is 0, 1 or 2. *)
Theorem process_guarded (args : Args) (w : World) :
  lock_wf (lock w) -> served w = None ->
  let '(w', r) := main args w in
  same_lock (lock w) (lock w') /\
  match r with Ok code => code = 0 \/ code = 1 \/ code = 2 | Raise _ => True end /\
  (is_Some (served w') -> holder (lock w) = None /\ given (verify_backup args) = None /\ check_config args = false /\ health args = false /\
    backup args = None /\ exists config, load_configuration args = Ok config /\ deployment config false = Ok tt).
Proof.
  intros Hwf Hs. enough (Hwp : wp (main args) (guarded args w) w) by (unfold wp, guarded in Hwp; by destruct (main args w)).
  assert (Hharm : forall r w', lock w' = lock w -> served w' = served w -> match r with Ok code => code = 0 \/ code = 1 \/ code = 2 | Raise _ => True end ->
    guarded args w r w') by (intros; by apply harmless_guarded).
  unfold main, _print_backup_report, print. destruct (given (verify_backup args)) as [file|] eqn:Ev.
  { apply or_exit_spec, wp_on_disk. intros [report|e] d; [|destruct (is_command_error e); apply Hharm; auto].
    autorewrite with wp. apply Hharm; auto. }
  apply or_exit_spec. rewrite wp_lift. destruct (load_configuration args) as [config|e] eqn:El; [|destruct (is_config_error e); apply Hharm; auto].
  destruct (check_config args) eqn:Ec; [autorewrite with wp; apply Hharm; auto|].
  apply or_exit_spec. rewrite wp_lift. destruct (deployment config _) as [[]|e] eqn:Ed; [|destruct (is_config_error e); apply Hharm; auto].
  destruct (health args) eqn:Eh.
  { apply or_exit_spec. autorewrite with wp. destruct (Readiness.check_readiness _ _ _) as [[]|e]; [|destruct (is_command_error e); apply Hharm; auto].
    autorewrite with wp. apply Hharm; auto. }
  destruct (backup args) as [directory|] eqn:Eb.
  { apply or_exit_spec, wp_on_disk. intros [report|e] d; [|destruct (is_command_error e); apply Hharm; auto].
    autorewrite with wp. apply Hharm; auto. }
  rewrite wp_bind, wp_lift. destruct (configure_logging _) as [[]|e]; [|apply Hharm; auto].
  by apply (locked_part_spec config).
Qed.

(** the exit status of a health check is 0 exactly when the configuration
    loads, the deployment may use its storage and the readiness check succeeds. *)
Theorem health_exit_status (args : Args) (w : World) :
  given (verify_backup args) = None -> check_config args = false -> health args = true -> backup args = None ->
  snd (main args w) = Ok 0 <->
    exists config, load_configuration args = Ok config /\ deployment config false = Ok tt /\
      Readiness.check_readiness (linux env) (located config "data_dir") (disk w) = Ok tt.
Proof.
  intros Hv Hc Hh Hb. unfold main. rewrite Hv. unfold or_exit, print, print_error. munfold.
  destruct (load_configuration args) as [config|e]; cbn; [|destruct (is_config_error e); split; (done || by intros (? & ? & _))].
  rewrite Hc, Hb, Hh. rewrite bool_decide_false by (by intros [? ?]).
  destruct (deployment config false) as [[]|e] eqn:Ed; cbn.
  2: { destruct (is_config_error e); (split; [done|]); intros (config' & [= <-] & E & _); congruence. }
  destruct (Readiness.check_readiness _ _ _) as [[]|e] eqn:Er; cbn.
  - split; [|done]. intros _. by exists config.
  - destruct (is_command_error e); (split; [done|]); intros (config' & [= <-] & _ & E); congruence.
Qed.

End main.

Module Demo.
#[local] Existing Instances Lifecycle.Demo.toy QortalThm.Demo.ascii_unicode ConfigThm.Demo.ip ConfigThm.Demo.parse ConfigThm.Demo.text
  Deployment.Demo.disk Backup.Demo.text_sqlite.

Definition backend : Application (A := unit) := {|
  build_server := fun _ d => Lifecycle.Demo.new_node d; startup := []; on_stop := []; on_disconnect := []; rpc_paths := ["/ping"];
  transport_start := ret tt; transport_stop := ret tt; announce_every := fun _ => 600000000 |}.

Definition shell (variables : string -> option string) : Surroundings (A := unit) := {|
  linux := Lifecycle.Demo.host; order := names; toml := fun _ => Raise OSError; getenv := variables;
  fresh_identity := (Byte.x01, Byte.x02); created := ∅; serving := ret tt; timestamp := "t"; token := "0"; temporary_name := ".tmp" |}.

Definition idle : LockFile := {| present := false; holder := None; descriptors := []; next_descriptor := 3; lock_calls := [] |}.
Definition taken : LockFile := {| present := true; holder := Some 1%nat; descriptors := []; next_descriptor := 3; lock_calls := [] |}.
Definition machine (l : LockFile) : World (A := unit) := {| disk := Lifecycle.Demo.nothing; lock := l; served := None; output := [] |}.

Definition run_it : Args := {| arg_config := None; check_config := false; health := false; print_destination := false; backup := None; verify_backup := None |}.
Definition check_it : Args := {| arg_config := None; check_config := true; health := false; print_destination := false; backup := None; verify_backup := None |}.
Definition ask_health : Args := {| arg_config := None; check_config := false; health := true; print_destination := false; backup := None; verify_backup := None |}.

(** The server runs and the lock is free again; with the lock taken it does not run. *)
Example served_once :
  let '(w, r) := main backend (shell (fun _ => None)) run_it (machine idle) in r = Ok 0 /\ holder (lock w) = None /\ bool_decide (is_Some (served w)) = true.
Proof. vm_compute. repeat split. Qed.

Lemma process_guarded_witness : lock_wf (lock (machine taken)) /\
  let '(w', r) := main backend (shell (fun _ => None)) run_it (machine taken) in same_lock (lock (machine taken)) (lock w').
Proof.
  assert (Hwf : lock_wf (lock (machine taken))).
  { split; [intros d Hd; inversion Hd|]. intros d Hd. cbn in Hd. injection Hd as <-. cbn. lia. }
  split; [exact Hwf|]. assert (H := process_guarded backend (shell (fun _ => None)) run_it (machine taken) Hwf eq_refl).
  destruct (main backend (shell (fun _ => None)) run_it (machine taken)) as [w' r]. exact (proj1 H).
Defined.

Example second_instance_refused :
  let '(w, r) := main backend (shell (fun _ => None)) run_it (machine taken) in r = Ok 2 /\ bool_decide (is_Some (served w)) = false.
Proof. vm_compute. repeat split. Qed.

(** No marker yet: the health check fails. *)
Lemma health_exit_status_witness : snd (main backend (shell (fun _ => None)) ask_health (machine idle)) <> Ok 0.
Proof.
  intros H. apply (health_exit_status backend (shell (fun _ => None)) ask_health (machine idle) eq_refl eq_refl eq_refl eq_refl) in H.
  destruct H as (config & _ & _ & E). vm_compute in E. discriminate E.
Defined.

(** A log level nobody knows passes the check of the configuration and ends the
    start with an exception that is not handled. *)
Definition verbose : string -> option string := fun name => if bool_decide (name = "LOG_LEVEL") then Some "verbose" else None.

Example unknown_log_level :
  snd (main backend (shell verbose) check_it (machine idle)) = Ok 0 /\
  snd (main backend (shell verbose) run_it (machine idle)) = Raise (ValueError "Unknown level").
Proof. vm_compute. split; reflexivity. Qed.

End Demo.

End Main.
