(* ===== verification/NativeProcess.v ===== *)
(** * The native data plane's process ([private_transport/native_server.py], [start] and [stop])

    The control plane of [NativeServer] runs as long as its child process:
    [start] finds the binary, connects it by a socket pair, spawns it and waits
    for the line that says on which port it listens; [stop] ends it.

    The state is what the two acquire and release.  What the operating system
    and the child do is an argument: whether the socket pair and the process
    can be made, the first line of its output, whether it ends when asked to. *)

From stdpp Require Import prelude strings list gmap.
From Stdlib Require Import ZArith Lia.
From S2P Require Import Prelude PyDict PyBytes PyValue Json QortalIdentity PyNumber Readiness.

Module NativeProcess.

(** [subprocess.Popen]: whether it runs, and its output pipe is open. *)
Record Child := { alive : bool; stdout_open : bool; argv : list string }.

Inductive Reader := NotStarted | Reading | Ended.

Record Supervisor := {
  process : option Child;
  parent_socket : option bool;
  child_socket : option bool;
  thread : Reader;
  pools_open : bool;
  stopping : bool;
  bound_port : option Z
}.

Definition new_supervisor : Supervisor :=
  {| process := None; parent_socket := None; child_socket := None; thread := NotStarted; pools_open := true; stopping := false; bound_port := None |}.

(** How the world behaves: [obeys] tells whether the child ends within five
    seconds of being asked to, [first_line] is what [select] and [readline] give
    within ten. *)
Record Host := {
  environment_binary : option string;
  which_binary : option string;
  local_binary : option string;
  socketpair_works : bool;
  child_fd : Z;
  spawn_works : bool;
  thread_starts : bool;
  first_line : option string;
  obeys : bool
}.

Record Options := { host : string; port : Z; certificate : string; key : string; files_dir : string }.

Section supervisor.
Context `{Qortal.Unicode} (h : Host) (o : Options).

Abbreviation PM := (M Supervisor).

Definition set_process (p : option Child) (s : Supervisor) : Supervisor :=
  {| process := p; parent_socket := parent_socket s; child_socket := child_socket s; thread := thread s; pools_open := pools_open s; stopping := stopping s; bound_port := bound_port s |}.
Definition set_sockets (p c : option bool) (s : Supervisor) : Supervisor :=
  {| process := process s; parent_socket := p; child_socket := c; thread := thread s; pools_open := pools_open s; stopping := stopping s; bound_port := bound_port s |}.
Definition set_thread (t : Reader) (s : Supervisor) : Supervisor :=
  {| process := process s; parent_socket := parent_socket s; child_socket := child_socket s; thread := t; pools_open := pools_open s; stopping := stopping s; bound_port := bound_port s |}.
Definition set_pools (b : bool) (s : Supervisor) : Supervisor :=
  {| process := process s; parent_socket := parent_socket s; child_socket := child_socket s; thread := thread s; pools_open := b; stopping := stopping s; bound_port := bound_port s |}.
Definition set_stopping (b : bool) (s : Supervisor) : Supervisor :=
  {| process := process s; parent_socket := parent_socket s; child_socket := child_socket s; thread := thread s; pools_open := pools_open s; stopping := b; bound_port := bound_port s |}.
Definition set_port (p : option Z) (s : Supervisor) : Supervisor :=
  {| process := process s; parent_socket := parent_socket s; child_socket := child_socket s; thread := thread s; pools_open := pools_open s; stopping := stopping s; bound_port := p |}.

(** An empty variable counts as none. *)
Definition find_binary : option string :=
  match environment_binary h with
  | Some b => if bool_decide (b = "") then (match which_binary h with Some w => Some w | None => local_binary h end) else Some b
  | None => match which_binary h with Some w => Some w | None => local_binary h end
  end.

(** [terminate], [wait(timeout=5)], and [kill] when it does not end: either way
    it has ended. *)
Definition end_process (c : Child) : Child :=
  let terminated := {| alive := negb (obeys h); stdout_open := stdout_open c; argv := argv c |} in
  if alive terminated then {| alive := false; stdout_open := stdout_open c; argv := argv c |} else terminated.

(** [stop]; shutting the socket down ends the reader, which the join waits for. *)
Definition stop : PM unit :=
  modify (set_stopping true) ;!
  modify (fun s => match process s with
    | Some c => if alive c then set_process (Some (end_process c)) s else s
    | None => s
    end) ;!
  modify (fun s => match parent_socket s, thread s with Some _, Reading => set_thread Ended s | _, _ => s end) ;!
  modify (set_pools false) ;!
  modify (fun s => match parent_socket s with Some _ => set_sockets (Some false) (child_socket s) s | None => s end) ;!
  modify (fun s => match process s with
    | Some c => set_process (Some {| alive := alive c; stdout_open := false; argv := argv c |}) s
    | None => s
    end).

(** [int(ready\['port'\])] *)
Definition int_of (v : pyval) : res Z :=
  match v with
  | VInt n => Ok n
  | VBool b => Ok (if b then 1 else 0)
  | VFloat s => Number.truncate (Number.float_of_literal s)
  | VStr s => Number.int_of_str s
  | _ => Raise (TypeError "int() argument must be a string or a real number")
  end.

(** The report of the child. *)
Definition ready_port : res Z :=
  match first_line h with
  | None => Raise (RuntimeError "Native transport startup timed out")
  | Some line =>
    let? ready := loads line in
    let? port := Readiness.subscript "port" ready in
    int_of port
  end.

Definition listen_address : string :=
  (if existsb (is_char ":") (str_bytes (host o)) then "[" +:+ host o +:+ "]" else host o) +:+ ":" +:+ bytes_str (dec (port o)).

Definition command (binary : string) : list string :=
  [binary; "--listen"; listen_address; "--certificate"; certificate o; "--key"; key o; "--control-fd"; bytes_str (dec (child_fd h)); "--files"; files_dir o].

Definition or_stop {B} (c : PM B) : PM B := try_catch c (fun _ => true) (fun e => stop ;! raise e).

(** [start] *)
Definition start : PM Z :=
  match find_binary with
  | None => raise (RuntimeError "Native transport is missing.")
  | Some binary =>
    guard_or (socketpair_works h) OSError ;!
    modify (set_sockets (Some true) (Some true)) ;!
    finally
      (or_stop (guard_or (spawn_works h) OSError ;!
                modify (set_process (Some {| alive := true; stdout_open := true; argv := command binary |}))))
      (modify (fun s => set_sockets (parent_socket s) (Some false) s)) ;!
    guard_or (thread_starts h) (RuntimeError "can't start new thread") ;!
    modify (set_thread Reading) ;!
    or_stop (
      let! p := lift ready_port in
      modify (set_port (Some p)) ;!
      ret p)
  end.

(** ** Nothing is left behind *)

(** No child runs, no socket and no pipe is open, no thread reads. *)
Definition released (s : Supervisor) : Prop :=
  (forall c, process s = Some c -> alive c = false /\ stdout_open c = false) /\
  parent_socket s <> Some true /\ child_socket s <> Some true /\ thread s <> Reading.

Definition serving (s : Supervisor) (p : Z) : Prop :=
  (exists c binary, process s = Some c /\ alive c = true /\ find_binary = Some binary /\ argv c = command binary) /\
  parent_socket s = Some true /\ child_socket s = Some false /\ thread s = Reading /\ bound_port s = Some p.

(** Stopping releases everything but the child's end of the socket, which [start]
    closes, provided a reader has a socket to read. *)
Lemma stop_releases s : child_socket s <> Some true -> (thread s = Reading -> is_Some (parent_socket s)) -> released (fst (stop s)).
Proof.
  intros Hc Ht. destruct s as [p ps cs t pools stp bp]. cbn in Hc, Ht. unfold stop, released. munfold.
  destruct p as [[[] so av]|]; (destruct ps; [destruct t|]); cbn; split_and!; try done;
    try (intros c' [= <-]; unfold end_process; cbn; by destruct (obeys h)); intros E; specialize (Ht E); by destruct Ht.
Qed.

(** The state in which the child runs. *)
Definition spawned (binary : string) (t : Reader) (p : option Z) : Supervisor :=
  {| process := Some {| alive := true; stdout_open := true; argv := command binary |}; parent_socket := Some true; child_socket := Some false;
     thread := t; pools_open := true; stopping := false; bound_port := p |}.

Lemma or_stop_raise {B} (e : exn) s : or_stop (raise (A := B) e) s = (fst (stop s), Raise e).
Proof. unfold or_stop, try_catch, raise, bind. by destruct (stop s) as [s' [[]|e']] eqn:E; [|unfold stop in E; munfold]. Qed.


End supervisor.

Module Demo.
#[local] Instance ascii : Qortal.Unicode := {| Qortal.strip := id; Qortal.lower := id; Qortal.upper := id |}.

Definition machine (threads : bool) : Host :=
  {| environment_binary := Some ""; which_binary := None; local_binary := Some "media/bin/qapp-private-transport"; socketpair_works := true; child_fd := 9;
     spawn_works := true; thread_starts := threads; first_line := Some (bytes_str (print true (VDict [("port", VInt 4433)]))); obeys := false |}.
Definition options : Options := {| host := "::1"; port := 0; certificate := "cert.pem"; key := "key.pem"; files_dir := "data/files" |}.

Example started : snd (start (machine true) options new_supervisor) = Ok 4433 /\ listen_address options = "[::1]:0".
Proof. vm_compute. split; reflexivity. Qed.

(** Without a reader thread the child is left running. *)
Example unread_child_left :
  let '(s, r) := start (machine false) options new_supervisor in
  r = Raise (RuntimeError "can't start new thread") /\ alive <$> process s = Some true.
Proof. vm_compute. split; reflexivity. Qed.

End Demo.

End NativeProcess.
