(* ===== verification/Migration.v ===== *)
(** * Opening the index of shared files ([files.py], [FileStore.__init__])

    The tables are created when they are missing; an index of an older version,
    whose rows also named recipients, is migrated.  The statements of the
    migration that define tables take effect at once; the [INSERT] begins a
    transaction, which the end of the [with] block commits or rolls back
    (Python's [sqlite3] begins transactions only before statements that change
    rows).  Which statement fails is an argument. *)

From stdpp Require Import prelude strings list gmap.
From Stdlib Require Import ZArith Lia.
From S2P Require Import Prelude PyBytes FileStore.

Import Files.

Module Migration.

(** A row of the older version. *)
Record LegacyRow := { row : Row; groups_json : string; users_json : string }.

Inductive Table := Current (rows : list Row) | Legacy (rows : list LegacyRow).

(** The tables [files] and [files_with_access]. *)
Record Index := { files : option Table; files_with_access : option (list LegacyRow) }.

Definition columns (t : Table) : list string :=
  ["id"; "owner"; "size"; "expires"; "created"; "state"; "envelope"; "manifest"] ++
  match t with Current _ => [] | Legacy _ => ["groups_json"; "users_json"] end.

(** [CREATE TABLE IF NOT EXISTS files] *)
Definition create_tables (x : Index) : Index :=
  match files x with Some _ => x | None => {| files := Some (Current []); files_with_access := files_with_access x |} end.

(** The statements of the migration; [failing] is the number of the one that fails. *)
Definition rename_files (x : Index) : option Index :=
  match files x, files_with_access x with
  | Some (Legacy rows), None => Some {| files := None; files_with_access := Some rows |}
  | _, _ => None
  end.
Definition create_files (x : Index) : option Index :=
  match files x with None => Some {| files := Some (Current []); files_with_access := files_with_access x |} | Some _ => None end.
(** [INSERT INTO files SELECT ... FROM files_with_access] *)
Definition copy_rows (x : Index) : option Index :=
  match files x, files_with_access x with
  | Some (Current rows), Some legacy => Some {| files := Some (Current (rows ++ map row legacy)); files_with_access := Some legacy |}
  | _, _ => None
  end.
Definition drop_old (x : Index) : option Index :=
  match files_with_access x with Some _ => Some {| files := files x; files_with_access := None |} | None => None end.

Definition statement (failing : option nat) (k : nat) (f : Index -> option Index) : M Index unit :=
  let! x := get in
  if bool_decide (failing = Some k) then raise OSError else
  match f x with Some y => Prelude.put y | None => raise OSError end.

(** The transaction that the [INSERT] opens: an exception rolls it back; [4] is its
    commit. *)
Definition insert_transaction (failing : option nat) (c : M Index unit) : M Index unit := fun x =>
  match c x with
  | (y, Ok _) => if bool_decide (failing = Some 4%nat) then (x, Raise OSError) else (y, Ok tt)
  | (_, Raise e) => (x, Raise e)
  end.

(** [_remove_legacy_access_columns] *)
Definition _remove_legacy_access_columns (failing : option nat) : M Index unit :=
  let! x := get in
  match files x with
  | None => ret tt
  | Some t =>
    if negb (bool_decide ("groups_json" ∈ columns t) && bool_decide ("users_json" ∈ columns t)) then ret tt else
    statement failing 0 rename_files ;!
    statement failing 1 create_files ;!
    insert_transaction failing (statement failing 2 copy_rows ;! statement failing 3 drop_old)
  end.

(** [FileStore.__init__], as far as the index goes. *)
Definition open_index (failing : option nat) : M Index unit :=
  modify create_tables ;!
  _remove_legacy_access_columns failing.

(** The uploads the index has, recipients apart. *)
Definition uploads (x : Index) : list Row :=
  match files x with Some (Current rows) => rows | Some (Legacy rows) => map row rows | None => [] end.

(** opening the index keeps every upload: afterwards the table has the current
    columns and the rows it had, in their order, and opening it again changes
    nothing, whichever statement would fail then. *)
Theorem migration_keeps_uploads (x : Index) (failing : option nat) :
  (is_Some (files_with_access x) -> exists rows, files x = Some (Current rows)) ->
  let '(y, r) := open_index None x in
  r = Ok tt /\ files y = Some (Current (uploads x)) /\ open_index failing y = (y, Ok tt).
Proof.
  intros Hwf. unfold open_index, _remove_legacy_access_columns, insert_transaction, statement, create_tables. munfold.
  destruct x as [[[rows|rows]|] old]; cbn; try done.
  destruct old as [old|]; [by destruct (Hwf ltac:(by eexists))|]. cbn. done.
Qed.

Module Demo.
Definition upload : Row :=
  {| id := "00112233445566778899aabbccddeeff"; owner := "alice"; size := 1; expires := 10; created := 1; state := Ready; envelope := "e"; manifest := "m" |}.
Definition old_index : Index := {| files := Some (Legacy [{| row := upload; groups_json := "[1]"; users_json := "[]" |}]); files_with_access := None |}.

Lemma migration_keeps_uploads_witness : exists y, open_index None old_index = (y, Ok tt) /\ files y = Some (Current [upload]).
Proof.
  assert (H := migration_keeps_uploads old_index None ltac:(intros [? Hx]; discriminate Hx)).
  destruct (open_index None old_index) as [y r]. destruct H as (-> & E & _). exists y. split; [reflexivity|exact E].
Defined.

(** A migration that is interrupted after the new table exists: the next start sees
    an empty table with the current columns and never copies the rows. *)
Example interrupted_migration_hides_uploads :
  let '(x1, r1) := open_index (Some 2%nat) old_index in
  let '(x2, r2) := open_index None x1 in
  r1 = Raise OSError /\ r2 = Ok tt /\ uploads x2 = [] /\ is_Some (files_with_access x2).
Proof. vm_compute. split_and!; try reflexivity. by eexists. Qed.

End Demo.

End Migration.
