(* ===== verification/Logging.v ===== *)
(** * Log lines ([logging.py])

    [JsonFormatter.format]: one JSON object per event.  The record is what
    [logging] hands over; the optional attributes are Python values. *)

From stdpp Require Import prelude strings list gmap.
From Stdlib Require Import ZArith Lia.
From S2P Require Import Prelude PyDict PyBytes PyValue Json JsonFacts.

Module Logging.

Record LogRecord := { levelname : string; name : string; message : string; attributes : odict string pyval }.

Definition extra_keys : list string := ["event"; "connection_id"; "session_id"; "message_id"; "rpc_path"; "reason"].

(** [getattr(record, key, None)] of the optional keys, without the missing ones. *)
Definition extras (r : LogRecord) : odict string pyval :=
  omap (fun k => match od_get k (attributes r) with None | Some VNone => None | Some v => Some (k, v) end) extra_keys.

(** The object that is printed; [timestamp] is [datetime.now(UTC).isoformat()]. *)
Definition event (timestamp : string) (r : LogRecord) : odict string pyval :=
  [("timestamp", VStr timestamp); ("level", VStr (levelname r)); ("logger", VStr (name r)); ("message", VStr (message r))] ++ extras r.

Definition format (timestamp : string) (r : LogRecord) : res string := dumps false (VDict (event timestamp r)).

(** ** A log line is one line, and says what was logged *)

Definition no_newline (l : bytes) : Prop := Byte.x0a ∉ l.

Lemma no_newline_app a b : no_newline a -> no_newline b -> no_newline (a ++ b).
Proof. unfold no_newline. rewrite elem_of_app. tauto. Qed.

Lemma no_newline_cons x l : x <> Byte.x0a -> no_newline l -> no_newline (x :: l).
Proof. unfold no_newline. rewrite elem_of_cons. intros H1 H2 [E|H3]; auto. Qed.

Lemma no_newline_string s : no_newline (print_string false s).
Proof.
  unfold print_string. apply no_newline_cons; [done|]. apply no_newline_app; [|by apply no_newline_cons; [done|]; intros ?%elem_of_nil].
  induction (str_bytes s) as [|b l IH]; [by intros ?%elem_of_nil|]. cbn [flat_map]. apply no_newline_app; [|done].
  intros Hin. apply list_elem_of_In in Hin. destruct b; vm_compute in Hin; intuition discriminate.
Qed.

Lemma no_newline_digits l : forallb is_digit l = true -> no_newline l.
Proof. intros Hl Hin. rewrite forallb_forall in Hl. apply list_elem_of_In in Hin. specialize (Hl _ Hin). discriminate Hl. Qed.

Lemma no_newline_dec n : no_newline (dec n).
Proof.
  unfold dec. destruct (Z.ltb_spec n 0) as [Hn|Hn].
  - apply no_newline_cons; [done|]. destruct (dec_nat_spec (- n)) as (_ & Hd & _); [lia|]. by apply no_newline_digits.
  - destruct (dec_nat_spec n Hn) as (_ & Hd & _). by apply no_newline_digits.
Qed.

Lemma no_newline_join ls : Forall no_newline ls -> no_newline (join ls).
Proof.
  induction 1 as [|x l Hx Hl IH]; [by intros ?%elem_of_nil|]. destruct l as [|y l]; [done|].
  rewrite join_cons. apply no_newline_app; [done|]. by apply no_newline_cons.
Qed.
Lemma no_newline_nil : no_newline [].
Proof. by intros ?%elem_of_nil. Qed.

Lemma no_newline_span l : no_newline (fst (span is_digit l)).
Proof.
  apply no_newline_digits. induction l as [|b l IH]; [done|]. cbn [span]. destruct (is_digit b) eqn:Eb; [|done].
  destruct (span is_digit l) as [a r]. cbn in *. by rewrite Eb.
Qed.

Lemma no_newline_byte b (p : byte -> bool) : p b = true -> p Byte.x0a = false -> b <> Byte.x0a.
Proof. intros H1 H2 ->. congruence. Qed.

Lemma no_newline_int l i r : scan_int l = Some (i, r) -> no_newline i.
Proof.
  unfold scan_int. assert (Hs := no_newline_span l). destruct (span is_digit l) as [[|d ds] q]; [done|]. cbn [fst] in Hs.
  destruct (byte_val d =? 48); intros [= <- _]; [|done].
  apply no_newline_cons; [|apply no_newline_nil]. intros ->. apply Hs. left.
Qed.

Lemma no_newline_frac l : no_newline (fst (scan_frac l)).
Proof.
  destruct l as [|b l]; [apply no_newline_nil|]. unfold scan_frac. destruct (byte_val b =? 46) eqn:Eb; [|apply no_newline_nil].
  assert (Hs := no_newline_span l). destruct (span is_digit l) as [[|d ds] q]; [apply no_newline_nil|].
  apply no_newline_cons; [by apply (no_newline_byte b (fun b => byte_val b =? 46))|done].
Qed.

Lemma no_newline_exp l : no_newline (fst (scan_exp l)).
Proof.
  destruct l as [|b l]; [apply no_newline_nil|]. unfold scan_exp. destruct (is_char "eE" b) eqn:Eb; [|apply no_newline_nil].
  assert (Hb : b <> Byte.x0a) by (by apply (no_newline_byte b (is_char "eE"))).
  assert (Hsign : forall sign l2, no_newline sign -> no_newline (fst (match span is_digit l2 with ([], _) => ([], b :: l) | (ds, r) => (b :: sign ++ ds, r) end))).
  { intros sign l2 Hsg. assert (Hs := no_newline_span l2). destruct (span is_digit l2) as [[|d ds] q]; [apply no_newline_nil|].
    apply no_newline_cons; [done|]. by apply no_newline_app. }
  destruct l as [|c l]; [apply no_newline_nil|]. destruct (is_char "+-" c) eqn:Ec.
  - apply Hsign, no_newline_cons; [by apply (no_newline_byte c (is_char "+-"))|apply no_newline_nil].
  - apply Hsign, no_newline_nil.
Qed.

(** A float literal is made of the characters of a number. *)
Lemma float_no_newline s : float_ok s -> no_newline (str_bytes s).
Proof.
  unfold float_ok, scan_number. generalize (str_bytes s) as l. intros l E.
  assert (Hsplit : exists sign l1, no_newline sign /\ match l with b :: l' => if byte_val b =? 45 then ([b], l') else ([], l) | [] => ([], []) end = (sign, l1)).
  { destruct l as [|b l']; [by exists [], []; split; [apply no_newline_nil|]|]. destruct (byte_val b =? 45) eqn:Eb.
    - exists [b], l'. split; [|done]. apply no_newline_cons; [by apply (no_newline_byte b (fun b => byte_val b =? 45))|apply no_newline_nil].
    - exists [], (b :: l'). split; [apply no_newline_nil|done]. }
  destruct Hsplit as (sign & l1 & Hsign & Es). rewrite Es in E. destruct (scan_int l1) as [[i l2]|] eqn:Ei; [|done].
  assert (Hf := no_newline_frac l2). destruct (scan_frac l2) as [f l3]. assert (He := no_newline_exp l3). destruct (scan_exp l3) as [e l4].
  injection E as <- _ _. repeat apply no_newline_app; try done. by eapply no_newline_int.
Qed.

Lemma json_no_newline v : json_ok false v -> no_newline (print false v).
Proof.
  intros Hok. induction v as [|b|n|s|s|l|l IH|d IH] using pyval_nested_ind; cbn [print].
  - by intros Hin%list_elem_of_In; vm_compute in Hin; intuition discriminate.
  - destruct b; intros Hin%list_elem_of_In; vm_compute in Hin; intuition discriminate.
  - apply no_newline_dec.
  - by apply float_no_newline.
  - apply no_newline_string.
  - done.
  - apply no_newline_cons; [done|]. apply no_newline_app; [|by apply no_newline_cons; [done|]; intros ?%elem_of_nil].
    apply no_newline_join. apply Forall_fmap, Forall_forall. intros v Hv. rewrite Forall_forall in IH. apply IH; [done|].
    cbn [json_ok] in Hok. apply Forall_id_map in Hok. rewrite Forall_forall in Hok. by apply Hok.
  - apply no_newline_cons; [done|]. apply no_newline_app; [|by apply no_newline_cons; [done|]; intros ?%elem_of_nil].
    apply no_newline_join. apply Forall_fmap, Forall_forall. intros kv Hkv. rewrite Forall_forall in IH. cbn [json_ok] in Hok.
    destruct Hok as [_ Hok]. apply Forall_id_map in Hok. rewrite Forall_forall in Hok. cbv beta. apply no_newline_app; [apply no_newline_string|].
    apply no_newline_cons; [done|]. apply IH; [done|]. by apply Hok.
Qed.


Lemma dumps_no_newline v line : json_ok false v -> dumps false v = Ok line -> no_newline (str_bytes line).
Proof.
  intros Hok Hd. unfold dumps in Hd. rewrite (json_ok_serialisable _ _ Hok) in Hd.
  assert (line = bytes_str (print false v)) as -> by congruence. rewrite str_bytes_str. by apply json_no_newline.
Qed.

(** whatever is logged becomes one line: the text of an event has no newline,
    so no logged value can forge another event, and reading the line back gives
    the event with every value that was logged. *)
Theorem log_lines_whole (timestamp : string) (r : LogRecord) :
  json_ok false (VDict (event timestamp r)) ->
  exists line, format timestamp r = Ok line /\ no_newline (str_bytes line) /\ loads line = Ok (VDict (event timestamp r)).
Proof.
  intros Hok. destruct (loads_dumps false _ Hok) as (line & Hd & Hl). exists line. split; [exact Hd|]. split; [|exact Hl]. by apply (dumps_no_newline _ _ Hok).
Qed.

Module Demo.
Definition record : LogRecord :=
  {| levelname := "INFO"; name := "qapp"; message := bytes_str (str_bytes "peer said" ++ Byte.x0a :: str_bytes "all well");
     attributes := [("event", VStr "rpc_request"); ("message_id", VInt 7); ("reason", VNone); ("user", VStr "alice")] |}.

Example only_known_attributes : extras record = [("event", VStr "rpc_request"); ("message_id", VInt 7)].
Proof. reflexivity. Qed.

Lemma log_lines_whole_witness : exists line, format "2024-01-01T00:00:00+00:00" record = Ok line /\ no_newline (str_bytes line).
Proof.
  destruct (log_lines_whole "2024-01-01T00:00:00+00:00" record) as (line & H1 & H2 & _); [|exists line; split; [exact H1|exact H2]].
  split; [apply (bool_decide_unpack _); vm_compute; exact I|].
  repeat (apply List.Forall_cons; [split; [intros [=]|]|]); try apply List.Forall_nil; try (intros [=]); try exact I; vm_compute; lia.
Defined.
End Demo.

End Logging.
